(** * RealTimeFileStreaming: the read stream and the file I/O server

    A shallow embedding of [src/FileIoReadStream.cpp] (the client side:
    [FileIoStreamWrapper<ReadBlockRequestBehavior>]) and of
    [src/FileIoServer.cpp] (the server's request handlers), and the
    properties of the stream state machine, the prefetch queue and the
    cleanup protocol that are proved about them.

    Conventions of the embedding.
    - A [FileIoRequest*] is an address ([nat]) into the node store
      [requests]; a null pointer is [None].  Every request node is one
      record in one store, so a node that is linked in the prefetch queue
      and travels through the mailbox and the result queue is one shared
      object, as in the source.
    - [size_t] is a 64-bit unsigned integer: a [Z] reduced by [size_wrap]
      after every arithmetic operation.  [long] is a 32-bit signed integer,
      as on the Windows target of the sources.
    - [assert] is compiled out (NDEBUG): an assertion changes no state.  The
      conditions of the assertions that are studied are separate boolean
      functions.
    - A function returns [None] where the source dereferences a null
      pointer or copies out of the bounds of a buffer.  A loop of the source
      is a recursion on a count of turns computed from the state; the counts
      are proved to be enough on every state a stream can reach, so no
      result is lost to them.
    - One call of a stream operation and the handling of one request by the
      server are atomic steps. *)

From Stdlib Require Import ZArith Lia List.
From stdpp Require Import base option list gmap relations.

Local Open Scope Z_scope.

(** ** Machine integers *)

Definition SIZE_MODULUS : Z := 2 ^ 64.

(** The value of a [size_t] expression: reduction modulo [2^64]. *)
Definition size_wrap (z : Z) : Z := z mod SIZE_MODULUS.

(** [(size_t)-1], the sentinel of [setDiscarded]. *)
Definition SIZE_MAX : Z := size_wrap (-1).

(** Status codes ([<errno.h>], and NOERROR of [<Windows.h>]). *)
Definition NOERROR : Z := 0.
Definition EIO : Z := 5.
Definition EBADF : Z := 9.
Definition ENOMEM : Z := 12.

(** ** Request nodes *)

(** The values of the [requestType] slot.  The slot is an [int] that holds,
    by turns, a request kind of [FileIoRequest.h], a block state
    ([BlockRequestBehavior::BlockState], whose PENDING is READ_BLOCK itself)
    and, in a stream's root node, the stream state of [FileIoReadStream.h].
    The headers are not part of the sources; the numbering is left abstract
    and only the identifications the source makes are kept. *)
Inductive RequestType : Type :=
  | OPEN_FILE
  | CLOSE_FILE
  | READ_BLOCK
  | RELEASE_READ_BLOCK
  | ALLOCATE_WRITE_BLOCK
  | COMMIT_MODIFIED_WRITE_BLOCK
  | RELEASE_UNMODIFIED_WRITE_BLOCK
  | CLEANUP_RESULT_QUEUE
  | RESULT_QUEUE_IS_AWAITING_CLEANUP_
  | BLOCK_STATE_READY
  | BLOCK_STATE_MODIFIED
  | BLOCK_STATE_ERROR
  | STREAM_STATE_OPENING
  | STREAM_STATE_OPEN_IDLE
  | STREAM_STATE_OPEN_BUFFERING
  | STREAM_STATE_OPEN_STREAMING
  | STREAM_STATE_OPEN_EOF
  | STREAM_STATE_ERROR.

Global Instance RequestType_eq_dec : EqDecision RequestType.
Proof. solve_decision. Defined.

Definition BLOCK_STATE_PENDING : RequestType := READ_BLOCK.

Inductive OpenMode : Type :=
  | READ_ONLY_OPEN_MODE
  | READ_WRITE_OVERWRITE_OPEN_MODE.

(** Modelled from the spec: [QwSPSCUnorderedResultQueue.h] is not part of
    the sources.  Section 4.3 gives the queue's contract: [push], [pop] and a
    count of expected results that the client increments when it sends a
    request and that [pop] decrements when it returns a node.  No order of
    delivery is promised; [pop] returns the first node of [rq_nodes], and the
    order in which replies are pushed is chosen by the environment. *)
Record result_queue_t : Type := ResultQueue {
  rq_nodes : list nat;
  rq_expectedResultCount : Z
}.

Definition rq_init : result_queue_t := ResultQueue [] 0.

Definition rq_push (n : nat) (q : result_queue_t) : result_queue_t :=
  ResultQueue (rq_nodes q ++ [n]) (rq_expectedResultCount q).

Definition rq_pop (q : result_queue_t) : option (nat * result_queue_t) :=
  match rq_nodes q with
  | [] => None
  | n :: rest =>
      Some (n, ResultQueue rest (size_wrap (rq_expectedResultCount q - 1)))
  end.

Definition rq_incrementExpectedResultCount (q : result_queue_t) : result_queue_t :=
  ResultQueue (rq_nodes q) (size_wrap (rq_expectedResultCount q + 1)).

(** [struct FileIoRequest].  The payload union ([openFile], [closeFile],
    [readBlock], [releaseReadBlock], [resultQueue]) is flattened: members
    that carry the same datum under the same name in several alternatives
    ([fileHandle], [dataBlock], the back pointer [resultQueue]) are one
    field, so the copies made by the transform functions are the identity. *)
Record FileIoRequest : Type := mkFileIoRequest {
  links_transit : option nat;    (* links_[TRANSIT_NEXT_LINK_INDEX] *)
  links_client : option nat;     (* links_[CLIENT_NEXT_LINK_INDEX] *)
  requestType : RequestType;
  resultStatus : Z;
  clientInt : Z;
  path : option nat;             (* openFile.path *)
  openMode : OpenMode;           (* openFile.openMode *)
  fileHandle : option nat;       (* FileRecord*, IO_INVALID_FILE_HANDLE = 0 *)
  filePosition : Z;              (* readBlock.filePosition *)
  dataBlock : option nat;        (* DataBlock* *)
  isAtEof : bool;                (* readBlock.isAtEof *)
  resultQueuePtr : option nat;   (* openFile.resultQueue, readBlock.resultQueue *)
  resultQueue : result_queue_t   (* the queue embedded in a root node *)
}.

Definition blank_request : FileIoRequest :=
  mkFileIoRequest None None OPEN_FILE 0 0 None READ_ONLY_OPEN_MODE None 0 None
    false None rq_init.

Global Instance FileIoRequest_inhabited : Inhabited FileIoRequest :=
  populate blank_request.

Definition set_links_transit (v : option nat) (r : FileIoRequest) : FileIoRequest :=
  mkFileIoRequest v (links_client r) (requestType r) (resultStatus r)
    (clientInt r) (path r) (openMode r) (fileHandle r) (filePosition r)
    (dataBlock r) (isAtEof r) (resultQueuePtr r) (resultQueue r).

Definition set_links_client (v : option nat) (r : FileIoRequest) : FileIoRequest :=
  mkFileIoRequest (links_transit r) v (requestType r) (resultStatus r)
    (clientInt r) (path r) (openMode r) (fileHandle r) (filePosition r)
    (dataBlock r) (isAtEof r) (resultQueuePtr r) (resultQueue r).

Definition set_requestType (v : RequestType) (r : FileIoRequest) : FileIoRequest :=
  mkFileIoRequest (links_transit r) (links_client r) v (resultStatus r)
    (clientInt r) (path r) (openMode r) (fileHandle r) (filePosition r)
    (dataBlock r) (isAtEof r) (resultQueuePtr r) (resultQueue r).

Definition set_resultStatus (v : Z) (r : FileIoRequest) : FileIoRequest :=
  mkFileIoRequest (links_transit r) (links_client r) (requestType r) v
    (clientInt r) (path r) (openMode r) (fileHandle r) (filePosition r)
    (dataBlock r) (isAtEof r) (resultQueuePtr r) (resultQueue r).

Definition set_clientInt (v : Z) (r : FileIoRequest) : FileIoRequest :=
  mkFileIoRequest (links_transit r) (links_client r) (requestType r)
    (resultStatus r) v (path r) (openMode r) (fileHandle r) (filePosition r)
    (dataBlock r) (isAtEof r) (resultQueuePtr r) (resultQueue r).

Definition set_path (v : option nat) (r : FileIoRequest) : FileIoRequest :=
  mkFileIoRequest (links_transit r) (links_client r) (requestType r)
    (resultStatus r) (clientInt r) v (openMode r) (fileHandle r)
    (filePosition r) (dataBlock r) (isAtEof r) (resultQueuePtr r)
    (resultQueue r).

Definition set_openMode (v : OpenMode) (r : FileIoRequest) : FileIoRequest :=
  mkFileIoRequest (links_transit r) (links_client r) (requestType r)
    (resultStatus r) (clientInt r) (path r) v (fileHandle r) (filePosition r)
    (dataBlock r) (isAtEof r) (resultQueuePtr r) (resultQueue r).

Definition set_fileHandle (v : option nat) (r : FileIoRequest) : FileIoRequest :=
  mkFileIoRequest (links_transit r) (links_client r) (requestType r)
    (resultStatus r) (clientInt r) (path r) (openMode r) v (filePosition r)
    (dataBlock r) (isAtEof r) (resultQueuePtr r) (resultQueue r).

Definition set_filePosition (v : Z) (r : FileIoRequest) : FileIoRequest :=
  mkFileIoRequest (links_transit r) (links_client r) (requestType r)
    (resultStatus r) (clientInt r) (path r) (openMode r) (fileHandle r) v
    (dataBlock r) (isAtEof r) (resultQueuePtr r) (resultQueue r).

Definition set_dataBlock (v : option nat) (r : FileIoRequest) : FileIoRequest :=
  mkFileIoRequest (links_transit r) (links_client r) (requestType r)
    (resultStatus r) (clientInt r) (path r) (openMode r) (fileHandle r)
    (filePosition r) v (isAtEof r) (resultQueuePtr r) (resultQueue r).

Definition set_isAtEof (v : bool) (r : FileIoRequest) : FileIoRequest :=
  mkFileIoRequest (links_transit r) (links_client r) (requestType r)
    (resultStatus r) (clientInt r) (path r) (openMode r) (fileHandle r)
    (filePosition r) (dataBlock r) v (resultQueuePtr r) (resultQueue r).

Definition set_resultQueuePtr (v : option nat) (r : FileIoRequest) : FileIoRequest :=
  mkFileIoRequest (links_transit r) (links_client r) (requestType r)
    (resultStatus r) (clientInt r) (path r) (openMode r) (fileHandle r)
    (filePosition r) (dataBlock r) (isAtEof r) v (resultQueue r).

Definition set_resultQueue (v : result_queue_t) (r : FileIoRequest) : FileIoRequest :=
  mkFileIoRequest (links_transit r) (links_client r) (requestType r)
    (resultStatus r) (clientInt r) (path r) (openMode r) (fileHandle r)
    (filePosition r) (dataBlock r) (isAtEof r) (resultQueuePtr r) v.

(** ** Data blocks and file records *)

(** A byte of a buffer: [Some b] once written, [None] while its content is
    indeterminate ([new int8_t[n]] does not initialise). *)
Definition byte_cell : Type := option Z.

(** [struct DataBlock] ([DataBlock.h], not part of the sources; the fields
    are the ones the two source files use). *)
Record DataBlock : Type := mkDataBlock {
  capacityBytes : Z;
  validCountBytes : Z;
  data : list byte_cell
}.

Global Instance DataBlock_inhabited : Inhabited DataBlock :=
  populate (mkDataBlock 0 0 []).

(** [struct FileRecord] of [FileIoServer.cpp].  [fp] stands for the open
    [FILE]: the bytes of the file it reads. *)
Record FileRecord : Type := mkFileRecord {
  fp : list Z;
  dependentClientCount : Z
}.

Global Instance FileRecord_inhabited : Inhabited FileRecord :=
  populate (mkFileRecord [] 0).

(** ** The shared world *)

(** Everything the client and the server share: the array of request nodes
    behind the pool, the pool's free stack, the server's mailbox, and the
    C++ heap objects the server allocates ([DataBlock], [FileRecord]), each
    with the address its next [new] returns. *)
Record World : Type := mkWorld {
  requests : gmap nat FileIoRequest;
  globalRequestPool_ : list nat;
  serverMailboxQueue_ : list nat;
  dataBlocks : gmap nat DataBlock;
  nextDataBlock : nat;
  fileRecords : gmap nat FileRecord;
  nextFileRecord : nat
}.

Definition set_requests (v : gmap nat FileIoRequest) (w : World) : World :=
  mkWorld v (globalRequestPool_ w) (serverMailboxQueue_ w) (dataBlocks w)
    (nextDataBlock w) (fileRecords w) (nextFileRecord w).

Definition set_pool (v : list nat) (w : World) : World :=
  mkWorld (requests w) v (serverMailboxQueue_ w) (dataBlocks w)
    (nextDataBlock w) (fileRecords w) (nextFileRecord w).

Definition set_mailbox (v : list nat) (w : World) : World :=
  mkWorld (requests w) (globalRequestPool_ w) v (dataBlocks w)
    (nextDataBlock w) (fileRecords w) (nextFileRecord w).

Definition set_dataBlocks (v : gmap nat DataBlock) (n : nat) (w : World) : World :=
  mkWorld (requests w) (globalRequestPool_ w) (serverMailboxQueue_ w) v n
    (fileRecords w) (nextFileRecord w).

Definition set_fileRecords (v : gmap nat FileRecord) (n : nat) (w : World) : World :=
  mkWorld (requests w) (globalRequestPool_ w) (serverMailboxQueue_ w)
    (dataBlocks w) (nextDataBlock w) v n.

(** [*r] and an assignment through [r]. *)
Definition req (w : World) (r : nat) : FileIoRequest := requests w !!! r.

Definition upd_req (r : nat) (f : FileIoRequest -> FileIoRequest) (w : World) : World :=
  set_requests (<[r := f (req w r)]> (requests w)) w.

(** Modelled from the spec: [QwNodePool.h] is not part of the sources.
    Section 4.1: a fixed-capacity LIFO of pre-allocated nodes; [allocate]
    returns the top or null when the pool is exhausted, [deallocate]
    pushes. *)
Definition allocFileIoRequest (w : World) : option nat * World :=
  match globalRequestPool_ w with
  | [] => (None, w)
  | r :: rest => (Some r, set_pool rest w)
  end.

Definition freeFileIoRequest (r : nat) (w : World) : World :=
  set_pool (r :: globalRequestPool_ w) w.

(** Modelled from the spec: [QwMPSCFifoQueue.h] is not part of the sources.
    Section 4.2: the mailbox delivers in arrival order.  The wake-up event
    has no effect on the state. *)
Definition sendFileIoRequestToServer (r : nat) (w : World) : World :=
  set_mailbox (serverMailboxQueue_ w ++ [r]) w.

(** [startFileIoServer(fileIoRequestCount)]: a pool of nodes [0 .. n-1]. *)
Definition startFileIoServer (fileIoRequestCount : nat) : World :=
  mkWorld (list_to_map ((fun i => (i, blank_request)) <$> seq 0 fileIoRequestCount))
    (seq 0 fileIoRequestCount) [] ∅ 0 ∅ 0.

(** ** The server: [FileIoServer.cpp] *)

(** What the operating system and the C++ allocator answer while one request
    is handled.  The handlers take these answers as an input, so a property
    proved for every [OsOutcome] holds whatever the file system does. *)
Record OsOutcome : Type := mkOsOutcome {
  os_new_ok : bool;              (* [new] returned an object *)
  os_fopen : option (list Z);    (* [fopen]: the bytes of the file, or failure *)
  os_fseek : Z;                  (* the value [fseek] returns *)
  os_fread : list Z;             (* the bytes [fread] delivers *)
  os_feof : bool;                (* [feof(fp) != 0] after the [fread] *)
  os_errno : Z
}.

Section Server.

(** [IO_DATA_BLOCK_DATA_CAPACITY_BYTES] ([DataBlock.h], not part of the
    sources): the compile-time size of a data block. *)
Variable IO_DATA_BLOCK_DATA_CAPACITY_BYTES : Z.

(** [allocDataBlock].  [os_new_ok os = false] stands for an allocator that
    returns null, the case the test [if (dataBlock)] of
    [handleReadBlockRequest] provides for.  In the source [allocDataBlock]
    asserts the pointer and writes through it, so it does not return null
    itself; on a file system of regular files ([regular_os]) the allocator
    returns an object. *)
Definition allocDataBlock (os : OsOutcome) (w : World) : option nat * World :=
  if os_new_ok os then
    let b := nextDataBlock w in
    (Some b,
     set_dataBlocks
       (<[b := mkDataBlock IO_DATA_BLOCK_DATA_CAPACITY_BYTES 0
                (replicate (Z.to_nat IO_DATA_BLOCK_DATA_CAPACITY_BYTES) None)]>
          (dataBlocks w))
       (S b) w)
  else (None, w).

Definition freeDataBlock (b : nat) (w : World) : World :=
  set_dataBlocks (delete b (dataBlocks w)) (nextDataBlock w) w.

Definition releaseFileRecordClientRef (fileRecord : nat) (w : World) : option World :=
  rec ← fileRecords w !! fileRecord;
  let count := dependentClientCount rec - 1 in
  if bool_decide (count = 0) then
    Some (set_fileRecords (delete fileRecord (fileRecords w)) (nextFileRecord w) w)
  else
    Some (set_fileRecords
            (<[fileRecord := mkFileRecord (fp rec) count]> (fileRecords w))
            (nextFileRecord w) w).

Definition handleCloseFileRequest (r : nat) (w : World) : option World :=
  fileRecord ← fileHandle (req w r);
  w1 ← releaseFileRecordClientRef fileRecord w;
  Some (freeFileIoRequest r w1).

Definition handleReleaseReadBlockRequest (r : nat) (w : World) : option World :=
  b ← dataBlock (req w r);
  let w1 := freeDataBlock b w in
  fileRecord ← fileHandle (req w1 r);
  w2 ← releaseFileRecordClientRef fileRecord w1;
  Some (freeFileIoRequest r w2).

Definition handleReleaseUnmodifiedWriteBlockRequest (r : nat) (w : World) : option World :=
  b ← dataBlock (req w r);
  let w1 := freeDataBlock b w in
  fileRecord ← fileHandle (req w1 r);
  w2 ← releaseFileRecordClientRef fileRecord w1;
  Some (freeFileIoRequest r w2).

Definition cleanupOneRequestResult (r : nat) (w : World) : option World :=
  match requestType (req w r) with
  | OPEN_FILE =>
      let w1 := upd_req r (set_path None) w in
      if bool_decide (fileHandle (req w1 r) ≠ None) then
        handleCloseFileRequest r (upd_req r (set_requestType CLOSE_FILE) w1)
      else Some (freeFileIoRequest r w1)
  | READ_BLOCK =>
      if bool_decide (dataBlock (req w r) ≠ None) then
        handleReleaseReadBlockRequest r
          (upd_req r (set_requestType RELEASE_READ_BLOCK) w)
      else Some (freeFileIoRequest r w)
  | ALLOCATE_WRITE_BLOCK =>
      if bool_decide (dataBlock (req w r) ≠ None) then
        handleReleaseUnmodifiedWriteBlockRequest r
          (upd_req r (set_requestType RELEASE_UNMODIFIED_WRITE_BLOCK) w)
      else Some (freeFileIoRequest r w)
  | _ => Some w
  end.

Definition completeRequestToClientResultQueue
    (clientResultQueueContainer r : nat) (w : World) : option World :=
  let resultQueueIsAwaitingCleanup :=
    bool_decide (requestType (req w clientResultQueueContainer)
                 = RESULT_QUEUE_IS_AWAITING_CLEANUP_) in
  if resultQueueIsAwaitingCleanup then
    w1 ← cleanupOneRequestResult r w;
    if bool_decide
         (rq_expectedResultCount (resultQueue (req w1 clientResultQueueContainer)) = 0)
    then Some (freeFileIoRequest clientResultQueueContainer w1)
    else Some w1
  else
    Some (upd_req clientResultQueueContainer
            (fun c => set_resultQueue (rq_push r (resultQueue c)) c) w).

Definition handleOpenFileRequest (os : OsOutcome) (r : nat) (w : World) : option World :=
  let w1 :=
    if os_new_ok os then
      match os_fopen os with
      | Some bytes =>
          let fileRecord := nextFileRecord w in
          upd_req r (fun n => set_resultStatus NOERROR (set_fileHandle (Some fileRecord) n))
            (set_fileRecords (<[fileRecord := mkFileRecord bytes 1]> (fileRecords w))
               (S fileRecord) w)
      | None =>
          upd_req r
            (fun n =>
               set_resultStatus
                 (if bool_decide (os_errno os = NOERROR) then EIO else os_errno os)
                 (set_fileHandle None n)) w
      end
    else upd_req r (fun n => set_resultStatus ENOMEM (set_fileHandle None n)) w in
  c ← resultQueuePtr (req w1 r);
  completeRequestToClientResultQueue c r w1.

(** The bytes [fread(data, 1, capacityBytes, fp)] stores: never more than
    the capacity of the block. *)
Definition fread_bytes (os : OsOutcome) : list Z :=
  take (Z.to_nat IO_DATA_BLOCK_DATA_CAPACITY_BYTES) (os_fread os).

(** The block after the [fread]: the bytes read, then the rest of the
    buffer, still indeterminate. *)
Definition fread_into (os : OsOutcome) (b : DataBlock) : DataBlock :=
  let bytes := fread_bytes os in
  mkDataBlock (capacityBytes b) (Z.of_nat (length bytes))
    ((Some <$> bytes) ++ drop (length bytes) (data b)).

Definition os_error (os : OsOutcome) : Z :=
  if bool_decide (os_errno os = NOERROR) then EIO else os_errno os.

(** The body of [handleReadBlockRequest] up to and including the update of
    [dependentClientCount]: everything before the reply is sent. *)
Definition handleReadBlockRequest_io (os : OsOutcome) (r : nat) (w : World) : option World :=
  let w1 :=
    match fileHandle (req w r) with
    | Some fileRecord =>
        match allocDataBlock os w with
        | (Some b, wa) =>
            if bool_decide (os_fseek os ≠ 0) then
              freeDataBlock b
                (upd_req r (fun n => set_isAtEof false (set_dataBlock None
                                       (set_resultStatus (os_error os) n))) wa)
            else
              let wr :=
                set_dataBlocks (<[b := fread_into os (dataBlocks wa !!! b)]> (dataBlocks wa))
                  (nextDataBlock wa) wa in
              let blk := dataBlocks wr !!! b in
              if bool_decide (validCountBytes blk = capacityBytes blk) then
                upd_req r (fun n => set_isAtEof false (set_dataBlock (Some b)
                                      (set_resultStatus NOERROR n))) wr
              else if os_feof os then
                upd_req r (fun n => set_isAtEof true (set_dataBlock (Some b)
                                      (set_resultStatus NOERROR n))) wr
              else
                freeDataBlock b
                  (upd_req r (fun n => set_isAtEof false (set_dataBlock None
                                         (set_resultStatus (os_error os) n))) wr)
        | (None, wa) => upd_req r (set_resultStatus ENOMEM) wa
        end
    | None => upd_req r (set_resultStatus EBADF) w
    end in
  if bool_decide (dataBlock (req w1 r) ≠ None) then
    fileRecord ← fileHandle (req w r);
    rec ← fileRecords w1 !! fileRecord;
    Some (set_fileRecords
            (<[fileRecord := mkFileRecord (fp rec) (dependentClientCount rec + 1)]>
               (fileRecords w1))
            (nextFileRecord w1) w1)
  else Some w1.

Definition handleReadBlockRequest (os : OsOutcome) (r : nat) (w : World) : option World :=
  w1 ← handleReadBlockRequest_io os r w;
  c ← resultQueuePtr (req w1 r);
  completeRequestToClientResultQueue c r w1.

(** The loop [while (r = resultQueue.pop()) cleanupOneRequestResult(r)]. *)
Fixpoint cleanupQueuedResults (fuel : nat) (c : nat) (w : World) : option World :=
  match rq_pop (resultQueue (req w c)) with
  | None => Some w
  | Some (r, q) =>
      match fuel with
      | O => None
      | S fuel' =>
          w1 ← cleanupOneRequestResult r (upd_req c (set_resultQueue q) w);
          cleanupQueuedResults fuel' c w1
      end
  end.

Definition handleCleanupResultQueueRequest
    (clientResultQueueContainer : nat) (w : World) : option World :=
  let c := clientResultQueueContainer in
  if bool_decide (rq_expectedResultCount (resultQueue (req w c)) > 0) then
    w1 ← cleanupQueuedResults (length (rq_nodes (resultQueue (req w c)))) c w;
    if bool_decide (rq_expectedResultCount (resultQueue (req w1 c)) = 0) then
      Some (freeFileIoRequest c w1)
    else
      Some (upd_req c (set_requestType RESULT_QUEUE_IS_AWAITING_CLEANUP_) w1)
  else Some (freeFileIoRequest c w).

(** One turn of the loop of [handleAllPendingRequests]: pop a request from
    the mailbox and dispatch on its type.  A node whose type is none of the
    cases of the [switch] is dropped, as in the source.  The handlers of the
    write stream's requests ([ALLOCATE_WRITE_BLOCK],
    [COMMIT_MODIFIED_WRITE_BLOCK]) are outside this development: the step is
    undefined ([None]) on them; a read stream never sends them. *)
Definition handleOneRequest (os : OsOutcome) (w : World) : option World :=
  match serverMailboxQueue_ w with
  | [] => Some w
  | r :: rest =>
      let w1 := set_mailbox rest w in
      match requestType (req w1 r) with
      | OPEN_FILE => handleOpenFileRequest os r w1
      | CLOSE_FILE => handleCloseFileRequest r w1
      | READ_BLOCK => handleReadBlockRequest os r w1
      | RELEASE_READ_BLOCK => handleReleaseReadBlockRequest r w1
      | RELEASE_UNMODIFIED_WRITE_BLOCK => handleReleaseUnmodifiedWriteBlockRequest r w1
      | CLEANUP_RESULT_QUEUE => handleCleanupResultQueueRequest r w1
      | ALLOCATE_WRITE_BLOCK | COMMIT_MODIFIED_WRITE_BLOCK => None
      | _ => Some w1
      end
  end.

End Server.

(** ** The client: [FileIoReadStream.cpp] *)

(** *** [BlockRequestBehavior] and [ReadBlockRequestBehavior] *)

Definition isAcquireBlockRequest (r : FileIoRequest) : bool :=
  bool_decide (requestType r = READ_BLOCK).

Definition hasDataBlock (r : FileIoRequest) : bool :=
  bool_decide (dataBlock r ≠ None).

Definition isDiscarded (r : FileIoRequest) : bool :=
  bool_decide (clientInt r = SIZE_MAX).

Definition setDiscarded (r : FileIoRequest) : FileIoRequest :=
  set_clientInt SIZE_MAX r.

Definition initAcquire (fileHandle_ : option nat) (pos : Z) (resultQueueReq : nat)
    (blockReq : FileIoRequest) : FileIoRequest :=
  set_resultQueuePtr (Some resultQueueReq)
    (set_dataBlock None
       (set_filePosition pos
          (set_fileHandle fileHandle_
             (set_requestType READ_BLOCK
                (set_clientInt 0
                   (set_resultStatus 0
                      (set_links_client None blockReq))))))).

Definition transformToReleaseUnmodified (blockReq : FileIoRequest) : FileIoRequest :=
  set_requestType RELEASE_READ_BLOCK blockReq.

(** [assert(false)]: read blocks are never committed. *)
Definition transformToCommitModified (blockReq : FileIoRequest) : FileIoRequest :=
  blockReq.

Inductive CopyStatus : Type :=
  | CAN_CONTINUE
  | AT_BLOCK_END
  | AT_FINAL_BLOCK_END.

(** [copyBlockData]: the status, the value stored in [*bytesCopiedResult],
    the bytes [memcpy] writes at [userItemsPtr], and the world with the
    block's cursor advanced.  Undefined when the block pointer is null or
    dangling, or when [memcpy] would read past the end of the buffer. *)
Definition copyBlockData (blockReq : nat) (maxBytesToCopy itemSize : Z) (w : World)
    : option (CopyStatus * Z * list byte_cell * World) :=
  b ← dataBlock (req w blockReq);
  blk ← dataBlocks w !! b;
  let blockBytesCopiedSoFar := clientInt (req w blockReq) in
  let bytesRemainingInBlock := size_wrap (validCountBytes blk - blockBytesCopiedSoFar) in
  let N := Z.min bytesRemainingInBlock maxBytesToCopy in
  if bool_decide (blockBytesCopiedSoFar + N <= Z.of_nat (length (data blk))) then
    let copied := take (Z.to_nat N) (drop (Z.to_nat blockBytesCopiedSoFar) (data blk)) in
    let w1 := upd_req blockReq (set_clientInt (size_wrap (blockBytesCopiedSoFar + N))) w in
    let bytesRemainingInBlock' := size_wrap (bytesRemainingInBlock - N) in
    let status :=
      if bool_decide (bytesRemainingInBlock' = 0) then
        if isAtEof (req w1 blockReq) then AT_FINAL_BLOCK_END else AT_BLOCK_END
      else CAN_CONTINUE in
    Some (status, N, copied, w1)
  else None.

(** *** [FileIoStreamWrapper]

    A stream is the address [rq] of its root node ([resultQueueReq_]); the
    fields of the stream are slots of that node and of the OPEN_FILE node
    linked from it, read through the aliases below. *)

Definition openFileReq (w : World) (rq : nat) : option nat := links_transit (req w rq).
Definition state_ (w : World) (rq : nat) : RequestType := requestType (req w rq).
Definition error_ (w : World) (rq : nat) : Z := resultStatus (req w rq).
Definition prefetchQueueHead_ (w : World) (rq : nat) : option nat := links_client (req w rq).
Definition waitingForBlocksCount_ (w : World) (rq : nat) : Z := clientInt (req w rq).

(** [prefetchQueueTail_()] is [openFileReq()->links_[CLIENT_NEXT_LINK_INDEX]]:
    undefined without an OPEN_FILE node. *)
Definition prefetchQueueTail_ (w : World) (rq : nat) : option (option nat) :=
  o ← openFileReq w rq; Some (links_client (req w o)).

Definition set_state_ (st : RequestType) (rq : nat) (w : World) : World :=
  upd_req rq (set_requestType st) w.

Definition prefetchQueue_pop_front (rq : nat) (w : World) : option World :=
  x ← prefetchQueueHead_ w rq;
  let w1 := upd_req rq (set_links_client (links_client (req w x))) w in
  Some (upd_req x (set_links_client None) w1).

Definition prefetchQueue_push_back (blockReq : nat) (rq : nat) (w : World) : option World :=
  o ← openFileReq w rq;
  t ← links_client (req w o);
  let w1 := upd_req t (set_links_client (Some blockReq)) w in
  Some (upd_req o (set_links_client (Some blockReq)) w1).

Definition sendBlockRequestToServer (blockReq : nat) (rq : nat) (w : World) : World :=
  let w1 := sendFileIoRequestToServer blockReq w in
  let w2 :=
    upd_req rq
      (fun n => set_resultQueue (rq_incrementExpectedResultCount (resultQueue n)) n) w1 in
  upd_req rq (fun n => set_clientInt (size_wrap (clientInt n + 1)) n) w2.

Definition flushBlock (blockReq : nat) (rq : nat) (w : World) : World :=
  match requestType (req w blockReq) with
  | READ_BLOCK (* BLOCK_STATE_PENDING *) =>
      let w1 := upd_req blockReq setDiscarded w in
      upd_req rq (fun n => set_clientInt (size_wrap (clientInt n - 1)) n) w1
  | BLOCK_STATE_READY =>
      sendFileIoRequestToServer blockReq (upd_req blockReq transformToReleaseUnmodified w)
  | BLOCK_STATE_MODIFIED =>
      sendFileIoRequestToServer blockReq (upd_req blockReq transformToCommitModified w)
  | BLOCK_STATE_ERROR => freeFileIoRequest blockReq w
  | _ => w
  end.

(** The loop of [flushPrefetchQueue]. *)
Fixpoint flushPrefetchQueue_loop (fuel : nat) (rq : nat) (w : World) : option World :=
  match prefetchQueueHead_ w rq with
  | None => Some w
  | Some blockReq =>
      match fuel with
      | O => None
      | S fuel' =>
          w1 ← prefetchQueue_pop_front rq w;
          flushPrefetchQueue_loop fuel' rq (flushBlock blockReq rq w1)
      end
  end.

(** The queue is a list of distinct nodes of the store, so the loop ends
    within as many turns as the store has nodes. *)
Definition flushPrefetchQueue (rq : nat) (w : World) : option World :=
  w1 ← flushPrefetchQueue_loop (size (requests w)) rq w;
  o ← openFileReq w1 rq;
  Some (upd_req o (set_links_client None) w1).

(** [receiveOneBlock]: whether a reply was processed, and the world. *)
Definition receiveOneBlock (rq : nat) (w : World) : bool * World :=
  match rq_pop (resultQueue (req w rq)) with
  | Some (r, q) =>
      let w0 := upd_req rq (set_resultQueue q) w in
      if isDiscarded (req w0 r) then
        if bool_decide (resultStatus (req w0 r) = NOERROR) then
          (true, sendFileIoRequestToServer r (upd_req r transformToReleaseUnmodified w0))
        else (true, freeFileIoRequest r w0)
      else
        let w1 := upd_req rq (fun n => set_clientInt (size_wrap (clientInt n - 1)) n) w0 in
        let w2 :=
          if bool_decide (waitingForBlocksCount_ w1 rq = 0)
          then set_state_ STREAM_STATE_OPEN_STREAMING rq w1 else w1 in
        if bool_decide (resultStatus (req w2 r) = NOERROR) then
          (true, upd_req r (set_requestType BLOCK_STATE_READY) w2)
        else
          (true, upd_req r (set_requestType BLOCK_STATE_ERROR) w2)
  | None => (false, w)
  end.

(** [open]: the stream handle (null when the pool is exhausted) and the
    world. *)
Definition open (path_ : nat) (openMode_ : OpenMode) (w : World) : option nat * World :=
  match allocFileIoRequest w with
  | (None, w1) => (None, w1)
  | (Some resultQueueReq, w1) =>
      match allocFileIoRequest w1 with
      | (None, w2) => (None, freeFileIoRequest resultQueueReq w2)
      | (Some openFileReq_, w2) =>
          let w3 :=
            upd_req resultQueueReq
              (fun n =>
                 set_clientInt 0
                   (set_links_client None
                      (set_resultStatus 0
                         (set_requestType STREAM_STATE_OPENING
                            (set_links_transit (Some openFileReq_)
                               (set_resultQueue rq_init n)))))) w2 in
          let w4 := upd_req openFileReq_ (set_links_client None) w3 in
          let w5 :=
            upd_req openFileReq_
              (fun n =>
                 set_resultQueuePtr (Some resultQueueReq)
                   (set_fileHandle None
                      (set_openMode openMode_
                         (set_path (Some path_)
                            (set_requestType OPEN_FILE
                               (set_resultStatus 0 n)))))) w4 in
          let w6 := sendFileIoRequestToServer openFileReq_ w5 in
          (Some resultQueueReq,
           upd_req resultQueueReq
             (fun n => set_resultQueue (rq_incrementExpectedResultCount (resultQueue n)) n)
             w6)
      end
  end.

(** [close]: the handle is given up; only the world remains. *)
Definition close (rq : nat) (w : World) : option World :=
  if bool_decide (state_ w rq = STREAM_STATE_OPENING) then
    let w1 := upd_req rq (set_links_transit None) w in
    let w2 := upd_req rq (set_requestType CLEANUP_RESULT_QUEUE) w1 in
    Some (sendFileIoRequestToServer rq w2)
  else
    w1 ← flushPrefetchQueue rq w;
    openFileReq_ ← openFileReq w1 rq;
    let w2 := upd_req rq (set_links_transit None) w1 in
    let w3 :=
      if bool_decide (fileHandle (req w2 openFileReq_) ≠ None) then
        sendFileIoRequestToServer openFileReq_
          (upd_req openFileReq_ (set_requestType CLOSE_FILE) w2)
      else freeFileIoRequest openFileReq_ w2 in
    if bool_decide (rq_expectedResultCount (resultQueue (req w3 rq)) > 0) then
      Some (sendFileIoRequestToServer rq (upd_req rq (set_requestType CLEANUP_RESULT_QUEUE) w3))
    else Some (freeFileIoRequest rq w3).

Section Stream.

Variable IO_DATA_BLOCK_DATA_CAPACITY_BYTES : Z.

Definition roundDownToBlockSizeAlignedPosition (pos : Z) : Z :=
  let blockNumber := pos / IO_DATA_BLOCK_DATA_CAPACITY_BYTES in
  size_wrap (blockNumber * IO_DATA_BLOCK_DATA_CAPACITY_BYTES).

Definition initLinkAndSendSequentialBlockRequest (blockReq : nat) (rq : nat) (w : World)
    : option World :=
  o ← openFileReq w rq;
  t ← links_client (req w o);
  let w1 :=
    upd_req blockReq
      (initAcquire (fileHandle (req w o))
         (size_wrap (filePosition (req w t) + IO_DATA_BLOCK_DATA_CAPACITY_BYTES)) rq) w in
  w2 ← prefetchQueue_push_back blockReq rq w1;
  Some (sendBlockRequestToServer blockReq rq w2).

Definition prefetchQueueBlockCount : nat := 20.

(** The loop [for (i = 1; i < prefetchQueueBlockCount; ++i)] of [seek],
    with [n] turns left: the value [seek] returns, and the world. *)
Fixpoint seek_loop (n : nat) (rq : nat) (w : World) : option (Z * World) :=
  match n with
  | O => Some (0, set_state_ STREAM_STATE_OPEN_BUFFERING rq w)
  | S n' =>
      match allocFileIoRequest w with
      | (None, w1) => Some (-1, set_state_ STREAM_STATE_ERROR rq w1)
      | (Some readBlockReq, w1) =>
          w2 ← initLinkAndSendSequentialBlockRequest readBlockReq rq w1;
          seek_loop n' rq w2
      end
  end.

Definition seek (pos : Z) (rq : nat) (w : World) : option (Z * World) :=
  if bool_decide (state_ w rq = STREAM_STATE_OPENING)
     || bool_decide (state_ w rq = STREAM_STATE_ERROR)
  then Some (-1, w)
  else
    w1 ← flushPrefetchQueue rq w;
    let blockFilePositionBytes := roundDownToBlockSizeAlignedPosition pos in
    match allocFileIoRequest w1 with
    | (None, w2) => Some (-1, set_state_ STREAM_STATE_ERROR rq w2)
    | (Some firstBlockReq, w2) =>
        o ← openFileReq w2 rq;
        let w3 :=
          upd_req firstBlockReq
            (initAcquire (fileHandle (req w2 o)) blockFilePositionBytes rq) w2 in
        let w4 :=
          upd_req firstBlockReq
            (set_clientInt (size_wrap (pos - blockFilePositionBytes))) w3 in
        let w5 := upd_req rq (set_links_client (Some firstBlockReq)) w4 in
        o' ← openFileReq w5 rq;
        let w6 := upd_req o' (set_links_client (Some firstBlockReq)) w5 in
        let w7 := sendBlockRequestToServer firstBlockReq rq w6 in
        seek_loop (prefetchQueueBlockCount - 1) rq w7
    end.

(** [pollState]: the state it returns, and the world. *)
Definition pollState (rq : nat) (w : World) : RequestType * World :=
  let w' :=
    if bool_decide (rq_expectedResultCount (resultQueue (req w rq)) > 0) then
      if bool_decide (state_ w rq = STREAM_STATE_OPENING) then
        match rq_pop (resultQueue (req w rq)) with
        | Some (r, q) =>
            let w0 := upd_req rq (set_resultQueue q) w in
            let w1 := upd_req r (set_path None) w0 in
            if bool_decide (resultStatus (req w1 r) = NOERROR) then
              set_state_ STREAM_STATE_OPEN_IDLE rq w1
            else
              set_state_ STREAM_STATE_ERROR rq
                (upd_req rq (set_resultStatus (resultStatus (req w1 r))) w1)
        | None => w
        end
      else snd (receiveOneBlock rq w)
    else w in
  (state_ w' rq, w').

Definition getError (rq : nat) (w : World) : Z := error_ w rq.

(** The loop [while (receiveOneBlock()) ;] of the BUFFERING case. *)
Fixpoint receiveAllBlocks (fuel : nat) (rq : nat) (w : World) : option World :=
  match receiveOneBlock rq w with
  | (false, w1) => Some w1
  | (true, w1) =>
      match fuel with
      | O => None
      | S fuel' => receiveAllBlocks fuel' rq w1
      end
  end.

(** The loop that receives replies while the front block is pending. *)
Fixpoint receiveWhileFrontPending (fuel : nat) (frontBlockReq : nat) (rq : nat) (w : World)
    : option World :=
  if bool_decide (requestType (req w frontBlockReq) = BLOCK_STATE_PENDING) then
    match receiveOneBlock rq w with
    | (false, w1) => Some w1
    | (true, w1) =>
        match fuel with
        | O => None
        | S fuel' => receiveWhileFrontPending fuel' frontBlockReq rq w1
        end
    end
  else Some w.

(** Every reply that is received is popped from the result queue, so both
    loops end within as many turns as the queue holds nodes. *)
Definition resultQueueLength (rq : nat) (w : World) : nat :=
  length (rq_nodes (resultQueue (req w rq))).

(** The copy loop of the STREAMING case.  It returns the item count, the
    bytes written to [userItemsPtr] (appended to [written]) and the world. *)
Fixpoint read_loop (fuel : nat) (itemSize itemCount totalBytesToCopy bytesCopiedSoFar : Z)
    (written : list byte_cell) (rq : nat) (w : World)
    : option (Z * list byte_cell * World) :=
  if bool_decide (bytesCopiedSoFar < totalBytesToCopy) then
    match fuel with
    | O => None
    | S fuel' =>
        frontBlockReq ← prefetchQueueHead_ w rq;
        w1 ← receiveWhileFrontPending (resultQueueLength rq w) frontBlockReq rq w;
        if bool_decide (requestType (req w1 frontBlockReq) = BLOCK_STATE_READY) then
          let bytesRemainingToCopy := size_wrap (totalBytesToCopy - bytesCopiedSoFar) in
          '(copyStatus, bytesCopied, copied, w2) ←
            copyBlockData frontBlockReq bytesRemainingToCopy itemSize w1;
          let bytesCopiedSoFar' := size_wrap (bytesCopiedSoFar + bytesCopied) in
          let written' := written ++ copied in
          match copyStatus with
          | AT_BLOCK_END =>
              match allocFileIoRequest w2 with
              | (None, w3) =>
                  Some (bytesCopiedSoFar' / itemSize, written',
                        set_state_ STREAM_STATE_ERROR rq w3)
              | (Some readBlockReq, w3) =>
                  w4 ← initLinkAndSendSequentialBlockRequest readBlockReq rq w3;
                  w5 ← prefetchQueue_pop_front rq w4;
                  let w6 := flushBlock frontBlockReq rq w5 in
                  let w7 := snd (receiveOneBlock rq w6) in
                  read_loop fuel' itemSize itemCount totalBytesToCopy bytesCopiedSoFar'
                    written' rq w7
              end
          | AT_FINAL_BLOCK_END =>
              Some (bytesCopiedSoFar' / itemSize, written',
                    set_state_ STREAM_STATE_OPEN_EOF rq w2)
          | CAN_CONTINUE =>
              read_loop fuel' itemSize itemCount totalBytesToCopy bytesCopiedSoFar'
                written' rq w2
          end
        else
          let w2 :=
            if bool_decide (requestType (req w1 frontBlockReq) = BLOCK_STATE_ERROR)
            then set_state_ STREAM_STATE_ERROR rq w1
            else set_state_ STREAM_STATE_OPEN_BUFFERING rq w1 in
          Some (bytesCopiedSoFar / itemSize, written, w2)
    end
  else Some (itemCount, written, w).

(** A turn of the copy loop that does not return takes a READY block off
    the front of the queue or copies the last byte asked for; a block
    becomes READY only when a reply is popped. *)
Definition read_fuel (rq : nat) (w : World) : nat :=
  (size (requests w) + resultQueueLength rq w + 2)%nat.

Definition streaming_case (itemSize itemCount : Z) (rq : nat) (w : World)
    : option (Z * list byte_cell * World) :=
  read_loop (read_fuel rq w) itemSize itemCount (size_wrap (itemSize * itemCount)) 0 [] rq w.

(** [read_or_write] of a read stream, that is [FileIoReadStream_read]: the
    number of items returned, the bytes written to the destination, and the
    world. *)
Definition read_or_write (itemSize itemCount : Z) (rq : nat) (w : World)
    : option (Z * list byte_cell * World) :=
  let w0 := snd (pollState rq w) in
  match state_ w0 rq with
  | STREAM_STATE_OPENING | STREAM_STATE_OPEN_IDLE
  | STREAM_STATE_OPEN_EOF | STREAM_STATE_ERROR => Some (0, [], w0)
  | STREAM_STATE_OPEN_BUFFERING =>
      w1 ← receiveAllBlocks (resultQueueLength rq w0) rq w0;
      if bool_decide (state_ w1 rq ≠ STREAM_STATE_OPEN_STREAMING) then Some (0, [], w1)
      else streaming_case itemSize itemCount rq w1
  | STREAM_STATE_OPEN_STREAMING => streaming_case itemSize itemCount rq w0
  | _ => Some (0, [], w0)
  end.

End Stream.

(** ** A file system of regular files *)

(** [long] on the target.  The server is written against the Windows API
    ([CreateEvent], [_beginthreadex]), where [long] has 32 bits. *)
Definition LONG_MAX : Z := 2 ^ 31 - 1.

(** The [long offset] that [fseek] receives when it is passed a file
    position of type [size_t]: the position reduced modulo [2^32] to the
    range of [long]. *)
Definition to_long (z : Z) : Z :=
  let m := z mod 2 ^ 32 in
  if bool_decide (m <= LONG_MAX) then m else m - 2 ^ 32.

Definition ENOENT : Z := 2.
Definition EINVAL : Z := 22.

(** [fopen] where files are plain byte strings: the mode "rb" finds the
    file named by the path or fails; the mode "wb+" creates the file or
    truncates it, so the file that is opened is empty. *)
Definition regular_fopen (fs : nat -> option (list Z)) (mode : OpenMode) (p : option nat)
    : option (list Z) :=
  match mode with
  | READ_ONLY_OPEN_MODE => p ≫= fs
  | READ_WRITE_OVERWRITE_OPEN_MODE => p ≫= (fun _ => Some [])
  end.

(** The answers of an operating system whose files are plain byte strings,
    for the request at the head of the mailbox.  [new] returns an object.
    [fopen] is [regular_fopen], and fails with ENOENT.  [fseek] is given the
    position as a [long]: it fails with EINVAL when that offset is negative
    and succeeds otherwise, also past the end of the file.  [fread] delivers
    the bytes from that offset on, and the end-of-file indicator is set when
    fewer bytes than a block are left. *)
Definition regular_os (capacity : Z) (fs : nat -> option (list Z)) (w : World) : OsOutcome :=
  match serverMailboxQueue_ w with
  | r :: _ =>
      let n := req w r in
      let offset := to_long (filePosition n) in
      let rest :=
        match fileHandle n ≫= (fun h => fileRecords w !! h) with
        | Some rec => drop (Z.to_nat offset) (fp rec)
        | None => []
        end in
      mkOsOutcome true (regular_fopen fs (openMode n) (path n))
        (if bool_decide (0 <= offset) then 0 else -1) rest
        (bool_decide (Z.of_nat (length rest) < capacity))
        (if bool_decide (requestType n = READ_BLOCK) then EINVAL else ENOENT)
  | [] => mkOsOutcome true None 0 [] false 0
  end.

(** [handleAllPendingRequests] on such a system: the server handles
    requests until the mailbox is empty. *)
Fixpoint handleAllPendingRequests (fuel : nat) (capacity : Z)
    (fs : nat -> option (list Z)) (w : World) : option World :=
  match serverMailboxQueue_ w with
  | [] => Some w
  | _ :: _ =>
      match fuel with
      | O => None
      | S fuel' =>
          w1 ← handleOneRequest capacity (regular_os capacity fs w) w;
          handleAllPendingRequests fuel' capacity fs w1
      end
  end.

Definition serve (capacity : Z) (fs : nat -> option (list Z)) (w : World) : option World :=
  handleAllPendingRequests (length (serverMailboxQueue_ w)) capacity fs w.

(** * The vocabulary of the properties

    The definitions the theorems of this development are stated with: the
    runs the witnesses evaluate, the prefetch queue as a list, the
    invariant of a stream and the steps of its life. *)

(** ** The result of a block read *)

Section ReadBlockResult.

Variable IO_DATA_BLOCK_DATA_CAPACITY_BYTES : Z.
Local Abbreviation CAP := IO_DATA_BLOCK_DATA_CAPACITY_BYTES.

(** The data block the handler has filled when [fread] succeeded. *)
Definition block_read (os : OsOutcome) : DataBlock :=
  fread_into CAP os
    (mkDataBlock CAP 0 (replicate (Z.to_nat CAP) None)).

End ReadBlockResult.

(** ** A concrete run

    A server with 64 request nodes, blocks of 4 bytes, and one file of ten
    bytes, named by path 7.  The stream is opened, the server answers, the
    client polls, seeks and the server answers again. *)

Definition demo_capacity : Z := 4.

Definition demo_fs (p : nat) : option (list Z) :=
  if decide (p = 7%nat) then Some [10; 11; 12; 13; 14; 15; 16; 17; 18; 19] else None.

(** After [open]: the stream is node 0, its OPEN_FILE node is node 1. *)
Definition demo_opening : World :=
  snd (open 7%nat READ_ONLY_OPEN_MODE (startFileIoServer 64)).

Definition demo_stream : nat := 0%nat.

(** The steps of the run are all defined; [demo_after] unwraps them. *)
Definition demo_after (w : option World) : World := default (startFileIoServer 0) w.

(** The server has opened the file and the client has polled: OPEN_IDLE. *)
Definition demo_idle : World :=
  snd (pollState demo_stream (demo_after (serve demo_capacity demo_fs demo_opening))).

(** The server has opened the file; the client has not polled yet. *)
Definition demo_opened : World :=
  demo_after (serve demo_capacity demo_fs demo_opening).

(** After [seek(pos)]: twenty requests are in the mailbox. *)
Definition demo_seeked (pos : Z) : World :=
  demo_after (snd <$> seek demo_capacity pos demo_stream demo_idle).

(** The server has read the twenty blocks: the replies are in the result
    queue. *)
Definition demo_replied (pos : Z) : World :=
  demo_after (serve demo_capacity demo_fs (demo_seeked pos)).

(** A second [seek] while the first window is in flight discards its twenty
    requests. *)
Definition demo_reseeked : World :=
  demo_after (snd <$> seek demo_capacity 0 demo_stream (demo_seeked 0)).

(** A read that comes back short although the file has not ended. *)
Definition os_short_read : OsOutcome := mkOsOutcome true None 0 [10; 11] false 0.

(** The condition of [assert( BlockReq::hasDataBlock(r) )] in the branch of
    [receiveOneBlock] that frees a discarded reply whose status is an
    error. *)
Definition discarded_failure_assertion (w : World) (r : nat) : bool :=
  hasDataBlock (req w r).

(** The stream of the run is closed after the replies of its first window
    arrived; the server has handled the CLOSE_FILE request and is about to
    handle the CLEANUP_RESULT_QUEUE request for the stream's root. *)
Definition demo_closed : World :=
  demo_after
    (close demo_stream (demo_replied 0)
       ≫= handleOneRequest demo_capacity
            (regular_os demo_capacity demo_fs (demo_replied 0))).





(** The client reads to the end of the file: the three blocks of the file
    are consumed, two more requests are sent on the way, and the stream is
    at OPEN_EOF. *)
Definition demo_eof : World :=
  demo_after (snd <$> read_or_write demo_capacity 1 100 demo_stream (demo_replied 0)).

(** The server answers the two requests sent during the read. *)
Definition demo_eof_served : World :=
  demo_after (serve demo_capacity demo_fs demo_eof).

(** A read of one byte from the stream whose twenty replies have arrived:
    the stream is streaming. *)
Definition demo_replied_streaming : World :=
  demo_after (snd <$> read_or_write demo_capacity 1 1 demo_stream (demo_replied 0)).

(** An [open] of a file that does not exist (path 8): the stream fails. *)
Definition demo_missing_opening : World :=
  snd (open 8%nat READ_ONLY_OPEN_MODE (startFileIoServer 64)).

Definition demo_open_failed : World :=
  snd (pollState demo_stream
         (demo_after (serve demo_capacity demo_fs demo_missing_opening))).

(** A server with ten nodes only: [seek] runs out of nodes after eight
    block requests. *)
Definition demo_small_opening : World :=
  snd (open 7%nat READ_ONLY_OPEN_MODE (startFileIoServer 10)).

Definition demo_small_idle : World :=
  snd (pollState demo_stream
         (demo_after (serve demo_capacity demo_fs demo_small_opening))).

Definition demo_exhausted : World :=
  demo_after (snd <$> seek demo_capacity 0 demo_stream demo_small_idle).

(** The server answers the eight requests of the stream that ran out of
    nodes, and the client polls eight times. *)
Definition demo_exhausted_served : World :=
  demo_after (serve demo_capacity demo_fs demo_exhausted).

Definition demo_exhausted_polled : World :=
  Nat.iter 8 (fun w => snd (pollState demo_stream w)) demo_exhausted_served.

(** ** The cleanup protocol *)

(** The kinds of request that come back as results. *)
Definition returns_result (n : FileIoRequest) : Prop :=
  requestType n = OPEN_FILE \/ requestType n = READ_BLOCK
  \/ requestType n = ALLOCATE_WRITE_BLOCK.

(** The request a result is turned into by [cleanupOneRequestResult] before
    it is handled and freed: a release of what the result holds, or the
    result itself when it holds nothing. *)
Definition cleaned_type (n : FileIoRequest) : RequestType :=
  match requestType n with
  | OPEN_FILE => if bool_decide (fileHandle n ≠ None) then CLOSE_FILE else OPEN_FILE
  | READ_BLOCK => if bool_decide (dataBlock n ≠ None) then RELEASE_READ_BLOCK else READ_BLOCK
  | ALLOCATE_WRITE_BLOCK =>
      if bool_decide (dataBlock n ≠ None) then RELEASE_UNMODIFIED_WRITE_BLOCK
      else ALLOCATE_WRITE_BLOCK
  | t => t
  end.

(** The file records after one client reference on [fh] is released. *)
Definition released (fh : nat) (m : gmap nat FileRecord) : gmap nat FileRecord :=
  match m !! fh with
  | Some rec =>
      if bool_decide (dependentClientCount rec - 1 = 0) then delete fh m
      else <[fh := mkFileRecord (fp rec) (dependentClientCount rec - 1)]> m
  | None => m
  end.

(** What a result holds: the file record it keeps a reference on, and the
    data block it carries. *)
Definition held_file (n : FileIoRequest) : option nat :=
  match requestType n with
  | OPEN_FILE => fileHandle n
  | _ => if bool_decide (dataBlock n ≠ None) then fileHandle n else None
  end.

Definition held_block (n : FileIoRequest) : option nat :=
  match requestType n with
  | OPEN_FILE => None
  | _ => dataBlock n
  end.

(** The expected-result count after [n] results were popped. *)
Definition popped_count (n : nat) (cnt : Z) : Z :=
  Nat.iter n (fun k => size_wrap (k - 1)) cnt.

(** ** The prefetch queue as a list *)

(** [lseg w p l]: following the client links from [p] visits exactly the
    nodes of [l] and ends at null. *)
Fixpoint lseg (w : World) (p : option nat) (l : list nat) : Prop :=
  match l with
  | [] => p = None
  | x :: l' => p = Some x /\ lseg w (links_client (req w x)) l'
  end.

(** The number of blocks of [l] that are still pending. *)
Fixpoint pending_count (w : World) (l : list nat) : Z :=
  match l with
  | [] => 0
  | x :: l' =>
      (if bool_decide (requestType (req w x) = BLOCK_STATE_PENDING) then 1 else 0)
      + pending_count w l'
  end.

(** The number of blocks of [l] that are ready to be read. *)
Fixpoint ready_count (w : World) (l : list nat) : Z :=
  match l with
  | [] => 0
  | x :: l' =>
      (if bool_decide (requestType (req w x) = BLOCK_STATE_READY) then 1 else 0)
      + ready_count w l'
  end.

(** The nodes of the result queue of the stream [rq]. *)
Definition queued (w : World) (rq : nat) : list nat := rq_nodes (resultQueue (req w rq)).

(** The prefetch queue of the stream [rq], read off the store by following
    the client links from the head pointer. *)
Fixpoint fifo_from (fuel : nat) (w : World) (p : option nat) : list nat :=
  match p, fuel with
  | Some x, S fuel' => x :: fifo_from fuel' w (links_client (req w x))
  | _, _ => []
  end.

Definition prefetchQueue (w : World) (rq : nat) : list nat :=
  fifo_from (size (requests w)) w (prefetchQueueHead_ w rq).

(** ** The invariant of a stream *)

Section StreamInvariant.

Variable IO_DATA_BLOCK_DATA_CAPACITY_BYTES : Z.
Local Abbreviation CAP := IO_DATA_BLOCK_DATA_CAPACITY_BYTES.

(** Queue order is file order. *)
Fixpoint file_order (w : World) (l : list nat) : Prop :=
  match l with
  | x :: l' =>
      match l' with
      | y :: _ => filePosition (req w y) = size_wrap (filePosition (req w x) + CAP)
      | [] => True
      end /\ file_order w l'
  | [] => True
  end.

Definition is_stream_state (st : RequestType) : Prop :=
  st = STREAM_STATE_OPENING \/ st = STREAM_STATE_OPEN_IDLE
  \/ st = STREAM_STATE_OPEN_BUFFERING \/ st = STREAM_STATE_OPEN_STREAMING
  \/ st = STREAM_STATE_OPEN_EOF \/ st = STREAM_STATE_ERROR.

(** The invariant of an open stream [rq] with OPEN_FILE node [o] and
    prefetch queue [l], in three parts.  It holds between any two primitive
    steps of an operation.

    [Shape]: the linked structure.  The client links from the root's head
    pointer run through [l]; the tail pointer kept in the OPEN_FILE node is
    the last node of [l]; queue order is file order, and the file
    positions are values of type [size_t]. *)
Record Shape (rq o : nat) (l : list nat) (w : World) : Prop := mkShape {
  shape_open : openFileReq w rq = Some o;
  shape_open_ne : o ≠ rq;
  shape_lseg : lseg w (prefetchQueueHead_ w rq) l;
  shape_tail : l ≠ [] -> links_client (req w o) = last l;
  shape_nodup : NoDup l;
  shape_root : rq ∉ l;
  shape_open_fifo : o ∉ l;
  shape_order : file_order w l;
  shape_length : (length l <= S prefetchQueueBlockCount)%nat;
  shape_range : forall x, x ∈ l -> 0 <= filePosition (req w x) < SIZE_MODULUS
}.

(** [Owner]: who holds which node.  The pool, the mailbox and the result
    queue share no node; a queue block is pending exactly while it is in
    flight; a READ_BLOCK in flight that is not in the queue is marked
    discarded. *)
Record Owner (rq o : nat) (l : list nat) (w : World) : Prop := mkOwner {
  own_open_type : requestType (req w o) = OPEN_FILE;
  own_open_ptr : resultQueuePtr (req w o) = Some rq;
  own_state : is_stream_state (state_ w rq);
  own_transit : NoDup (globalRequestPool_ w ++ serverMailboxQueue_ w ++ queued w rq);
  own_root : rq ∉ globalRequestPool_ w ++ serverMailboxQueue_ w ++ queued w rq;
  own_open_pool : o ∉ globalRequestPool_ w;
  own_fifo_pool : forall x, x ∈ l -> x ∉ globalRequestPool_ w;
  own_fifo :
    forall x, x ∈ l ->
      (requestType (req w x) = BLOCK_STATE_PENDING /\ (clientInt (req w x) ≠ SIZE_MAX)
       /\ x ∈ serverMailboxQueue_ w ++ queued w rq)
      \/ ((requestType (req w x) = BLOCK_STATE_READY
           \/ requestType (req w x) = BLOCK_STATE_ERROR)
          /\ x ∉ serverMailboxQueue_ w ++ queued w rq);
  own_mailbox :
    forall x, x ∈ serverMailboxQueue_ w ->
      (x = o /\ state_ w rq = STREAM_STATE_OPENING)
      \/ (requestType (req w x) = READ_BLOCK /\ resultQueuePtr (req w x) = Some rq
          /\ (x ∈ l \/ clientInt (req w x) = SIZE_MAX))
      \/ (requestType (req w x) = RELEASE_READ_BLOCK);
  own_queue :
    forall x, x ∈ queued w rq ->
      (x = o /\ state_ w rq = STREAM_STATE_OPENING)
      \/ (requestType (req w x) = READ_BLOCK
          /\ (x ∈ l \/ clientInt (req w x) = SIZE_MAX));
  own_opening :
    state_ w rq = STREAM_STATE_OPENING ->
    l = [] /\ o ∈ serverMailboxQueue_ w ++ queued w rq
    /\ forall x, x ∈ serverMailboxQueue_ w ++ queued w rq -> x = o;
  own_opened :
    state_ w rq ≠ STREAM_STATE_OPENING -> o ∉ serverMailboxQueue_ w ++ queued w rq
}.

(** The nodes the stream and the queues hold. *)
Definition owned (rq o : nat) (l : list nat) (w : World) : list nat :=
  rq :: o :: l ++ globalRequestPool_ w ++ serverMailboxQueue_ w ++ queued w rq.

(** [Core]: shape and ownership, and the two counters of the root node:
    the stored error is the status of the OPEN_FILE reply once it has been
    received, and the count of awaited blocks is the number of pending
    blocks in the queue. *)
Record Core (rq o : nat) (l : list nat) (w : World) : Prop := mkCore {
  core_shape : Shape rq o l w;
  core_own : Owner rq o l w;
  core_error :
    error_ w rq
    = if bool_decide (state_ w rq = STREAM_STATE_OPENING) then 0
      else resultStatus (req w o);
  core_count : waitingForBlocksCount_ w rq = pending_count w l;
  core_dom : forall x, x ∈ owned rq o l w -> x ∈ dom (requests w)
}.

(** The queue [l] holds block requests for consecutive blocks of the file
    from offset [a] on, the first with its cursor at [c0]. *)
Definition block_requests_at (rq : nat) (a c0 : Z) (w : World) (l : list nat) : Prop :=
  forall (k : nat) (x : nat),
    l !! k = Some x ->
    requestType (req w x) = READ_BLOCK
    /\ filePosition (req w x) = size_wrap (a + Z.of_nat k * CAP)
    /\ clientInt (req w x) = match k with O => c0 | S _ => 0 end
    /\ resultQueuePtr (req w x) = Some rq.

(** What a series of calls of [receiveOneBlock] does to the stream: the
    replies that are received leave the result queue, and at most as many
    blocks become ready. *)
Definition received (rq o : nat) (l : list nat) (w w' : World) : Prop :=
  Core rq o l w'
  /\ state_ w' rq ≠ STREAM_STATE_OPENING
  /\ (state_ w' rq = state_ w rq
      \/ (state_ w' rq = STREAM_STATE_OPEN_STREAMING /\ l ≠ []))
  /\ (waitingForBlocksCount_ w rq = 0 ->
      state_ w' rq = state_ w rq /\ waitingForBlocksCount_ w' rq = 0)
  /\ (length (queued w' rq) <= length (queued w rq))%nat
  /\ ready_count w' l + Z.of_nat (length (queued w' rq))
     <= ready_count w l + Z.of_nat (length (queued w rq)).

(** The states the copy loop can leave the stream in. *)
Definition after_read (st : RequestType) : Prop :=
  st = STREAM_STATE_OPEN_STREAMING \/ st = STREAM_STATE_OPEN_BUFFERING
  \/ st = STREAM_STATE_OPEN_EOF \/ st = STREAM_STATE_ERROR.

End StreamInvariant.

(** The fields of a request the server leaves alone when it answers. *)
Definition same_links (n n' : FileIoRequest) : Prop :=
  links_client n' = links_client n /\ requestType n' = requestType n
  /\ clientInt n' = clientInt n /\ filePosition n' = filePosition n
  /\ resultQueuePtr n' = resultQueuePtr n.

(** What a stream whose queue obeys its state looks like. *)
Definition fifo_ok (st : RequestType) (l : list nat) : Prop :=
  (length l <= prefetchQueueBlockCount)%nat
  /\ (st = STREAM_STATE_OPEN_IDLE -> l = [])
  /\ (st = STREAM_STATE_OPEN_BUFFERING \/ st = STREAM_STATE_OPEN_STREAMING -> l ≠ []).

(** ** The life of a stream *)

Section StreamLife.

Variable IO_DATA_BLOCK_DATA_CAPACITY_BYTES : Z.
Local Abbreviation CAP := IO_DATA_BLOCK_DATA_CAPACITY_BYTES.
Local Abbreviation Core := (Core IO_DATA_BLOCK_DATA_CAPACITY_BYTES).

(** One step of the life of the stream [rq] on a server that serves no
    other client: a call of [seek], [read] or [pollState] by the client, or
    one request handled by the server, with any answer of the operating
    system.  The arguments of the calls are values of type [size_t]. *)
Inductive step (rq : nat) : World -> World -> Prop :=
  | step_seek (pos ret : Z) (w w' : World) :
      0 <= pos < SIZE_MODULUS ->
      seek CAP pos rq w = Some (ret, w') ->
      step rq w w'
  | step_read (itemSize itemCount n : Z) (out : list byte_cell) (w w' : World) :
      read_or_write CAP itemSize itemCount rq w = Some (n, out, w') ->
      step rq w w'
  | step_poll (w : World) :
      step rq w (snd (pollState rq w))
  | step_server (os : OsOutcome) (w w' : World) :
      handleOneRequest CAP os w = Some w' ->
      step rq w w'.

(** The states of a stream opened on a freshly started server. *)
Definition reachable (rq : nat) (w : World) : Prop :=
  exists (fileIoRequestCount : nat) (path_ : nat) (openMode_ : OpenMode) (w0 : World),
    open path_ openMode_ (startFileIoServer fileIoRequestCount) = (Some rq, w0)
    /\ rtc (step rq) w0 w.

(** The invariant of the stream [rq]. *)
Definition Inv (rq o : nat) (l : list nat) (w : World) : Prop :=
  Core rq o l w /\ fifo_ok (state_ w rq) l.

End StreamLife.


(** Each block of the prefetch queue of [rq] is followed by the block
    that comes next in the file: the positions differ by the block size
    [B], in [size_t] arithmetic, hence exactly unless the sum overflows. *)
Definition queue_in_file_order (B : Z) (w : World) (rq : nat) : Prop :=
  forall (k : nat) (H N : nat),
    prefetchQueue w rq !! k = Some H ->
    prefetchQueue w rq !! S k = Some N ->
    filePosition (req w N) = size_wrap (filePosition (req w H) + B)
    /\ (filePosition (req w H) + B < SIZE_MODULUS ->
        filePosition (req w N) = filePosition (req w H) + B).

(** The steps of the life of a stream other than [seek]. *)
Inductive quiet_step (B : Z) (rq : nat) : World -> World -> Prop :=
  | quiet_read (itemSize itemCount n : Z) (out : list byte_cell) (w w' : World) :
      read_or_write B itemSize itemCount rq w = Some (n, out, w') ->
      quiet_step B rq w w'
  | quiet_poll (w : World) :
      quiet_step B rq w (snd (pollState rq w))
  | quiet_server (os : OsOutcome) (w w' : World) :
      handleOneRequest B os w = Some w' ->
      quiet_step B rq w w'.

(** A stream at OPEN_EOF or ERROR that awaits no block. *)
Definition settled (rq : nat) (st : RequestType) (w : World) : Prop :=
  state_ w rq = st /\ waitingForBlocksCount_ w rq = 0.

(** ** The resources of a stream

    What the stream and the server hold between them besides the request
    nodes: the data blocks, the file record and its count of dependent
    clients, and the count of results the stream expects. *)

(** The replies the stream [rq] has not received yet: the requests in the
    mailbox that the server answers with a result (every request but a
    release), and the results in the stream's queue. *)
Definition awaited (w : World) (rq : nat) : Z :=
  Z.of_nat
    (length (filter (fun x => requestType (req w x) ≠ RELEASE_READ_BLOCK)
               (serverMailboxQueue_ w))
     + length (queued w rq)).

(** The request nodes in use besides the root and the OPEN_FILE node: the
    blocks of the prefetch queue and the requests in flight. *)
Definition in_use (rq : nat) (l : list nat) (w : World) : list nat :=
  l ++ serverMailboxQueue_ w ++ queued w rq.

(** The fields of a request that describe what it asks for and what it
    holds. *)
Definition same_payload (n n' : FileIoRequest) : Prop :=
  fileHandle n' = fileHandle n /\ dataBlock n' = dataBlock n
  /\ resultStatus n' = resultStatus n /\ filePosition n' = filePosition n
  /\ isAtEof n' = isAtEof n.

(** The position of the stream in the file, read off the front block of
    the prefetch queue: the offset of the block plus the cursor in it. *)
Definition streamPosition (w : World) (rq : nat) : Z :=
  match prefetchQueueHead_ w rq with
  | Some x => filePosition (req w x) + clientInt (req w x)
  | None => 0
  end.

(** A data block as [handleReadBlockRequest] leaves it, whatever the
    operating system answered: the buffer has the size of a block, and a
    block that is not flagged as the last one of the file is full. *)
Definition any_block (B : Z) (pos : Z) (eof : bool) (blk : DataBlock) : Prop :=
  length (data blk) = Z.to_nat B
  /\ 0 <= validCountBytes blk <= B
  /\ (eof = false -> validCountBytes blk = B).

(** The data block for offset [pos] of the file [bytes]: the bytes of the
    file from [pos] on, at most a block of them, and the end-of-file flag
    set when the block is not full. *)
Definition file_block (B : Z) (bytes : list Z) (pos : Z) (eof : bool) (blk : DataBlock)
    : Prop :=
  let s := take (Z.to_nat B) (drop (Z.to_nat pos) bytes) in
  validCountBytes blk = Z.of_nat (length s)
  /\ data blk = (Some <$> s) ++ replicate (Z.to_nat B - length s) None
  /\ eof = bool_decide (Z.of_nat (length s) < B).

(** The data block for a request at the position [pos] on a system whose
    [fseek] takes a [long]: the offset [fseek] received is not negative,
    and the block is the block of the file at that offset. *)
Definition fseek_block (B : Z) (bytes : list Z) (pos : Z) (eof : bool) (blk : DataBlock)
    : Prop :=
  0 <= to_long pos /\ file_block B bytes (to_long pos) eof blk.

(** What is known of the path and the mode of an OPEN_FILE request, and of
    a file, when nothing is. *)
Definition any_path (_ : option nat) (_ : OpenMode) : Prop := True.
Definition any_file (_ : list Z) : Prop := True.

(** What is known of them on a file system [fs] of regular files, for a
    stream that reads the file [bytes]: the request opens, for reading
    only, a path that names the file. *)
Definition names_file (fs : nat -> option (list Z)) (bytes : list Z) (p : option nat)
    (mode : OpenMode) : Prop :=
  mode = READ_ONLY_OPEN_MODE /\ p ≫= fs = Some bytes.
Definition is_file (bytes : list Z) (bs : list Z) : Prop := bs = bytes.

Section Resources.

Variable IO_DATA_BLOCK_DATA_CAPACITY_BYTES : Z.
Local Abbreviation CAP := IO_DATA_BLOCK_DATA_CAPACITY_BYTES.

(** What is known of the path the stream names and of the mode it opens it
    in, of the file the server opens and of the blocks it reads, and a
    bound on the positions the stream is asked to seek to. *)
Variable good_path : option nat -> OpenMode -> Prop.
Variable good_file : list Z -> Prop.
Variable good_block : Z -> bool -> DataBlock -> Prop.
Variable limit : Z.

(** [Res]: the resources of the open stream [rq] with OPEN_FILE node [o]
    and prefetch queue [l].
    - Every node of the store is the root, the OPEN_FILE node, a block of
      the queue, free, or in flight.
    - The count of expected results is the number of replies awaited.
    - A block request carries the file handle of the OPEN_FILE node; it
      holds a data block exactly when it is READY, a reply that succeeded,
      or a release on its way to the server.
    - Every data block is held by exactly one request.
    - The server has one file record when the file was opened, and none
      otherwise; the record's count of dependent clients is one for the
      stream plus one for each data block. *)
Record Res (rq o : nat) (l : list nat) (w : World) : Prop := mkRes {
  res_cover : forall x, x ∈ dom (requests w) -> x ∈ owned rq o l w;
  res_expected :
    rq_expectedResultCount (resultQueue (req w rq)) = size_wrap (awaited w rq);
  res_open_block : dataBlock (req w o) = None;
  res_open_sent :
    o ∈ serverMailboxQueue_ w ->
    fileHandle (req w o) = None /\ good_path (path (req w o)) (openMode (req w o));
  res_handle :
    forall x, x ∈ in_use rq l w -> fileHandle (req w x) = fileHandle (req w o);
  res_sent :
    forall x, x ∈ serverMailboxQueue_ w ->
      requestType (req w x) = READ_BLOCK -> dataBlock (req w x) = None;
  res_release :
    forall x, x ∈ serverMailboxQueue_ w ->
      requestType (req w x) = RELEASE_READ_BLOCK -> dataBlock (req w x) ≠ None;
  res_reply :
    forall x, x ∈ queued w rq ->
      requestType (req w x) = READ_BLOCK ->
      (resultStatus (req w x) = NOERROR <-> dataBlock (req w x) ≠ None);
  res_ready :
    forall x, x ∈ l ->
      requestType (req w x) = BLOCK_STATE_READY -> dataBlock (req w x) ≠ None;
  res_error :
    forall x, x ∈ l ->
      requestType (req w x) = BLOCK_STATE_ERROR -> dataBlock (req w x) = None;
  res_held :
    forall x d, x ∈ in_use rq l w ->
      dataBlock (req w x) = Some d ->
      exists blk, dataBlocks w !! d = Some blk
                  /\ good_block (filePosition (req w x)) (isAtEof (req w x)) blk;
  res_inj :
    forall x y d, x ∈ in_use rq l w -> y ∈ in_use rq l w ->
      dataBlock (req w x) = Some d -> dataBlock (req w y) = Some d -> x = y;
  res_noleak :
    forall d, d ∈ dom (dataBlocks w) ->
      exists x, x ∈ in_use rq l w /\ dataBlock (req w x) = Some d;
  res_fresh : forall d, d ∈ dom (dataBlocks w) -> (d < nextDataBlock w)%nat;
  res_files :
    match fileHandle (req w o) with
    | Some f =>
        exists rec, fileRecords w = {[ f := rec ]}
                    /\ good_file (fp rec)
                    /\ dependentClientCount rec = 1 + Z.of_nat (size (dataBlocks w))
    | None => fileRecords w = ∅ /\ dataBlocks w = ∅
    end
}.

(** [Cursor]: the cursors of the blocks of the prefetch queue.  The cursor
    of the front block is within the block and the position of the stream
    is within the bound; the blocks behind it have not been read.  When
    the bound is the length of a file, a stream at OPEN_EOF is at the end
    of the file. *)
Record Cursor (rq : nat) (l : list nat) (w : World) : Prop := mkCursor {
  cur_head :
    forall x, head l = Some x ->
      0 <= clientInt (req w x) <= CAP
      /\ filePosition (req w x) + clientInt (req w x) <= limit;
  cur_rest : forall y, y ∈ tail l -> clientInt (req w y) = 0;
  cur_eof :
    limit < SIZE_MODULUS ->
    state_ w rq = STREAM_STATE_OPEN_EOF ->
    exists x, head l = Some x
              /\ filePosition (req w x) + clientInt (req w x) = limit
}.

(** The invariant of the stream and its resources. *)
Definition Full (rq o : nat) (l : list nat) (w : World) : Prop :=
  Inv CAP rq o l w /\ Res rq o l w /\ Cursor rq l w.

(** The answers of the operating system that keep what is known of files
    and blocks: the file opened for a good path is a good file, and a
    block read from a good file for the request at the head of the mailbox
    is a good block for the position of that request. *)
Definition os_ok (w : World) (os : OsOutcome) : Prop :=
  (forall r M bs,
     serverMailboxQueue_ w = r :: M ->
     requestType (req w r) = OPEN_FILE ->
     good_path (path (req w r)) (openMode (req w r)) ->
     os_fopen os = Some bs -> good_file bs)
  /\ (forall r M f rec,
        serverMailboxQueue_ w = r :: M ->
        requestType (req w r) = READ_BLOCK ->
        fileHandle (req w r) = Some f ->
        fileRecords w !! f = Some rec ->
        good_file (fp rec) ->
        os_fseek os = 0 ->
        let blk := block_read CAP os in
        validCountBytes blk = capacityBytes blk \/ os_feof os = true ->
        good_block (filePosition (req w r))
          (negb (bool_decide (validCountBytes blk = capacityBytes blk))) blk).

End Resources.

(** ** A stream on a regular file *)

Section FileLife.

Variable B : Z.
Variable fs : nat -> option (list Z).
Variable len : Z.

(** One step of the life of a stream on a server whose files are regular
    files: a call of [seek] to a position within the file, a call of [read]
    or [pollState], or one request handled by the server. *)
Inductive file_step (rq : nat) : World -> World -> Prop :=
  | file_seek (pos ret : Z) (w w' : World) :
      0 <= pos <= len ->
      seek B pos rq w = Some (ret, w') ->
      file_step rq w w'
  | file_read (itemSize itemCount n : Z) (out : list byte_cell) (w w' : World) :
      read_or_write B itemSize itemCount rq w = Some (n, out, w') ->
      file_step rq w w'
  | file_poll (w : World) :
      file_step rq w (snd (pollState rq w))
  | file_server (w w' : World) :
      handleOneRequest B (regular_os B fs w) w = Some w' ->
      file_step rq w w'.

(** The bytes a stream delivers over a run without [seek]: the
    concatenation of what its calls of [read] write to their
    destinations, in any interleaving with [pollState] and the server. *)
Inductive delivers (rq : nat) : World -> list byte_cell -> World -> Prop :=
  | delivers_nil (w : World) :
      delivers rq w [] w
  | delivers_read (itemSize itemCount n : Z) (out outs : list byte_cell)
      (w w1 w2 : World) :
      read_or_write B itemSize itemCount rq w = Some (n, out, w1) ->
      delivers rq w1 outs w2 ->
      delivers rq w (out ++ outs) w2
  | delivers_poll (outs : list byte_cell) (w w2 : World) :
      delivers rq (snd (pollState rq w)) outs w2 ->
      delivers rq w outs w2
  | delivers_server (outs : list byte_cell) (w w1 w2 : World) :
      handleOneRequest B (regular_os B fs w) w = Some w1 ->
      delivers rq w1 outs w2 ->
      delivers rq w outs w2.

End FileLife.

(** The states of a stream opened, for reading only, for the file [bytes],
    named by [path_], on a freshly started server. *)
Definition file_reachable (B : Z) (fs : nat -> option (list Z)) (bytes : list Z)
    (rq : nat) (w : World) : Prop :=
  exists (fileIoRequestCount : nat) (path_ : nat) (w0 : World),
    fs path_ = Some bytes
    /\ open path_ READ_ONLY_OPEN_MODE (startFileIoServer fileIoRequestCount) = (Some rq, w0)
    /\ rtc (file_step B fs (Z.of_nat (length bytes)) rq) w0 w.

(** ** Closing a stream *)

(** The references the results in [Q] keep on file records. *)
Definition file_references (w : World) (Q : list nat) : nat :=
  length (filter (fun x => held_file (req w x) ≠ None) Q).

(** The server holds the file record [f] with [n] dependent clients, or no
    file record when there is none. *)
Definition records_count (f : nat) (m : gmap nat FileRecord) (n : nat) : Prop :=
  match n with
  | O => m = ∅
  | S _ => exists rec, m = {[ f := rec ]} /\ dependentClientCount rec = Z.of_nat n
  end.

(** What the results in [Q] hold between them: each is the reply to an
    OPEN_FILE or a READ_BLOCK request; every data block of the store is
    held by exactly one of them; the file record [f] counts the references
    they keep. *)
Record results_hold (f : nat) (w : World) (Q : list nat) : Prop := mkResultsHold {
  rh_nodup : NoDup Q;
  rh_type :
    forall x, x ∈ Q ->
      requestType (req w x) = OPEN_FILE \/ requestType (req w x) = READ_BLOCK;
  rh_file : forall x f', x ∈ Q -> held_file (req w x) = Some f' -> f' = f;
  rh_block :
    forall x d, x ∈ Q -> held_block (req w x) = Some d ->
      d ∈ dom (dataBlocks w) /\ held_file (req w x) ≠ None;
  rh_inj :
    forall x y d, x ∈ Q -> y ∈ Q ->
      held_block (req w x) = Some d -> held_block (req w y) = Some d -> x = y;
  rh_noleak :
    forall d, d ∈ dom (dataBlocks w) -> exists x, x ∈ Q /\ held_block (req w x) = Some d;
  rh_count : records_count f (fileRecords w) (file_references w Q)
}.

(** The server's heap: the data blocks and the file records. *)
Definition same_heap (w g : World) : Prop :=
  dataBlocks w = dataBlocks g /\ nextDataBlock w = nextDataBlock g
  /\ fileRecords w = fileRecords g /\ nextFileRecord w = nextFileRecord g.

(** Everything is free again: no request is in the mailbox, every node of
    the store is in the pool, once, and the server holds no data block and
    no file record. *)
Definition all_free (w : World) : Prop :=
  serverMailboxQueue_ w = []
  /\ NoDup (globalRequestPool_ w)
  /\ (forall x, x ∈ dom (requests w) -> x ∈ globalRequestPool_ w)
  /\ dataBlocks w = ∅
  /\ fileRecords w = ∅.

(** The file of the concrete run. *)
Definition demo_bytes : list Z := [10; 11; 12; 13; 14; 15; 16; 17; 18; 19].

(** [closing rq o T X w g]: the world [w] of a closed stream [rq], seen
    from the world [g] in which the stream has flushed its prefetch queue
    and is still open.  The requests [T] that [close] sent are at the end
    of the mailbox, behind those of [g]; the nodes [X] that [close] freed
    are in the pool; the heap, the result queue and the other requests
    are those of [g]. *)
Record closing (rq o : nat) (T X : list nat) (w g : World) : Prop := mkClosing {
  clo_mailbox : serverMailboxQueue_ w = serverMailboxQueue_ g ++ T;
  clo_pool : globalRequestPool_ w ≡ₚ X ++ globalRequestPool_ g;
  clo_dom : dom (requests w) = dom (requests g);
  clo_heap : same_heap w g;
  clo_req : forall x, x ≠ rq -> x ≠ o -> req w x = req g x;
  clo_queue : resultQueue (req w rq) = resultQueue (req g rq);
  clo_root : requestType (req w rq) ≠ RESULT_QUEUE_IS_AWAITING_CLEANUP_
}.

(** * Properties *)

(** ** The node store *)

Lemma req_upd_req_eq (r : nat) (f : FileIoRequest -> FileIoRequest) (w : World) :
  req (upd_req r f w) r = f (req w r).
Proof. unfold req, upd_req. simpl. apply lookup_total_insert_eq. Qed.

Lemma req_upd_req_ne (r x : nat) (f : FileIoRequest -> FileIoRequest) (w : World) :
  r ≠ x -> req (upd_req r f w) x = req w x.
Proof. intros H. unfold req, upd_req. simpl. by apply lookup_total_insert_ne. Qed.

Lemma req_upd_req (r x : nat) (f : FileIoRequest -> FileIoRequest) (w : World) :
  req (upd_req r f w) x = if decide (r = x) then f (req w r) else req w x.
Proof.
  destruct (decide (r = x)) as [->|Hne].
  - apply req_upd_req_eq.
  - by apply req_upd_req_ne.
Qed.

Lemma req_sendFileIoRequestToServer (r x : nat) (w : World) :
  req (sendFileIoRequestToServer r w) x = req w x.
Proof. reflexivity. Qed.

Lemma req_freeFileIoRequest (r x : nat) (w : World) :
  req (freeFileIoRequest r w) x = req w x.
Proof. reflexivity. Qed.

Lemma req_set_state_ (st : RequestType) (rq x : nat) (w : World) :
  req (set_state_ st rq w) x
  = if decide (rq = x) then set_requestType st (req w rq) else req w x.
Proof. apply req_upd_req. Qed.

Lemma size_wrap_range (z : Z) : 0 <= size_wrap z < SIZE_MODULUS.
Proof. unfold size_wrap. apply Z.mod_pos_bound. reflexivity. Qed.

Lemma size_wrap_small (z : Z) : 0 <= z < SIZE_MODULUS -> size_wrap z = z.
Proof. intros H. unfold size_wrap. by apply Z.mod_small. Qed.

Lemma SIZE_MAX_eq : SIZE_MAX = SIZE_MODULUS - 1.
Proof. reflexivity. Qed.

(** Normalise reads of the store after writes: a read at the address just
    written, or at an address known to differ from it. *)
Lemma req_set_dataBlocks (m : gmap nat DataBlock) (k x : nat) (w : World) :
  req (set_dataBlocks m k w) x = req w x.
Proof. reflexivity. Qed.

Lemma req_set_fileRecords (m : gmap nat FileRecord) (k x : nat) (w : World) :
  req (set_fileRecords m k w) x = req w x.
Proof. reflexivity. Qed.

Lemma req_set_pool (l : list nat) (x : nat) (w : World) :
  req (set_pool l w) x = req w x.
Proof. reflexivity. Qed.

Lemma req_set_mailbox (l : list nat) (x : nat) (w : World) :
  req (set_mailbox l w) x = req w x.
Proof. reflexivity. Qed.

Ltac fold_req :=
  repeat match goal with
         | |- context [requests ?w !!! ?x] => change (requests w !!! x) with (req w x)
         end.

Ltac heap_norm :=
  repeat first
    [ rewrite req_sendFileIoRequestToServer
    | rewrite req_freeFileIoRequest
    | rewrite req_set_dataBlocks
    | rewrite req_set_fileRecords
    | rewrite req_set_pool
    | rewrite req_set_mailbox
    | rewrite req_upd_req_eq
    | rewrite req_upd_req_ne by congruence ].

(** ** C5: what [receiveOneBlock] does with the reply it pops *)

(** C5.  When [receiveOneBlock] pops a reply [r] (a node other than the
    stream's root):
    - if [r] is marked discarded, the pending-block counter and the stream
      state are left as they are; on success [r] becomes a
      RELEASE_READ_BLOCK request and is appended to the server's mailbox, on
      failure it goes back to the pool;
    - otherwise the counter is decremented, the state becomes
      OPEN_STREAMING exactly when the counter has reached zero (and is
      unchanged otherwise, so it never becomes ERROR here), and [r] is marked
      BLOCK_READY on success and BLOCK_ERROR on failure. *)
Theorem receiveOneBlock_spec (rq r : nat) (q : result_queue_t) (w : World) :
  rq_pop (resultQueue (req w rq)) = Some (r, q) ->
  r ≠ rq ->
  let w' := snd (receiveOneBlock rq w) in
  fst (receiveOneBlock rq w) = true /\
  resultQueue (req w' rq) = q /\
  (isDiscarded (req w r) = true ->
     waitingForBlocksCount_ w' rq = waitingForBlocksCount_ w rq /\
     state_ w' rq = state_ w rq /\
     (resultStatus (req w r) = NOERROR ->
        requestType (req w' r) = RELEASE_READ_BLOCK /\
        serverMailboxQueue_ w' = serverMailboxQueue_ w ++ [r] /\
        globalRequestPool_ w' = globalRequestPool_ w) /\
     (resultStatus (req w r) ≠ NOERROR ->
        requestType (req w' r) = requestType (req w r) /\
        globalRequestPool_ w' = r :: globalRequestPool_ w /\
        serverMailboxQueue_ w' = serverMailboxQueue_ w)) /\
  (isDiscarded (req w r) = false ->
     waitingForBlocksCount_ w' rq = size_wrap (waitingForBlocksCount_ w rq - 1) /\
     state_ w' rq =
       (if bool_decide (waitingForBlocksCount_ w' rq = 0)
        then STREAM_STATE_OPEN_STREAMING else state_ w rq) /\
     requestType (req w' r) =
       (if bool_decide (resultStatus (req w r) = NOERROR)
        then BLOCK_STATE_READY else BLOCK_STATE_ERROR) /\
     serverMailboxQueue_ w' = serverMailboxQueue_ w /\
     globalRequestPool_ w' = globalRequestPool_ w).
Proof.
  intros Hpop Hne w'. subst w'. unfold receiveOneBlock. rewrite Hpop.
  assert (Hr : req (upd_req rq (set_resultQueue q) w) r = req w r)
    by (apply req_upd_req_ne; congruence).
  rewrite Hr.
  destruct (isDiscarded (req w r)) eqn:Hd.
  - destruct (bool_decide (resultStatus (req w r) = NOERROR)) eqn:Hs; simpl;
      [apply bool_decide_eq_true in Hs | apply bool_decide_eq_false in Hs];
      unfold waitingForBlocksCount_, state_; heap_norm; simpl;
      repeat split; intros; try done; heap_norm; done.
  - set (w1 := upd_req rq (fun n => set_clientInt (size_wrap (clientInt n - 1)) n)
                 (upd_req rq (set_resultQueue q) w)).
    assert (Hc1 : waitingForBlocksCount_ w1 rq = size_wrap (waitingForBlocksCount_ w rq - 1)).
    { unfold w1, waitingForBlocksCount_. heap_norm. done. }
    set (w2 := if bool_decide (waitingForBlocksCount_ w1 rq = 0)
               then set_state_ STREAM_STATE_OPEN_STREAMING rq w1 else w1).
    assert (Hr2 : req w2 r = req w r).
    { unfold w2, w1, set_state_. case_bool_decide; heap_norm; done. }
    assert (Hrq2 : req w2 rq =
                   (if bool_decide (waitingForBlocksCount_ w1 rq = 0)
                    then set_requestType STREAM_STATE_OPEN_STREAMING (req w1 rq)
                    else req w1 rq)).
    { unfold w2, set_state_. case_bool_decide; heap_norm; done. }
    assert (Hrq1 : req w1 rq
                   = set_clientInt (size_wrap (clientInt (req w rq) - 1))
                       (set_resultQueue q (req w rq))).
    { unfold w1. heap_norm. done. }
    rewrite Hr2.
    assert (Hq : forall st, resultQueue (req (upd_req r (set_requestType st) w2) rq) = q).
    { intros st. heap_norm. rewrite Hrq2, Hrq1. by case_bool_decide. }
    assert (Hw : forall st, waitingForBlocksCount_ (upd_req r (set_requestType st) w2) rq
                            = size_wrap (waitingForBlocksCount_ w rq - 1)).
    { intros st. unfold waitingForBlocksCount_ at 1. heap_norm. rewrite Hrq2, Hrq1.
      by case_bool_decide. }
    assert (Hst : forall st, state_ (upd_req r (set_requestType st) w2) rq
                  = (if bool_decide (size_wrap (waitingForBlocksCount_ w rq - 1) = 0)
                     then STREAM_STATE_OPEN_STREAMING else state_ w rq)).
    { intros st. unfold state_. heap_norm. rewrite Hrq2, Hrq1, Hc1.
      destruct (bool_decide (size_wrap _ = 0)); reflexivity. }
    assert (Hmp : serverMailboxQueue_ w2 = serverMailboxQueue_ w
                  /\ globalRequestPool_ w2 = globalRequestPool_ w).
    { unfold w2, set_state_. destruct (bool_decide _); done. }
    destruct Hmp as [Hm Hp].
    destruct (bool_decide (resultStatus (req w r) = NOERROR)) eqn:Hs; simpl;
      rewrite Hq, Hw, Hst; heap_norm; simpl; repeat split; done.
Qed.

(** ** C6: the server's READ_BLOCK handler *)

Section ReadBlockHandler.

Variable IO_DATA_BLOCK_DATA_CAPACITY_BYTES : Z.
Hypothesis capacity_nonneg : 0 <= IO_DATA_BLOCK_DATA_CAPACITY_BYTES.

Local Abbreviation CAP := IO_DATA_BLOCK_DATA_CAPACITY_BYTES.
Local Abbreviation block_read := (block_read IO_DATA_BLOCK_DATA_CAPACITY_BYTES).

Lemma fread_bytes_length (os : OsOutcome) :
  0 <= Z.of_nat (length (fread_bytes CAP os)) <= CAP.
Proof. unfold fread_bytes. rewrite length_take. lia. Qed.

Lemma os_error_nonzero (os : OsOutcome) : os_error os ≠ NOERROR.
Proof. unfold os_error. case_bool_decide; [done | done]. Qed.

Lemma block_read_valid (os : OsOutcome) :
  validCountBytes (block_read os) = Z.of_nat (length (fread_bytes CAP os))
  /\ capacityBytes (block_read os) = CAP
  /\ take (length (fread_bytes CAP os)) (data (block_read os)) = Some <$> fread_bytes CAP os
  /\ length (data (block_read os)) = Z.to_nat CAP.
Proof.
  unfold block_read, fread_into. simpl. repeat split.
  - rewrite take_app_length'; [done | by rewrite length_fmap].
  - pose proof (fread_bytes_length os).
    rewrite length_app, length_fmap, length_drop, length_replicate. lia.
Qed.

(** What [handleReadBlockRequest_io] leaves in the request and in the
    server's heap, for a request as [initAcquire] makes it (no data block
    yet) on a live file record. *)
Lemma handleReadBlockRequest_io_spec (os : OsOutcome) (r fh : nat) (rec : FileRecord)
    (w : World) :
  fileHandle (req w r) = Some fh ->
  fileRecords w !! fh = Some rec ->
  dataBlock (req w r) = None ->
  dataBlocks w !! nextDataBlock w = None ->
  exists w1,
    handleReadBlockRequest_io CAP os r w = Some w1 /\
    serverMailboxQueue_ w1 = serverMailboxQueue_ w /\
    globalRequestPool_ w1 = globalRequestPool_ w /\
    (forall x, x ≠ r -> req w1 x = req w x) /\
    resultQueuePtr (req w1 r) = resultQueuePtr (req w r) /\
    requestType (req w1 r) = requestType (req w r) /\
    clientInt (req w1 r) = clientInt (req w r) /\
    filePosition (req w1 r) = filePosition (req w r) /\
    links_client (req w1 r) = links_client (req w r) /\
    fileHandle (req w1 r) = Some fh /\
    (* the three outcomes of a read that was attempted *)
    (os_new_ok os = true -> os_fseek os = 0 ->
       let n := Z.of_nat (length (fread_bytes CAP os)) in
       (n = CAP ->
          resultStatus (req w1 r) = NOERROR /\ isAtEof (req w1 r) = false /\
          dataBlock (req w1 r) = Some (nextDataBlock w) /\
          dataBlocks w1 !! nextDataBlock w = Some (block_read os)) /\
       (n ≠ CAP -> os_feof os = true ->
          resultStatus (req w1 r) = NOERROR /\ isAtEof (req w1 r) = true /\
          dataBlock (req w1 r) = Some (nextDataBlock w) /\
          dataBlocks w1 !! nextDataBlock w = Some (block_read os)) /\
       (n ≠ CAP -> os_feof os = false ->
          resultStatus (req w1 r) ≠ NOERROR /\
          dataBlock (req w1 r) = None /\
          dataBlocks w1 = dataBlocks w)) /\
    (* every failure leaves no block *)
    (resultStatus (req w1 r) ≠ NOERROR -> dataBlock (req w1 r) = None) /\
    (* the reference count follows the block *)
    fileRecords w1 !! fh
    = Some (mkFileRecord (fp rec)
              (dependentClientCount rec
               + (match dataBlock (req w1 r) with Some _ => 1 | None => 0 end))).
Proof.
  intros Hfh Hrec Hdb Hfresh.
  assert (Hrec0 : mkFileRecord (fp rec) (dependentClientCount rec + 0) = rec)
    by (destruct rec; simpl; by rewrite Z.add_0_r).
  pose proof (block_read_valid os) as (Hv & Hc & _ & _).
  pose proof (os_error_nonzero os) as Herr.
  unfold handleReadBlockRequest_io. rewrite Hfh. unfold allocDataBlock.
  destruct (os_new_ok os) eqn:Hnew; simpl.
  2:{ (* the allocation failed *)
    heap_norm. simpl. rewrite Hdb. simpl.
    eexists. split; [reflexivity|]. heap_norm. simpl. rewrite Hdb, Hrec0.
    repeat split; intros; try done. by heap_norm. }
  destruct (bool_decide (os_fseek os ≠ 0)) eqn:Hseek.
  { (* the seek failed *)
    apply bool_decide_eq_true in Hseek.
    unfold freeDataBlock. simpl.
    change (req (set_dataBlocks ?m ?k ?w0) ?x) with (req w0 x).
    heap_norm. simpl.
    eexists. split; [reflexivity|].
    change (req (set_dataBlocks ?m ?k ?w0) ?x) with (req w0 x).
    heap_norm. simpl. rewrite Hrec0.
    repeat split; intros; try done.
    change (req (set_dataBlocks ?m ?k ?w0) ?x) with (req w0 x). by heap_norm. }
  apply bool_decide_eq_false in Hseek.
  rewrite !lookup_total_insert_eq. fold (block_read os).
  rewrite Hv, Hc.
  destruct (bool_decide (Z.of_nat (length (fread_bytes CAP os)) = CAP)) eqn:Hfull;
    [apply bool_decide_eq_true in Hfull | apply bool_decide_eq_false in Hfull].
  { change (req (set_dataBlocks ?m ?k ?w0) ?x) with (req w0 x).
    heap_norm. simpl. rewrite Hrec. simpl.
    eexists. split; [reflexivity|]. simpl.
    change (req (set_fileRecords ?m ?k ?w0) ?x) with (req w0 x).
    change (req (set_dataBlocks ?m ?k ?w0) ?x) with (req w0 x).
    heap_norm. simpl. rewrite lookup_insert_eq, insert_insert_eq, lookup_insert_eq.
    repeat split; intros; try done.
    change (req (set_fileRecords ?m ?k ?w0) ?x) with (req w0 x).
    change (req (set_dataBlocks ?m ?k ?w0) ?x) with (req w0 x). by heap_norm. }
  destruct (os_feof os) eqn:Heof.
  { change (req (set_dataBlocks ?m ?k ?w0) ?x) with (req w0 x).
    heap_norm. simpl. rewrite Hrec. simpl.
    eexists. split; [reflexivity|]. simpl.
    change (req (set_fileRecords ?m ?k ?w0) ?x) with (req w0 x).
    change (req (set_dataBlocks ?m ?k ?w0) ?x) with (req w0 x).
    heap_norm. simpl. rewrite lookup_insert_eq, insert_insert_eq, lookup_insert_eq.
    repeat split; intros; try done.
    change (req (set_fileRecords ?m ?k ?w0) ?x) with (req w0 x).
    change (req (set_dataBlocks ?m ?k ?w0) ?x) with (req w0 x). by heap_norm. }
  unfold freeDataBlock. simpl.
  change (req (set_dataBlocks ?m ?k ?w0) ?x) with (req w0 x).
  heap_norm. simpl.
  eexists. split; [reflexivity|]. simpl.
  change (req (set_dataBlocks ?m ?k ?w0) ?x) with (req w0 x).
  heap_norm. simpl. rewrite Hrec0, insert_insert_eq, delete_insert_eq.
  repeat split; intros; try done.
  - change (req (set_dataBlocks ?m ?k ?w0) ?x) with (req w0 x). by heap_norm.
  - by apply delete_id.
Qed.

(** C6.  For a READ_BLOCK request as the client sends it (no data block
    yet), on a live file record, whose stream has not been closed: the
    request is pushed on the stream's result queue, and
    - a read that fills the whole block replies success, not at end of
      file, with the block;
    - a short read with the end-of-file indicator set replies success, at
      end of file, with the partial block;
    - a short read without end of file replies a nonzero status and no
      block, and the block that was allocated is freed again;
    - whatever the operating system answers, the file record's count of
      dependent clients goes up by one exactly when the reply carries a data
      block, and is unchanged otherwise. *)
Theorem handleReadBlockRequest_spec (os : OsOutcome) (r c fh : nat) (rec : FileRecord)
    (w : World) :
  fileHandle (req w r) = Some fh ->
  fileRecords w !! fh = Some rec ->
  dataBlock (req w r) = None ->
  dataBlocks w !! nextDataBlock w = None ->
  resultQueuePtr (req w r) = Some c ->
  c ≠ r ->
  requestType (req w c) ≠ RESULT_QUEUE_IS_AWAITING_CLEANUP_ ->
  exists w',
    handleReadBlockRequest CAP os r w = Some w' /\
    rq_nodes (resultQueue (req w' c)) = rq_nodes (resultQueue (req w c)) ++ [r] /\
    (os_new_ok os = true -> os_fseek os = 0 ->
       let n := Z.of_nat (length (fread_bytes CAP os)) in
       (n = CAP ->
          resultStatus (req w' r) = NOERROR /\ isAtEof (req w' r) = false /\
          exists b blk,
            dataBlock (req w' r) = Some b /\ dataBlocks w' !! b = Some blk /\
            validCountBytes blk = CAP /\
            take (length (fread_bytes CAP os)) (data blk) = Some <$> fread_bytes CAP os) /\
       (n ≠ CAP -> os_feof os = true ->
          resultStatus (req w' r) = NOERROR /\ isAtEof (req w' r) = true /\
          exists b blk,
            dataBlock (req w' r) = Some b /\ dataBlocks w' !! b = Some blk /\
            validCountBytes blk = n /\
            take (length (fread_bytes CAP os)) (data blk) = Some <$> fread_bytes CAP os) /\
       (n ≠ CAP -> os_feof os = false ->
          resultStatus (req w' r) ≠ NOERROR /\
          dataBlock (req w' r) = None /\
          dataBlocks w' = dataBlocks w)) /\
    exists rec',
      fileRecords w' !! fh = Some rec' /\
      (dataBlock (req w' r) ≠ None ->
         dependentClientCount rec' = dependentClientCount rec + 1) /\
      (dataBlock (req w' r) = None ->
         dependentClientCount rec' = dependentClientCount rec).
Proof.
  intros Hfh Hrec Hdb Hfresh Hc Hne Hcont.
  destruct (handleReadBlockRequest_io_spec os r fh rec w Hfh Hrec Hdb Hfresh)
    as (w1 & Hio & _ & _ & Hoth & Hptr & _ & _ & _ & _ & _ & Hread & _ & Hcount).
  pose proof (block_read_valid os) as (Hv & _ & Htake & _).
  unfold handleReadBlockRequest. rewrite Hio. simpl. rewrite Hptr, Hc. simpl.
  unfold completeRequestToClientResultQueue.
  rewrite (Hoth c) by done.
  rewrite bool_decide_eq_false_2 by done.
  eexists. split; [reflexivity|].
  assert (Hr' : req (upd_req c (fun c0 => set_resultQueue (rq_push r (resultQueue c0)) c0) w1) r
                = req w1 r) by (by heap_norm).
  rewrite Hr'. heap_norm. simpl. rewrite (Hoth c) by done.
  split; [done|]. split.
  - intros Hnew Hseek. destruct (Hread Hnew Hseek) as (Hfull & Heof & Hfail).
    split; [|split].
    + intros Hn. destruct (Hfull Hn) as (? & ? & Hb & Hblk).
      split; [done|]. split; [done|].
      exists (nextDataBlock w), (block_read os). repeat split; try done.
    + intros Hn He. destruct (Heof Hn He) as (? & ? & Hb & Hblk).
      split; [done|]. split; [done|].
      exists (nextDataBlock w), (block_read os). repeat split; done.
    + done.
  - eexists. split; [exact Hcount|]. simpl.
    destruct (dataBlock (req w1 r)); split; intros; try done; lia.
Qed.

End ReadBlockHandler.

(** ** The concrete run: the witnesses of C5 and C6 *)

Lemma receiveOneBlock_spec_witness :
  rq_pop (resultQueue (req (demo_replied 0) demo_stream))
  = Some (2%nat, ResultQueue (seq 3 19) 19)
  /\ state_ (snd (receiveOneBlock demo_stream (demo_replied 0))) demo_stream
     = STREAM_STATE_OPEN_BUFFERING
  /\ waitingForBlocksCount_ (snd (receiveOneBlock demo_stream (demo_replied 0))) demo_stream
     = 19
  /\ requestType (req (snd (receiveOneBlock demo_stream (demo_replied 0))) 2%nat)
     = BLOCK_STATE_READY.
Proof.
  assert (Hpop : rq_pop (resultQueue (req (demo_replied 0) demo_stream))
                 = Some (2%nat, ResultQueue (seq 3 19) 19))
    by (vm_compute; reflexivity).
  assert (Hne : 2%nat ≠ demo_stream) by (vm_compute; lia).
  pose proof (receiveOneBlock_spec demo_stream 2%nat _ (demo_replied 0) Hpop Hne)
    as (_ & _ & _ & Hlive).
  assert (Hd : isDiscarded (req (demo_replied 0) 2%nat) = false)
    by (vm_compute; reflexivity).
  destruct (Hlive Hd) as (Hc & Hs & Ht & _).
  split; [exact Hpop|]. split; [|split].
  - rewrite Hs, Hc. vm_compute. reflexivity.
  - rewrite Hc. vm_compute. reflexivity.
  - rewrite Ht. vm_compute. reflexivity.
Defined.

Lemma handleReadBlockRequest_spec_witness :
  exists w',
    handleReadBlockRequest demo_capacity
      (regular_os demo_capacity demo_fs (demo_seeked 0)) 2%nat (demo_seeked 0) = Some w'
    /\ rq_nodes (resultQueue (req w' demo_stream)) = [2%nat]
    /\ resultStatus (req w' 2%nat) = NOERROR
    /\ isAtEof (req w' 2%nat) = false.
Proof.
  assert (H0 : 0 <= demo_capacity) by (vm_compute; discriminate).
  destruct (handleReadBlockRequest_spec demo_capacity H0
              (regular_os demo_capacity demo_fs (demo_seeked 0))
              2%nat demo_stream 0%nat
              (mkFileRecord [10; 11; 12; 13; 14; 15; 16; 17; 18; 19] 1)
              (demo_seeked 0))
    as (w' & Hrun & Hq & Hread & _).
  - vm_compute; reflexivity.
  - vm_compute; reflexivity.
  - vm_compute; reflexivity.
  - vm_compute; reflexivity.
  - vm_compute; reflexivity.
  - vm_compute; lia.
  - vm_compute; discriminate.
  - exists w'. split; [exact Hrun|]. split; [exact Hq|].
    destruct Hread as (Hfull & _ & _).
    + vm_compute; reflexivity.
    + vm_compute; reflexivity.
    + destruct Hfull as (Hs & He & _); [vm_compute; reflexivity|].
      split; [exact Hs | exact He].
Defined.

(** ** C10: the assertion on a discarded reply that failed *)

(** The server never returns a block with an error: whatever the operating
    system answers, a READ_BLOCK request that arrived without a data block
    and leaves [handleReadBlockRequest_io] with a nonzero status still has
    none. *)
Lemma read_error_has_no_block (capacity : Z) (os : OsOutcome) (r : nat) (w w1 : World) :
  dataBlock (req w r) = None ->
  handleReadBlockRequest_io capacity os r w = Some w1 ->
  resultStatus (req w1 r) ≠ NOERROR ->
  hasDataBlock (req w1 r) = false.
Proof.
  intros Hdb Hrun Hst. unfold hasDataBlock.
  apply bool_decide_eq_false. intros Hblk. apply Hblk. clear Hblk.
  revert Hrun. unfold handleReadBlockRequest_io, allocDataBlock.
  destruct (fileHandle (req w r)) as [fh|] eqn:Hfh.
  2:{ heap_norm. simpl. rewrite Hdb. simpl. intros [= <-].
      heap_norm. simpl. done. }
  destruct (os_new_ok os).
  2:{ heap_norm. simpl. rewrite Hdb. simpl. intros [= <-].
      heap_norm. simpl. done. }
  simpl.
  destruct (bool_decide (os_fseek os ≠ 0)).
  { unfold freeDataBlock.
    change (req (set_dataBlocks ?m ?k ?w0) ?x) with (req w0 x).
    heap_norm. simpl. intros [= <-].
    change (req (set_dataBlocks ?m ?k ?w0) ?x) with (req w0 x).
    heap_norm. simpl. done. }
  set (blk := fread_into capacity os _).
  destruct (bool_decide (validCountBytes _ = capacityBytes _)).
  { change (req (set_dataBlocks ?m ?k ?w0) ?x) with (req w0 x).
    heap_norm. simpl. destruct (fileRecords _ !! fh); simpl; [|done].
    intros [= <-]. exfalso. apply Hst.
    change (req (set_fileRecords ?m ?k ?w0) ?x) with (req w0 x).
    change (req (set_dataBlocks ?m ?k ?w0) ?x) with (req w0 x).
    heap_norm. done. }
  destruct (os_feof os).
  { change (req (set_dataBlocks ?m ?k ?w0) ?x) with (req w0 x).
    heap_norm. simpl. destruct (fileRecords _ !! fh); simpl; [|done].
    intros [= <-]. exfalso. apply Hst.
    change (req (set_fileRecords ?m ?k ?w0) ?x) with (req w0 x).
    change (req (set_dataBlocks ?m ?k ?w0) ?x) with (req w0 x).
    heap_norm. done. }
  unfold freeDataBlock.
  change (req (set_dataBlocks ?m ?k ?w0) ?x) with (req w0 x).
  heap_norm. simpl. intros [= <-].
  change (req (set_dataBlocks ?m ?k ?w0) ?x) with (req w0 x).
  heap_norm. simpl. done.
Qed.

(** C10.  The run: the stream seeks twice, so the first request (node 2) is
    discarded while in flight; the server's [fread] for it comes back short
    without end of file.  The reply the client then pops is marked
    discarded and carries a nonzero status, and it holds no data block: the
    asserted condition is false. *)
Theorem discarded_failure_assertion_fails :
  exists w1,
    handleOneRequest demo_capacity os_short_read demo_reseeked = Some w1
    /\ rq_pop (resultQueue (req w1 demo_stream)) = Some (2%nat, ResultQueue [] 39)
    /\ isAcquireBlockRequest (req w1 2%nat) = true
    /\ isDiscarded (req w1 2%nat) = true
    /\ resultStatus (req w1 2%nat) = EIO
    /\ discarded_failure_assertion w1 2%nat = false.
Proof.
  eexists. split; [vm_compute; reflexivity|].
  repeat split; vm_compute; reflexivity.
Qed.

(** ** C1: the bytes a stream delivers *)

(** C1.  The run: a file of ten bytes, blocks of four bytes, [seek(11)].
    The block at offset 8 holds two valid bytes and the cursor starts at 3,
    so the count of bytes left in the block wraps around; a [read] of one
    byte returns one item, an indeterminate byte of the buffer, although
    the file has no byte at offset 11. *)
Theorem read_after_seek_past_eof :
  state_ (demo_replied 11) demo_stream = STREAM_STATE_OPEN_BUFFERING
  /\ drop 11 [10; 11; 12; 13; 14; 15; 16; 17; 18; 19] = ([] : list Z)
  /\ (fst <$> read_or_write demo_capacity 1 1 demo_stream (demo_replied 11))
     = Some (1, [None]).
Proof. repeat split; vm_compute; reflexivity. Qed.

(** ** C7: the cleanup protocol *)

Lemma releaseFileRecordClientRef_spec (fh : nat) (w w1 : World) :
  releaseFileRecordClientRef fh w = Some w1 ->
  fileRecords w1 = released fh (fileRecords w)
  /\ requests w1 = requests w
  /\ globalRequestPool_ w1 = globalRequestPool_ w
  /\ serverMailboxQueue_ w1 = serverMailboxQueue_ w
  /\ dataBlocks w1 = dataBlocks w.
Proof.
  unfold releaseFileRecordClientRef, released.
  destruct (fileRecords w !! fh) as [rec|]; simpl; [|done].
  destruct (bool_decide _); intros [= <-]; done.
Qed.

(** The per-kind cleanup of one result: the node is freed; what it held is
    released first, under the request type of the release. *)
Lemma cleanupOneRequestResult_spec (r : nat) (w w1 : World) :
  returns_result (req w r) ->
  cleanupOneRequestResult r w = Some w1 ->
  globalRequestPool_ w1 = r :: globalRequestPool_ w
  /\ serverMailboxQueue_ w1 = serverMailboxQueue_ w
  /\ requestType (req w1 r) = cleaned_type (req w r)
  /\ resultQueue (req w1 r) = resultQueue (req w r)
  /\ (forall x, x ≠ r -> req w1 x = req w x)
  /\ fileRecords w1
     = match held_file (req w r) with
       | Some fh => released fh (fileRecords w)
       | None => fileRecords w
       end
  /\ dataBlocks w1
     = match held_block (req w r) with
       | Some b => delete b (dataBlocks w)
       | None => dataBlocks w
       end.
Proof.
  intros Hkind. unfold cleanupOneRequestResult, cleaned_type, held_file, held_block.
  destruct Hkind as [Hk|[Hk|Hk]]; rewrite Hk.
  - (* OPEN_FILE *)
    heap_norm. simpl.
    destruct (bool_decide (fileHandle (req w r) ≠ None)) eqn:Hfh.
    + apply bool_decide_eq_true in Hfh.
      destruct (fileHandle (req w r)) as [fh|] eqn:Hfh'; [|done].
      unfold handleCloseFileRequest. heap_norm. simpl. rewrite Hfh'. simpl.
      destruct (releaseFileRecordClientRef fh _) as [w2|] eqn:Hrel; simpl; [|done].
      apply releaseFileRecordClientRef_spec in Hrel as (Hf & Hr & Hp & Hm & Hd).
      intros [= <-]. simpl. rewrite Hp, Hm, Hf, Hd.
      unfold req. simpl. rewrite Hr. fold (req w r).
      repeat split; intros; fold_req; heap_norm; done.
    + apply bool_decide_eq_false in Hfh.
      destruct (fileHandle (req w r)) as [fh|] eqn:Hfh'; [by destruct Hfh|].
      intros [= <-]. simpl. repeat split; intros; heap_norm; done.
  - (* READ_BLOCK *)
    destruct (bool_decide (dataBlock (req w r) ≠ None)) eqn:Hdb.
    + apply bool_decide_eq_true in Hdb.
      destruct (dataBlock (req w r)) as [b|] eqn:Hdb'; [|done].
      unfold handleReleaseReadBlockRequest. heap_norm. simpl. rewrite Hdb'. simpl.
      unfold freeDataBlock.
      change (req (set_dataBlocks ?m ?k ?w0) ?x) with (req w0 x).
      heap_norm. simpl.
      destruct (fileHandle (req w r)) as [fh|] eqn:Hfh'; simpl; [|done].
      destruct (releaseFileRecordClientRef fh _) as [w2|] eqn:Hrel; simpl; [|done].
      apply releaseFileRecordClientRef_spec in Hrel as (Hf & Hr & Hp & Hm & Hd).
      intros [= <-]. simpl. rewrite Hp, Hm, Hf, Hd.
      unfold req. simpl. rewrite Hr. fold (req w r).
      repeat split; intros; fold_req; heap_norm; done.
    + apply bool_decide_eq_false in Hdb.
      destruct (dataBlock (req w r)) as [b|] eqn:Hdb'; [by destruct Hdb|].
      intros [= <-]. simpl. repeat split; done.
  - (* ALLOCATE_WRITE_BLOCK *)
    destruct (bool_decide (dataBlock (req w r) ≠ None)) eqn:Hdb.
    + apply bool_decide_eq_true in Hdb.
      destruct (dataBlock (req w r)) as [b|] eqn:Hdb'; [|done].
      unfold handleReleaseUnmodifiedWriteBlockRequest. heap_norm. simpl.
      rewrite Hdb'. simpl. unfold freeDataBlock.
      change (req (set_dataBlocks ?m ?k ?w0) ?x) with (req w0 x).
      heap_norm. simpl.
      destruct (fileHandle (req w r)) as [fh|] eqn:Hfh'; simpl; [|done].
      destruct (releaseFileRecordClientRef fh _) as [w2|] eqn:Hrel; simpl; [|done].
      apply releaseFileRecordClientRef_spec in Hrel as (Hf & Hr & Hp & Hm & Hd).
      intros [= <-]. simpl. rewrite Hp, Hm, Hf, Hd.
      unfold req. simpl. rewrite Hr. fold (req w r).
      repeat split; intros; fold_req; heap_norm; done.
    + apply bool_decide_eq_false in Hdb.
      destruct (dataBlock (req w r)) as [b|] eqn:Hdb'; [by destruct Hdb|].
      intros [= <-]. simpl. repeat split; done.
Qed.

Lemma popped_count_exact (n : nat) (cnt : Z) :
  Z.of_nat n <= cnt < SIZE_MODULUS -> popped_count n cnt = cnt - Z.of_nat n.
Proof.
  unfold popped_count. induction n as [|n IH]; intros H.
  - simpl. lia.
  - rewrite Nat.iter_succ, IH by lia. rewrite size_wrap_small; lia.
Qed.

(** The draining loop of [handleCleanupResultQueueRequest]: every queued
    result goes through the per-kind cleanup, in queue order. *)
Lemma cleanupQueuedResults_spec (c : nat) (nodes : list nat) :
  forall (fuel : nat) (cnt : Z) (w w' : World),
    resultQueue (req w c) = ResultQueue nodes cnt ->
    c ∉ nodes ->
    NoDup nodes ->
    (forall r, r ∈ nodes -> returns_result (req w r)) ->
    cleanupQueuedResults fuel c w = Some w' ->
    resultQueue (req w' c) = ResultQueue [] (popped_count (length nodes) cnt)
    /\ globalRequestPool_ w' = rev nodes ++ globalRequestPool_ w
    /\ serverMailboxQueue_ w' = serverMailboxQueue_ w
    /\ requestType (req w' c) = requestType (req w c)
    /\ (forall r, r ∈ nodes -> requestType (req w' r) = cleaned_type (req w r))
    /\ (forall x, x ∉ nodes -> x ≠ c -> req w' x = req w x).
Proof.
  induction nodes as [|r rest IH]; intros fuel cnt w w' Hq Hc Hnd Hkind Hrun.
  - destruct fuel; simpl in Hrun; unfold rq_pop in Hrun; rewrite Hq in Hrun;
      simpl in Hrun; injection Hrun as <-; repeat split; try done;
      intros x Hx; by apply elem_of_nil in Hx.
  - apply not_elem_of_cons in Hc as [Hcr Hc].
    apply NoDup_cons in Hnd as [Hr Hnd].
    assert (Hpop : rq_pop (resultQueue (req w c))
                   = Some (r, ResultQueue rest (size_wrap (cnt - 1))))
      by (unfold rq_pop; by rewrite Hq).
    destruct fuel as [|fuel]; simpl in Hrun; rewrite Hpop in Hrun; [done|].
    set (w0 := upd_req c (set_resultQueue (ResultQueue rest (size_wrap (cnt - 1)))) w)
      in Hrun.
    destruct (cleanupOneRequestResult r w0) as [w1|] eqn:Hclean; simpl in Hrun; [|done].
    assert (Hr0 : forall x, x ≠ c -> req w0 x = req w x)
      by (intros x Hx; unfold w0; by heap_norm).
    assert (Hk0 : returns_result (req w0 r)).
    { unfold returns_result. rewrite Hr0 by done. apply Hkind. by left. }
    apply cleanupOneRequestResult_spec in Hclean
      as (Hp1 & Hm1 & Ht1 & _ & Ho1 & _ & _); [|done].
    destruct (IH fuel (size_wrap (cnt - 1)) w1 w') as (Hq' & Hp' & Hm' & Hc' & Ht' & Ho').
    + rewrite Ho1 by done. unfold w0. by heap_norm.
    + done.
    + done.
    + intros x Hx. unfold returns_result.
      rewrite Ho1 by (intros ->; done). rewrite Hr0 by (intros ->; done).
      apply Hkind. by right.
    + done.
    + split.
      { rewrite Hq'. f_equal. unfold popped_count. simpl length.
        by rewrite Nat.iter_succ_r. }
      split.
      { rewrite Hp', Hp1. simpl. by rewrite <- app_assoc. }
      split; [by rewrite Hm', Hm1|].
      split.
      { rewrite Hc', Ho1 by done. unfold w0. by heap_norm. }
      split.
      { intros x [->|Hx]%elem_of_cons.
        - rewrite Ho' by done. rewrite Ht1. by rewrite Hr0.
        - rewrite Ht' by done. unfold cleaned_type.
          rewrite Ho1 by (intros ->; done). by rewrite Hr0 by (intros ->; done). }
      intros x Hx Hxc. apply not_elem_of_cons in Hx as [Hxr Hx].
      rewrite Ho' by done. rewrite Ho1 by done. by apply Hr0.
Qed.

(** The fuel that [handleCleanupResultQueueRequest] gives the loop never
    cuts it short: with a turn per queued result, more fuel changes
    nothing. *)
Lemma cleanupQueuedResults_fuel (c : nat) (nodes : list nat) :
  forall (fuel : nat) (cnt : Z) (w : World),
    resultQueue (req w c) = ResultQueue nodes cnt ->
    c ∉ nodes ->
    NoDup nodes ->
    (forall r, r ∈ nodes -> returns_result (req w r)) ->
    (length nodes <= fuel)%nat ->
    cleanupQueuedResults fuel c w = cleanupQueuedResults (length nodes) c w.
Proof.
  induction nodes as [|r rest IH]; intros fuel cnt w Hq Hc Hnd Hkind Hlen.
  - destruct fuel; simpl; unfold rq_pop; by rewrite Hq.
  - apply not_elem_of_cons in Hc as [Hcr Hc].
    apply NoDup_cons in Hnd as [Hr Hnd].
    assert (Hpop : rq_pop (resultQueue (req w c))
                   = Some (r, ResultQueue rest (size_wrap (cnt - 1))))
      by (unfold rq_pop; by rewrite Hq).
    destruct fuel as [|fuel]; [simpl in Hlen; lia|].
    simpl. rewrite Hpop.
    set (w0 := upd_req c (set_resultQueue (ResultQueue rest (size_wrap (cnt - 1)))) w).
    destruct (cleanupOneRequestResult r w0) as [w1|] eqn:Hclean; simpl; [|done].
    assert (Hr0 : forall x, x ≠ c -> req w0 x = req w x)
      by (intros x Hx; unfold w0; by heap_norm).
    assert (Hk0 : returns_result (req w0 r)).
    { unfold returns_result. rewrite Hr0 by done. apply Hkind. by left. }
    apply cleanupOneRequestResult_spec in Hclean
      as (_ & _ & _ & _ & Ho1 & _ & _); [|done].
    apply (IH fuel (size_wrap (cnt - 1))).
    + rewrite Ho1 by done. unfold w0. by heap_norm.
    + done.
    + done.
    + intros x Hx. unfold returns_result.
      rewrite Ho1 by (intros ->; done). rewrite Hr0 by (intros ->; done).
      apply Hkind. by right.
    + simpl in Hlen. lia.
Qed.

Lemma elem_of_rev (x : nat) (l : list nat) : x ∈ l -> x ∈ rev l.
Proof. intros H. apply list_elem_of_In, in_rev. rewrite rev_involutive. by apply list_elem_of_In. Qed.

(** The steps of the cleanup protocol.  For a container [c] whose queue
    holds distinct results, none of them [c] itself, each of a kind that
    returns results, with an expected-result count that covers them:
    - handling CLEANUP_RESULT_QUEUE drains the queue, every queued result
      going through the per-kind cleanup (it is turned into the request that
      releases what it holds, and freed); the count that remains is the
      count of results still in flight; the container is freed exactly when
      that count is zero and is re-tagged RESULT_QUEUE_IS_AWAITING_CLEANUP_
      otherwise;
    - a later reply to a container so tagged is not pushed on its queue: it
      goes through the same per-kind cleanup, which leaves the
      expected-result count as it was, and the container is freed exactly
      when that count is zero;
    - a reply to a container that is not so tagged is pushed on its queue. *)
Lemma cleanup_protocol (c : nat) (w : World) :
  let q := resultQueue (req w c) in
  c ∉ rq_nodes q ->
  NoDup (rq_nodes q) ->
  (forall r, r ∈ rq_nodes q -> returns_result (req w r)) ->
  Z.of_nat (length (rq_nodes q)) <= rq_expectedResultCount q < SIZE_MODULUS ->
  (forall w',
     handleCleanupResultQueueRequest c w = Some w' ->
     let remaining := rq_expectedResultCount q - Z.of_nat (length (rq_nodes q)) in
     (forall r, r ∈ rq_nodes q ->
        r ∈ globalRequestPool_ w' /\ requestType (req w' r) = cleaned_type (req w r))
     /\ rq_nodes (resultQueue (req w' c)) = []
     /\ rq_expectedResultCount (resultQueue (req w' c)) = remaining
     /\ (remaining = 0 ->
           globalRequestPool_ w' = c :: rev (rq_nodes q) ++ globalRequestPool_ w
           /\ requestType (req w' c) = requestType (req w c))
     /\ (remaining ≠ 0 ->
           globalRequestPool_ w' = rev (rq_nodes q) ++ globalRequestPool_ w
           /\ requestType (req w' c) = RESULT_QUEUE_IS_AWAITING_CLEANUP_))
  /\ (forall r w',
        requestType (req w c) = RESULT_QUEUE_IS_AWAITING_CLEANUP_ ->
        r ≠ c ->
        returns_result (req w r) ->
        completeRequestToClientResultQueue c r w = Some w' ->
        resultQueue (req w' c) = q
        /\ requestType (req w' r) = cleaned_type (req w r)
        /\ (rq_expectedResultCount q = 0 ->
              globalRequestPool_ w' = c :: r :: globalRequestPool_ w)
        /\ (rq_expectedResultCount q ≠ 0 ->
              globalRequestPool_ w' = r :: globalRequestPool_ w
              /\ requestType (req w' c) = RESULT_QUEUE_IS_AWAITING_CLEANUP_))
  /\ (forall r,
        requestType (req w c) ≠ RESULT_QUEUE_IS_AWAITING_CLEANUP_ ->
        completeRequestToClientResultQueue c r w
        = Some (upd_req c (fun n => set_resultQueue (rq_push r (resultQueue n)) n) w)).
Proof.
  intros q Hc Hnd Hkind Hcnt. split; [|split].
  - intros w' Hrun remaining. unfold handleCleanupResultQueueRequest in Hrun.
    fold q in Hrun.
    destruct (bool_decide (rq_expectedResultCount q > 0)) eqn:Hpos.
    + destruct (cleanupQueuedResults _ c w) as [w1|] eqn:Hloop; simpl in Hrun; [|done].
      assert (Hq : resultQueue (req w c) = ResultQueue (rq_nodes q) (rq_expectedResultCount q))
        by (by destruct (resultQueue (req w c))).
      destruct (cleanupQueuedResults_spec c (rq_nodes q) _ _ w w1 Hq Hc Hnd Hkind Hloop)
        as (Hq1 & Hp1 & _ & Hc1 & Ht1 & Ho1).
      rewrite popped_count_exact in Hq1 by done. fold remaining in Hq1.
      rewrite Hq1 in Hrun. simpl in Hrun.
      destruct (bool_decide (remaining = 0)) eqn:Hrem;
        [apply bool_decide_eq_true in Hrem | apply bool_decide_eq_false in Hrem];
        injection Hrun as <-; simpl.
      * heap_norm. rewrite Hq1, Hp1, Hc1. simpl.
        repeat split; try done.
        -- apply elem_of_cons. right. apply elem_of_app. left.
           by apply elem_of_rev.
        -- heap_norm. by apply Ht1.
      * heap_norm. simpl. rewrite Hq1, Hp1. simpl.
        repeat split; try done.
        -- apply elem_of_app. left. by apply elem_of_rev.
        -- rewrite req_upd_req_ne by (intros ->; done). by apply Ht1.
    + apply bool_decide_eq_false in Hpos.
      assert (Hnil : rq_nodes q = []) by (destruct (rq_nodes q); [done | simpl in Hcnt; lia]).
      assert (Hrem : remaining = 0) by (unfold remaining; rewrite Hnil; simpl; lia).
      injection Hrun as <-. simpl. heap_norm. fold q. rewrite Hnil. simpl.
      repeat split; try done;
        try match goal with H : _ ∈ [] |- _ => by apply elem_of_nil in H end.
      unfold remaining in Hrem. rewrite Hnil in Hrem. simpl in Hrem. lia.
  - intros r w' Htag Hne Hres Hrun.
    unfold completeRequestToClientResultQueue in Hrun.
    rewrite bool_decide_eq_true_2 in Hrun by done.
    destruct (cleanupOneRequestResult r w) as [w1|] eqn:Hclean; simpl in Hrun; [|done].
    apply cleanupOneRequestResult_spec in Hclean
      as (Hp1 & _ & Ht1 & _ & Ho1 & _ & _); [|done].
    rewrite (Ho1 c) in Hrun by done. fold q in Hrun.
    destruct (bool_decide (rq_expectedResultCount q = 0)) eqn:Hz;
      [apply bool_decide_eq_true in Hz | apply bool_decide_eq_false in Hz];
      injection Hrun as <-; simpl; heap_norm; rewrite ?(Ho1 c) by done;
      repeat split; try done; by rewrite ?Hp1.
  - intros r Htag. unfold completeRequestToClientResultQueue.
    by rewrite bool_decide_eq_false_2.
Qed.

Lemma cleanup_protocol_witness :
  exists w',
    handleCleanupResultQueueRequest demo_stream demo_closed = Some w'
    /\ rq_nodes (resultQueue (req demo_closed demo_stream)) = seq 2 20
    /\ rq_expectedResultCount (resultQueue (req demo_closed demo_stream)) = 20
    /\ rq_nodes (resultQueue (req w' demo_stream)) = []
    /\ globalRequestPool_ w'
       = demo_stream :: rev (seq 2 20) ++ globalRequestPool_ demo_closed.
Proof.
  assert (Hq : rq_nodes (resultQueue (req demo_closed demo_stream)) = seq 2 20)
    by (vm_compute; reflexivity).
  assert (Hn : rq_expectedResultCount (resultQueue (req demo_closed demo_stream)) = 20)
    by (vm_compute; reflexivity).
  destruct (handleCleanupResultQueueRequest demo_stream demo_closed) as [w'|] eqn:Hrun;
    [|vm_compute in Hrun; discriminate].
  destruct (cleanup_protocol demo_stream demo_closed) as (Hclean & _ & _).
  - rewrite Hq. refine (bool_decide_unpack _ _); vm_compute; exact I.
  - rewrite Hq. apply NoDup_seq.
  - rewrite Hq. apply Forall_forall.
    apply (Forall_impl (fun r => requestType (req demo_closed r) = READ_BLOCK)).
    + refine (bool_decide_unpack _ _); vm_compute; exact I.
    + intros r Hr. right. by left.
  - rewrite Hq, Hn. vm_compute. split; [discriminate | reflexivity].
  - destruct (Hclean w' Hrun) as (_ & Hnil & _ & Hfree & _).
    exists w'. split; [reflexivity|]. split; [exact Hq|]. split; [exact Hn|].
    split; [exact Hnil|].
    rewrite <- Hq. apply Hfree. rewrite Hq, Hn. vm_compute. reflexivity.
Defined.

(** A reply to a container that is tagged RESULT_QUEUE_IS_AWAITING_CLEANUP_
    changes nothing in the container: the reply is not pushed, and the
    count of expected results, which only [pop] decrements, is what it
    was.  With a count that is not zero the container is not freed. *)
Lemma awaiting_container_stays (c r : nat) (w w' : World) :
  requestType (req w c) = RESULT_QUEUE_IS_AWAITING_CLEANUP_ ->
  rq_expectedResultCount (resultQueue (req w c)) ≠ 0 ->
  r ≠ c ->
  returns_result (req w r) ->
  completeRequestToClientResultQueue c r w = Some w' ->
  req w' c = req w c /\ globalRequestPool_ w' = r :: globalRequestPool_ w.
Proof.
  intros Htag Hcnt Hne Hres Hrun.
  unfold completeRequestToClientResultQueue in Hrun.
  rewrite bool_decide_eq_true_2 in Hrun by done.
  destruct (cleanupOneRequestResult r w) as [w1|] eqn:Hclean; simpl in Hrun; [|done].
  apply cleanupOneRequestResult_spec in Hclean
    as (Hp1 & _ & _ & _ & Ho1 & _ & _); [|done].
  rewrite (Ho1 c) in Hrun by done.
  rewrite bool_decide_eq_false_2 in Hrun by done.
  injection Hrun as <-. split; [by apply Ho1|done].
Qed.


(** ** The invariant of a stream is kept by every step

    The lemmas named [..._Core] show, one primitive step of the client or
    of the server at a time, that the invariant [Core] holds after the step
    if it held before. *)

(** *** Writes do not shrink the store *)

Lemma dom_upd_req (r : nat) (f : FileIoRequest -> FileIoRequest) (w : World) (x : nat) :
  x ∈ dom (requests w) -> x ∈ dom (requests (upd_req r f w)).
Proof. unfold upd_req. simpl. rewrite dom_insert_L. set_solver. Qed.

Lemma dom_send (r : nat) (w : World) (x : nat) :
  x ∈ dom (requests w) -> x ∈ dom (requests (sendFileIoRequestToServer r w)).
Proof. done. Qed.

Lemma dom_free (r : nat) (w : World) (x : nat) :
  x ∈ dom (requests w) -> x ∈ dom (requests (freeFileIoRequest r w)).
Proof. done. Qed.

Lemma dom_set_state_ (st : RequestType) (rq : nat) (w : World) (x : nat) :
  x ∈ dom (requests w) -> x ∈ dom (requests (set_state_ st rq w)).
Proof. apply dom_upd_req. Qed.

Lemma dom_set_pool (p : list nat) (w : World) (x : nat) :
  x ∈ dom (requests w) -> x ∈ dom (requests (set_pool p w)).
Proof. done. Qed.

Ltac solve_dom :=
  repeat first
    [ assumption
    | apply dom_send
    | apply dom_free
    | apply dom_set_state_
    | apply dom_set_pool
    | apply dom_upd_req ].

(** Case analysis on the address tests of the goal. *)
Ltac goal_decide :=
  repeat match goal with
         | |- context [@decide ?P ?d] => destruct (@decide P d)
         end.

(** Distinctness of the nodes in transit after a node has moved, from
    distinctness before. *)
Ltac solve_nodup H :=
  clear -H;
  repeat (rewrite ?NoDup_app, ?NoDup_cons, ?NoDup_nil in H);
  repeat (rewrite ?NoDup_app, ?NoDup_cons, ?NoDup_nil);
  set_solver.

Lemma transit_facts (P M Q : list nat) :
  NoDup (P ++ M ++ Q)
  <-> NoDup P /\ NoDup M /\ NoDup Q
      /\ (forall x, x ∈ P -> x ∉ M) /\ (forall x, x ∈ P -> x ∉ Q)
      /\ (forall x, x ∈ M -> x ∉ Q).
Proof. rewrite !NoDup_app. set_solver +. Qed.

Lemma dom_upd_req_in (r : nat) (f : FileIoRequest -> FileIoRequest) (w : World) :
  r ∈ dom (requests w) -> dom (requests (upd_req r f w)) = dom (requests w).
Proof. intros H. unfold upd_req. simpl. rewrite dom_insert_L. set_solver +H. Qed.

(** The store keeps its domain under writes to nodes it holds. *)
Ltac dom_eq :=
  repeat first
    [ progress change (requests (sendFileIoRequestToServer ?r ?w)) with (requests w)
    | progress change (requests (freeFileIoRequest ?r ?w)) with (requests w)
    | progress change (requests (set_pool ?r ?w)) with (requests w)
    | progress unfold set_state_
    | rewrite dom_upd_req_in by solve_dom ];
  reflexivity.

(** The parts of the invariant, by name. *)
Ltac open_shape HS :=
  pose proof HS as [shape_open0 shape_open_ne0 shape_lseg0 shape_tail0 shape_nodup0
                      shape_root0 shape_open_fifo0 shape_order0 shape_length0
                      shape_range0].

Ltac open_owner HO :=
  pose proof HO as [own_open_type0 own_open_ptr0 own_state0 own_transit0 own_root0
                      own_open_pool0 own_fifo_pool0 own_fifo0 own_mailbox0 own_queue0
                      own_opening0 own_opened0].

Ltac open_core HC :=
  destruct HC as [HS HO HE HN HD]; open_shape HS; open_owner HO.

Section Invariant.

Variable IO_DATA_BLOCK_DATA_CAPACITY_BYTES : Z.
Local Abbreviation CAP := IO_DATA_BLOCK_DATA_CAPACITY_BYTES.
Local Abbreviation Core := (Core IO_DATA_BLOCK_DATA_CAPACITY_BYTES).
Local Abbreviation Shape := (Shape IO_DATA_BLOCK_DATA_CAPACITY_BYTES).
Local Abbreviation file_order := (file_order IO_DATA_BLOCK_DATA_CAPACITY_BYTES).

(** *** Frame lemmas: what depends on which fields *)

Lemma lseg_ext (w w' : World) (l : list nat) :
  forall p,
    (forall x, x ∈ l -> links_client (req w' x) = links_client (req w x)) ->
    lseg w p l -> lseg w' p l.
Proof.
  induction l as [|y l IH]; intros p Hext H; simpl in *; first done.
  destruct H as [-> H]. split; [done|].
  rewrite Hext by (by left). apply IH; [|done].
  intros x Hx. apply Hext. by right.
Qed.

Lemma pending_count_ext (w w' : World) (l : list nat) :
  (forall x, x ∈ l -> requestType (req w' x) = requestType (req w x)) ->
  pending_count w' l = pending_count w l.
Proof.
  induction l as [|y l IH]; intros Hext; simpl; first done.
  rewrite Hext by (by left). rewrite IH; [done|].
  intros x Hx. apply Hext. by right.
Qed.

Lemma pending_count_range (w : World) (l : list nat) :
  0 <= pending_count w l <= Z.of_nat (length l).
Proof.
  induction l as [|y l IH]; simpl; first lia. destruct (bool_decide _); lia.
Qed.

(** One pending block of the queue stops being pending. *)
Lemma pending_count_settle (w w' : World) (r : nat) (l : list nat) :
  NoDup l -> r ∈ l ->
  requestType (req w r) = BLOCK_STATE_PENDING ->
  requestType (req w' r) ≠ BLOCK_STATE_PENDING ->
  (forall x, x ∈ l -> x ≠ r -> requestType (req w' x) = requestType (req w x)) ->
  pending_count w' l = pending_count w l - 1.
Proof.
  induction l as [|y l IH]; intros Hnd Hr Hp Hp' Hext; first by apply elem_of_nil in Hr.
  apply NoDup_cons in Hnd as [Hy Hnd]. simpl.
  apply elem_of_cons in Hr as [<-|Hr].
  - rewrite (bool_decide_eq_true_2 (requestType (req w r) = _)) by done.
    rewrite (bool_decide_eq_false_2 (requestType (req w' r) = _)) by done.
    rewrite (pending_count_ext w w' l); [lia|].
    intros x Hx. apply Hext; [by right|]. intros ->. done.
  - rewrite (Hext y) by (by left || (intros ->; done)).
    rewrite IH; [lia|done..|].
    intros x Hx Hne. apply Hext; [by right|done].
Qed.

Lemma file_order_ext (w w' : World) (l : list nat) :
  (forall x, x ∈ l -> filePosition (req w' x) = filePosition (req w x)) ->
  file_order w l -> file_order w' l.
Proof.
  induction l as [|y l IH]; intros Hext H; simpl in *; first done.
  destruct H as [H1 H2]. split.
  - destruct l as [|z l]; [done|].
    rewrite !Hext; [done | by left | by right; left].
  - apply IH; [|done]. intros x Hx. apply Hext. by right.
Qed.

(** A step that leaves every client link and every file position as it
    was leaves the shape as it was. *)
Lemma Shape_frame (rq o : nat) (l : list nat) (w w' : World) :
  Shape rq o l w ->
  links_transit (req w' rq) = links_transit (req w rq) ->
  (forall x, links_client (req w' x) = links_client (req w x)) ->
  (forall x, filePosition (req w' x) = filePosition (req w x)) ->
  Shape rq o l w'.
Proof.
  intros HS Ht Hc Hp. open_shape HS.
  constructor; unfold openFileReq, prefetchQueueHead_ in *; try done.
  - congruence.
  - rewrite Hc. by apply (lseg_ext w).
  - rewrite Hc. done.
  - by apply (file_order_ext w).
  - intros x Hx. rewrite Hp. by apply shape_range0.
Qed.

(** *** [receiveOneBlock] *)

(** The world [receiveOneBlock] leaves, with every test read in the world
    it starts from. *)
Lemma receiveOneBlock_eq (rq r : nat) (q : result_queue_t) (w : World) :
  rq_pop (resultQueue (req w rq)) = Some (r, q) ->
  r ≠ rq ->
  receiveOneBlock rq w =
  (true,
   let w0 := upd_req rq (set_resultQueue q) w in
   if isDiscarded (req w r) then
     if bool_decide (resultStatus (req w r) = NOERROR)
     then sendFileIoRequestToServer r (upd_req r transformToReleaseUnmodified w0)
     else freeFileIoRequest r w0
   else
     let c := size_wrap (clientInt (req w rq) - 1) in
     let w1 := upd_req rq (set_clientInt c) w0 in
     let w2 := if bool_decide (c = 0) then set_state_ STREAM_STATE_OPEN_STREAMING rq w1
               else w1 in
     upd_req r
       (set_requestType
          (if bool_decide (resultStatus (req w r) = NOERROR)
           then BLOCK_STATE_READY else BLOCK_STATE_ERROR)) w2).
Proof.
  intros Hpop Hne. unfold receiveOneBlock. rewrite Hpop. cbv zeta.
  rewrite (req_upd_req_ne rq r) by done.
  destruct (isDiscarded (req w r)).
  - by destruct (bool_decide _).
  - unfold waitingForBlocksCount_. rewrite !req_upd_req_eq.
    change (clientInt (set_clientInt ?v ?n)) with v.
    change (clientInt (set_resultQueue ?v ?n)) with (clientInt n).
    set (c := size_wrap (clientInt (req w rq) - 1)).
    assert (Hupd : upd_req rq (fun n => set_clientInt (size_wrap (clientInt n - 1)) n)
                     (upd_req rq (set_resultQueue q) w)
                   = upd_req rq (set_clientInt c) (upd_req rq (set_resultQueue q) w)).
    { unfold upd_req at 1 3. f_equal. f_equal. rewrite req_upd_req_eq. done. }
    rewrite Hupd.
    destruct (bool_decide (c = 0)); unfold set_state_;
      rewrite !(req_upd_req_ne rq r) by done;
      by destruct (bool_decide _).
Qed.

Lemma rq_pop_Some (Q : result_queue_t) (r : nat) (q : result_queue_t) :
  rq_pop Q = Some (r, q) -> rq_nodes Q = r :: rq_nodes q.
Proof.
  unfold rq_pop. destruct (rq_nodes Q); [done|]. by intros [= -> <-].
Qed.

(** What the invariant says of the reply at the front of the result queue
    of a stream that is not opening. *)
Lemma front_reply (rq o r : nat) (rest : list nat) (l : list nat) (w : World) :
  Core rq o l w ->
  state_ w rq ≠ STREAM_STATE_OPENING ->
  queued w rq = r :: rest ->
  r ≠ rq /\ r ≠ o /\ requestType (req w r) = READ_BLOCK
  /\ (r ∉ globalRequestPool_ w) /\ (r ∉ serverMailboxQueue_ w) /\ (r ∉ rest)
  /\ (isDiscarded (req w r) = true -> r ∉ l)
  /\ (isDiscarded (req w r) = false -> r ∈ l).
Proof.
  intros HC Hst HQ. open_core HC.
  assert (Hrq : r ≠ rq).
  { intros ->. apply own_root0. rewrite HQ. set_solver +. }
  assert (Hrty : requestType (req w r) = READ_BLOCK
                 /\ (r ∈ l \/ clientInt (req w r) = SIZE_MAX)).
  { destruct (own_queue0 r) as [[-> ?]|?]; [rewrite HQ; set_solver +|done|done]. }
  destruct Hrty as [Hrty Hrl].
  apply transit_facts in own_transit0 as (_ & _ & HndQ & _ & HPQ & HMQ).
  rewrite HQ in *. apply NoDup_cons in HndQ as [? _].
  repeat split; try done.
  - intros ->. congruence.
  - intros Hin. apply (HPQ r Hin). set_solver +.
  - intros Hin. apply (HMQ r Hin). set_solver +.
  - intros Hd%bool_decide_eq_true Hin.
    destruct (own_fifo0 r Hin) as [(_ & ? & _)|[[?|?] _]];
      unfold BLOCK_STATE_PENDING in *; congruence.
  - intros Hd%bool_decide_eq_false. by destruct Hrl.
Qed.

Lemma discarded_receive_ok (rq o r : nat) (q : result_queue_t) (l : list nat) (w : World) :
  Core rq o l w ->
  state_ w rq ≠ STREAM_STATE_OPENING ->
  rq_pop (resultQueue (req w rq)) = Some (r, q) ->
  isDiscarded (req w r) = true ->
  Core rq o l
    (sendFileIoRequestToServer r
       (upd_req r transformToReleaseUnmodified (upd_req rq (set_resultQueue q) w))).
Proof.
  intros HC Hst Hpop Hd.
  apply rq_pop_Some in Hpop. fold (queued w rq) in Hpop.
  destruct (front_reply rq o r _ l w HC Hst Hpop)
    as (Hrq & Hro & Hrty & HrP & HrM & HrQ & Hrl & _).
  specialize (Hrl Hd).
  destruct HC as [HS HO HE HN HD]. open_shape HS.
  set (w' := sendFileIoRequestToServer r _).
  assert (Hreq : forall x, req w' x =
            if decide (r = x) then set_requestType RELEASE_READ_BLOCK (req w r)
            else if decide (rq = x) then set_resultQueue q (req w rq) else req w x).
  { intros x. unfold w'. rewrite req_sendFileIoRequestToServer, !req_upd_req.
    goal_decide; subst; done. }
  assert (HP : globalRequestPool_ w' = globalRequestPool_ w) by done.
  assert (HM : serverMailboxQueue_ w' = serverMailboxQueue_ w ++ [r]) by done.
  assert (HQ : queued w' rq = rq_nodes q).
  { unfold queued. rewrite Hreq. goal_decide; done. }
  assert (Hst' : state_ w' rq = state_ w rq).
  { unfold state_. rewrite Hreq. goal_decide; done. }
  assert (Hmem : forall x, x ∈ (serverMailboxQueue_ w ++ [r]) ++ rq_nodes q
                           <-> x ∈ serverMailboxQueue_ w ++ queued w rq).
  { intros x. rewrite Hpop. set_solver +. }
  constructor.
  - apply (Shape_frame rq o l w); [done|..]; intros; rewrite !Hreq;
      goal_decide; subst; done.
  - open_owner HO.
    constructor; rewrite ?HP, ?HM, ?HQ, ?Hst'.
    + rewrite Hreq. goal_decide; done.
    + rewrite Hreq. goal_decide; done.
    + done.
    + rewrite <- (app_assoc _ [r]). simpl. by rewrite <- Hpop.
    + intros Hin. apply own_root0. rewrite elem_of_app in Hin |- *.
      destruct Hin as [?|Hin]; [by left|right]. by apply Hmem.
    + done.
    + done.
    + intros x Hx. rewrite Hreq, Hmem. goal_decide; subst; [done|done|].
      by apply own_fifo0.
    + intros x Hx. rewrite Hreq. apply elem_of_app in Hx as [Hx|Hx].
      * goal_decide; subst; [done| |by apply own_mailbox0].
        exfalso. apply own_root0. set_solver +Hx.
      * apply list_elem_of_singleton in Hx as ->. rewrite decide_True by done.
        right. by right.
    + intros x Hx. rewrite Hreq.
      goal_decide; subst; [done| |].
      * exfalso. apply own_root0. rewrite Hpop. set_solver +Hx.
      * apply own_queue0. rewrite Hpop. set_solver +Hx.
    + done.
    + intros _. rewrite Hmem. by apply own_opened0.
  - unfold error_ in *. rewrite Hst', !Hreq. goal_decide; subst; done.
  - unfold waitingForBlocksCount_ in *. rewrite (pending_count_ext w w').
    + rewrite Hreq. goal_decide; done.
    + intros x Hx. rewrite Hreq. goal_decide; subst; done.
  - intros x Hx. assert (x ∈ dom (requests w)).
    { apply HD. unfold owned in *. rewrite HP, HM, HQ in Hx. rewrite Hpop.
      clear -Hx. set_solver. }
    unfold w'. solve_dom.
Qed.

Lemma discarded_receive_failed (rq o r : nat) (q : result_queue_t) (l : list nat) (w : World) :
  Core rq o l w ->
  state_ w rq ≠ STREAM_STATE_OPENING ->
  rq_pop (resultQueue (req w rq)) = Some (r, q) ->
  isDiscarded (req w r) = true ->
  Core rq o l (freeFileIoRequest r (upd_req rq (set_resultQueue q) w)).
Proof.
  intros HC Hst Hpop Hd.
  apply rq_pop_Some in Hpop. fold (queued w rq) in Hpop.
  destruct (front_reply rq o r _ l w HC Hst Hpop)
    as (Hrq & Hro & Hrty & HrP & HrM & HrQ & Hrl & _).
  specialize (Hrl Hd).
  destruct HC as [HS HO HE HN HD]. open_shape HS.
  set (w' := freeFileIoRequest r _).
  assert (Hreq : forall x, req w' x =
            if decide (rq = x) then set_resultQueue q (req w rq) else req w x).
  { intros x. unfold w'. rewrite req_freeFileIoRequest, !req_upd_req.
    goal_decide; subst; done. }
  assert (HP : globalRequestPool_ w' = r :: globalRequestPool_ w) by done.
  assert (HM : serverMailboxQueue_ w' = serverMailboxQueue_ w) by done.
  assert (HQ : queued w' rq = rq_nodes q).
  { unfold queued. rewrite Hreq. goal_decide; done. }
  assert (Hst' : state_ w' rq = state_ w rq).
  { unfold state_. rewrite Hreq. goal_decide; done. }
  assert (Hmem : forall x, x ∈ serverMailboxQueue_ w ++ queued w rq
                           <-> x = r \/ x ∈ serverMailboxQueue_ w ++ rq_nodes q).
  { intros x. rewrite Hpop. set_solver +. }
  constructor.
  - apply (Shape_frame rq o l w); [done|..]; intros; rewrite !Hreq;
      goal_decide; subst; done.
  - open_owner HO.
    constructor; rewrite ?HP, ?HM, ?HQ, ?Hst'.
    + rewrite Hreq. goal_decide; done.
    + rewrite Hreq. goal_decide; done.
    + done.
    + rewrite Hpop in own_transit0. solve_nodup own_transit0.
    + intros Hin. apply own_root0. rewrite Hpop. clear -Hin Hrq. set_solver.
    + clear -Hro own_open_pool0. set_solver.
    + intros x Hx Hin. apply elem_of_cons in Hin as [->|Hin]; [done|].
      by apply (own_fifo_pool0 x).
    + intros x Hx. rewrite Hreq. goal_decide; subst; [done|].
      destruct (own_fifo0 x Hx) as [(?&?&Hin)|(?&Hin)]; [left|right].
      * split; [done|]. split; [done|]. apply Hmem in Hin as [->|?]; done.
      * split; [done|]. intros Hin'. apply Hin, Hmem. by right.
    + intros x Hx. rewrite Hreq. goal_decide; subst; [|by apply own_mailbox0].
      exfalso. apply own_root0. clear -Hx. set_solver.
    + intros x Hx. rewrite Hreq. goal_decide; subst.
      * exfalso. apply own_root0. rewrite Hpop. clear -Hx. set_solver.
      * apply own_queue0. rewrite Hpop. clear -Hx. set_solver.
    + done.
    + intros _ Hin. apply (own_opened0 Hst), Hmem. by right.
  - unfold error_ in *. rewrite Hst', !Hreq. goal_decide; subst; done.
  - unfold waitingForBlocksCount_ in *. rewrite (pending_count_ext w w').
    + rewrite Hreq. goal_decide; done.
    + intros x Hx. rewrite Hreq. goal_decide; subst; done.
  - intros x Hx. assert (x ∈ dom (requests w)).
    { apply HD. unfold owned in *. rewrite HP, HM, HQ in Hx. rewrite Hpop.
      clear -Hx. set_solver. }
    unfold w'. solve_dom.
Qed.

Lemma pending_count_pos (w : World) (r : nat) (l : list nat) :
  r ∈ l -> requestType (req w r) = BLOCK_STATE_PENDING -> 1 <= pending_count w l.
Proof.
  induction l as [|y l IH]; intros Hr Hp; first by apply elem_of_nil in Hr.
  simpl. pose proof (pending_count_range w l).
  apply elem_of_cons in Hr as [<-|Hr].
  - rewrite bool_decide_eq_true_2 by done. lia.
  - specialize (IH Hr Hp). destruct (bool_decide _); lia.
Qed.

Lemma live_receive (rq o r : nat) (q : result_queue_t) (l : list nat) (w : World)
    (st : RequestType) :
  Core rq o l w ->
  state_ w rq ≠ STREAM_STATE_OPENING ->
  rq_pop (resultQueue (req w rq)) = Some (r, q) ->
  isDiscarded (req w r) = false ->
  st = BLOCK_STATE_READY \/ st = BLOCK_STATE_ERROR ->
  let c := size_wrap (clientInt (req w rq) - 1) in
  let w1 := upd_req rq (set_clientInt c) (upd_req rq (set_resultQueue q) w) in
  let w2 := if bool_decide (c = 0) then set_state_ STREAM_STATE_OPEN_STREAMING rq w1
            else w1 in
  r ∈ l /\ c = pending_count w l - 1
  /\ Core rq o l (upd_req r (set_requestType st) w2).
Proof.
  intros HC Hst Hpop Hd Hty c w1 w2.
  apply rq_pop_Some in Hpop. fold (queued w rq) in Hpop.
  destruct (front_reply rq o r _ l w HC Hst Hpop)
    as (Hrq & Hro & Hrty & HrP & HrM & HrQ & _ & Hrl).
  specialize (Hrl Hd).
  destruct HC as [HS HO HE HN HD]. open_shape HS.
  assert (Hc : c = pending_count w l - 1).
  { unfold c. fold (waitingForBlocksCount_ w rq). rewrite HN.
    pose proof (pending_count_range w l).
    pose proof (pending_count_pos w r l Hrl Hrty).
    apply size_wrap_small. split; [lia|].
    assert (Z.of_nat (length l) <= 21); [|unfold SIZE_MODULUS; lia].
    unfold prefetchQueueBlockCount in *. lia. }
  split; [done|]. split; [done|].
  set (w' := upd_req r _ w2).
  set (st' := if bool_decide (c = 0) then STREAM_STATE_OPEN_STREAMING else state_ w rq).
  assert (Hreq : forall x, req w' x =
            if decide (r = x) then set_requestType st (req w r)
            else if decide (rq = x)
                 then set_requestType st' (set_clientInt c (set_resultQueue q (req w rq)))
                 else req w x).
  { intros x. unfold w', w2, w1, st', set_state_, state_.
    destruct (bool_decide (c = 0)); rewrite !req_upd_req;
      goal_decide; subst; done. }
  assert (HP : globalRequestPool_ w' = globalRequestPool_ w).
  { unfold w', w2. by destruct (bool_decide (c = 0)). }
  assert (HM : serverMailboxQueue_ w' = serverMailboxQueue_ w).
  { unfold w', w2. by destruct (bool_decide (c = 0)). }
  assert (HQ : queued w' rq = rq_nodes q).
  { unfold queued. rewrite Hreq. goal_decide; done. }
  assert (Hst' : state_ w' rq = st').
  { unfold state_. rewrite Hreq. goal_decide; done. }
  assert (Hst'' : st' ≠ STREAM_STATE_OPENING).
  { unfold st'. by destruct (bool_decide (c = 0)). }
  assert (Hmem : forall x, x ∈ serverMailboxQueue_ w ++ queued w rq
                           <-> x = r \/ x ∈ serverMailboxQueue_ w ++ rq_nodes q).
  { intros x. rewrite Hpop. set_solver +. }
  constructor.
  - apply (Shape_frame rq o l w); [done|..]; intros; rewrite !Hreq;
      goal_decide; subst; done.
  - open_owner HO.
    constructor; rewrite ?HP, ?HM, ?HQ, ?Hst'.
    + rewrite Hreq. goal_decide; done.
    + rewrite Hreq. goal_decide; done.
    + unfold st', is_stream_state. destruct (bool_decide (c = 0)); [tauto|done].
    + rewrite Hpop in own_transit0. solve_nodup own_transit0.
    + intros Hin. apply own_root0. rewrite Hpop. clear -Hin. set_solver.
    + done.
    + done.
    + intros x Hx. rewrite Hreq. goal_decide; subst.
      * right. split; [exact Hty|].
        intros Hin. apply elem_of_app in Hin as [?|?]; done.
      * done.
      * destruct (own_fifo0 x Hx) as [(?&?&Hin)|(?&Hin)]; [left|right].
        -- split; [done|]. split; [done|]. apply Hmem in Hin as [->|?]; done.
        -- split; [done|]. intros Hin'. apply Hin, Hmem. by right.
    + intros x Hx. rewrite Hreq. goal_decide; subst; [done| |].
      * exfalso. apply own_root0. clear -Hx. set_solver.
      * destruct (own_mailbox0 x Hx) as [[_ ?]|?]; [done|by right].
    + intros x Hx. rewrite Hreq. goal_decide; subst; [done| |].
      * exfalso. apply own_root0. rewrite Hpop. clear -Hx. set_solver.
      * destruct (own_queue0 x) as [[_ ?]|?]; [|done|by right].
        rewrite Hpop. clear -Hx. set_solver.
    + done.
    + intros _ Hin. apply (own_opened0 Hst), Hmem. by right.
  - unfold error_ in *. rewrite Hst', !Hreq.
    rewrite (bool_decide_eq_false_2 (st' = _)) by done.
    rewrite bool_decide_eq_false_2 in HE by done.
    goal_decide; subst; done.
  - unfold waitingForBlocksCount_ in *.
    rewrite (pending_count_settle w w' r); try done.
    + rewrite Hreq. goal_decide; done.
    + rewrite Hreq. rewrite decide_True by done. simpl. by destruct Hty as [-> | ->].
    + intros x Hx Hne. rewrite Hreq. goal_decide; subst; done.
  - intros x Hx. assert (x ∈ dom (requests w)).
    { apply HD. unfold owned in *. rewrite HP, HM, HQ in Hx. rewrite Hpop.
      clear -Hx. set_solver. }
    unfold w', w2, w1. destruct (bool_decide (c = 0)); solve_dom.
Qed.

(** [receiveOneBlock] on a world without a reply. *)
Lemma receiveOneBlock_none (rq : nat) (w : World) :
  queued w rq = [] -> receiveOneBlock rq w = (false, w).
Proof.
  unfold queued, receiveOneBlock, rq_pop. by intros ->.
Qed.

(** [receiveOneBlock] keeps the invariant and the queue [l].  The state
    changes only to OPEN_STREAMING, and only when a block of [l] was
    received; with no block awaited it does not change. *)
Lemma receiveOneBlock_Core (rq o : nat) (l : list nat) (w : World) :
  Core rq o l w ->
  state_ w rq ≠ STREAM_STATE_OPENING ->
  let w' := snd (receiveOneBlock rq w) in
  Core rq o l w'
  /\ state_ w' rq ≠ STREAM_STATE_OPENING
  /\ (state_ w' rq = state_ w rq
      \/ (state_ w' rq = STREAM_STATE_OPEN_STREAMING /\ l ≠ []))
  /\ (waitingForBlocksCount_ w rq = 0 ->
      state_ w' rq = state_ w rq /\ waitingForBlocksCount_ w' rq = 0)
  /\ (if fst (receiveOneBlock rq w)
      then S (length (queued w' rq)) = length (queued w rq)
      else w' = w).
Proof.
  intros HC Hst.
  destruct (rq_pop (resultQueue (req w rq))) as [[r q]|] eqn:Hpop.
  2:{ assert (HQ : queued w rq = []).
      { unfold queued. unfold rq_pop in Hpop. by destruct (rq_nodes _). }
      rewrite receiveOneBlock_none by done. simpl.
      split; [done|]. split; [done|]. split; [by left|]. split; done. }
  pose proof (rq_pop_Some _ _ _ Hpop) as HQ. fold (queued w rq) in HQ.
  destruct (front_reply rq o r _ l w HC Hst HQ)
    as (Hrq & Hro & Hrty & HrP & HrM & HrQ & Hrl1 & Hrl2).
  rewrite (receiveOneBlock_eq rq r q w Hpop Hrq). cbv zeta. simpl fst. simpl snd.
  destruct (isDiscarded (req w r)) eqn:Hd.
  - assert (Hw : forall w', 
      Core rq o l w' -> state_ w' rq = state_ w rq -> queued w' rq = rq_nodes q ->
      waitingForBlocksCount_ w' rq = waitingForBlocksCount_ w rq ->
      Core rq o l w' /\ state_ w' rq ≠ STREAM_STATE_OPENING
      /\ (state_ w' rq = state_ w rq
          \/ (state_ w' rq = STREAM_STATE_OPEN_STREAMING /\ l ≠ []))
      /\ (waitingForBlocksCount_ w rq = 0 ->
          state_ w' rq = state_ w rq /\ waitingForBlocksCount_ w' rq = 0)
      /\ S (length (queued w' rq)) = length (queued w rq)).
    { intros w' HC' Hs' HQ' HN'. rewrite Hs', HQ', HQ, HN'.
      split; [done|]. split; [done|]. split; [by left|]. split; done. }
    destruct (bool_decide (resultStatus (req w r) = NOERROR)).
    + apply Hw; [by apply discarded_receive_ok|..].
      * unfold state_. rewrite req_sendFileIoRequestToServer, !req_upd_req.
        goal_decide; subst; done.
      * unfold queued. rewrite req_sendFileIoRequestToServer, !req_upd_req.
        goal_decide; subst; done.
      * unfold waitingForBlocksCount_.
        rewrite req_sendFileIoRequestToServer, !req_upd_req.
        goal_decide; subst; done.
    + apply Hw; [by apply discarded_receive_failed|..].
      * unfold state_. rewrite req_freeFileIoRequest, !req_upd_req.
        goal_decide; subst; done.
      * unfold queued. rewrite req_freeFileIoRequest, !req_upd_req.
        goal_decide; subst; done.
      * unfold waitingForBlocksCount_. rewrite req_freeFileIoRequest, !req_upd_req.
        goal_decide; subst; done.
  - set (st := if bool_decide _ then BLOCK_STATE_READY else BLOCK_STATE_ERROR).
    assert (Hty : st = BLOCK_STATE_READY \/ st = BLOCK_STATE_ERROR).
    { unfold st. destruct (bool_decide _); [by left|by right]. }
    destruct (live_receive rq o r q l w st HC Hst Hpop Hd Hty) as (Hrl & Hc & HC').
    set (c := size_wrap (clientInt (req w rq) - 1)) in *.
    set (w' := upd_req r _ _) in *.
    assert (Hs' : state_ w' rq
                  = if bool_decide (c = 0) then STREAM_STATE_OPEN_STREAMING
                    else state_ w rq).
    { unfold w', state_, set_state_. destruct (bool_decide (c = 0));
        rewrite !req_upd_req; goal_decide; subst; done. }
    assert (HQ' : queued w' rq = rq_nodes q).
    { unfold w', queued, set_state_. destruct (bool_decide (c = 0));
        rewrite !req_upd_req; goal_decide; subst; done. }
    split; [done|]. rewrite Hs', HQ', HQ.
    split; [by destruct (bool_decide (c = 0))|]. split; [|split; [|done]].
    + destruct (bool_decide (c = 0)); [right|by left]. split; [done|].
      intros ->. by apply elem_of_nil in Hrl.
    + intros H0. destruct HC as [_ _ _ HN _]. rewrite HN in H0.
      pose proof (pending_count_pos w r l Hrl Hrty). lia.
Qed.

(** *** Taking the front block off the queue *)

Lemma nonempty_not_opening (rq o x : nat) (l : list nat) (w : World) :
  Core rq o (x :: l) w -> state_ w rq ≠ STREAM_STATE_OPENING.
Proof.
  intros HC Hst. open_core HC. by destruct (own_opening0 Hst) as [? _].
Qed.

(** [prefetchQueue_pop_front] followed by [flushBlock] of the block that
    was popped: the invariant holds for the rest of the queue.  A pending
    block stays in flight, marked discarded; a ready block is sent back as a
    release; a failed block is freed. *)
Lemma flush_front_Core (rq o x : nat) (l : list nat) (w : World) :
  Core rq o (x :: l) w ->
  exists w1,
    prefetchQueue_pop_front rq w = Some w1
    /\ let w' := flushBlock x rq w1 in
       Core rq o l w'
       /\ state_ w' rq = state_ w rq
       /\ queued w' rq = queued w rq
       /\ dom (requests w') = dom (requests w).
Proof.
  intros HC. pose proof (nonempty_not_opening _ _ _ _ _ HC) as Hst.
  open_core HC.
  simpl in shape_lseg0. destruct shape_lseg0 as [Hhead Hseg].
  apply NoDup_cons in shape_nodup0 as [Hxl Hnd].
  apply not_elem_of_cons in shape_root0 as [Hrqx Hrql].
  apply not_elem_of_cons in shape_open_fifo0 as [Hox Hol].
  unfold prefetchQueue_pop_front. rewrite Hhead. simpl.
  eexists. split; [reflexivity|]. cbv zeta.
  set (w1 := upd_req x (set_links_client None) _).
  assert (Hreq1 : forall y, req w1 y =
            if decide (x = y) then set_links_client None (req w x)
            else if decide (rq = y)
                 then set_links_client (links_client (req w x)) (req w rq)
                 else req w y).
  { intros y. unfold w1. rewrite !req_upd_req. goal_decide; subst; done. }
  assert (Hdomx : x ∈ dom (requests w) /\ rq ∈ dom (requests w)).
  { split; apply HD; unfold owned; set_solver +. }
  destruct Hdomx as [Hdx Hdr].
  assert (Hdom1 : dom (requests w1) = dom (requests w)) by (unfold w1; dom_eq).
  assert (HS1 : Shape rq o l w1).
  { constructor; unfold openFileReq, prefetchQueueHead_ in *.
    - rewrite Hreq1. goal_decide; subst; done.
    - done.
    - rewrite Hreq1. goal_decide; subst; [done| |done]. simpl.
      apply (lseg_ext w); [|done].
      intros y Hy. rewrite Hreq1. goal_decide; subst; done.
    - intros Hl. rewrite Hreq1. goal_decide; subst; [done..|].
      rewrite shape_tail0 by done. by destruct l.
    - done.
    - done.
    - done.
    - simpl in shape_order0. destruct shape_order0 as [_ Hord].
      apply (file_order_ext w); [|done].
      intros y Hy. rewrite Hreq1. goal_decide; subst; done.
    - simpl in shape_length0. lia.
    - intros y Hy. rewrite Hreq1. goal_decide; subst; try done.
      apply shape_range0. by right. }
  unfold BLOCK_STATE_PENDING in *.
  destruct (own_fifo0 x) as [(Hty & Hnd' & Hin)|(Hty & Hnin)]; [by left| |].
  - (* pending: the block stays in flight, discarded *)
    unfold flushBlock. rewrite Hreq1, decide_True by done.
    change (requestType (set_links_client None (req w x))) with (requestType (req w x)).
    rewrite Hty.
    set (w' := upd_req rq _ _).
    assert (Hreq : forall y, req w' y =
              if decide (x = y) then setDiscarded (set_links_client None (req w x))
              else if decide (rq = y)
                   then set_clientInt (size_wrap (clientInt (req w rq) - 1))
                          (set_links_client (links_client (req w x)) (req w rq))
                   else req w y).
    { intros y. unfold w'. rewrite !req_upd_req, !Hreq1.
      goal_decide; subst; done. }
    assert (Hst' : state_ w' rq = state_ w rq).
    { unfold state_. rewrite Hreq. goal_decide; subst; done. }
    assert (HQ : queued w' rq = queued w rq).
    { unfold queued. rewrite Hreq. goal_decide; subst; done. }
    split; [|split; [done|split; [done|]]].
    2:{ unfold w', w1. dom_eq. }
    constructor.
    + apply (Shape_frame rq o l w1); [done|..]; intros; rewrite !Hreq, !Hreq1;
        goal_decide; subst; done.
    + constructor; rewrite ?HQ, ?Hst';
        change (globalRequestPool_ w') with (globalRequestPool_ w);
        change (serverMailboxQueue_ w') with (serverMailboxQueue_ w).
      * rewrite Hreq. goal_decide; subst; done.
      * rewrite Hreq. goal_decide; subst; done.
      * done.
      * done.
      * done.
      * done.
      * intros y Hy. apply own_fifo_pool0. by right.
      * intros y Hy. rewrite Hreq. goal_decide; subst; [done|done|].
        apply own_fifo0. by right.
      * intros y Hy. rewrite Hreq. goal_decide; subst.
        -- right. left. destruct (own_mailbox0 y Hy) as [[-> _]|[(?&?&_)|?]];
             [done| |congruence].
           split; [done|]. split; [done|]. by right.
        -- exfalso. apply own_root0. clear -Hy. set_solver.
        -- destruct (own_mailbox0 y Hy) as [[_ ?]|[(?&?&[Hin'|?])|?]];
             [done|right; left|right; left|by right; right].
           ++ split; [done|]. split; [done|]. left.
              apply elem_of_cons in Hin' as [->|?]; done.
           ++ split; [done|]. split; [done|]. by right.
      * intros y Hy. rewrite Hreq. goal_decide; subst.
        -- right. destruct (own_queue0 y Hy) as [[-> _]|[? _]]; [done|].
           split; [done|]. by right.
        -- exfalso. apply own_root0. clear -Hy. set_solver.
        -- destruct (own_queue0 y Hy) as [[_ ?]|[? [Hin'|?]]]; [done|right|right].
           ++ split; [done|]. left. apply elem_of_cons in Hin' as [->|?]; done.
           ++ split; [done|]. by right.
      * done.
      * done.
    + unfold error_ in *. rewrite Hst', !Hreq. goal_decide; subst; done.
    + unfold waitingForBlocksCount_ in *. rewrite Hreq.
      goal_decide; subst; [done| |done].
      change (clientInt (set_clientInt ?v ?n)) with v. rewrite HN. simpl.
      rewrite bool_decide_eq_true_2 by done.
      rewrite (pending_count_ext w w' l).
      * pose proof (pending_count_range w l).
        replace (1 + pending_count w l - 1) with (pending_count w l) by lia.
        apply size_wrap_small.
        unfold prefetchQueueBlockCount, SIZE_MODULUS in *. simpl in shape_length0. lia.
      * intros y Hy. rewrite Hreq. goal_decide; subst; done.
    + intros y Hy. assert (y ∈ dom (requests w)).
      { apply HD. unfold owned in *. rewrite HQ in Hy.
        change (globalRequestPool_ w') with (globalRequestPool_ w) in Hy.
        change (serverMailboxQueue_ w') with (serverMailboxQueue_ w) in Hy.
        clear -Hy. set_solver. }
      unfold w', w1. solve_dom.
  - (* ready or failed: the block is with the client *)
    assert (HxP : x ∉ globalRequestPool_ w) by (apply own_fifo_pool0; by left).
    assert (HxM : (x ∉ serverMailboxQueue_ w) /\ (x ∉ queued w rq)).
    { clear -Hnin. set_solver. }
    destruct HxM as [HxM HxQ].
    assert (Hnp : bool_decide (requestType (req w x) = BLOCK_STATE_PENDING) = false).
    { apply bool_decide_eq_false. unfold BLOCK_STATE_PENDING. by destruct Hty as [-> | ->]. }
    assert (Hfifo : forall y, y ∈ l ->
              (requestType (req w y) = READ_BLOCK /\ (clientInt (req w y) ≠ SIZE_MAX)
               /\ y ∈ serverMailboxQueue_ w ++ queued w rq)
              \/ ((requestType (req w y) = BLOCK_STATE_READY
                   \/ requestType (req w y) = BLOCK_STATE_ERROR)
                  /\ y ∉ serverMailboxQueue_ w ++ queued w rq)).
    { intros y Hy. apply own_fifo0. by right. }
    assert (Hmail : forall y, y ∈ serverMailboxQueue_ w ->
              (y = o /\ state_ w rq = STREAM_STATE_OPENING)
              \/ (requestType (req w y) = READ_BLOCK /\ resultQueuePtr (req w y) = Some rq
                  /\ (y ∈ l \/ clientInt (req w y) = SIZE_MAX))
              \/ (requestType (req w y) = RELEASE_READ_BLOCK)).
    { intros y Hy. destruct (own_mailbox0 y Hy) as [?|[(?&?&[Hin'|?])|?]];
        [by left|right; left|right; left|by right; right].
      - split; [done|]. split; [done|]. left.
        apply elem_of_cons in Hin' as [->|?]; done.
      - split; [done|]. split; [done|]. by right. }
    assert (Hqueue : forall y, y ∈ queued w rq ->
              (y = o /\ state_ w rq = STREAM_STATE_OPENING)
              \/ (requestType (req w y) = READ_BLOCK
                  /\ (y ∈ l \/ clientInt (req w y) = SIZE_MAX))).
    { intros y Hy. destruct (own_queue0 y Hy) as [?|[? [Hin'|?]]]; [by left|right|right].
      - split; [done|]. left. apply elem_of_cons in Hin' as [->|?]; done.
      - split; [done|]. by right. }
    unfold flushBlock. rewrite Hreq1, decide_True by done.
    change (requestType (set_links_client None (req w x))) with (requestType (req w x)).
    destruct Hty as [Hty|Hty]; rewrite Hty.
    + (* ready: sent back as a release *)
      set (w' := sendFileIoRequestToServer x _).
      assert (Hreq : forall y, req w' y =
                if decide (x = y)
                then set_requestType RELEASE_READ_BLOCK (set_links_client None (req w x))
                else if decide (rq = y)
                     then set_links_client (links_client (req w x)) (req w rq)
                     else req w y).
      { intros y. unfold w'. rewrite req_sendFileIoRequestToServer, !req_upd_req, !Hreq1.
        goal_decide; subst; done. }
      assert (Hst' : state_ w' rq = state_ w rq).
      { unfold state_. rewrite Hreq. goal_decide; subst; done. }
      assert (HQ : queued w' rq = queued w rq).
      { unfold queued. rewrite Hreq. goal_decide; subst; done. }
      assert (HM : serverMailboxQueue_ w' = serverMailboxQueue_ w ++ [x]) by done.
      assert (HP : globalRequestPool_ w' = globalRequestPool_ w) by done.
      split; [|split; [done|split; [done|]]].
      2:{ unfold w', w1. dom_eq. }
      constructor.
      * apply (Shape_frame rq o l w1); [done|..]; intros; rewrite !Hreq, !Hreq1;
          goal_decide; subst; done.
      * constructor; rewrite ?HQ, ?Hst', ?HM, ?HP.
        -- rewrite Hreq. goal_decide; subst; done.
        -- rewrite Hreq. goal_decide; subst; done.
        -- done.
        -- assert (Hx3 : x ∉ globalRequestPool_ w ++ serverMailboxQueue_ w ++ queued w rq).
           { clear -HxP HxM HxQ. set_solver. }
           revert own_transit0 Hx3. clear. intros H1 H2.
           repeat (rewrite ?NoDup_app, ?NoDup_cons, ?NoDup_nil in H1).
           repeat (rewrite ?NoDup_app, ?NoDup_cons, ?NoDup_nil). set_solver.
        -- intros Hin'. apply own_root0. clear -Hin' Hrqx. set_solver.
        -- done.
        -- intros y Hy. apply own_fifo_pool0. by right.
        -- intros y Hy. rewrite Hreq. goal_decide; subst; [done|done|].
           destruct (Hfifo y Hy) as [(?&?&Hin')|(?&Hin')]; [left|right].
           ++ split; [done|]. split; [done|]. clear -Hin'. set_solver.
           ++ split; [done|]. clear -Hin' n. set_solver.
        -- intros y Hy. rewrite Hreq. apply elem_of_app in Hy as [Hy|Hy].
           ++ goal_decide; subst; [done| |by apply Hmail].
              exfalso. apply own_root0. clear -Hy. set_solver.
           ++ apply list_elem_of_singleton in Hy as ->. rewrite decide_True by done.
              right. by right.
        -- intros y Hy. rewrite Hreq. goal_decide; subst; [done| |by apply Hqueue].
           exfalso. apply own_root0. clear -Hy. set_solver.
        -- done.
        -- intros _ Hin'. apply (own_opened0 Hst). clear -Hin' Hox. set_solver.
      * unfold error_ in *. rewrite Hst', !Hreq. goal_decide; subst; done.
      * unfold waitingForBlocksCount_ in *. rewrite Hreq.
        goal_decide; subst; [done| |done]. simpl. rewrite HN. simpl.
        rewrite Hnp. rewrite (pending_count_ext w w' l); [lia|].
        intros y Hy. rewrite Hreq. goal_decide; subst; done.
      * intros y Hy. assert (y ∈ dom (requests w)).
        { apply HD. unfold owned in *. rewrite HQ, HM, HP in Hy.
          clear -Hy. set_solver. }
        unfold w', w1. solve_dom.
    + (* failed: the node goes back to the pool *)
      set (w' := freeFileIoRequest x w1).
      assert (Hreq : forall y, req w' y = req w1 y).
      { intros y. unfold w'. by rewrite req_freeFileIoRequest. }
      assert (Hst' : state_ w' rq = state_ w rq).
      { unfold state_. rewrite Hreq, Hreq1. goal_decide; subst; done. }
      assert (HQ : queued w' rq = queued w rq).
      { unfold queued. rewrite Hreq, Hreq1. goal_decide; subst; done. }
      assert (HM : serverMailboxQueue_ w' = serverMailboxQueue_ w) by done.
      assert (HP : globalRequestPool_ w' = x :: globalRequestPool_ w) by done.
      split; [|split; [done|split; [done|]]].
      2:{ unfold w', w1. dom_eq. }
      constructor.
      * apply (Shape_frame rq o l w1); [done|..]; intros; rewrite !Hreq; done.
      * constructor; rewrite ?HQ, ?Hst', ?HM, ?HP.
        -- rewrite Hreq, Hreq1. goal_decide; subst; done.
        -- rewrite Hreq, Hreq1. goal_decide; subst; done.
        -- done.
        -- assert (Hx3 : x ∉ globalRequestPool_ w ++ serverMailboxQueue_ w ++ queued w rq).
           { clear -HxP HxM HxQ. set_solver. }
           revert own_transit0 Hx3. clear. intros H1 H2.
           change (NoDup (x :: (globalRequestPool_ w ++ serverMailboxQueue_ w ++ queued w rq))).
           by apply NoDup_cons.
        -- intros Hin'. apply own_root0. clear -Hin' Hrqx. set_solver.
        -- intros Hin'. apply own_open_pool0. clear -Hin' Hox. set_solver.
        -- intros y Hy Hin'. apply (own_fifo_pool0 y); [by right|].
           assert (y ≠ x) by (intros ->; done). clear -Hin' H. set_solver.
        -- intros y Hy. rewrite Hreq, Hreq1.
           assert (y ≠ x) by (intros ->; done).
           pose proof (shape_root _ _ _ _ _ HS1) as Hrl.
           goal_decide; subst; [done|done|by apply Hfifo].
        -- intros y Hy. rewrite Hreq, Hreq1.
           goal_decide; subst; [done| |by apply Hmail].
           exfalso. apply own_root0. clear -Hy. set_solver.
        -- intros y Hy. rewrite Hreq, Hreq1.
           goal_decide; subst; [done| |by apply Hqueue].
           exfalso. apply own_root0. clear -Hy. set_solver.
        -- done.
        -- intros _. by apply own_opened0.
      * unfold error_ in *. rewrite Hst', !Hreq, !Hreq1. goal_decide; subst; done.
      * unfold waitingForBlocksCount_ in *. rewrite Hreq, Hreq1.
        goal_decide; subst; [done| |done]. simpl. rewrite HN. simpl.
        rewrite Hnp. rewrite (pending_count_ext w w' l); [lia|].
        intros y Hy. rewrite Hreq, Hreq1. goal_decide; subst; done.
      * intros y Hy. assert (y ∈ dom (requests w)).
        { apply HD. unfold owned in *. rewrite HQ, HM, HP in Hy.
          clear -Hy. set_solver. }
        unfold w', w1. solve_dom.
Qed.

End Invariant.

(** *** Linking a new block request at the back of the queue *)

Lemma pending_count_app (w : World) (l1 l2 : list nat) :
  pending_count w (l1 ++ l2) = pending_count w l1 + pending_count w l2.
Proof. induction l1 as [|x l1 IH]; simpl; [done|]. rewrite IH. lia. Qed.

Lemma last_not_head (x : nat) (l : list nat) :
  x ∉ l -> l ≠ [] -> Some x ≠ last (x :: l).
Proof.
  intros Hx Hl Heq. destruct l as [|z l]; [done|].
  rewrite last_cons_cons in Heq. symmetry in Heq.
  apply last_Some_elem_of in Heq. done.
Qed.

Lemma lseg_snoc (w w' : World) (l : list nat) (p : nat) :
  forall h,
    lseg w h l -> l ≠ [] -> NoDup l ->
    (forall y, y ∈ l ->
       links_client (req w' y)
       = if decide (Some y = last l) then Some p else links_client (req w y)) ->
    links_client (req w' p) = None ->
    lseg w' h (l ++ [p]).
Proof.
  induction l as [|x l IH]; intros h Hseg Hne Hnd Hl Hp; [done|].
  destruct Hseg as [-> Hseg]. apply NoDup_cons in Hnd as [Hx Hnd].
  simpl. split; [done|].
  destruct l as [|z l].
  - simpl. rewrite Hl by (by left). rewrite decide_True by done. done.
  - rewrite Hl by (by left).
    rewrite decide_False by (by apply last_not_head).
    apply IH; [done|done|done| |done].
    intros y Hy. rewrite Hl by (by right). by rewrite last_cons_cons.
Qed.

(** Reading a node after a series of writes. *)
Ltac req_norm :=
  repeat first
    [ rewrite req_sendFileIoRequestToServer
    | rewrite req_freeFileIoRequest
    | rewrite req_set_dataBlocks
    | rewrite req_set_fileRecords
    | rewrite req_set_pool
    | rewrite req_set_mailbox
    | rewrite req_upd_req ].

Section Linking.

Variable IO_DATA_BLOCK_DATA_CAPACITY_BYTES : Z.
Local Abbreviation CAP := IO_DATA_BLOCK_DATA_CAPACITY_BYTES.
Local Abbreviation Core := (Core IO_DATA_BLOCK_DATA_CAPACITY_BYTES).
Local Abbreviation Shape := (Shape IO_DATA_BLOCK_DATA_CAPACITY_BYTES).
Local Abbreviation file_order := (file_order IO_DATA_BLOCK_DATA_CAPACITY_BYTES).

Lemma file_order_snoc (w w' : World) (l : list nat) (p : nat) :
  file_order w l ->
  (forall y, y ∈ l -> filePosition (req w' y) = filePosition (req w y)) ->
  (forall t, last l = Some t ->
     filePosition (req w' p) = size_wrap (filePosition (req w t) + CAP)) ->
  file_order w' (l ++ [p]).
Proof.
  induction l as [|x l IH]; intros Hord Hl Hp; [done|].
  destruct Hord as [H1 H2]. simpl. split.
  - destruct l as [|z l]; simpl.
    + rewrite (Hp x) by done. rewrite Hl by (by left). done.
    + rewrite !Hl; [done|by left|by right; left].
  - destruct l as [|z l]; [done|].
    apply IH; [done| |].
    + intros y Hy. apply Hl. by right.
    + intros t Ht. apply Hp. by rewrite last_cons_cons.
Qed.

(** A node taken from the pool is initialised as a block request [n],
    linked behind the last block of the queue (or as its only block), sent
    to the server and counted. *)
Lemma link_block_Core (rq o p : nat) (P l : list nat) (n : FileIoRequest) (w w' : World) :
  Core rq o l w ->
  state_ w rq ≠ STREAM_STATE_OPENING ->
  (length l <= prefetchQueueBlockCount)%nat ->
  globalRequestPool_ w = p :: P ->
  requestType n = READ_BLOCK -> clientInt n ≠ SIZE_MAX ->
  resultQueuePtr n = Some rq -> links_client n = None ->
  0 <= filePosition n < SIZE_MODULUS ->
  (forall t, last l = Some t ->
     filePosition n = size_wrap (filePosition (req w t) + CAP)) ->
  globalRequestPool_ w' = P ->
  serverMailboxQueue_ w' = serverMailboxQueue_ w ++ [p] ->
  dom (requests w') = dom (requests w) ->
  (forall y, req w' y =
     if decide (rq = y) then
       set_clientInt (size_wrap (clientInt (req w rq) + 1))
         (set_resultQueue (rq_incrementExpectedResultCount (resultQueue (req w rq)))
            (if decide (l = []) then set_links_client (Some p) (req w rq)
             else req w rq))
     else if decide (o = y) then set_links_client (Some p) (req w o)
     else if decide (p = y) then n
     else if decide (Some y = last l) then set_links_client (Some p) (req w y)
     else req w y) ->
  Core rq o (l ++ [p]) w'.
Proof.
  intros HC Hst Hlen Hpool Hnty Hnd Hnptr Hnl Hnrange Hnpos HP HM Hdom Hreq.
  open_core HC.
  assert (HpP : p ∈ globalRequestPool_ w) by (rewrite Hpool; left).
  assert (Hprq : p ≠ rq).
  { intros ->. apply own_root0. clear -HpP. set_solver. }
  assert (Hpo : p ≠ o) by (intros ->; done).
  assert (Hpl : p ∉ l) by (intros Hin; by apply (own_fifo_pool0 p)).
  assert (HpM : p ∉ serverMailboxQueue_ w ++ queued w rq).
  { apply transit_facts in own_transit0 as (_ & _ & _ & H1 & H2 & _).
    specialize (H1 p HpP). specialize (H2 p HpP). clear -H1 H2. set_solver. }
  assert (HpP' : p ∉ P).
  { apply transit_facts in own_transit0 as (H1 & _).
    rewrite Hpool in H1. by apply NoDup_cons in H1 as [? _]. }
  assert (HoMQ : o ∉ serverMailboxQueue_ w ++ queued w rq) by (by apply own_opened0).
  assert (Hlast : forall y, Some y = last l -> y ∈ l).
  { intros y Hy. by apply last_Some_elem_of. }
  assert (Hst' : state_ w' rq = state_ w rq).
  { unfold state_. rewrite Hreq, decide_True by done. by destruct (decide (l = [])). }
  assert (HQ : queued w' rq = queued w rq).
  { unfold queued. rewrite Hreq, decide_True by done. by destruct (decide (l = [])). }
  assert (Hkeep : forall y, y ≠ rq -> y ≠ p ->
            exists c, req w' y = set_links_client c (req w y)).
  { intros y ? ?. rewrite Hreq. goal_decide; try done; try subst y;
      first [ by eexists | exists (links_client (req w y)); by destruct (req w y) ]. }
  assert (Hty : forall y, y ≠ rq -> y ≠ p ->
            requestType (req w' y) = requestType (req w y)
            /\ clientInt (req w' y) = clientInt (req w y)
            /\ resultQueuePtr (req w' y) = resultQueuePtr (req w y)
            /\ filePosition (req w' y) = filePosition (req w y)
            /\ resultStatus (req w' y) = resultStatus (req w y)).
  { intros y H1 H2. destruct (Hkeep y H1 H2) as [c ->]. done. }
  constructor.
  - constructor; unfold openFileReq, prefetchQueueHead_ in *.
    + rewrite Hreq, decide_True by done. by destruct (decide (l = [])).
    + done.
    + rewrite Hreq, decide_True by done. destruct (decide (l = [])) as [->|Hl].
      * simpl. split; [done|]. rewrite Hreq. goal_decide; subst; done.
      * apply (lseg_snoc w); [done..| |].
        -- intros y Hy. rewrite Hreq. goal_decide; subst; done.
        -- rewrite Hreq. goal_decide; subst; done.
    + intros _. rewrite last_snoc. rewrite Hreq. goal_decide; subst; done.
    + apply NoDup_app. split; [done|]. split; [|apply NoDup_singleton].
      intros y Hy ->%list_elem_of_singleton. done.
    + clear -shape_root0 Hprq. set_solver.
    + clear -shape_open_fifo0 Hpo. set_solver.
    + apply (file_order_snoc w); [done| |].
      * intros y Hy. apply Hty; intros ->; done.
      * intros t Ht. rewrite Hreq. goal_decide; subst; try done. by apply Hnpos.
    + rewrite length_app. simpl. unfold prefetchQueueBlockCount in *. lia.
    + intros y Hy. apply elem_of_app in Hy as [Hy|Hy].
      * destruct (Hty y) as (_ & _ & _ & -> & _); [by intros ->..|].
        by apply shape_range0.
      * apply list_elem_of_singleton in Hy as ->.
        rewrite Hreq. goal_decide; subst; done.
  - constructor; rewrite ?HQ, ?Hst', ?HM, ?HP.
    + destruct (Hty o) as (-> & _); done.
    + destruct (Hty o) as (_ & _ & -> & _); done.
    + done.
    + rewrite Hpool in own_transit0. solve_nodup own_transit0.
    + rewrite Hpool in own_root0. clear -own_root0 Hprq. set_solver.
    + rewrite Hpool in own_open_pool0. clear -own_open_pool0. set_solver.
    + intros y Hy. apply elem_of_app in Hy as [Hy|Hy];
        [|by apply list_elem_of_singleton in Hy as ->].
      specialize (own_fifo_pool0 y Hy). rewrite Hpool in own_fifo_pool0.
      clear -own_fifo_pool0. set_solver.
    + intros y Hy. apply elem_of_app in Hy as [Hy|Hy];
        [|apply list_elem_of_singleton in Hy as ->].
      * destruct (Hty y) as (-> & -> & _); [by intros ->|by intros ->|].
        destruct (own_fifo0 y Hy) as [(?&?&Hin)|(?&Hin)]; [left|right].
        -- split; [done|]. split; [done|]. clear -Hin. set_solver.
        -- split; [done|]. assert (y ≠ p) by (by intros ->).
           clear -Hin H0. set_solver.
      * left. rewrite Hreq. goal_decide; subst; try done.
        split; [done|]. split; [done|]. clear. set_solver.
    + intros y Hy. apply elem_of_app in Hy as [Hy|Hy];
        [|apply list_elem_of_singleton in Hy as ->].
      * assert (y ≠ rq).
        { intros ->. apply own_root0. clear -Hy. set_solver. }
        assert (y ≠ p).
        { intros ->. apply HpM. clear -Hy. set_solver. }
        destruct (Hty y) as (-> & -> & -> & _); [done..|].
        destruct (own_mailbox0 y Hy) as [[_ ?]|[(?&?&[Hin|?])|?]];
          [done|right; left|right; left|by right; right].
        -- split; [done|]. split; [done|]. left. clear -Hin. set_solver.
        -- split; [done|]. split; [done|]. by right.
      * right. left. rewrite Hreq. goal_decide; subst; try done.
        split; [done|]. split; [done|]. left. clear. set_solver.
    + intros y Hy.
      assert (y ≠ rq).
      { intros ->. apply own_root0. clear -Hy. set_solver. }
      assert (y ≠ p).
      { intros ->. apply HpM. clear -Hy. set_solver. }
      destruct (Hty y) as (-> & -> & _); [done..|].
      destruct (own_queue0 y Hy) as [[_ ?]|[? [Hin|?]]]; [done|right|right].
      * split; [done|]. left. clear -Hin. set_solver.
      * split; [done|]. by right.
    + done.
    + intros _. clear -HoMQ Hpo. set_solver.
  - unfold error_ in *. rewrite Hst'.
    destruct (Hty o) as (_ & _ & _ & _ & ->); [done..|].
    rewrite <- HE. rewrite Hreq, decide_True by done. by destruct (decide (l = [])).
  - unfold waitingForBlocksCount_ in *. rewrite Hreq, decide_True by done.
    change (clientInt (set_clientInt ?v ?m)) with v.
    rewrite pending_count_app. simpl.
    rewrite (bool_decide_eq_true_2 (requestType (req w' p) = _)).
    2:{ rewrite Hreq. goal_decide; subst; done. }
    rewrite (pending_count_ext w w' l).
    2:{ intros y Hy. apply Hty; intros ->; done. }
    rewrite HN. pose proof (pending_count_range w l).
    rewrite size_wrap_small; [lia|].
    unfold prefetchQueueBlockCount, SIZE_MODULUS in *. lia.
  - intros y Hy. rewrite Hdom. apply HD. unfold owned in *.
    rewrite HP, HM, HQ in Hy. rewrite Hpool. clear -Hy. set_solver.
Qed.

(** [allocFileIoRequest] followed by
    [initLinkAndSendSequentialBlockRequest] on a queue that is not empty. *)
Lemma push_Core (rq o p : nat) (P l : list nat) (w : World) :
  Core rq o l w ->
  l ≠ [] ->
  (length l <= prefetchQueueBlockCount)%nat ->
  globalRequestPool_ w = p :: P ->
  exists t w',
    last l = Some t
    /\ allocFileIoRequest w = (Some p, set_pool P w)
    /\ initLinkAndSendSequentialBlockRequest CAP p rq (set_pool P w) = Some w'
    /\ Core rq o (l ++ [p]) w'
    /\ state_ w' rq = state_ w rq
    /\ queued w' rq = queued w rq
    /\ globalRequestPool_ w' = P
    /\ serverMailboxQueue_ w' = serverMailboxQueue_ w ++ [p]
    /\ dom (requests w') = dom (requests w)
    /\ req w' p
       = initAcquire (fileHandle (req w o))
           (size_wrap (filePosition (req w t) + CAP)) rq (req w p)
    /\ (forall y, y ≠ rq -> y ≠ p -> exists c, req w' y = set_links_client c (req w y)).
Proof.
  intros HC Hl Hlen Hpool.
  assert (Hst : state_ w rq ≠ STREAM_STATE_OPENING).
  { destruct l as [|x l]; [done|]. by eapply nonempty_not_opening. }
  pose proof HC as HC0. open_core HC.
  destruct (last l) as [t|] eqn:Hlast; [|by apply last_None in Hlast].
  assert (Htl : t ∈ l) by (by apply last_Some_elem_of).
  assert (HpP : p ∈ globalRequestPool_ w) by (rewrite Hpool; left).
  assert (Hprq : p ≠ rq).
  { intros ->. apply own_root0. clear -HpP. set_solver. }
  assert (Hpo : p ≠ o) by (intros ->; done).
  assert (Hpt : p ≠ t) by (intros ->; by apply (own_fifo_pool0 t)).
  assert (Htrq : t ≠ rq) by (intros ->; done).
  assert (Hto : t ≠ o) by (intros ->; done).
  assert (Hd : rq ∈ dom (requests w) /\ o ∈ dom (requests w)
               /\ p ∈ dom (requests w) /\ t ∈ dom (requests w)).
  { repeat split; apply HD; unfold owned; clear -HpP Htl; set_solver. }
  destruct Hd as (Hdrq & Hdo & Hdp & Hdt).
  set (w' := sendBlockRequestToServer p rq
               (upd_req o (set_links_client (Some p))
                  (upd_req t (set_links_client (Some p))
                     (upd_req p
                        (initAcquire (fileHandle (req w o))
                           (size_wrap (filePosition (req w t) + CAP)) rq)
                        (set_pool P w))))).
  assert (Hrun : initLinkAndSendSequentialBlockRequest CAP p rq (set_pool P w) = Some w').
  { unfold initLinkAndSendSequentialBlockRequest, prefetchQueue_push_back, openFileReq in *.
    rewrite !req_set_pool, shape_open0. simpl.
    rewrite !req_set_pool, (shape_tail0 Hl). simpl.
    rewrite !req_upd_req, !req_set_pool.
    rewrite (decide_False (P := p = rq)) by done. rewrite shape_open0. simpl.
    rewrite !req_upd_req, !req_set_pool.
    rewrite (decide_False (P := p = o)) by done. rewrite (shape_tail0 Hl). simpl.
    done. }
  exists t, w'. split; [done|]. split; [by unfold allocFileIoRequest; rewrite Hpool|].
  split; [done|].
  assert (Hreq : forall y, req w' y =
     if decide (rq = y) then
       set_clientInt (size_wrap (clientInt (req w rq) + 1))
         (set_resultQueue (rq_incrementExpectedResultCount (resultQueue (req w rq)))
            (if decide (l = []) then set_links_client (Some p) (req w rq)
             else req w rq))
     else if decide (o = y) then set_links_client (Some p) (req w o)
     else if decide (p = y)
          then initAcquire (fileHandle (req w o))
                 (size_wrap (filePosition (req w t) + CAP)) rq (req w p)
     else if decide (Some y = last l) then set_links_client (Some p) (req w y)
     else req w y).
  { intros y. unfold w', sendBlockRequestToServer.
    req_norm. rewrite Hlast. rewrite (decide_False (P := l = [])) by done.
    goal_decide; simplify_eq; done. }
  assert (Hdom : dom (requests w') = dom (requests w)).
  { unfold w', sendBlockRequestToServer. dom_eq. }
  split.
  { apply (link_block_Core rq o p P l
             (initAcquire (fileHandle (req w o))
                (size_wrap (filePosition (req w t) + CAP)) rq (req w p))
             w w' HC0); try done.
    - apply size_wrap_range.
    - intros t' Ht'. rewrite Hlast in Ht'. by injection Ht' as <-. }
  split. { unfold state_. rewrite Hreq, decide_True by done. by destruct (decide _). }
  split. { unfold queued. rewrite Hreq, decide_True by done. by destruct (decide _). }
  split; [done|]. split; [done|]. split; [done|].
  split. { rewrite Hreq. goal_decide; simplify_eq; done. }
  intros y ? ?. rewrite Hreq. goal_decide; try done; try subst y;
    first [ by eexists | exists (links_client (req w y)); by destruct (req w y) ].
Qed.

(** The first block request of [seek], on an empty queue: the head and the
    tail pointer are set to the new node. *)
Lemma first_block_Core (rq o p : nat) (P : list nat) (w : World) (pos c : Z) :
  Core rq o [] w ->
  state_ w rq ≠ STREAM_STATE_OPENING ->
  globalRequestPool_ w = p :: P ->
  c ≠ SIZE_MAX ->
  0 <= pos < SIZE_MODULUS ->
  let w' :=
    sendBlockRequestToServer p rq
      (upd_req o (set_links_client (Some p))
         (upd_req rq (set_links_client (Some p))
            (upd_req p (set_clientInt c)
               (upd_req p (initAcquire (fileHandle (req w o)) pos rq)
                  (set_pool P w))))) in
  Core rq o [p] w'
  /\ state_ w' rq = state_ w rq
  /\ queued w' rq = queued w rq
  /\ globalRequestPool_ w' = P
  /\ serverMailboxQueue_ w' = serverMailboxQueue_ w ++ [p]
  /\ dom (requests w') = dom (requests w)
  /\ req w' p = set_clientInt c (initAcquire (fileHandle (req w o)) pos rq (req w p))
  /\ (forall y, y ≠ rq -> y ≠ p -> exists c, req w' y = set_links_client c (req w y)).
Proof.
  intros HC Hst Hpool Hc Hpos w'.
  pose proof HC as HC0. open_core HC.
  assert (HpP : p ∈ globalRequestPool_ w) by (rewrite Hpool; left).
  assert (Hprq : p ≠ rq).
  { intros ->. apply own_root0. clear -HpP. set_solver. }
  assert (Hpo : p ≠ o) by (intros ->; done).
  assert (Hd : rq ∈ dom (requests w) /\ o ∈ dom (requests w) /\ p ∈ dom (requests w)).
  { repeat split; apply HD; unfold owned; clear -HpP; set_solver. }
  destruct Hd as (Hdrq & Hdo & Hdp).
  assert (Hreq : forall y, req w' y =
     if decide (rq = y) then
       set_clientInt (size_wrap (clientInt (req w rq) + 1))
         (set_resultQueue (rq_incrementExpectedResultCount (resultQueue (req w rq)))
            (if decide (@nil nat = []) then set_links_client (Some p) (req w rq)
             else req w rq))
     else if decide (o = y) then set_links_client (Some p) (req w o)
     else if decide (p = y)
          then set_clientInt c (initAcquire (fileHandle (req w o)) pos rq (req w p))
     else if decide (Some y = last []) then set_links_client (Some p) (req w y)
     else req w y).
  { intros y. unfold w', sendBlockRequestToServer. req_norm.
    rewrite (decide_True (P := @nil nat = [])) by done.
    goal_decide; simplify_eq; done. }
  assert (Hdom : dom (requests w') = dom (requests w)).
  { unfold w', sendBlockRequestToServer. dom_eq. }
  split.
  { apply (link_block_Core rq o p P []
             (set_clientInt c (initAcquire (fileHandle (req w o)) pos rq (req w p)))
             w w' HC0); try done.
    simpl. lia. }
  split. { unfold state_. rewrite Hreq, decide_True by done. by destruct (decide _). }
  split. { unfold queued. rewrite Hreq, decide_True by done. by destruct (decide _). }
  split; [done|]. split; [done|]. split; [done|].
  split. { rewrite Hreq. goal_decide; simplify_eq; done. }
  intros y ? ?. rewrite Hreq. goal_decide; try done; try subst y;
    first [ by eexists | exists (links_client (req w y)); by destruct (req w y) ].
Qed.

End Linking.

Section Frame.

Variable IO_DATA_BLOCK_DATA_CAPACITY_BYTES : Z.
Local Abbreviation CAP := IO_DATA_BLOCK_DATA_CAPACITY_BYTES.
Local Abbreviation Core := (Core IO_DATA_BLOCK_DATA_CAPACITY_BYTES).
Local Abbreviation Shape := (Shape IO_DATA_BLOCK_DATA_CAPACITY_BYTES).
Local Abbreviation file_order := (file_order IO_DATA_BLOCK_DATA_CAPACITY_BYTES).

(** *** Steps that move no node *)

(** A step of an open stream that moves no node, changes the state of the
    stream to a state other than OPENING, the tail pointer of an empty
    queue, and the cursor of blocks that are not pending. *)
Lemma Core_frame (rq o : nat) (l : list nat) (w w' : World) :
  Core rq o l w ->
  state_ w rq ≠ STREAM_STATE_OPENING ->
  globalRequestPool_ w' = globalRequestPool_ w ->
  serverMailboxQueue_ w' = serverMailboxQueue_ w ->
  dom (requests w') = dom (requests w) ->
  (exists st, req w' rq = set_requestType st (req w rq)
              /\ is_stream_state st /\ st ≠ STREAM_STATE_OPENING) ->
  (exists c, req w' o = set_links_client c (req w o)
             /\ (l ≠ [] -> c = links_client (req w o))) ->
  (forall y, y ≠ rq -> y ≠ o ->
     exists v, req w' y = set_clientInt v (req w y)
               /\ (requestType (req w y) = READ_BLOCK -> v = clientInt (req w y))) ->
  Core rq o l w'.
Proof.
  intros HC Hst HP HM Hdom (st & Hrq & Hst1 & Hst2) (c & Ho & Hc) Hy.
  open_core HC.
  assert (Hst' : state_ w' rq ≠ STREAM_STATE_OPENING).
  { unfold state_. by rewrite Hrq. }
  assert (HQ : queued w' rq = queued w rq).
  { unfold queued. by rewrite Hrq. }
  assert (Hl : forall y, y ∈ l ->
            links_client (req w' y) = links_client (req w y)
            /\ filePosition (req w' y) = filePosition (req w y)
            /\ requestType (req w' y) = requestType (req w y)).
  { intros y Hin. destruct (Hy y) as (v & -> & _); [by intros ->..|done]. }
  assert (Hany : forall y, y ≠ rq -> y ≠ o ->
            requestType (req w' y) = requestType (req w y)
            /\ resultQueuePtr (req w' y) = resultQueuePtr (req w y)
            /\ (requestType (req w y) = READ_BLOCK ->
                clientInt (req w' y) = clientInt (req w y))).
  { intros y H1 H2. destruct (Hy y H1 H2) as (v & -> & Hv).
    split; [done|]. split; [done|]. intros Ht. by rewrite (Hv Ht). }
  constructor.
  - constructor; unfold openFileReq, prefetchQueueHead_ in *.
    + by rewrite Hrq.
    + done.
    + rewrite Hrq. simpl. apply (lseg_ext w); [|done]. intros y Hin. by apply Hl.
    + intros Hne. rewrite Ho. simpl. rewrite (Hc Hne). by apply shape_tail0.
    + done.
    + done.
    + done.
    + apply (file_order_ext _ w); [|done]. intros y Hin. by apply Hl.
    + done.
    + intros y Hin. destruct (Hl y Hin) as (_ & -> & _). by apply shape_range0.
  - constructor; rewrite ?HQ, ?HP, ?HM.
    + by rewrite Ho.
    + by rewrite Ho.
    + unfold state_. by rewrite Hrq.
    + done.
    + done.
    + done.
    + done.
    + intros y Hin.
      assert (y ≠ rq) by (by intros ->). assert (y ≠ o) by (by intros ->).
      destruct (Hany y) as (-> & _ & Hcl); [done..|].
      destruct (own_fifo0 y Hin) as [(Hty&?&?)|?]; [left|by right].
      rewrite (Hcl Hty). done.
    + intros y Hin.
      assert (y ≠ rq). { intros ->. apply own_root0. clear -Hin. set_solver. }
      assert (y ≠ o). { intros ->. apply (own_opened0 Hst). clear -Hin. set_solver. }
      destruct (Hany y) as (-> & -> & Hcl); [done..|]. right.
      destruct (own_mailbox0 y Hin) as [[? _]|[(Hty&?&?)|?]]; [done|left|by right].
      rewrite (Hcl Hty). done.
    + intros y Hin.
      assert (y ≠ rq). { intros ->. apply own_root0. clear -Hin. set_solver. }
      assert (y ≠ o). { intros ->. apply (own_opened0 Hst). clear -Hin. set_solver. }
      destruct (Hany y) as (-> & _ & Hcl); [done..|]. right.
      destruct (own_queue0 y Hin) as [[? _]|(Hty&?)]; [done|].
      rewrite (Hcl Hty). done.
    + done.
    + intros _. by apply own_opened0.
  - unfold error_, state_ in *. rewrite Hrq, Ho. simpl.
    rewrite bool_decide_eq_false_2 by done.
    rewrite bool_decide_eq_false_2 in HE by done. done.
  - unfold waitingForBlocksCount_ in *. rewrite Hrq. simpl. rewrite HN.
    symmetry. apply pending_count_ext. intros y Hin. by apply Hl.
  - intros y Hin. rewrite Hdom. apply HD. unfold owned in *.
    rewrite HP, HM, HQ in Hin. done.
Qed.

Lemma set_requestType_id (n : FileIoRequest) : set_requestType (requestType n) n = n.
Proof. by destruct n. Qed.

Lemma set_links_client_id (n : FileIoRequest) : set_links_client (links_client n) n = n.
Proof. by destruct n. Qed.

Lemma set_clientInt_id (n : FileIoRequest) : set_clientInt (clientInt n) n = n.
Proof. by destruct n. Qed.

Lemma Core_dom_root (rq o : nat) (l : list nat) (w : World) :
  Core rq o l w -> rq ∈ dom (requests w) /\ o ∈ dom (requests w).
Proof.
  intros HC. destruct HC as [_ _ _ _ HD].
  split; apply HD; unfold owned; set_solver +.
Qed.

Lemma Core_dom_fifo (rq o x : nat) (l : list nat) (w : World) :
  Core rq o l w -> x ∈ l -> x ∈ dom (requests w).
Proof.
  intros HC Hx. destruct HC as [_ _ _ _ HD].
  apply HD; unfold owned; set_solver +Hx.
Qed.

(** [state_() = st] for a state other than OPENING. *)
Lemma set_state_Core (st : RequestType) (rq o : nat) (l : list nat) (w : World) :
  Core rq o l w ->
  state_ w rq ≠ STREAM_STATE_OPENING ->
  is_stream_state st -> st ≠ STREAM_STATE_OPENING ->
  Core rq o l (set_state_ st rq w).
Proof.
  intros HC Hst H1 H2. pose proof (Core_dom_root _ _ _ _ HC) as [Hdr Hdo].
  assert (Hne : o ≠ rq) by (by destruct HC as [[] _ _ _ _]).
  apply (Core_frame rq o l w); try done.
  - unfold set_state_. dom_eq.
  - exists st. rewrite req_set_state_, decide_True by done. done.
  - exists (links_client (req w o)). rewrite req_set_state_, decide_False by done.
    by rewrite set_links_client_id.
  - intros y ? ?. exists (clientInt (req w y)).
    rewrite req_set_state_, decide_False by done. by rewrite set_clientInt_id.
Qed.

(** The cursor of a block that is not pending moves. *)
Lemma cursor_Core (v : Z) (rq o x : nat) (l : list nat) (w : World) :
  Core rq o l w ->
  x ∈ l ->
  requestType (req w x) ≠ READ_BLOCK ->
  Core rq o l (upd_req x (set_clientInt v) w).
Proof.
  intros HC Hx Hty.
  assert (Hst : state_ w rq ≠ STREAM_STATE_OPENING).
  { destruct l as [|z l]; [by apply elem_of_nil in Hx|]. by eapply nonempty_not_opening. }
  pose proof (Core_dom_root _ _ _ _ HC) as [Hdr Hdo].
  pose proof (Core_dom_fifo _ _ _ _ _ HC Hx) as Hdx.
  assert (Hne : x ≠ rq /\ x ≠ o).
  { destruct HC as [[] _ _ _ _]. split; by intros ->. }
  destruct Hne as [Hxr Hxo].
  apply (Core_frame rq o l w); try done.
  - dom_eq.
  - exists (state_ w rq). rewrite req_upd_req, decide_False by done.
    unfold state_. rewrite set_requestType_id. split; [done|]. split; [|done].
    by destruct HC as [_ [] _ _ _].
  - exists (links_client (req w o)). rewrite req_upd_req, decide_False by done.
    by rewrite set_links_client_id.
  - intros y ? ?. rewrite req_upd_req. destruct (decide (x = y)) as [<-|].
    + by exists v.
    + exists (clientInt (req w y)). by rewrite set_clientInt_id.
Qed.

(** The tail pointer of an empty queue is reset. *)
Lemma tail_reset_Core (rq o : nat) (w : World) :
  Core rq o [] w ->
  state_ w rq ≠ STREAM_STATE_OPENING ->
  Core rq o [] (upd_req o (set_links_client None) w).
Proof.
  intros HC Hst.
  pose proof (Core_dom_root _ _ _ _ HC) as [Hdr Hdo].
  assert (Hne : o ≠ rq) by (by destruct HC as [[] _ _ _ _]).
  apply (Core_frame rq o [] w); try done.
  - dom_eq.
  - exists (state_ w rq). rewrite req_upd_req, decide_False by done.
    unfold state_. rewrite set_requestType_id. split; [done|]. split; [|done].
    by destruct HC as [_ [] _ _ _].
  - exists None. rewrite req_upd_req, decide_True by done. done.
  - intros y ? ?. exists (clientInt (req w y)).
    rewrite req_upd_req, decide_False by done. by rewrite set_clientInt_id.
Qed.

End Frame.

(** *** [flushPrefetchQueue] *)

Lemma NoDup_length_le_size (l : list nat) (X : gset nat) :
  NoDup l -> (forall x, x ∈ l -> x ∈ X) -> (length l <= size X)%nat.
Proof.
  intros Hnd Hsub. rewrite <- (size_list_to_set (C := gset nat) l Hnd).
  apply subseteq_size. intros x Hx. apply Hsub. by apply elem_of_list_to_set in Hx.
Qed.

Section Seek.

Variable IO_DATA_BLOCK_DATA_CAPACITY_BYTES : Z.
Local Abbreviation CAP := IO_DATA_BLOCK_DATA_CAPACITY_BYTES.
Local Abbreviation Core := (Core IO_DATA_BLOCK_DATA_CAPACITY_BYTES).
Local Abbreviation Shape := (Shape IO_DATA_BLOCK_DATA_CAPACITY_BYTES).
Local Abbreviation file_order := (file_order IO_DATA_BLOCK_DATA_CAPACITY_BYTES).
Local Abbreviation block_requests_at := (block_requests_at IO_DATA_BLOCK_DATA_CAPACITY_BYTES).

Lemma Core_fifo_size (rq o : nat) (l : list nat) (w : World) :
  Core rq o l w -> (length l <= size (requests w))%nat.
Proof.
  intros HC. rewrite <- size_dom. apply NoDup_length_le_size.
  - by destruct HC as [[] _ _ _ _].
  - intros x Hx. by eapply Core_dom_fifo.
Qed.

Lemma Core_head (rq o : nat) (l : list nat) (w : World) :
  Core rq o l w -> prefetchQueueHead_ w rq = head l.
Proof.
  intros HC. pose proof (shape_lseg _ _ _ _ _ (core_shape _ _ _ _ _ HC)) as Hseg.
  destruct l; simpl in *; [done|]. by destruct Hseg.
Qed.

(** The loop of [flushPrefetchQueue] ends with an empty queue, within as
    many turns as the queue has blocks. *)
Lemma flushPrefetchQueue_loop_Core (rq o : nat) (l : list nat) :
  forall (fuel : nat) (w : World),
    Core rq o l w ->
    (length l <= fuel)%nat ->
    exists w',
      flushPrefetchQueue_loop fuel rq w = Some w'
      /\ Core rq o [] w'
      /\ state_ w' rq = state_ w rq
      /\ queued w' rq = queued w rq
      /\ dom (requests w') = dom (requests w).
Proof.
  induction l as [|x l IH]; intros fuel w HC Hfuel.
  - exists w. split; [|done].
    destruct fuel; simpl; by rewrite (Core_head _ _ _ _ HC).
  - destruct fuel as [|fuel]; [simpl in Hfuel; lia|].
    simpl. rewrite (Core_head _ _ _ _ HC). simpl.
    destruct (flush_front_Core _ rq o x l w HC) as (w1 & -> & HC1 & Hs1 & Hq1 & Hd1).
    simpl.
    destruct (IH fuel _ HC1) as (w' & Hrun & HC' & Hs' & Hq' & Hd');
      [simpl in Hfuel; lia|].
    exists w'. split; [done|]. split; [done|].
    split; [congruence|]. split; congruence.
Qed.

Lemma flushPrefetchQueue_Core (rq o : nat) (l : list nat) (w : World) :
  Core rq o l w ->
  state_ w rq ≠ STREAM_STATE_OPENING ->
  exists w',
    flushPrefetchQueue rq w = Some w'
    /\ Core rq o [] w'
    /\ state_ w' rq = state_ w rq
    /\ queued w' rq = queued w rq
    /\ dom (requests w') = dom (requests w).
Proof.
  intros HC Hst. unfold flushPrefetchQueue.
  destruct (flushPrefetchQueue_loop_Core rq o l (size (requests w)) w HC)
    as (w1 & -> & HC1 & Hs1 & Hq1 & Hd1); [by eapply Core_fifo_size|].
  simpl.
  assert (Ho : openFileReq w1 rq = Some o) by (by destruct HC1 as [[] _ _ _ _]).
  rewrite Ho. simpl.
  pose proof (Core_dom_root _ _ _ _ _ HC1) as [Hdr Hdo].
  assert (Hne : o ≠ rq) by (by destruct HC1 as [[] _ _ _ _]).
  eexists. split; [done|].
  split; [apply tail_reset_Core; [done|congruence]|].
  split. { unfold state_. rewrite req_upd_req, decide_False by done. done. }
  split. { unfold queued. rewrite req_upd_req, decide_False by done. done. }
  rewrite <- Hd1. dom_eq.
Qed.

(** *** [seek] *)

Lemma block_requests_at_ext (rq : nat) (a c0 : Z) (w w' : World) (l : list nat) :
  (forall y, y ∈ l -> exists c, req w' y = set_links_client c (req w y)) ->
  block_requests_at rq a c0 w l -> block_requests_at rq a c0 w' l.
Proof.
  intros Hext H k x Hk. destruct (Hext x) as [c ->]; [by eapply list_elem_of_lookup_2|].
  by apply H.
Qed.

Lemma size_wrap_add_l (x y : Z) : size_wrap (size_wrap x + y) = size_wrap (x + y).
Proof. unfold size_wrap. by rewrite Zplus_mod_idemp_l. Qed.

Lemma seek_loop_Core (rq o : nat) (a c0 : Z) :
  forall (n : nat) (l : list nat) (w : World),
    Core rq o l w ->
    l ≠ [] ->
    block_requests_at rq a c0 w l ->
    (length l + n <= prefetchQueueBlockCount)%nat ->
    exists ret w' l2,
      seek_loop CAP n rq w = Some (ret, w')
      /\ Core rq o (l ++ l2) w'
      /\ block_requests_at rq a c0 w' (l ++ l2)
      /\ length l2 = Nat.min n (length (globalRequestPool_ w))
      /\ serverMailboxQueue_ w' = serverMailboxQueue_ w ++ l2
      /\ globalRequestPool_ w' = drop (length l2) (globalRequestPool_ w)
      /\ queued w' rq = queued w rq
      /\ dom (requests w') = dom (requests w)
      /\ (((n <= length (globalRequestPool_ w))%nat
           /\ ret = 0 /\ state_ w' rq = STREAM_STATE_OPEN_BUFFERING)
          \/ ((length (globalRequestPool_ w) < n)%nat
              /\ ret = -1 /\ state_ w' rq = STREAM_STATE_ERROR)).
Proof.
  induction n as [|n IH]; intros l w HC Hl Hat Hlen.
  - assert (Hst : state_ w rq ≠ STREAM_STATE_OPENING).
    { destruct l as [|x l]; [done|]. by eapply nonempty_not_opening. }
    pose proof (Core_dom_root _ _ _ _ _ HC) as [Hdr Hdo].
    exists 0, (set_state_ STREAM_STATE_OPEN_BUFFERING rq w), [].
    rewrite app_nil_r. split; [done|].
    split. { apply set_state_Core; try done. unfold is_stream_state. tauto. }
    split.
    { intros k x Hk. rewrite req_set_state_.
      assert (x ≠ rq).
      { intros ->. apply (shape_root _ _ _ _ _ (core_shape _ _ _ _ _ HC)).
        by eapply list_elem_of_lookup_2. }
      rewrite decide_False by done. by apply Hat. }
    split; [done|]. split; [by rewrite app_nil_r|]. split; [done|].
    split. { unfold queued. rewrite req_set_state_, decide_True by done. done. }
    split. { unfold set_state_. dom_eq. }
    left. split; [lia|]. split; [done|].
    unfold state_. rewrite req_set_state_, decide_True by done. done.
  - assert (Hst : state_ w rq ≠ STREAM_STATE_OPENING).
    { destruct l as [|x l]; [done|]. by eapply nonempty_not_opening. }
    pose proof (Core_dom_root _ _ _ _ _ HC) as [Hdr Hdo].
    simpl. destruct (globalRequestPool_ w) as [|p P] eqn:Hpool.
    + unfold allocFileIoRequest. rewrite Hpool.
      exists (-1), (set_state_ STREAM_STATE_ERROR rq w), [].
      rewrite app_nil_r. split; [done|].
      split. { apply set_state_Core; try done. unfold is_stream_state. tauto. }
      split.
      { intros k x Hk. rewrite req_set_state_.
        assert (x ≠ rq).
        { intros ->. apply (shape_root _ _ _ _ _ (core_shape _ _ _ _ _ HC)).
          by eapply list_elem_of_lookup_2. }
        rewrite decide_False by done. by apply Hat. }
      split; [done|]. split; [by rewrite app_nil_r|]. split; [done|].
      split. { unfold queued. rewrite req_set_state_, decide_True by done. done. }
      split. { unfold set_state_. dom_eq. }
      right. split; [simpl; lia|]. split; [done|].
      unfold state_. rewrite req_set_state_, decide_True by done. done.
    + destruct (push_Core _ rq o p P l w HC Hl) as
        (t & w2 & Hlast & -> & -> & HC2 & Hs2 & Hq2 & HP2 & HM2 & Hd2 & Hp2 & Hframe);
        [unfold prefetchQueueBlockCount in *; lia|done|].
      simpl.
      assert (Hin : forall y, y ∈ l -> y ≠ rq /\ y ≠ p).
      { intros y Hy. split; intros ->.
        - by apply (shape_root _ _ _ _ _ (core_shape _ _ _ _ _ HC)).
        - apply (own_fifo_pool _ _ _ _ (core_own _ _ _ _ _ HC) p Hy).
          rewrite Hpool. left. }
      assert (Hat2 : block_requests_at rq a c0 w2 (l ++ [p])).
      { intros k x Hk. apply lookup_app_Some in Hk as [Hk|[Hge Hk]].
        - destruct (Hin x) as [? ?]; [by eapply list_elem_of_lookup_2|].
          destruct (Hframe x) as [c ->]; [done..|]. by apply Hat.
        - apply list_lookup_singleton_Some in Hk as [Hk <-].
          assert (k = length l) as -> by lia.
          rewrite Hp2. simpl.
          assert (Htk : l !! (pred (length l)) = Some t) by (by rewrite <- last_lookup).
          destruct (Hat _ _ Htk) as (_ & Hpos & _).
          split; [done|]. split.
          + rewrite Hpos, size_wrap_add_l. f_equal.
            destruct l as [|z l]; [done|]. simpl length. simpl pred. lia.
          + split; [|done]. destruct l as [|z l]; [done|]. done. }
      destruct (IH (l ++ [p]) w2 HC2) as
        (ret & w' & l2 & Hrun & HC' & Hat' & Hlen' & HM' & HP' & HQ' & Hd' & Hret);
        [by destruct l|done|rewrite length_app; simpl; lia|].
      exists ret, w', (p :: l2).
      rewrite <- app_assoc in HC', Hat'. simpl in HC', Hat'.
      split; [done|]. split; [done|]. split; [done|].
      split. { simpl. rewrite Hlen', HP2. done. }
      split. { rewrite HM', HM2, <- app_assoc. done. }
      split. { simpl. rewrite HP', HP2. done. }
      split; [congruence|]. split; [congruence|].
      rewrite HP2 in Hret. simpl.
      destruct Hret as [(?&?&?)|(?&?&?)]; [left|right]; (split; [lia|done]).
Qed.

Lemma roundDownToBlockSizeAlignedPosition_spec (pos : Z) :
  0 < CAP ->
  0 <= pos < SIZE_MODULUS ->
  let a := roundDownToBlockSizeAlignedPosition CAP pos in
  a = pos / CAP * CAP /\ size_wrap (pos - a) = pos mod CAP /\ 0 <= pos mod CAP < CAP.
Proof.
  intros Hcap Hpos a.
  pose proof (Z.mod_pos_bound pos CAP Hcap).
  pose proof (Z.div_mod pos CAP ltac:(lia)).
  assert (Ha : a = pos / CAP * CAP).
  { unfold a, roundDownToBlockSizeAlignedPosition. apply size_wrap_small.
    pose proof (Z.mod_le pos CAP ltac:(lia) Hcap). lia. }
  split; [done|]. split; [|done].
  rewrite Ha. replace (pos - pos / CAP * CAP) with (pos mod CAP) by lia.
  pose proof (Z.mod_le pos CAP ltac:(lia) Hcap). apply size_wrap_small. lia.
Qed.

(** [seek] on a stream that is neither opening nor failed: the queue is
    flushed, then one block request is sent for each node the pool can
    give, up to [prefetchQueueBlockCount]. *)
Lemma seek_Core (rq o : nat) (l : list nat) (w : World) (pos : Z) :
  Core rq o l w ->
  0 < CAP < SIZE_MODULUS ->
  0 <= pos < SIZE_MODULUS ->
  state_ w rq ≠ STREAM_STATE_OPENING ->
  state_ w rq ≠ STREAM_STATE_ERROR ->
  exists w1 ret w' l',
    flushPrefetchQueue rq w = Some w1
    /\ seek CAP pos rq w = Some (ret, w')
    /\ Core rq o l' w'
    /\ block_requests_at rq (roundDownToBlockSizeAlignedPosition CAP pos)
         (pos - roundDownToBlockSizeAlignedPosition CAP pos) w' l'
    /\ length l' = Nat.min prefetchQueueBlockCount (length (globalRequestPool_ w1))
    /\ serverMailboxQueue_ w' = serverMailboxQueue_ w1 ++ l'
    /\ globalRequestPool_ w' = drop (length l') (globalRequestPool_ w1)
    /\ queued w' rq = queued w rq
    /\ dom (requests w') = dom (requests w)
    /\ (((prefetchQueueBlockCount <= length (globalRequestPool_ w1))%nat
         /\ ret = 0 /\ state_ w' rq = STREAM_STATE_OPEN_BUFFERING)
        \/ ((length (globalRequestPool_ w1) < prefetchQueueBlockCount)%nat
            /\ ret = -1 /\ state_ w' rq = STREAM_STATE_ERROR)).
Proof.
  intros HC Hcap Hpos Hst1 Hst2.
  destruct (roundDownToBlockSizeAlignedPosition_spec pos) as (Ha & Hc & Hm); [lia|done|].
  set (a := roundDownToBlockSizeAlignedPosition CAP pos) in *.
  assert (Hc' : pos - a = pos mod CAP).
  { pose proof (Z.div_mod pos CAP ltac:(lia)). lia. }
  unfold seek. rewrite !bool_decide_eq_false_2 by done. simpl.
  destruct (flushPrefetchQueue_Core rq o l w HC Hst1) as (w1 & -> & HC1 & Hs1 & Hq1 & Hd1).
  simpl. fold a.
  assert (Hst : state_ w1 rq ≠ STREAM_STATE_OPENING) by congruence.
  pose proof (Core_dom_root _ _ _ _ _ HC1) as [Hdr Hdo].
  exists w1.
  destruct (globalRequestPool_ w1) as [|p P] eqn:Hpool.
  - unfold allocFileIoRequest. rewrite Hpool.
    exists (-1), (set_state_ STREAM_STATE_ERROR rq w1), [].
    split; [done|]. split; [done|].
    split. { apply set_state_Core; try done. unfold is_stream_state. tauto. }
    split. { intros k x Hk. done. }
    split; [done|]. split; [by rewrite app_nil_r|]. split; [done|].
    split. { unfold queued in *. rewrite req_set_state_, decide_True by done. done. }
    split. { rewrite <- Hd1. unfold set_state_. dom_eq. }
    right. split; [unfold prefetchQueueBlockCount; simpl; lia|]. split; [done|].
    unfold state_. rewrite req_set_state_, decide_True by done. done.
  - unfold allocFileIoRequest. rewrite Hpool.
    assert (Ho : openFileReq (set_pool P w1) rq = Some o).
    { unfold openFileReq. rewrite req_set_pool.
      apply (shape_open _ _ _ _ _ (core_shape _ _ _ _ _ HC1)). }
    rewrite Ho. simpl.
    assert (HpP : p ∈ globalRequestPool_ w1) by (rewrite Hpool; left).
    assert (Hprq : p ≠ rq).
    { intros ->. apply (own_root _ _ _ _ (core_own _ _ _ _ _ HC1)).
      clear -HpP. set_solver. }
    assert (Ho5 : openFileReq
                    (upd_req rq (set_links_client (Some p))
                       (upd_req p (set_clientInt (size_wrap (pos - a)))
                          (upd_req p (initAcquire (fileHandle (req (set_pool P w1) o)) a rq)
                             (set_pool P w1)))) rq = Some o).
    { unfold openFileReq in *. rewrite req_upd_req, decide_True by done. simpl.
      rewrite !req_upd_req, !decide_False by done. done. }
    rewrite Ho5. simpl. rewrite req_set_pool.
    destruct (first_block_Core _ rq o p P w1 a (size_wrap (pos - a)) HC1 Hst Hpool)
      as (HC7 & Hs7 & Hq7 & HP7 & HM7 & Hd7 & Hp7 & Hframe7).
    { rewrite Hc, SIZE_MAX_eq. lia. }
    { apply size_wrap_range. }
    set (w7 := sendBlockRequestToServer p rq _) in *.
    assert (Hat7 : block_requests_at rq a (pos - a) w7 [p]).
    { intros k x Hk. apply list_lookup_singleton_Some in Hk as [-> <-].
      rewrite Hp7. simpl. split; [done|]. split; [|split; [|done]].
      - rewrite Z.add_0_r. symmetry. apply size_wrap_small.
        pose proof (Z.div_mod pos CAP ltac:(lia)).
        pose proof (Z.mod_le pos CAP ltac:(lia) ltac:(lia)). lia.
      - rewrite Hc. lia. }
    destruct (seek_loop_Core rq o a (pos - a) (prefetchQueueBlockCount - 1) [p] w7 HC7)
      as (ret & w' & l2 & Hrun & HC' & Hat' & Hlen' & HM' & HP' & HQ' & Hd' & Hret);
      [done|done|unfold prefetchQueueBlockCount; simpl; lia|].
    exists ret, w', (p :: l2).
    split; [done|]. split; [done|]. split; [done|]. split; [done|].
    split. { simpl. rewrite Hlen', HP7. unfold prefetchQueueBlockCount. simpl. lia. }
    split. { rewrite HM', HM7, <- app_assoc. done. }
    split. { simpl. rewrite HP', HP7. done. }
    split; [congruence|]. split; [congruence|].
    rewrite HP7 in Hret. unfold prefetchQueueBlockCount in *. simpl.
    destruct Hret as [(?&?&?)|(?&?&?)]; [left|right]; (split; [lia|done]).
Qed.

End Seek.

Section Receive.

Variable IO_DATA_BLOCK_DATA_CAPACITY_BYTES : Z.
Local Abbreviation CAP := IO_DATA_BLOCK_DATA_CAPACITY_BYTES.
Local Abbreviation Core := (Core IO_DATA_BLOCK_DATA_CAPACITY_BYTES).
Local Abbreviation Shape := (Shape IO_DATA_BLOCK_DATA_CAPACITY_BYTES).
Local Abbreviation file_order := (file_order IO_DATA_BLOCK_DATA_CAPACITY_BYTES).
Local Abbreviation received := (received IO_DATA_BLOCK_DATA_CAPACITY_BYTES).

(** *** [pollState] *)

(** The reply to the OPEN_FILE request is taken from the result queue: the
    stream becomes idle, or it fails with the status of the reply. *)
Lemma opened_Core (rq o : nat) (l : list nat) (q : result_queue_t) (st : RequestType)
    (w w' : World) :
  Core rq o l w ->
  state_ w rq = STREAM_STATE_OPENING ->
  queued w rq = o :: rq_nodes q ->
  globalRequestPool_ w' = globalRequestPool_ w ->
  serverMailboxQueue_ w' = serverMailboxQueue_ w ->
  dom (requests w') = dom (requests w) ->
  st = STREAM_STATE_OPEN_IDLE \/ st = STREAM_STATE_ERROR ->
  (forall y, req w' y =
     if decide (rq = y)
     then set_requestType st
            (set_resultStatus (resultStatus (req w o)) (set_resultQueue q (req w rq)))
     else if decide (o = y) then set_path None (req w o)
     else req w y) ->
  l = [] /\ Core rq o [] w'.
Proof.
  intros HC Hst HQ0 HP HM Hdom Hst' Hreq.
  open_core HC.
  destruct (own_opening0 Hst) as (-> & Hin & Hall). split; [done|].
  apply transit_facts in own_transit0 as (HndP & HndM & HndQ & HPM & HPQ & HMQ).
  rewrite HQ0 in *. apply NoDup_cons in HndQ as [HoQ HndQ].
  assert (HoM : o ∉ serverMailboxQueue_ w).
  { intros Hm. apply (HMQ o Hm). left. }
  assert (HM0 : forall x, x ∉ serverMailboxQueue_ w).
  { intros x Hx. assert (x = o) as -> by (apply Hall; clear -Hx; set_solver). done. }
  assert (HQ1 : forall x, x ∉ rq_nodes q).
  { intros x Hx. assert (x = o) as -> by (apply Hall; clear -Hx; set_solver). done. }
  assert (Hstate : state_ w' rq = st).
  { unfold state_. rewrite Hreq, decide_True by done. done. }
  assert (Hne : st ≠ STREAM_STATE_OPENING) by (destruct Hst' as [-> | ->]; done).
  assert (HQ : queued w' rq = rq_nodes q).
  { unfold queued. rewrite Hreq, decide_True by done. done. }
  constructor.
  - constructor; unfold openFileReq, prefetchQueueHead_ in *; simpl in *;
      rewrite ?Hreq, ?decide_True by done;
      first [done | lia | by intros ? ?%elem_of_nil].
  - constructor; rewrite ?HQ, ?HP, ?HM, ?Hstate.
    + rewrite Hreq. goal_decide; subst; done.
    + rewrite Hreq. goal_decide; subst; done.
    + unfold is_stream_state. destruct Hst' as [-> | ->]; tauto.
    + apply transit_facts. split; [done|]. split; [done|]. split; [done|].
      split; [done|]. split.
      * intros x Hx Hq. apply (HPQ x Hx). by right.
      * intros x Hx. by apply HM0 in Hx.
    + clear -own_root0. set_solver.
    + done.
    + intros x Hx. by apply elem_of_nil in Hx.
    + intros x Hx. by apply elem_of_nil in Hx.
    + intros x Hx. by apply HM0 in Hx.
    + intros x Hx. by apply HQ1 in Hx.
    + done.
    + intros _ Hx. apply elem_of_app in Hx as [Hx|Hx]; [by apply HM0 in Hx|by apply HQ1 in Hx].
  - unfold error_. rewrite Hstate, bool_decide_eq_false_2 by done.
    rewrite !Hreq. goal_decide; subst; done.
  - unfold waitingForBlocksCount_ in *. rewrite Hreq, decide_True by done. done.
  - intros y Hy. rewrite Hdom. apply HD. unfold owned in *.
    rewrite HP, HM, HQ in Hy. rewrite HQ0. clear -Hy. set_solver.
Qed.

Lemma set_resultStatus_id (v : Z) (n : FileIoRequest) :
  resultStatus n = v -> set_resultStatus v n = n.
Proof. destruct n. simpl. by intros ->. Qed.

(** [pollState] keeps the invariant and the queue.  An opening stream
    stays as it is, becomes idle or fails; otherwise the state changes only
    to OPEN_STREAMING, and only when a block of the queue was received. *)
Lemma pollState_Core (rq o : nat) (l : list nat) (w : World) :
  Core rq o l w ->
  let w' := snd (pollState rq w) in
  fst (pollState rq w) = state_ w' rq
  /\ Core rq o l w'
  /\ (state_ w rq = STREAM_STATE_OPENING ->
      l = []
      /\ (w' = w \/ state_ w' rq = STREAM_STATE_OPEN_IDLE
          \/ state_ w' rq = STREAM_STATE_ERROR))
  /\ (state_ w rq ≠ STREAM_STATE_OPENING ->
      state_ w' rq ≠ STREAM_STATE_OPENING
      /\ (state_ w' rq = state_ w rq
          \/ (state_ w' rq = STREAM_STATE_OPEN_STREAMING /\ l ≠ []))
      /\ (waitingForBlocksCount_ w rq = 0 ->
          state_ w' rq = state_ w rq /\ waitingForBlocksCount_ w' rq = 0)).
Proof.
  intros HC w'. split; [done|]. subst w'. unfold pollState. simpl.
  destruct (bool_decide (rq_expectedResultCount (resultQueue (req w rq)) > 0)).
  2:{ split; [done|]. split.
      - intros Hst. split; [|by left].
        by destruct (own_opening _ _ _ _ (core_own _ _ _ _ _ HC) Hst).
      - intros Hst. split; [done|]. split; [by left|]. done. }
  destruct (decide (state_ w rq = STREAM_STATE_OPENING)) as [Hst|Hst].
  - rewrite bool_decide_eq_true_2 by done.
    destruct (own_opening _ _ _ _ (core_own _ _ _ _ _ HC) Hst) as (Hl & Hin & Hall).
    destruct (rq_pop (resultQueue (req w rq))) as [[r q]|] eqn:Hpop.
    2:{ split; [done|]. split; [|done]. intros _. split; [done|]. by left. }
    pose proof (rq_pop_Some _ _ _ Hpop) as HQ. fold (queued w rq) in HQ.
    assert (r = o) as ->.
    { apply Hall. rewrite HQ. clear. set_solver. }
    pose proof (Core_dom_root _ _ _ _ _ HC) as [Hdr Hdo].
    assert (Hne : o ≠ rq) by apply (shape_open_ne _ _ _ _ _ (core_shape _ _ _ _ _ HC)).
    assert (HE : error_ w rq = 0).
    { rewrite (core_error _ _ _ _ _ HC). by rewrite bool_decide_eq_true_2. }
    assert (Hrs : resultStatus
                    (req (upd_req o (set_path None) (upd_req rq (set_resultQueue q) w)) o)
                  = resultStatus (req w o)).
    { req_norm. rewrite decide_True by done. rewrite decide_False by done. done. }
    rewrite Hrs.
    set (w' := if bool_decide _ then _ else _).
    assert (HC' : exists st, (st = STREAM_STATE_OPEN_IDLE \/ st = STREAM_STATE_ERROR)
                    /\ state_ w' rq = st /\ Core rq o [] w').
    { unfold w'. destruct (bool_decide (resultStatus (req w o) = NOERROR)) eqn:Hok.
      - apply bool_decide_eq_true in Hok.
        exists STREAM_STATE_OPEN_IDLE. split; [by left|].
        split. { unfold state_. rewrite req_set_state_, decide_True by done. done. }
        eapply (opened_Core rq o l q STREAM_STATE_OPEN_IDLE w); try done.
        + unfold set_state_. dom_eq.
        + by left.
        + intros y. rewrite req_set_state_. req_norm.
          goal_decide; subst; try done.
          rewrite set_resultStatus_id; [done|]. simpl. unfold error_, NOERROR in *. lia.
      - exists STREAM_STATE_ERROR. split; [by right|].
        split. { unfold state_. rewrite req_set_state_, decide_True by done. done. }
        eapply (opened_Core rq o l q STREAM_STATE_ERROR w); try done.
        + unfold set_state_. dom_eq.
        + by right.
        + intros y. rewrite req_set_state_. req_norm.
          goal_decide; subst; done. }
    destruct HC' as (st & Hst' & Hs & HC'). rewrite Hl.
    split; [done|]. split; [|done].
    intros _. split; [done|]. right. destruct Hst' as [-> | ->]; [by left|by right].
  - rewrite bool_decide_eq_false_2 by done.
    destruct (receiveOneBlock_Core _ rq o l w HC Hst) as (HC' & H1 & H2 & H3 & _).
    split; [done|]. split; [done|]. intros _. done.
Qed.

(** *** The receive loops *)

Lemma ready_count_ext (w w' : World) (l : list nat) :
  (forall x, x ∈ l -> requestType (req w' x) = requestType (req w x)) ->
  ready_count w' l = ready_count w l.
Proof.
  induction l as [|y l IH]; intros Hext; simpl; first done.
  rewrite Hext by (by left). rewrite IH; [done|].
  intros x Hx. apply Hext. by right.
Qed.


(** One block changes its state: at most one more block is ready. *)
Lemma ready_count_one (w w' : World) (r : nat) (l : list nat) :
  NoDup l ->
  (forall x, x ∈ l -> x ≠ r -> requestType (req w' x) = requestType (req w x)) ->
  ready_count w' l <= ready_count w l + 1.
Proof.
  induction l as [|y l IH]; intros Hnd Hext; simpl; first lia.
  apply NoDup_cons in Hnd as [Hy Hnd].
  destruct (decide (y = r)) as [->|Hne].
  - rewrite (ready_count_ext w w' l).
    + destruct (bool_decide _), (bool_decide _); lia.
    + intros x Hx. apply Hext; [by right|]. by intros ->.
  - rewrite (Hext y) by (by left || done).
    assert (ready_count w' l <= ready_count w l + 1); [|lia].
    apply IH; [done|]. intros x Hx. apply Hext. by right.
Qed.

(** A reply that is received leaves the result queue, and at most one
    block becomes ready. *)
Lemma receiveOneBlock_measure (rq o : nat) (l : list nat) (w : World) :
  Core rq o l w ->
  state_ w rq ≠ STREAM_STATE_OPENING ->
  ready_count (snd (receiveOneBlock rq w)) l
  + Z.of_nat (length (queued (snd (receiveOneBlock rq w)) rq))
  <= ready_count w l + Z.of_nat (length (queued w rq)).
Proof.
  intros HC Hst.
  destruct (receiveOneBlock_Core _ rq o l w HC Hst) as (_ & _ & _ & _ & Hq).
  destruct (rq_pop (resultQueue (req w rq))) as [[r q]|] eqn:Hpop.
  2:{ assert (HQ : queued w rq = []).
      { unfold queued. unfold rq_pop in Hpop. by destruct (rq_nodes _). }
      rewrite receiveOneBlock_none by done. simpl. lia. }
  pose proof (rq_pop_Some _ _ _ Hpop) as HQ. fold (queued w rq) in HQ.
  destruct (front_reply _ rq o r _ l w HC Hst HQ) as (Hrq & _).
  assert (Hrl : rq ∉ l) by apply (shape_root _ _ _ _ _ (core_shape _ _ _ _ _ HC)).
  rewrite (receiveOneBlock_eq rq r q w Hpop Hrq) in Hq |- *. simpl fst in Hq.
  cbv zeta in *. simpl snd in *.
  set (w' := if isDiscarded (req w r) then _ else _) in *.
  assert (Hty : forall x, x ∈ l -> x ≠ r -> requestType (req w' x) = requestType (req w x)).
  { intros x Hx Hne. assert (x ≠ rq) by (by intros ->).
    unfold w'. destruct (isDiscarded (req w r)).
    - destruct (bool_decide _); req_norm; goal_decide; subst; done.
    - destruct (bool_decide (size_wrap (clientInt (req w rq) - 1) = 0));
        unfold set_state_; req_norm; goal_decide; subst; done. }
  pose proof (ready_count_one w w' r l
                (shape_nodup _ _ _ _ _ (core_shape _ _ _ _ _ HC)) Hty).
  change (S (length (queued w' rq)) = length (queued w rq)) in Hq.
  lia.
Qed.

Lemma received_refl (rq o : nat) (l : list nat) (w : World) :
  Core rq o l w -> state_ w rq ≠ STREAM_STATE_OPENING -> received rq o l w w.
Proof.
  intros. split; [done|]. split; [done|]. split; [by left|].
  split; [done|]. split; [done|]. lia.
Qed.

Lemma received_trans (rq o : nat) (l : list nat) (w w1 w2 : World) :
  received rq o l w w1 -> received rq o l w1 w2 -> received rq o l w w2.
Proof.
  intros (_ & _ & Hs1 & Hc1 & Hq1 & Hm1) (HC & Hst & Hs2 & Hc2 & Hq2 & Hm2).
  split; [done|]. split; [done|]. split; [|split; [|split; lia]].
  - destruct Hs2 as [->|?]; [done|by right].
  - intros H0. destruct (Hc1 H0) as [<- H1]. by apply Hc2.
Qed.

Lemma receiveOneBlock_received (rq o : nat) (l : list nat) (w : World) :
  Core rq o l w ->
  state_ w rq ≠ STREAM_STATE_OPENING ->
  received rq o l w (snd (receiveOneBlock rq w))
  /\ (if fst (receiveOneBlock rq w)
      then S (length (queued (snd (receiveOneBlock rq w)) rq)) = length (queued w rq)
      else snd (receiveOneBlock rq w) = w).
Proof.
  intros HC Hst.
  destruct (receiveOneBlock_Core _ rq o l w HC Hst) as (HC' & H1 & H2 & H3 & H4).
  pose proof (receiveOneBlock_measure rq o l w HC Hst) as Hm.
  split; [|done]. split; [done|]. split; [done|]. split; [done|]. split; [done|].
  split; [|done].
  destruct (fst (receiveOneBlock rq w)); [lia|]. by rewrite H4.
Qed.

(** The loop [while (receiveOneBlock()) ;] ends within as many turns as the
    result queue holds replies. *)
Lemma receiveAllBlocks_Core (rq o : nat) (l : list nat) :
  forall (fuel : nat) (w : World),
    Core rq o l w ->
    state_ w rq ≠ STREAM_STATE_OPENING ->
    (length (queued w rq) <= fuel)%nat ->
    exists w', receiveAllBlocks fuel rq w = Some w' /\ received rq o l w w'.
Proof.
  induction fuel as [|fuel IH]; intros w HC Hst Hfuel.
  - assert (HQ : queued w rq = []) by (destruct (queued w rq); [done|simpl in *; lia]).
    simpl. rewrite receiveOneBlock_none by done.
    exists w. split; [done|]. by apply received_refl.
  - destruct (receiveOneBlock_received rq o l w HC Hst) as [Hr Hq].
    simpl. destruct (receiveOneBlock rq w) as [[] w1]; simpl in *.
    + destruct (IH w1) as (w' & Hrun & Hr'); [apply Hr|apply Hr|lia|].
      exists w'. split; [done|]. by eapply received_trans.
    + exists w1. done.
Qed.

Lemma receiveWhileFrontPending_Core (rq o x : nat) (l : list nat) :
  forall (fuel : nat) (w : World),
    Core rq o l w ->
    state_ w rq ≠ STREAM_STATE_OPENING ->
    (length (queued w rq) <= fuel)%nat ->
    exists w', receiveWhileFrontPending fuel x rq w = Some w' /\ received rq o l w w'.
Proof.
  induction fuel as [|fuel IH]; intros w HC Hst Hfuel.
  - assert (HQ : queued w rq = []) by (destruct (queued w rq); [done|simpl in *; lia]).
    simpl. rewrite receiveOneBlock_none by done.
    exists w. split; [by destruct (bool_decide _)|]. by apply received_refl.
  - destruct (receiveOneBlock_received rq o l w HC Hst) as [Hr Hq].
    simpl. destruct (bool_decide (requestType (req w x) = BLOCK_STATE_PENDING)).
    2:{ exists w. split; [done|]. by apply received_refl. }
    destruct (receiveOneBlock rq w) as [[] w1]; simpl in *.
    + destruct (IH w1) as (w' & Hrun & Hr'); [apply Hr|apply Hr|lia|].
      exists w'. split; [done|]. by eapply received_trans.
    + exists w1. done.
Qed.

End Receive.

Lemma copyBlockData_world (x : nat) (m s : Z) (w w' : World) (st : CopyStatus) (N : Z)
    (out : list byte_cell) :
  copyBlockData x m s w = Some (st, N, out, w') ->
  exists v, w' = upd_req x (set_clientInt v) w.
Proof.
  unfold copyBlockData. intros H.
  destruct (dataBlock (req w x)) as [b|]; [|done]. simpl in H.
  destruct (dataBlocks w !! b) as [blk|]; [|done]. simpl in H.
  destruct (bool_decide _); [|done]. injection H as _ _ _ <-. by eexists.
Qed.

Section Read.

Variable IO_DATA_BLOCK_DATA_CAPACITY_BYTES : Z.
Local Abbreviation CAP := IO_DATA_BLOCK_DATA_CAPACITY_BYTES.
Local Abbreviation Core := (Core IO_DATA_BLOCK_DATA_CAPACITY_BYTES).
Local Abbreviation Shape := (Shape IO_DATA_BLOCK_DATA_CAPACITY_BYTES).
Local Abbreviation file_order := (file_order IO_DATA_BLOCK_DATA_CAPACITY_BYTES).

(** *** [read_or_write] *)

Lemma set_state_after (st : RequestType) (rq o : nat) (l : list nat) (w : World) :
  Core rq o l w ->
  state_ w rq ≠ STREAM_STATE_OPENING ->
  after_read st ->
  Core rq o l (set_state_ st rq w) /\ state_ (set_state_ st rq w) rq = st.
Proof.
  intros HC Hst Hafter.
  pose proof (Core_dom_root _ _ _ _ _ HC) as [Hdr Hdo].
  split.
  - apply set_state_Core; try done.
    + unfold is_stream_state. unfold after_read in Hafter. tauto.
    + intros ->. unfold after_read in Hafter. by destruct Hafter as [?|[?|[?|?]]].
  - unfold state_. rewrite req_set_state_, decide_True by done. done.
Qed.

(** The copy loop keeps the invariant; the queue it leaves is not empty
    and not longer than [prefetchQueueBlockCount]. *)
Lemma read_loop_Core (rq o : nat) (itemSize itemCount total : Z) :
  forall (fuel : nat) (sofar : Z) (written : list byte_cell) (l : list nat) (w : World)
         (n : Z) (out : list byte_cell) (w' : World),
    Core rq o l w ->
    l ≠ [] ->
    (length l <= prefetchQueueBlockCount)%nat ->
    state_ w rq = STREAM_STATE_OPEN_STREAMING ->
    read_loop CAP fuel itemSize itemCount total sofar written rq w = Some (n, out, w') ->
    exists l',
      Core rq o l' w' /\ l' ≠ [] /\ (length l' <= prefetchQueueBlockCount)%nat
      /\ after_read (state_ w' rq).
Proof.
  induction fuel as [|fuel IH]; intros sofar written l w n out w' HC Hl Hlen Hst Hrun.
  - simpl in Hrun. destruct (bool_decide _); [done|]. injection Hrun as _ _ <-.
    exists l. split; [done|]. split; [done|]. split; [done|]. left. done.
  - simpl in Hrun. destruct (bool_decide (sofar < total)).
    2:{ injection Hrun as _ _ <-.
        exists l. split; [done|]. split; [done|]. split; [done|]. left. done. }
    rewrite (Core_head _ _ _ _ _ HC) in Hrun.
    destruct l as [|x l0]; [done|]. simpl in Hrun.
    assert (Hno : state_ w rq ≠ STREAM_STATE_OPENING) by (by rewrite Hst).
    destruct (receiveWhileFrontPending_Core _ rq o x (x :: l0) (resultQueueLength rq w) w
                HC Hno) as (w1 & Hrecv & HC1 & Hno1 & Hs1 & _); [done|].
    rewrite Hrecv in Hrun. simpl in Hrun.
    assert (Hst1 : state_ w1 rq = STREAM_STATE_OPEN_STREAMING).
    { destruct Hs1 as [->|[? _]]; done. }
    destruct (bool_decide (requestType (req w1 x) = BLOCK_STATE_READY)) eqn:Hready.
    2:{ (* the front block is pending or failed *)
        set (w2 := if bool_decide (requestType (req w1 x) = BLOCK_STATE_ERROR)
                   then _ else _) in Hrun.
        injection Hrun as _ _ <-.
        assert (Hw2 : exists st, after_read st /\ w2 = set_state_ st rq w1).
        { unfold w2. destruct (bool_decide (requestType (req w1 x) = BLOCK_STATE_ERROR));
            eexists; (split; [|done]); unfold after_read; tauto. }
        destruct Hw2 as (st & Ha & ->).
        destruct (set_state_after st rq o (x :: l0) w1 HC1 Hno1 Ha) as [HCs Hss].
        exists (x :: l0). by rewrite Hss. }
    apply bool_decide_eq_true in Hready.
    destruct (copyBlockData x _ itemSize w1) as [[[[status N] copied] w2]|] eqn:Hcopy;
      [|done].
    simpl in Hrun.
    destruct (copyBlockData_world _ _ _ _ _ _ _ _ Hcopy) as [v ->].
    assert (Hxrq : x ≠ rq).
    { intros ->. apply (shape_root _ _ _ _ _ (core_shape _ _ _ _ _ HC1)). left. }
    assert (HC2 : Core rq o (x :: l0) (upd_req x (set_clientInt v) w1)).
    { apply cursor_Core; [done|by left|]. by rewrite Hready. }
    assert (Hst2 : state_ (upd_req x (set_clientInt v) w1) rq = STREAM_STATE_OPEN_STREAMING).
    { unfold state_ in *. rewrite req_upd_req, decide_False by done. done. }
    set (w2 := upd_req x (set_clientInt v) w1) in *.
    assert (Hno2 : state_ w2 rq ≠ STREAM_STATE_OPENING) by (by rewrite Hst2).
    destruct status.
    + (* CAN_CONTINUE *)
      by eapply (IH _ _ (x :: l0) w2 n out w').
    + (* AT_BLOCK_END *)
      destruct (globalRequestPool_ w2) as [|p P] eqn:Hpool.
      * unfold allocFileIoRequest in Hrun. rewrite Hpool in Hrun.
        injection Hrun as _ _ <-.
        assert (Ha : after_read STREAM_STATE_ERROR) by (unfold after_read; tauto).
        destruct (set_state_after _ rq o (x :: l0) w2 HC2 Hno2 Ha) as [HCs Hss].
        exists (x :: l0). by rewrite Hss.
      * destruct (push_Core _ rq o p P (x :: l0) w2 HC2) as
          (t & w4 & _ & Halloc & Hpush & HC4 & Hs4 & _); [done|done|done|].
        rewrite Halloc in Hrun. rewrite Hpush in Hrun. simpl in Hrun.
        simpl in HC4.
        destruct (flush_front_Core _ rq o x (l0 ++ [p]) w4 HC4)
          as (w5 & Hpop & HC6 & Hs6 & _).
        rewrite Hpop in Hrun. simpl in Hrun.
        set (w6 := flushBlock x rq w5) in *.
        assert (Hno6 : state_ w6 rq ≠ STREAM_STATE_OPENING) by congruence.
        destruct (receiveOneBlock_received _ rq o (l0 ++ [p]) w6 HC6 Hno6)
          as [(HC7 & Hno7 & Hs7 & _) _].
        eapply (IH _ _ (l0 ++ [p]) _ n out w' HC7); [by destruct l0| | |done].
        -- rewrite length_app. simpl in *. lia.
        -- destruct Hs7 as [->|[? _]]; [congruence|done].
    + (* AT_FINAL_BLOCK_END *)
      injection Hrun as _ _ <-.
      assert (Ha : after_read STREAM_STATE_OPEN_EOF) by (unfold after_read; tauto).
      destruct (set_state_after _ rq o (x :: l0) w2 HC2 Hno2 Ha) as [HCs Hss].
      exists (x :: l0). by rewrite Hss.
Qed.

End Read.

(** *** The server's steps *)

Section ServerSteps.

Variable IO_DATA_BLOCK_DATA_CAPACITY_BYTES : Z.
Local Abbreviation CAP := IO_DATA_BLOCK_DATA_CAPACITY_BYTES.
Local Abbreviation Core := (Core IO_DATA_BLOCK_DATA_CAPACITY_BYTES).
Local Abbreviation Shape := (Shape IO_DATA_BLOCK_DATA_CAPACITY_BYTES).
Local Abbreviation file_order := (file_order IO_DATA_BLOCK_DATA_CAPACITY_BYTES).

(** The server takes the request [r] from the mailbox, fills in its result
    and pushes it on the result queue of the stream. *)
Lemma reply_Core (rq o r : nat) (l M : list nat) (w w' : World) :
  Core rq o l w ->
  serverMailboxQueue_ w = r :: M ->
  requestType (req w r) ≠ RELEASE_READ_BLOCK ->
  globalRequestPool_ w' = globalRequestPool_ w ->
  serverMailboxQueue_ w' = M ->
  dom (requests w') = dom (requests w) ->
  req w' rq = set_resultQueue (rq_push r (resultQueue (req w rq))) (req w rq) ->
  same_links (req w r) (req w' r) ->
  (forall y, y ≠ rq -> y ≠ r -> req w' y = req w y) ->
  Core rq o l w'.
Proof.
  intros HC HM0 Hty HP HM Hdom Hrq (Hr1 & Hr2 & Hr3 & Hr4 & Hr5) Hother.
  open_core HC.
  assert (HrM : r ∈ serverMailboxQueue_ w) by (rewrite HM0; left).
  assert (Hrrq : r ≠ rq).
  { intros ->. apply own_root0. clear -HrM. set_solver. }
  assert (Hst' : state_ w' rq = state_ w rq).
  { unfold state_. by rewrite Hrq. }
  assert (HQ : queued w' rq = queued w rq ++ [r]).
  { unfold queued. by rewrite Hrq. }
  assert (Hmem : forall x, x ∈ M ++ queued w rq ++ [r]
                           <-> x ∈ serverMailboxQueue_ w ++ queued w rq).
  { intros x. rewrite HM0. clear. set_solver. }
  assert (Hany : forall y, y ≠ rq -> same_links (req w y) (req w' y)).
  { intros y Hy. destruct (decide (y = r)) as [->|Hne]; [done|].
    rewrite Hother by done. done. }
  assert (Hro : state_ w rq ≠ STREAM_STATE_OPENING -> r ≠ o).
  { intros Hst ->. apply (own_opened0 Hst). clear -HrM. set_solver. }
  constructor.
  - apply (Shape_frame _ rq o l w); [done|..].
    + by rewrite Hrq.
    + intros x. destruct (decide (x = rq)) as [->|Hx]; [by rewrite Hrq|].
      by destruct (Hany x Hx).
    + intros x. destruct (decide (x = rq)) as [->|Hx]; [by rewrite Hrq|].
      by destruct (Hany x Hx) as (_&_&_&?&_).
  - constructor; rewrite ?HQ, ?HP, ?HM, ?Hst'.
    + destruct (Hany o) as (_&->&_); done.
    + destruct (Hany o) as (_&_&_&_&->); done.
    + done.
    + rewrite HM0 in own_transit0. solve_nodup own_transit0.
    + rewrite HM0 in own_root0. clear -own_root0 Hrrq. set_solver.
    + done.
    + done.
    + intros x Hx. rewrite Hmem.
      assert (x ≠ rq) by (by intros ->).
      destruct (Hany x) as (_&->&->&_); [done|]. by apply own_fifo0.
    + intros x Hx.
      assert (x ≠ rq). { intros ->. apply own_root0. rewrite HM0. clear -Hx. set_solver. }
      destruct (Hany x) as (_&->&->&_&->); [done|].
      apply own_mailbox0. rewrite HM0. by right.
    + intros x Hx.
      assert (x ≠ rq).
      { intros ->. apply elem_of_app in Hx as [Hx|Hx].
        - apply own_root0. clear -Hx. set_solver.
        - by apply list_elem_of_singleton in Hx. }
      destruct (Hany x) as (_&->&->&_); [done|].
      apply elem_of_app in Hx as [Hx|Hx]; [by apply own_queue0|].
      apply list_elem_of_singleton in Hx as ->.
      destruct (own_mailbox0 r HrM) as [?|[(?&?&?)|?]]; [by left|by right|done].
    + intros Hst. destruct (own_opening0 Hst) as (? & ? & Hall).
      split; [done|]. split; [by apply Hmem|]. intros x Hx. by apply Hall, Hmem.
    + intros Hst Hin. by apply (own_opened0 Hst), Hmem.
  - unfold error_ in *. rewrite Hst', Hrq. simpl. rewrite HE.
    destruct (bool_decide (state_ w rq = STREAM_STATE_OPENING)) eqn:Hop; [done|].
    apply bool_decide_eq_false in Hop. rewrite Hother; [done|done|].
    intros Heq. by apply (Hro Hop).
  - unfold waitingForBlocksCount_ in *. rewrite Hrq. simpl. rewrite HN. symmetry.
    apply pending_count_ext. intros x Hx.
    assert (x ≠ rq) by (by intros ->). by destruct (Hany x) as (_&->&_).
  - intros y Hy. rewrite Hdom. apply HD. unfold owned in *.
    rewrite HP, HM, HQ in Hy. rewrite HM0. clear -Hy. set_solver.
Qed.

(** The server takes a release from the mailbox and frees the node. *)
Lemma release_Core (rq o r : nat) (l M : list nat) (w w' : World) :
  Core rq o l w ->
  serverMailboxQueue_ w = r :: M ->
  requestType (req w r) = RELEASE_READ_BLOCK ->
  globalRequestPool_ w' = r :: globalRequestPool_ w ->
  serverMailboxQueue_ w' = M ->
  requests w' = requests w ->
  Core rq o l w'.
Proof.
  intros HC HM0 Hty HP HM Hreqs.
  open_core HC.
  assert (Hreq : forall y, req w' y = req w y).
  { intros y. unfold req. by rewrite Hreqs. }
  assert (HrM : r ∈ serverMailboxQueue_ w) by (rewrite HM0; left).
  assert (Hrrq : r ≠ rq).
  { intros ->. apply own_root0. clear -HrM. set_solver. }
  assert (Hro : r ≠ o) by (intros ->; congruence).
  assert (Hst : state_ w rq ≠ STREAM_STATE_OPENING).
  { intros Hst. destruct (own_opening0 Hst) as (_ & _ & Hall).
    apply Hro, Hall. clear -HrM. set_solver. }
  assert (Hrl : r ∉ l).
  { intros Hin. destruct (own_fifo0 r Hin) as [(?&_)|(_&Hn)].
    - unfold BLOCK_STATE_PENDING in *. congruence.
    - apply Hn. clear -HrM. set_solver. }
  assert (Hst' : state_ w' rq = state_ w rq) by (unfold state_; by rewrite Hreq).
  assert (HQ : queued w' rq = queued w rq) by (unfold queued; by rewrite Hreq).
  assert (Hmem : forall x, x ≠ r ->
            (x ∈ M ++ queued w rq <-> x ∈ serverMailboxQueue_ w ++ queued w rq)).
  { intros x Hx. rewrite HM0. clear -Hx. set_solver. }
  constructor.
  - apply (Shape_frame _ rq o l w); [done|..]; intros; by rewrite !Hreq.
  - constructor; rewrite ?HQ, ?HP, ?HM, ?Hst'; try setoid_rewrite Hreq.
    + done.
    + done.
    + done.
    + rewrite HM0 in own_transit0. solve_nodup own_transit0.
    + rewrite HM0 in own_root0. clear -own_root0 Hrrq. set_solver.
    + clear -own_open_pool0 Hro. set_solver.
    + intros x Hx. specialize (own_fifo_pool0 x Hx).
      assert (x ≠ r) by (by intros ->). clear -own_fifo_pool0 H. set_solver.
    + intros x Hx. assert (x ≠ r) by (by intros ->). rewrite Hmem by done.
      by apply own_fifo0.
    + intros x Hx. apply own_mailbox0. rewrite HM0. by right.
    + done.
    + done.
    + intros _ Hin. apply (own_opened0 Hst). apply Hmem; [|done]. by intros ->.
  - unfold error_ in *. by rewrite Hst', !Hreq.
  - unfold waitingForBlocksCount_ in *. rewrite Hreq, HN. symmetry.
    apply pending_count_ext. intros x Hx. by rewrite Hreq.
  - intros y Hy. rewrite Hreqs. apply HD. unfold owned in *.
    rewrite HP, HM, HQ in Hy. rewrite HM0. clear -Hy. set_solver.
Qed.

Lemma releaseFileRecordClientRef_frame (f : nat) (w w' : World) :
  releaseFileRecordClientRef f w = Some w' ->
  requests w' = requests w
  /\ globalRequestPool_ w' = globalRequestPool_ w
  /\ serverMailboxQueue_ w' = serverMailboxQueue_ w.
Proof.
  unfold releaseFileRecordClientRef. intros H.
  destruct (fileRecords w !! f); [|done]. simpl in H.
  destruct (bool_decide _); by injection H as <-.
Qed.

Lemma handleReleaseReadBlockRequest_frame (r : nat) (w w' : World) :
  handleReleaseReadBlockRequest r w = Some w' ->
  requests w' = requests w
  /\ globalRequestPool_ w' = r :: globalRequestPool_ w
  /\ serverMailboxQueue_ w' = serverMailboxQueue_ w.
Proof.
  unfold handleReleaseReadBlockRequest. intros H.
  destruct (dataBlock (req w r)) as [b|]; [|done]. simpl in H.
  destruct (fileHandle (req (freeDataBlock b w) r)) as [f|]; [|done]. simpl in H.
  destruct (releaseFileRecordClientRef f (freeDataBlock b w)) as [w2|] eqn:Hrel; [|done].
  simpl in H. injection H as <-.
  apply releaseFileRecordClientRef_frame in Hrel as (H1 & H2 & H3).
  simpl. rewrite H1, H2, H3. done.
Qed.

(** What [handleReadBlockRequest] does before it replies: the result
    fields of [r] are set; no node moves. *)
Lemma handleReadBlockRequest_io_frame (os : OsOutcome) (r : nat) (w w1 : World) :
  handleReadBlockRequest_io CAP os r w = Some w1 ->
  r ∈ dom (requests w) ->
  globalRequestPool_ w1 = globalRequestPool_ w
  /\ serverMailboxQueue_ w1 = serverMailboxQueue_ w
  /\ dom (requests w1) = dom (requests w)
  /\ same_links (req w r) (req w1 r)
  /\ (forall y, y ≠ r -> req w1 y = req w y).
Proof.
  intros H Hdr. unfold handleReadBlockRequest_io in H.
  set (w0 := match fileHandle (req w r) with Some _ => _ | None => _ end) in H.
  assert (H0 : globalRequestPool_ w0 = globalRequestPool_ w
               /\ serverMailboxQueue_ w0 = serverMailboxQueue_ w
               /\ dom (requests w0) = dom (requests w)
               /\ same_links (req w r) (req w0 r)
               /\ (forall y, y ≠ r -> req w0 y = req w y)).
  { unfold w0, allocDataBlock, freeDataBlock.
    destruct (fileHandle (req w r)); [destruct (os_new_ok os); cbv beta iota zeta|];
      repeat match goal with
             | |- context [if ?x then _ else _] => destruct x
             end;
      (split; [done|]; split; [done|];
       split; [simpl; rewrite ?dom_insert_L; clear -Hdr; set_solver|]; split;
       [req_norm; rewrite decide_True by done; done
       |intros y Hy; req_norm; rewrite decide_False by done; done]). }
  destruct H0 as (HP & HM & Hd & Hl & Ho).
  destruct (bool_decide (dataBlock (req w0 r) ≠ None)).
  - destruct (fileHandle (req w r)) as [f|]; [|done]. simpl in H.
    destruct (fileRecords w0 !! f); [|done]. simpl in H. by injection H as <-.
  - by injection H as <-.
Qed.

(** The result of a request of the stream is completed to its result
    queue. *)
Lemma complete_Core (rq o r : nat) (l M : list nat) (w w1 w' : World) :
  Core rq o l w ->
  serverMailboxQueue_ w = r :: M ->
  requestType (req w r) ≠ RELEASE_READ_BLOCK ->
  globalRequestPool_ w1 = globalRequestPool_ w ->
  serverMailboxQueue_ w1 = M ->
  dom (requests w1) = dom (requests w) ->
  same_links (req w r) (req w1 r) ->
  (forall y, y ≠ r -> req w1 y = req w y) ->
  completeRequestToClientResultQueue rq r w1 = Some w' ->
  Core rq o l w'
  /\ state_ w' rq = state_ w rq
  /\ waitingForBlocksCount_ w' rq = waitingForBlocksCount_ w rq
  /\ error_ w' rq = error_ w rq.
Proof.
  intros HC HM0 Hty HP HM Hdom Hl Hother Hrun.
  assert (HrM : r ∈ serverMailboxQueue_ w) by (rewrite HM0; left).
  assert (Hrrq : r ≠ rq).
  { intros ->. apply (own_root _ _ _ _ (core_own _ _ _ _ _ HC)). clear -HrM. set_solver. }
  pose proof (Core_dom_root _ _ _ _ _ HC) as [Hdr Hdo].
  unfold completeRequestToClientResultQueue in Hrun.
  rewrite (Hother rq) in Hrun by done.
  rewrite bool_decide_eq_false_2 in Hrun.
  2:{ pose proof (own_state _ _ _ _ (core_own _ _ _ _ _ HC)) as Hs.
      unfold is_stream_state, state_ in Hs. intros Heq. rewrite Heq in Hs.
      by destruct Hs as [?|[?|[?|[?|[?|?]]]]]. }
  injection Hrun as <-.
  assert (Hrq : req (upd_req rq (fun c => set_resultQueue (rq_push r (resultQueue c)) c) w1) rq
                = set_resultQueue (rq_push r (resultQueue (req w rq))) (req w rq)).
  { rewrite req_upd_req, decide_True by done. by rewrite (Hother rq). }
  split.
  - apply (reply_Core rq o r l M w); try done.
    + rewrite <- Hdom. rewrite dom_upd_req_in; [done|]. by rewrite Hdom.
    + rewrite req_upd_req, decide_False by done. done.
    + intros y ? ?. rewrite req_upd_req, decide_False by done. by apply Hother.
  - unfold state_, waitingForBlocksCount_, error_. rewrite !Hrq. done.
Qed.

(** One request handled by the server, whatever the operating system
    answers: the invariant, the state, the count of awaited blocks and the
    stored error of the stream are kept. *)
Lemma handleOneRequest_Core (rq o : nat) (l : list nat) (os : OsOutcome) (w w' : World) :
  Core rq o l w ->
  handleOneRequest CAP os w = Some w' ->
  Core rq o l w'
  /\ state_ w' rq = state_ w rq
  /\ waitingForBlocksCount_ w' rq = waitingForBlocksCount_ w rq
  /\ error_ w' rq = error_ w rq.
Proof.
  intros HC Hrun. unfold handleOneRequest in Hrun.
  destruct (serverMailboxQueue_ w) as [|r M] eqn:HM0; [by injection Hrun as <-|].
  cbv zeta in Hrun. rewrite req_set_mailbox in Hrun.
  assert (HrM : r ∈ serverMailboxQueue_ w) by (rewrite HM0; left).
  assert (Hrrq : r ≠ rq).
  { intros ->. apply (own_root _ _ _ _ (core_own _ _ _ _ _ HC)). clear -HrM. set_solver. }
  assert (Hdr : r ∈ dom (requests w)).
  { apply (core_dom _ _ _ _ _ HC). unfold owned. clear -HrM. set_solver. }
  destruct (own_mailbox _ _ _ _ (core_own _ _ _ _ _ HC) r HrM)
    as [[-> Hst]|[(Hty & Hptr & _)|Hty]].
  - (* the OPEN_FILE request *)
    rewrite (own_open_type _ _ _ _ (core_own _ _ _ _ _ HC)) in Hrun.
    unfold handleOpenFileRequest in Hrun.
    set (w1 := if os_new_ok os then _ else _) in Hrun.
    assert (H1 : globalRequestPool_ w1 = globalRequestPool_ w
                 /\ serverMailboxQueue_ w1 = M
                 /\ dom (requests w1) = dom (requests w)
                 /\ same_links (req w o) (req w1 o)
                 /\ (forall y, y ≠ o -> req w1 y = req w y)).
    { unfold w1. destruct (os_new_ok os); [destruct (os_fopen os)|];
        (split; [done|]; split; [done|];
         split; [simpl; rewrite ?dom_insert_L; clear -Hdr; set_solver|]; split;
         [req_norm; rewrite decide_True by done; done
         |intros y Hy; req_norm; rewrite decide_False by done; done]). }
    destruct H1 as (HP & HM & Hd & Hl & Ho).
    assert (Hptr : resultQueuePtr (req w1 o) = Some rq).
    { destruct Hl as (_&_&_&_&->).
      apply (own_open_ptr _ _ _ _ (core_own _ _ _ _ _ HC)). }
    rewrite Hptr in Hrun. simpl in Hrun.
    apply (complete_Core rq o o l M w w1 w'); try done.
    by rewrite (own_open_type _ _ _ _ (core_own _ _ _ _ _ HC)).
  - (* a READ_BLOCK request *)
    rewrite Hty in Hrun. unfold handleReadBlockRequest in Hrun.
    destruct (handleReadBlockRequest_io CAP os r (set_mailbox M w)) as [w1|] eqn:Hio;
      [|done].
    simpl in Hrun.
    apply handleReadBlockRequest_io_frame in Hio as (HP & HM & Hd & Hl & Ho); [|done].
    rewrite req_set_mailbox in Hl.
    assert (Hptr1 : resultQueuePtr (req w1 r) = Some rq).
    { by destruct Hl as (_&_&_&_&->). }
    rewrite Hptr1 in Hrun. simpl in Hrun.
    apply (complete_Core rq o r l M w w1 w'); try done.
    by rewrite Hty.
  - (* a release *)
    rewrite Hty in Hrun.
    apply handleReleaseReadBlockRequest_frame in Hrun as (H1 & H2 & H3).
    split.
    + by apply (release_Core rq o r l M w w').
    + unfold state_, waitingForBlocksCount_, error_, req. rewrite H1. done.
Qed.

End ServerSteps.

(** *** [open] *)

Lemma dom_startFileIoServer (n : nat) (x : nat) :
  x ∈ seq 0 n -> x ∈ dom (requests (startFileIoServer n)).
Proof.
  intros Hx. unfold startFileIoServer. simpl.
  rewrite dom_list_to_map_L. rewrite <- list_fmap_compose.
  apply elem_of_list_to_set. apply list_elem_of_fmap. by exists x.
Qed.

Section Open.

Variable IO_DATA_BLOCK_DATA_CAPACITY_BYTES : Z.
Local Abbreviation CAP := IO_DATA_BLOCK_DATA_CAPACITY_BYTES.
Local Abbreviation Core := (Core IO_DATA_BLOCK_DATA_CAPACITY_BYTES).

(** [open] on a server that holds nothing but free nodes. *)
Lemma open_Core (path_ : nat) (openMode_ : OpenMode) (rq : nat) (w w0 : World) :
  NoDup (globalRequestPool_ w) ->
  serverMailboxQueue_ w = [] ->
  (forall x, x ∈ globalRequestPool_ w -> x ∈ dom (requests w)) ->
  open path_ openMode_ w = (Some rq, w0) ->
  exists o, Core rq o [] w0 /\ state_ w0 rq = STREAM_STATE_OPENING.
Proof.
  intros Hnd HM Hdom Hopen. unfold open, allocFileIoRequest in Hopen.
  destruct (globalRequestPool_ w) as [|r P] eqn:HP; [done|].
  simpl in Hopen. destruct P as [|o P]; [done|].
  injection Hopen as <- <-.
  apply NoDup_cons in Hnd as [Hr Hnd]. apply NoDup_cons in Hnd as [Ho Hnd].
  assert (Hro : r ≠ o) by (intros ->; apply Hr; left).
  assert (HrP : r ∉ P) by (intros ?; apply Hr; by right).
  assert (Hdr : r ∈ dom (requests w)) by (apply Hdom; left).
  assert (Hdo : o ∈ dom (requests w)) by (apply Hdom; right; left).
  set (w0 := upd_req r _ _).
  assert (Hrq : req w0 r =
            set_resultQueue (rq_incrementExpectedResultCount rq_init)
              (set_clientInt 0 (set_links_client None (set_resultStatus 0
                 (set_requestType STREAM_STATE_OPENING
                    (set_links_transit (Some o) (req w r))))))).
  { unfold w0. req_norm. goal_decide; done. }
  assert (Hoq : req w0 o =
            set_resultQueuePtr (Some r) (set_fileHandle None (set_openMode openMode_
              (set_path (Some path_) (set_requestType OPEN_FILE (set_resultStatus 0
                 (set_links_client None (req w o)))))))).
  { unfold w0. req_norm. goal_decide; done. }
  assert (HP0 : globalRequestPool_ w0 = P) by done.
  assert (HM0 : serverMailboxQueue_ w0 = [o]) by (unfold w0; simpl; by rewrite HM).
  assert (HQ0 : queued w0 r = []) by (unfold queued; by rewrite Hrq).
  assert (Hst : state_ w0 r = STREAM_STATE_OPENING) by (unfold state_; by rewrite Hrq).
  assert (Hd0 : dom (requests w0) = dom (requests w)).
  { unfold w0. dom_eq. }
  exists o. split; [|done].
  constructor.
  - constructor; unfold openFileReq, prefetchQueueHead_; rewrite ?Hrq; simpl;
      first [done | by apply NoDup_nil | by apply not_elem_of_nil | lia
            | by intros ? ?%elem_of_nil].
  - constructor; rewrite ?HQ0, ?HP0, ?HM0, ?Hst, ?Hoq, ?app_nil_r; try done.
    + unfold is_stream_state. tauto.
    + apply NoDup_app. split; [done|]. split; [|apply NoDup_singleton].
      intros x Hx Hx'. apply list_elem_of_singleton in Hx' as ->. done.
    + intros Hin. apply elem_of_app in Hin as [Hin|Hin]; [done|].
      by apply list_elem_of_singleton in Hin.
    + intros x Hx. by apply elem_of_nil in Hx.
    + intros x Hx. by apply elem_of_nil in Hx.
    + intros x Hx. apply list_elem_of_singleton in Hx as ->. by left.
    + intros x Hx. by apply elem_of_nil in Hx.
    + intros _. split; [done|]. split; [left|].
      intros x Hx. by apply list_elem_of_singleton in Hx.
  - unfold error_. rewrite Hst, Hrq. done.
  - unfold waitingForBlocksCount_. rewrite Hrq. done.
  - intros y Hy. rewrite Hd0. unfold owned in Hy. rewrite HP0, HM0, HQ0 in Hy.
    apply Hdom. clear -Hy. set_solver.
Qed.

End Open.

(** ** Every reachable state satisfies the invariant *)

Lemma fifo_from_lseg (w : World) (l : list nat) :
  forall (fuel : nat) (p : option nat),
    lseg w p l -> (length l <= fuel)%nat -> fifo_from fuel w p = l.
Proof.
  induction l as [|x l IH]; intros fuel p Hseg Hfuel; simpl in Hseg.
  - subst p. by destruct fuel.
  - destruct Hseg as [-> Hseg]. destruct fuel as [|fuel]; [simpl in Hfuel; lia|].
    simpl. f_equal. apply IH; [done|]. simpl in Hfuel. lia.
Qed.

Section Life.

Variable IO_DATA_BLOCK_DATA_CAPACITY_BYTES : Z.
Local Abbreviation CAP := IO_DATA_BLOCK_DATA_CAPACITY_BYTES.
Local Abbreviation Core := (Core IO_DATA_BLOCK_DATA_CAPACITY_BYTES).
Local Abbreviation step := (step IO_DATA_BLOCK_DATA_CAPACITY_BYTES).
Local Abbreviation reachable := (reachable IO_DATA_BLOCK_DATA_CAPACITY_BYTES).
Local Abbreviation Inv := (Inv IO_DATA_BLOCK_DATA_CAPACITY_BYTES).

Hypothesis capacity_range : 0 < CAP < SIZE_MODULUS.

Lemma Core_prefetchQueue (rq o : nat) (l : list nat) (w : World) :
  Core rq o l w -> prefetchQueue w rq = l.
Proof.
  intros HC. unfold prefetchQueue. apply fifo_from_lseg.
  - apply (shape_lseg _ _ _ _ _ (core_shape _ _ _ _ _ HC)).
  - by eapply Core_fifo_size.
Qed.

Lemma Inv_opening (rq o : nat) (l : list nat) (w : World) :
  Inv rq o l w -> state_ w rq = STREAM_STATE_OPENING -> l = [].
Proof.
  intros [HC _] Hst.
  by destruct (own_opening _ _ _ _ (core_own _ _ _ _ _ HC) Hst).
Qed.

Lemma pollState_Inv (rq o : nat) (l : list nat) (w : World) :
  Inv rq o l w -> Inv rq o l (snd (pollState rq w)).
Proof.
  intros [HC (Hlen & Hidle & Hne)].
  destruct (pollState_Core _ rq o l w HC) as (_ & HC' & Hop & Hnop).
  split; [done|].
  destruct (decide (state_ w rq = STREAM_STATE_OPENING)) as [Hst|Hst].
  - destruct (Hop Hst) as [-> H]. split; [simpl; lia|]. split; [done|].
    destruct H as [->|[->| ->]]; [|by intros [?|?]..].
    rewrite Hst. by intros [?|?].
  - destruct (Hnop Hst) as (_ & [->|[-> Hl]] & _); [done|].
    split; [done|]. split; [done|]. done.
Qed.

Lemma seek_Inv (rq o : nat) (l : list nat) (pos ret : Z) (w w' : World) :
  Inv rq o l w ->
  0 <= pos < SIZE_MODULUS ->
  seek CAP pos rq w = Some (ret, w') ->
  exists l', Inv rq o l' w'.
Proof.
  intros [HC Hok] Hpos Hrun.
  destruct (decide (state_ w rq = STREAM_STATE_OPENING)) as [Hst|Hst1].
  { unfold seek in Hrun. rewrite bool_decide_eq_true_2 in Hrun by done.
    injection Hrun as _ <-. by exists l. }
  destruct (decide (state_ w rq = STREAM_STATE_ERROR)) as [Hst|Hst2].
  { unfold seek in Hrun. rewrite (bool_decide_eq_true_2 (_ = STREAM_STATE_ERROR)) in Hrun
      by done.
    rewrite orb_true_r in Hrun. injection Hrun as _ <-. by exists l. }
  destruct (seek_Core _ rq o l w pos HC capacity_range Hpos Hst1 Hst2)
    as (w1 & ret' & w'' & l' & _ & Hrun' & HC' & _ & Hlen & _ & _ & _ & _ & Hret).
  rewrite Hrun in Hrun'. injection Hrun' as <- <-.
  exists l'. split; [done|]. split; [lia|].
  destruct Hret as [(Hp & _ & ->)|(_ & _ & ->)].
  - split; [done|]. intros _ Hnil. rewrite Hnil in Hlen. simpl length in Hlen.
    unfold prefetchQueueBlockCount in *. lia.
  - split; [done|]. by intros [?|?].
Qed.

Lemma read_or_write_Inv (rq o : nat) (l : list nat) (itemSize itemCount n : Z)
    (out : list byte_cell) (w w' : World) :
  Inv rq o l w ->
  read_or_write CAP itemSize itemCount rq w = Some (n, out, w') ->
  exists l', Inv rq o l' w'.
Proof.
  intros HI Hrun. apply pollState_Inv in HI. unfold read_or_write in Hrun.
  set (w0 := snd (pollState rq w)) in *.
  destruct HI as [HC (Hlen & Hidle & Hne)].
  assert (Hstream : forall w1,
            Core rq o l w1 -> l ≠ [] -> state_ w1 rq = STREAM_STATE_OPEN_STREAMING ->
            streaming_case CAP itemSize itemCount rq w1 = Some (n, out, w') ->
            exists l', Inv rq o l' w').
  { intros w1 HC1 Hl Hst1 Hrun1. unfold streaming_case in Hrun1.
    destruct (read_loop_Core _ rq o _ _ _ _ _ _ l w1 n out w' HC1 Hl Hlen Hst1 Hrun1)
      as (l' & HC' & Hl' & Hlen' & Hafter).
    exists l'. split; [done|]. split; [done|]. split; [|done].
    intros Hi. unfold after_read in Hafter. rewrite Hi in Hafter.
    by destruct Hafter as [?|[?|[?|?]]]. }
  destruct (state_ w0 rq) eqn:Hst;
    try (injection Hrun as _ _ <-; exists l; split; [done|]; rewrite Hst; done).
  - (* buffering *)
    assert (Hno : state_ w0 rq ≠ STREAM_STATE_OPENING) by (by rewrite Hst).
    destruct (receiveAllBlocks_Core _ rq o l (resultQueueLength rq w0) w0 HC Hno)
      as (w1 & Hrecv & HC1 & Hno1 & Hs1 & _); [done|].
    rewrite Hrecv in Hrun. simpl in Hrun.
    assert (Hl : l ≠ []) by (apply Hne; by left).
    destruct (bool_decide (state_ w1 rq ≠ STREAM_STATE_OPEN_STREAMING)) eqn:Hb.
    + injection Hrun as _ _ <-. apply bool_decide_eq_true in Hb.
      exists l. split; [done|]. destruct Hs1 as [Hs1|[? _]]; [|done].
      rewrite Hs1, Hst. done.
    + apply bool_decide_eq_false in Hb.
      apply (Hstream w1); [done|done| |done].
      destruct (decide (state_ w1 rq = STREAM_STATE_OPEN_STREAMING)); [done|].
      by exfalso; apply Hb.
  - (* streaming *)
    apply (Hstream w0); [done| |done|done]. apply Hne. by right.
Qed.

Lemma step_Inv (rq o : nat) (l : list nat) (w w' : World) :
  Inv rq o l w -> step rq w w' -> exists l', Inv rq o l' w'.
Proof.
  intros HI Hstep. destruct Hstep as [pos ret w w' Hpos Hrun|s c n out w w' Hrun|w|os w w' Hrun].
  - by eapply seek_Inv.
  - by eapply read_or_write_Inv.
  - exists l. by apply pollState_Inv.
  - destruct HI as [HC Hok].
    destruct (handleOneRequest_Core _ rq o l os w w' HC Hrun) as (HC' & Hs & _).
    exists l. split; [done|]. by rewrite Hs.
Qed.

Lemma open_Inv (n path_ : nat) (openMode_ : OpenMode) (rq : nat) (w0 : World) :
  open path_ openMode_ (startFileIoServer n) = (Some rq, w0) ->
  exists o, Inv rq o [] w0.
Proof.
  intros Hopen.
  destruct (open_Core CAP path_ openMode_ rq (startFileIoServer n) w0)
    as (o & HC & Hst); [apply NoDup_seq|done| |done|].
  - intros x Hx. by apply dom_startFileIoServer.
  - exists o. split; [done|]. rewrite Hst. split; [simpl; lia|]. split; [done|].
    by intros [?|?].
Qed.

(** Every reachable state satisfies the invariant. *)
Lemma reachable_Inv (rq : nat) (w : World) :
  reachable rq w -> exists o l, Inv rq o l w.
Proof.
  intros (n & path_ & mode & w0 & Hopen & Hsteps).
  destruct (open_Inv _ _ _ _ _ Hopen) as (o & HI).
  exists o. clear Hopen. revert HI. generalize (@nil nat) as l.
  induction Hsteps as [w|w1 w2 w3 Hstep _ IH]; intros l HI.
  - by exists l.
  - destruct (step_Inv _ _ _ _ _ HI Hstep) as (l' & HI'). by eapply IH.
Qed.

End Life.

(** ** The states of the concrete run are reachable *)

(** The server's turns are steps of the life of the stream. *)
Lemma serve_steps (capacity : Z) (fs : nat -> option (list Z)) (rq : nat) :
  forall (fuel : nat) (w w' : World),
    handleAllPendingRequests fuel capacity fs w = Some w' ->
    rtc (step capacity rq) w w'.
Proof.
  induction fuel as [|fuel IH]; intros w w' Hrun; simpl in Hrun.
  - destruct (serverMailboxQueue_ w); [|done]. injection Hrun as <-. apply rtc_refl.
  - destruct (serverMailboxQueue_ w); [injection Hrun as <-; apply rtc_refl|].
    destruct (handleOneRequest capacity _ w) as [w1|] eqn:Hone; [|done].
    simpl in Hrun. eapply rtc_l; [|by apply IH].
    by eapply step_server.
Qed.

Lemma reachable_step (capacity : Z) (rq : nat) (w w' : World) :
  reachable capacity rq w -> step capacity rq w w' -> reachable capacity rq w'.
Proof.
  intros (n & p & m & w0 & Hopen & Hsteps) Hstep.
  exists n, p, m, w0. split; [done|]. by eapply rtc_r.
Qed.

Lemma reachable_serve (capacity : Z) (fs : nat -> option (list Z)) (rq : nat)
    (w w' : World) :
  reachable capacity rq w -> serve capacity fs w = Some w' -> reachable capacity rq w'.
Proof.
  intros (n & p & m & w0 & Hopen & Hsteps) Hserve.
  exists n, p, m, w0. split; [done|].
  etrans; [done|]. by eapply serve_steps.
Qed.

Lemma reachable_seek (capacity pos ret : Z) (rq : nat) (w w' : World) :
  reachable capacity rq w ->
  0 <= pos < SIZE_MODULUS ->
  seek capacity pos rq w = Some (ret, w') ->
  reachable capacity rq w'.
Proof. intros Hr Hpos Hrun. eapply reachable_step; [done|]. by eapply step_seek. Qed.

Lemma reachable_read (capacity itemSize itemCount n : Z) (out : list byte_cell) (rq : nat)
    (w w' : World) :
  reachable capacity rq w ->
  read_or_write capacity itemSize itemCount rq w = Some (n, out, w') ->
  reachable capacity rq w'.
Proof. intros Hr Hrun. eapply reachable_step; [done|]. by eapply step_read. Qed.

Lemma reachable_poll (capacity : Z) (rq : nat) (w : World) :
  reachable capacity rq w -> reachable capacity rq (snd (pollState rq w)).
Proof. intros Hr. eapply reachable_step; [done|]. apply step_poll. Qed.

Lemma reachable_demo_idle : reachable demo_capacity demo_stream demo_idle.
Proof.
  apply reachable_poll.
  eapply (reachable_serve _ demo_fs _ demo_opening).
  - exists 64%nat, 7%nat, READ_ONLY_OPEN_MODE, demo_opening.
    split; [vm_compute; reflexivity|apply rtc_refl].
  - vm_compute. reflexivity.
Qed.

Lemma reachable_demo_replied : reachable demo_capacity demo_stream (demo_replied 0).
Proof.
  eapply (reachable_serve _ demo_fs _ (demo_seeked 0)).
  - eapply (reachable_seek _ 0 0 _ demo_idle).
    + apply reachable_demo_idle.
    + unfold SIZE_MODULUS. lia.
    + vm_compute. reflexivity.
  - vm_compute. reflexivity.
Qed.

Lemma reachable_demo_eof : reachable demo_capacity demo_stream demo_eof.
Proof.
  eapply (reachable_read _ 1 100 10 _ _ (demo_replied 0)).
  - apply reachable_demo_replied.
  - vm_compute. reflexivity.
Qed.

Lemma reachable_demo_replied_streaming :
  reachable demo_capacity demo_stream demo_replied_streaming.
Proof.
  eapply (reachable_read _ 1 1 1 _ _ (demo_replied 0)).
  - apply reachable_demo_replied.
  - vm_compute. reflexivity.
Qed.

Lemma reachable_demo_eof_served : reachable demo_capacity demo_stream demo_eof_served.
Proof.
  eapply (reachable_serve _ demo_fs _ demo_eof).
  - apply reachable_demo_eof.
  - vm_compute. reflexivity.
Qed.

Lemma reachable_demo_open_failed : reachable demo_capacity demo_stream demo_open_failed.
Proof.
  apply reachable_poll.
  eapply (reachable_serve _ demo_fs _ demo_missing_opening).
  - exists 64%nat, 8%nat, READ_ONLY_OPEN_MODE, demo_missing_opening.
    split; [vm_compute; reflexivity|apply rtc_refl].
  - vm_compute. reflexivity.
Qed.

Lemma reachable_demo_small_idle : reachable demo_capacity demo_stream demo_small_idle.
Proof.
  apply reachable_poll.
  eapply (reachable_serve _ demo_fs _ demo_small_opening).
  - exists 10%nat, 7%nat, READ_ONLY_OPEN_MODE, demo_small_opening.
    split; [vm_compute; reflexivity|apply rtc_refl].
  - vm_compute. reflexivity.
Qed.

Lemma reachable_demo_exhausted : reachable demo_capacity demo_stream demo_exhausted.
Proof.
  eapply (reachable_seek _ 0 (-1) _ demo_small_idle).
  - apply reachable_demo_small_idle.
  - unfold SIZE_MODULUS. lia.
  - vm_compute. reflexivity.
Qed.

Lemma reachable_demo_exhausted_served :
  reachable demo_capacity demo_stream demo_exhausted_served.
Proof.
  eapply (reachable_serve _ demo_fs _ demo_exhausted).
  - apply reachable_demo_exhausted.
  - vm_compute. reflexivity.
Qed.

(** ** C2: what [seek] does *)

(** C2.  For a stream in a reachable state, a block size [B] and a
    position [pos] of type [size_t], with [aligned] the position rounded
    down to a multiple of [B]:
    - in the states OPENING and ERROR, [seek] returns -1 and changes
      nothing, so it sends no request;
    - in any other state [seek] flushes the prefetch queue, which is then
      empty, and sends one block request for each node the pool can give,
      up to [prefetchQueueBlockCount] = 20.  The requests sent are the new
      prefetch queue, appended to the mailbox in queue order; the [k]-th of
      them is a READ_BLOCK for the offset [aligned + k * B] (in [size_t]
      arithmetic) answering to this stream, with cursor [pos - aligned]
      for the first and 0 for the others.  When the pool gives twenty
      nodes, [seek] returns 0 and the state is OPEN_BUFFERING; when the
      pool runs out, it returns -1 and the state is ERROR. *)
Theorem seek_spec (B pos : Z) (rq : nat) (w : World) :
  0 < B < SIZE_MODULUS ->
  0 <= pos < SIZE_MODULUS ->
  reachable B rq w ->
  roundDownToBlockSizeAlignedPosition B pos = pos / B * B
  /\ (state_ w rq = STREAM_STATE_OPENING \/ state_ w rq = STREAM_STATE_ERROR ->
      seek B pos rq w = Some (-1, w))
  /\ (state_ w rq ≠ STREAM_STATE_OPENING -> state_ w rq ≠ STREAM_STATE_ERROR ->
      exists (w1 : World) (ret : Z) (w' : World),
        flushPrefetchQueue rq w = Some w1
        /\ prefetchQueue w1 rq = []
        /\ seek B pos rq w = Some (ret, w')
        /\ length (prefetchQueue w' rq)
           = Nat.min prefetchQueueBlockCount (length (globalRequestPool_ w1))
        /\ serverMailboxQueue_ w' = serverMailboxQueue_ w1 ++ prefetchQueue w' rq
        /\ block_requests_at B rq (roundDownToBlockSizeAlignedPosition B pos)
             (pos - roundDownToBlockSizeAlignedPosition B pos) w' (prefetchQueue w' rq)
        /\ (((prefetchQueueBlockCount <= length (globalRequestPool_ w1))%nat
             /\ ret = 0 /\ state_ w' rq = STREAM_STATE_OPEN_BUFFERING)
            \/ ((length (globalRequestPool_ w1) < prefetchQueueBlockCount)%nat
                /\ ret = -1 /\ state_ w' rq = STREAM_STATE_ERROR))).
Proof.
  intros HB Hpos Hreach.
  destruct (reachable_Inv B HB rq w Hreach) as (o & l & HC & _).
  split.
  { by destruct (roundDownToBlockSizeAlignedPosition_spec B pos ltac:(lia) Hpos) as [? _]. }
  split.
  - intros Hst. unfold seek.
    destruct Hst as [Hst|Hst]; rewrite Hst; done.
  - intros Hst1 Hst2.
    destruct (flushPrefetchQueue_Core B rq o l w HC Hst1) as (w0 & Hflush & HC0 & _).
    destruct (seek_Core B rq o l w pos HC HB Hpos Hst1 Hst2)
      as (w1 & ret & w' & l' & Hflush' & Hrun & HC' & Hat & Hlen & HM & _ & _ & _ & Hret).
    rewrite Hflush in Hflush'. injection Hflush' as <-.
    exists w0, ret, w'.
    rewrite (Core_prefetchQueue B rq o [] w0 HC0).
    rewrite (Core_prefetchQueue B rq o l' w' HC').
    done.
Qed.

Lemma seek_spec_witness :
  (0 < demo_capacity < SIZE_MODULUS)
  /\ (0 <= 3 < SIZE_MODULUS)
  /\ reachable demo_capacity demo_stream demo_idle
  /\ state_ demo_idle demo_stream = STREAM_STATE_OPEN_IDLE
  /\ exists (ret : Z) (w' : World),
       seek demo_capacity 3 demo_stream demo_idle = Some (ret, w')
       /\ block_requests_at demo_capacity demo_stream
            (roundDownToBlockSizeAlignedPosition demo_capacity 3)
            (3 - roundDownToBlockSizeAlignedPosition demo_capacity 3)
            w' (prefetchQueue w' demo_stream).
Proof.
  assert (HB : 0 < demo_capacity < SIZE_MODULUS) by (by vm_compute).
  assert (Hpos : 0 <= 3 < SIZE_MODULUS) by (by vm_compute).
  split; [done|]. split; [done|]. split; [apply reachable_demo_idle|].
  split; [by vm_compute|].
  destruct (seek_spec demo_capacity 3 demo_stream demo_idle HB Hpos reachable_demo_idle)
    as (_ & _ & Hseek).
  destruct Hseek as (w1 & ret & w' & _ & _ & Hrun & _ & _ & Hat & _);
    [by vm_compute|by vm_compute|].
  exists ret, w'. split; [exact Hrun|exact Hat].
Defined.

(** ** C8: queue order is file order *)

Lemma file_order_lookup (B : Z) (w : World) (l : list nat) :
  file_order B w l ->
  forall (k : nat) (H N : nat),
    l !! k = Some H -> l !! S k = Some N ->
    filePosition (req w N) = size_wrap (filePosition (req w H) + B).
Proof.
  induction l as [|x l IH]; intros Hord k H N HkH HkN; [done|].
  destruct Hord as [H1 H2]. destruct k as [|k].
  - simpl in HkH. injection HkH as <-. destruct l as [|y l]; [done|].
    simpl in HkN. injection HkN as <-. done.
  - simpl in HkH, HkN. by eapply IH.
Qed.

Lemma Inv_file_order (B : Z) (rq o : nat) (l : list nat) (w : World) :
  0 < B ->
  Inv B rq o l w -> queue_in_file_order B w rq.
Proof.
  intros HB [HC _] k H N HkH HkN.
  rewrite (Core_prefetchQueue B rq o l w HC) in HkH, HkN.
  pose proof (core_shape _ _ _ _ _ HC) as HS.
  pose proof (file_order_lookup B w l (shape_order _ _ _ _ _ HS) k H N HkH HkN) as Heq.
  split; [done|]. intros Hlt. rewrite Heq. apply size_wrap_small.
  pose proof (shape_range _ _ _ _ _ HS H (list_elem_of_lookup_2 _ _ _ HkH)). lia.
Qed.

(** C8.  In every reachable state of a stream the prefetch queue is in
    file order, and it is so again after each operation of the stream:
    after [seek], after [read] (when the read is defined, that is when it
    does not copy from outside a block's buffer) and after [pollState]. *)
Theorem prefetch_queue_in_file_order (B : Z) (rq : nat) (w : World) :
  0 < B < SIZE_MODULUS ->
  reachable B rq w ->
  queue_in_file_order B w rq
  /\ (forall (pos ret : Z) (w' : World),
        0 <= pos < SIZE_MODULUS ->
        seek B pos rq w = Some (ret, w') -> queue_in_file_order B w' rq)
  /\ (forall (itemSize itemCount n : Z) (out : list byte_cell) (w' : World),
        read_or_write B itemSize itemCount rq w = Some (n, out, w') ->
        queue_in_file_order B w' rq)
  /\ queue_in_file_order B (snd (pollState rq w)) rq.
Proof.
  intros HB Hreach.
  assert (Hall : forall w', reachable B rq w' -> queue_in_file_order B w' rq).
  { intros w' Hr. destruct (reachable_Inv B HB rq w' Hr) as (o & l & HI).
    apply (Inv_file_order B rq o l); [lia|done]. }
  split; [by apply Hall|]. split; [|split].
  - intros pos ret w' Hpos Hrun. apply Hall. by eapply reachable_seek.
  - intros s c n out w' Hrun. apply Hall. by eapply reachable_read.
  - apply Hall. by apply reachable_poll.
Qed.

Lemma prefetch_queue_in_file_order_witness :
  (0 < demo_capacity < SIZE_MODULUS)
  /\ reachable demo_capacity demo_stream demo_eof
  /\ prefetchQueue demo_eof demo_stream !! 0%nat = Some 4%nat
  /\ prefetchQueue demo_eof demo_stream !! 1%nat = Some 5%nat
  /\ filePosition (req demo_eof 5%nat) = filePosition (req demo_eof 4%nat) + demo_capacity.
Proof.
  assert (HB : 0 < demo_capacity < SIZE_MODULUS) by (by vm_compute).
  split; [done|]. split; [apply reachable_demo_eof|].
  assert (H0 : prefetchQueue demo_eof demo_stream !! 0%nat = Some 4%nat)
    by (vm_compute; reflexivity).
  assert (H1 : prefetchQueue demo_eof demo_stream !! 1%nat = Some 5%nat)
    by (vm_compute; reflexivity).
  split; [exact H0|]. split; [exact H1|].
  destruct (prefetch_queue_in_file_order demo_capacity demo_stream demo_eof HB
              reachable_demo_eof) as (Hord & _).
  destruct (Hord 0%nat 4%nat 5%nat H0 H1) as [_ Hexact].
  apply Hexact. by vm_compute.
Defined.

(** ** C9: the stored error *)

(** C9.  In every reachable state of a stream, the status [getError]
    returns is 0 while the stream is opening, and afterwards it is the
    result status of the stream's OPEN_FILE request: it is nonzero only if
    that request failed, and when the file was opened it is 0 in every
    later state, the ERROR states entered from [seek] and [read]
    included. *)
Theorem getError_is_open_status (B : Z) (rq : nat) (w : World) :
  0 < B < SIZE_MODULUS ->
  reachable B rq w ->
  exists o : nat,
    openFileReq w rq = Some o
    /\ requestType (req w o) = OPEN_FILE
    /\ getError rq w
       = (if bool_decide (state_ w rq = STREAM_STATE_OPENING) then 0
          else resultStatus (req w o))
    /\ (getError rq w ≠ 0 ->
        state_ w rq ≠ STREAM_STATE_OPENING /\ resultStatus (req w o) ≠ NOERROR)
    /\ (resultStatus (req w o) = NOERROR -> getError rq w = 0).
Proof.
  intros HB Hreach.
  destruct (reachable_Inv B HB rq w Hreach) as (o & l & HC & _).
  exists o.
  split; [apply (shape_open _ _ _ _ _ (core_shape _ _ _ _ _ HC))|].
  split; [apply (own_open_type _ _ _ _ (core_own _ _ _ _ _ HC))|].
  pose proof (core_error _ _ _ _ _ HC) as HE. unfold getError.
  split; [done|]. rewrite HE.
  destruct (bool_decide (state_ w rq = STREAM_STATE_OPENING)) eqn:Hst.
  - split; [done|done].
  - apply bool_decide_eq_false in Hst. split; [|done].
    intros Hne. split; [done|]. unfold NOERROR. done.
Qed.

Lemma getError_is_open_status_witness :
  (0 < demo_capacity < SIZE_MODULUS)
  /\ reachable demo_capacity demo_stream demo_exhausted
  /\ state_ demo_exhausted demo_stream = STREAM_STATE_ERROR
  /\ resultStatus (req demo_exhausted 1%nat) = NOERROR
  /\ getError demo_stream demo_exhausted = 0.
Proof.
  assert (HB : 0 < demo_capacity < SIZE_MODULUS) by (by vm_compute).
  split; [done|]. split; [apply reachable_demo_exhausted|].
  split; [by vm_compute|].
  assert (Hok : resultStatus (req demo_exhausted 1%nat) = NOERROR) by (by vm_compute).
  split; [exact Hok|].
  destruct (getError_is_open_status demo_capacity demo_stream demo_exhausted HB
              reachable_demo_exhausted) as (o & Ho & _ & _ & _ & Hzero).
  assert (o = 1%nat) as ->.
  { assert (H1 : openFileReq demo_exhausted demo_stream = Some 1%nat)
      by (vm_compute; reflexivity).
    rewrite H1 in Ho. by injection Ho. }
  exact (Hzero Hok).
Defined.

(** ** C4: the prefetch queue and the state *)

(** C4 as it stands does not hold.  After the read to the end of the file
    the stream is at OPEN_EOF and its prefetch queue holds twenty blocks;
    after the [seek] that ran out of nodes the stream is at ERROR and its
    prefetch queue holds the eight requests that were sent. *)
Lemma queue_not_flushed_at_eof_or_error :
  reachable demo_capacity demo_stream demo_eof
  /\ state_ demo_eof demo_stream = STREAM_STATE_OPEN_EOF
  /\ length (prefetchQueue demo_eof demo_stream) = 20%nat
  /\ reachable demo_capacity demo_stream demo_exhausted
  /\ state_ demo_exhausted demo_stream = STREAM_STATE_ERROR
  /\ prefetchQueue demo_exhausted demo_stream
     = [2; 3; 4; 5; 6; 7; 8; 9]%nat.
Proof.
  split; [apply reachable_demo_eof|]. split; [by vm_compute|]. split; [by vm_compute|].
  split; [apply reachable_demo_exhausted|]. split; by vm_compute.
Qed.

(** C4, amended.  In every reachable state of a stream the prefetch queue
    is not empty when the state is OPEN_BUFFERING or OPEN_STREAMING, and it
    is empty when the state is OPENING or OPEN_IDLE. *)
Theorem prefetch_queue_matches_state (B : Z) (rq : nat) (w : World) :
  0 < B < SIZE_MODULUS ->
  reachable B rq w ->
  (state_ w rq = STREAM_STATE_OPEN_BUFFERING \/ state_ w rq = STREAM_STATE_OPEN_STREAMING ->
   prefetchQueue w rq ≠ [])
  /\ (state_ w rq = STREAM_STATE_OPENING \/ state_ w rq = STREAM_STATE_OPEN_IDLE ->
      prefetchQueue w rq = []).
Proof.
  intros HB Hreach.
  destruct (reachable_Inv B HB rq w Hreach) as (o & l & HI).
  pose proof HI as [HC (_ & Hidle & Hne)].
  rewrite (Core_prefetchQueue B rq o l w HC).
  split; [done|]. intros [Hst|Hst]; [|by apply Hidle].
  by eapply Inv_opening.
Qed.

Lemma prefetch_queue_matches_state_witness :
  (0 < demo_capacity < SIZE_MODULUS)
  /\ reachable demo_capacity demo_stream demo_replied_streaming
  /\ state_ demo_replied_streaming demo_stream = STREAM_STATE_OPEN_STREAMING
  /\ prefetchQueue demo_replied_streaming demo_stream ≠ [].
Proof.
  assert (HB : 0 < demo_capacity < SIZE_MODULUS) by (by vm_compute).
  split; [done|]. split; [apply reachable_demo_replied_streaming|].
  assert (Hst : state_ demo_replied_streaming demo_stream = STREAM_STATE_OPEN_STREAMING)
    by (by vm_compute).
  split; [exact Hst|].
  destruct (prefetch_queue_matches_state demo_capacity demo_stream demo_replied_streaming
              HB reachable_demo_replied_streaming) as [Hne _].
  apply Hne. by right.
Defined.

(** ** C3: the states OPEN_EOF and ERROR *)

(** C3.  The run: the stream has read to the end of the file and is at
    OPEN_EOF while two of the block requests it sent on the way are still
    awaited.  Once the server has answered them, the first [pollState]
    returns OPEN_EOF, and the second, which receives the last awaited
    reply, sets the state to OPEN_STREAMING; so does the third: the stream
    has left OPEN_EOF.  Likewise the stream that ran out of nodes in [seek]
    is at ERROR with eight requests awaited; once they are answered and
    received, a [read] finds the stream streaming and delivers a byte. *)
Theorem eof_and_error_are_left :
  reachable demo_capacity demo_stream demo_eof_served
  /\ state_ demo_eof_served demo_stream = STREAM_STATE_OPEN_EOF
  /\ waitingForBlocksCount_ demo_eof_served demo_stream = 2
  /\ fst (pollState demo_stream demo_eof_served) = STREAM_STATE_OPEN_EOF
  /\ fst (pollState demo_stream (snd (pollState demo_stream demo_eof_served)))
     = STREAM_STATE_OPEN_STREAMING
  /\ fst (pollState demo_stream
            (snd (pollState demo_stream (snd (pollState demo_stream demo_eof_served)))))
     = STREAM_STATE_OPEN_STREAMING
  /\ reachable demo_capacity demo_stream demo_exhausted_served
  /\ state_ demo_exhausted_served demo_stream = STREAM_STATE_ERROR
  /\ (fst <$> read_or_write demo_capacity 1 1 demo_stream demo_exhausted_served)
     = Some (0, [])
  /\ (fst <$> read_or_write demo_capacity 1 1 demo_stream demo_exhausted_polled)
     = Some (1, [Some 10]).
Proof.
  split; [apply reachable_demo_eof_served|].
  split; [by vm_compute|]. split; [by vm_compute|]. split; [by vm_compute|].
  split; [by vm_compute|]. split; [by vm_compute|].
  split; [apply reachable_demo_exhausted_served|].
  split; [by vm_compute|]. split; by vm_compute.
Qed.

Lemma settled_pollState (B : Z) (rq o : nat) (l : list nat) (st : RequestType) (w : World) :
  Inv B rq o l w ->
  st = STREAM_STATE_OPEN_EOF \/ st = STREAM_STATE_ERROR ->
  settled rq st w ->
  fst (pollState rq w) = st /\ settled rq st (snd (pollState rq w)).
Proof.
  intros [HC _] Hst [Hs Hc].
  destruct (pollState_Core B rq o l w HC) as (Hfst & _ & _ & Hnop).
  destruct Hnop as (_ & _ & Hkeep).
  { rewrite Hs. by destruct Hst as [-> | ->]. }
  destruct (Hkeep Hc) as [Hs' Hc']. rewrite Hfst.
  split; [congruence|]. split; [congruence|done].
Qed.

Lemma settled_read (B : Z) (rq o : nat) (l : list nat) (st : RequestType)
    (itemSize itemCount : Z) (w : World) :
  Inv B rq o l w ->
  st = STREAM_STATE_OPEN_EOF \/ st = STREAM_STATE_ERROR ->
  settled rq st w ->
  read_or_write B itemSize itemCount rq w = Some (0, [], snd (pollState rq w)).
Proof.
  intros HI Hst Hset.
  destruct (settled_pollState B rq o l st w HI Hst Hset) as [_ [Hs _]].
  unfold read_or_write. cbv zeta. rewrite Hs. by destruct Hst as [-> | ->].
Qed.

Lemma settled_step (B : Z) (rq o : nat) (l : list nat) (st : RequestType) (w w' : World) :
  0 < B < SIZE_MODULUS ->
  Inv B rq o l w ->
  st = STREAM_STATE_OPEN_EOF \/ st = STREAM_STATE_ERROR ->
  settled rq st w ->
  quiet_step B rq w w' ->
  (exists l', Inv B rq o l' w') /\ settled rq st w'.
Proof.
  intros HB HI Hst Hset Hstep.
  destruct Hstep as [s c n out w w' Hrun|w|os w w' Hrun].
  - rewrite (settled_read B rq o l st s c w HI Hst Hset) in Hrun.
    injection Hrun as _ _ <-. split.
    + exists l. by apply pollState_Inv.
    + by apply (settled_pollState B rq o l st w HI Hst Hset).
  - split.
    + exists l. by apply pollState_Inv.
    + by apply (settled_pollState B rq o l st w HI Hst Hset).
  - destruct HI as [HC Hok]. destruct Hset as [Hs Hc].
    destruct (handleOneRequest_Core B rq o l os w w' HC Hrun) as (HC' & Hs' & Hc' & _).
    split.
    + exists l. split; [done|]. by rewrite Hs'.
    + split; congruence.
Qed.

(** What does hold of the two states.  Once a stream in a reachable state
    is at OPEN_EOF or ERROR and awaits no block, it stays there whatever
    the client reads or polls and whatever the server does: every
    [pollState] returns that state and every [read] returns 0 items and
    writes nothing.  (Only [seek], from OPEN_EOF, and [close] lead
    elsewhere.) *)
Lemma settled_stream_stays (B : Z) (rq : nat) (w w' : World) :
  0 < B < SIZE_MODULUS ->
  reachable B rq w ->
  state_ w rq = STREAM_STATE_OPEN_EOF \/ state_ w rq = STREAM_STATE_ERROR ->
  waitingForBlocksCount_ w rq = 0 ->
  rtc (quiet_step B rq) w w' ->
  state_ w' rq = state_ w rq
  /\ waitingForBlocksCount_ w' rq = 0
  /\ fst (pollState rq w') = state_ w rq
  /\ (forall itemSize itemCount : Z,
        exists w'' : World,
          read_or_write B itemSize itemCount rq w' = Some (0, [], w'')).
Proof.
  intros HB Hreach Hst Hc Hsteps.
  destruct (reachable_Inv B HB rq w Hreach) as (o & l & HI).
  remember (state_ w rq) as st eqn:Hs0.
  assert (Hset : settled rq st w) by done.
  assert (Hall : exists l', Inv B rq o l' w' /\ settled rq st w').
  { clear Hreach Hc Hs0. revert l HI Hset.
    induction Hsteps as [w|w1 w2 w3 Hstep _ IH]; intros l HI Hset.
    - by exists l.
    - destruct (settled_step B rq o l st w1 w2 HB HI Hst Hset Hstep) as [[l' HI'] Hset'].
      by apply (IH l'). }
  destruct Hall as (l' & HI' & Hset').
  pose proof Hset' as [Hs' Hc'].
  split; [done|]. split; [done|].
  split; [by apply (settled_pollState B rq o l' st w' HI' Hst)|].
  intros s c. eexists. by apply (settled_read B rq o l' st s c w' HI' Hst).
Qed.

Lemma settled_stream_stays_witness :
  (0 < demo_capacity < SIZE_MODULUS)
  /\ reachable demo_capacity demo_stream demo_open_failed
  /\ state_ demo_open_failed demo_stream = STREAM_STATE_ERROR
  /\ waitingForBlocksCount_ demo_open_failed demo_stream = 0
  /\ rtc (quiet_step demo_capacity demo_stream) demo_open_failed
       (snd (pollState demo_stream demo_open_failed))
  /\ fst (pollState demo_stream (snd (pollState demo_stream demo_open_failed)))
     = state_ demo_open_failed demo_stream.
Proof.
  assert (HB : 0 < demo_capacity < SIZE_MODULUS) by (by vm_compute).
  assert (Hst : state_ demo_open_failed demo_stream = STREAM_STATE_ERROR)
    by (by vm_compute).
  assert (Hc : waitingForBlocksCount_ demo_open_failed demo_stream = 0)
    by (by vm_compute).
  assert (Hsteps : rtc (quiet_step demo_capacity demo_stream) demo_open_failed
                     (snd (pollState demo_stream demo_open_failed))).
  { apply rtc_once. apply quiet_poll. }
  split; [done|]. split; [apply reachable_demo_open_failed|].
  split; [exact Hst|]. split; [exact Hc|]. split; [exact Hsteps|].
  destruct (settled_stream_stays demo_capacity demo_stream demo_open_failed _ HB
              reachable_demo_open_failed (or_intror Hst) Hc Hsteps) as (_ & _ & Hpoll & _).
  exact Hpoll.
Defined.

(** ** Further properties of reachable states *)

Lemma reachable_demo_opened : reachable demo_capacity demo_stream demo_opened.
Proof.
  eapply (reachable_serve _ demo_fs _ demo_opening).
  - exists 64%nat, 7%nat, READ_ONLY_OPEN_MODE, demo_opening.
    split; [vm_compute; reflexivity|apply rtc_refl].
  - vm_compute. reflexivity.
Qed.

(** X1.  The assertion at the end of [flushPrefetchQueue] holds: in every
    reachable state of a stream that is not opening, [flushPrefetchQueue]
    ends, and it leaves the prefetch queue empty, the tail pointer null and
    no block awaited. *)
Theorem flushPrefetchQueue_awaits_nothing (B : Z) (rq : nat) (w : World) :
  0 < B < SIZE_MODULUS ->
  reachable B rq w ->
  state_ w rq ≠ STREAM_STATE_OPENING ->
  exists w1 : World,
    flushPrefetchQueue rq w = Some w1
    /\ prefetchQueue w1 rq = []
    /\ prefetchQueueTail_ w1 rq = Some None
    /\ waitingForBlocksCount_ w1 rq = 0
    /\ state_ w1 rq = state_ w rq.
Proof.
  intros HB Hreach Hst.
  destruct (reachable_Inv B HB rq w Hreach) as (o & l & HC & _).
  destruct (flushPrefetchQueue_Core B rq o l w HC Hst) as (w1 & Hrun & HC1 & Hs1 & _).
  exists w1. split; [done|].
  split; [by apply (Core_prefetchQueue B rq o [] w1)|].
  split; [|split; [by rewrite (core_count _ _ _ _ _ HC1)|done]].
  unfold flushPrefetchQueue in Hrun.
  destruct (flushPrefetchQueue_loop _ rq w) as [w0|]; [|done]. simpl in Hrun.
  destruct (openFileReq w0 rq) as [o'|] eqn:Ho'; [|done]. simpl in Hrun.
  injection Hrun as <-.
  pose proof (shape_open _ _ _ _ _ (core_shape _ _ _ _ _ HC1)) as Ho1.
  pose proof (shape_open_ne _ _ _ _ _ (core_shape _ _ _ _ _ HC1)) as Hne.
  unfold prefetchQueueTail_. rewrite Ho1. simpl.
  unfold openFileReq in Ho1. rewrite req_upd_req in Ho1.
  destruct (decide (o' = rq)) as [->|Hne'].
  - simpl in Ho1. unfold openFileReq in Ho'. rewrite Ho' in Ho1.
    injection Ho1 as <-. done.
  - unfold openFileReq in Ho'. rewrite Ho' in Ho1. injection Ho1 as <-.
    rewrite req_upd_req, decide_True by done. done.
Qed.

Lemma flushPrefetchQueue_awaits_nothing_witness :
  (0 < demo_capacity < SIZE_MODULUS)
  /\ reachable demo_capacity demo_stream (demo_seeked 0)
  /\ waitingForBlocksCount_ (demo_seeked 0) demo_stream = 20
  /\ exists w1 : World,
       flushPrefetchQueue demo_stream (demo_seeked 0) = Some w1
       /\ waitingForBlocksCount_ w1 demo_stream = 0.
Proof.
  assert (HB : 0 < demo_capacity < SIZE_MODULUS) by (by vm_compute).
  assert (Hr : reachable demo_capacity demo_stream (demo_seeked 0)).
  { eapply (reachable_seek _ 0 0 _ demo_idle).
    - apply reachable_demo_idle.
    - unfold SIZE_MODULUS. lia.
    - vm_compute. reflexivity. }
  split; [done|]. split; [exact Hr|]. split; [by vm_compute|].
  destruct (flushPrefetchQueue_awaits_nothing demo_capacity demo_stream (demo_seeked 0)
              HB Hr) as (w1 & Hrun & _ & _ & Hc & _); [by vm_compute|].
  exists w1. split; [exact Hrun|exact Hc].
Defined.

(** X2.  The assertion of [pollState] in the state OPENING holds: in every
    reachable state of an opening stream, the reply at the front of the
    result queue, if there is one, is the stream's OPEN_FILE request. *)
Theorem opening_reply_is_open_request (B : Z) (rq r : nat) (q : result_queue_t)
    (w : World) :
  0 < B < SIZE_MODULUS ->
  reachable B rq w ->
  state_ w rq = STREAM_STATE_OPENING ->
  rq_pop (resultQueue (req w rq)) = Some (r, q) ->
  openFileReq w rq = Some r /\ requestType (req w r) = OPEN_FILE.
Proof.
  intros HB Hreach Hst Hpop.
  destruct (reachable_Inv B HB rq w Hreach) as (o & l & HC & _).
  destruct (own_opening _ _ _ _ (core_own _ _ _ _ _ HC) Hst) as (_ & _ & Hall).
  apply rq_pop_Some in Hpop. fold (queued w rq) in Hpop.
  assert (r = o) as ->.
  { apply Hall. rewrite Hpop. set_solver +. }
  split.
  - apply (shape_open _ _ _ _ _ (core_shape _ _ _ _ _ HC)).
  - apply (own_open_type _ _ _ _ (core_own _ _ _ _ _ HC)).
Qed.

Lemma opening_reply_is_open_request_witness :
  (0 < demo_capacity < SIZE_MODULUS)
  /\ reachable demo_capacity demo_stream demo_opened
  /\ state_ demo_opened demo_stream = STREAM_STATE_OPENING
  /\ rq_pop (resultQueue (req demo_opened demo_stream)) = Some (1%nat, ResultQueue [] 0)
  /\ openFileReq demo_opened demo_stream = Some 1%nat.
Proof.
  assert (HB : 0 < demo_capacity < SIZE_MODULUS) by (by vm_compute).
  assert (Hst : state_ demo_opened demo_stream = STREAM_STATE_OPENING) by (by vm_compute).
  assert (Hpop : rq_pop (resultQueue (req demo_opened demo_stream))
                 = Some (1%nat, ResultQueue [] 0)) by (vm_compute; reflexivity).
  split; [done|]. split; [apply reachable_demo_opened|].
  split; [exact Hst|]. split; [exact Hpop|].
  exact (proj1 (opening_reply_is_open_request demo_capacity demo_stream 1%nat _ demo_opened
                  HB reachable_demo_opened Hst Hpop)).
Defined.

(** X3.  The first assertion of [receiveOneBlock] holds: in every
    reachable state of a stream that is not opening, a reply popped from
    the result queue is a READ_BLOCK request, a node other than the
    stream's root that is neither free nor in the mailbox. *)
Theorem received_reply_is_block_request (B : Z) (rq r : nat) (q : result_queue_t)
    (w : World) :
  0 < B < SIZE_MODULUS ->
  reachable B rq w ->
  state_ w rq ≠ STREAM_STATE_OPENING ->
  rq_pop (resultQueue (req w rq)) = Some (r, q) ->
  isAcquireBlockRequest (req w r) = true
  /\ r ≠ rq
  /\ (r ∉ globalRequestPool_ w)
  /\ (r ∉ serverMailboxQueue_ w)
  /\ (isDiscarded (req w r) = false -> r ∈ prefetchQueue w rq).
Proof.
  intros HB Hreach Hst Hpop.
  destruct (reachable_Inv B HB rq w Hreach) as (o & l & HC & _).
  apply rq_pop_Some in Hpop. fold (queued w rq) in Hpop.
  destruct (front_reply B rq o r _ l w HC Hst Hpop)
    as (Hrq & _ & Hty & HP & HM & _ & _ & Hl).
  rewrite (Core_prefetchQueue B rq o l w HC).
  split; [by apply bool_decide_eq_true|]. done.
Qed.

Lemma received_reply_is_block_request_witness :
  (0 < demo_capacity < SIZE_MODULUS)
  /\ reachable demo_capacity demo_stream (demo_replied 0)
  /\ state_ (demo_replied 0) demo_stream = STREAM_STATE_OPEN_BUFFERING
  /\ rq_pop (resultQueue (req (demo_replied 0) demo_stream))
     = Some (2%nat, ResultQueue (seq 3 19) 19)
  /\ isAcquireBlockRequest (req (demo_replied 0) 2%nat) = true.
Proof.
  assert (HB : 0 < demo_capacity < SIZE_MODULUS) by (by vm_compute).
  assert (Hpop : rq_pop (resultQueue (req (demo_replied 0) demo_stream))
                 = Some (2%nat, ResultQueue (seq 3 19) 19)) by (vm_compute; reflexivity).
  split; [done|]. split; [apply reachable_demo_replied|].
  split; [by vm_compute|]. split; [exact Hpop|].
  refine (proj1 (received_reply_is_block_request demo_capacity demo_stream 2%nat _
                   (demo_replied 0) HB reachable_demo_replied _ Hpop)).
  by vm_compute.
Defined.

(** X4.  In every reachable state of a stream, the count of awaited blocks
    is the number of blocks of the prefetch queue that are pending, and the
    prefetch queue holds at most [prefetchQueueBlockCount] blocks. *)
Theorem awaited_blocks_are_pending_blocks (B : Z) (rq : nat) (w : World) :
  0 < B < SIZE_MODULUS ->
  reachable B rq w ->
  waitingForBlocksCount_ w rq = pending_count w (prefetchQueue w rq)
  /\ (length (prefetchQueue w rq) <= prefetchQueueBlockCount)%nat.
Proof.
  intros HB Hreach.
  destruct (reachable_Inv B HB rq w Hreach) as (o & l & HC & Hlen & _).
  rewrite (Core_prefetchQueue B rq o l w HC).
  split; [apply (core_count _ _ _ _ _ HC)|done].
Qed.

Lemma awaited_blocks_are_pending_blocks_witness :
  (0 < demo_capacity < SIZE_MODULUS)
  /\ reachable demo_capacity demo_stream demo_eof
  /\ waitingForBlocksCount_ demo_eof demo_stream = 2
  /\ pending_count demo_eof (prefetchQueue demo_eof demo_stream) = 2.
Proof.
  assert (HB : 0 < demo_capacity < SIZE_MODULUS) by (by vm_compute).
  assert (Hc : waitingForBlocksCount_ demo_eof demo_stream = 2) by (by vm_compute).
  split; [done|]. split; [apply reachable_demo_eof|]. split; [exact Hc|].
  rewrite <- (proj1 (awaited_blocks_are_pending_blocks demo_capacity demo_stream demo_eof
                       HB reachable_demo_eof)).
  exact Hc.
Defined.

(** X5.  In every reachable state of a stream, no node is held twice: the
    free pool, the server's mailbox and the stream's result queue share no
    node and hold none twice, and neither the stream's root node, nor its
    OPEN_FILE node, nor a block of its prefetch queue is in the free
    pool. *)
Theorem nodes_in_use_are_not_free (B : Z) (rq : nat) (w : World) :
  0 < B < SIZE_MODULUS ->
  reachable B rq w ->
  NoDup (globalRequestPool_ w ++ serverMailboxQueue_ w ++ queued w rq)
  /\ NoDup (prefetchQueue w rq)
  /\ (rq ∉ globalRequestPool_ w)
  /\ (forall o, openFileReq w rq = Some o -> o ∉ globalRequestPool_ w)
  /\ (forall x, x ∈ prefetchQueue w rq -> x ∉ globalRequestPool_ w).
Proof.
  intros HB Hreach.
  destruct (reachable_Inv B HB rq w Hreach) as (o & l & HC & _).
  rewrite (Core_prefetchQueue B rq o l w HC).
  pose proof (core_own _ _ _ _ _ HC) as HO.
  pose proof (core_shape _ _ _ _ _ HC) as HS.
  split; [apply (own_transit _ _ _ _ HO)|].
  split; [apply (shape_nodup _ _ _ _ _ HS)|].
  split.
  { intros Hin. apply (own_root _ _ _ _ HO). set_solver +Hin. }
  split.
  { intros o' Ho'. rewrite (shape_open _ _ _ _ _ HS) in Ho'. injection Ho' as <-.
    apply (own_open_pool _ _ _ _ HO). }
  apply (own_fifo_pool _ _ _ _ HO).
Qed.

Lemma nodes_in_use_are_not_free_witness :
  (0 < demo_capacity < SIZE_MODULUS)
  /\ reachable demo_capacity demo_stream demo_eof
  /\ (4%nat ∈ prefetchQueue demo_eof demo_stream)
  /\ (4%nat ∉ globalRequestPool_ demo_eof).
Proof.
  assert (HB : 0 < demo_capacity < SIZE_MODULUS) by (by vm_compute).
  assert (Hin : 4%nat ∈ prefetchQueue demo_eof demo_stream).
  { apply (list_elem_of_lookup_2 _ 0%nat). vm_compute. reflexivity. }
  split; [done|]. split; [apply reachable_demo_eof|]. split; [exact Hin|].
  destruct (nodes_in_use_are_not_free demo_capacity demo_stream demo_eof HB
              reachable_demo_eof) as (_ & _ & _ & _ & Hfree).
  exact (Hfree 4%nat Hin).
Defined.

(** X6.  Whatever the operating system answers, a request handled by the
    server changes neither the state of the stream, nor its count of
    awaited blocks, nor its stored error, nor its prefetch queue. *)
Theorem server_keeps_stream_state (B : Z) (rq : nat) (os : OsOutcome) (w w' : World) :
  0 < B < SIZE_MODULUS ->
  reachable B rq w ->
  handleOneRequest B os w = Some w' ->
  state_ w' rq = state_ w rq
  /\ waitingForBlocksCount_ w' rq = waitingForBlocksCount_ w rq
  /\ getError rq w' = getError rq w
  /\ prefetchQueue w' rq = prefetchQueue w rq.
Proof.
  intros HB Hreach Hrun.
  destruct (reachable_Inv B HB rq w Hreach) as (o & l & HC & _).
  destruct (handleOneRequest_Core B rq o l os w w' HC Hrun) as (HC' & Hs & Hc & He).
  rewrite (Core_prefetchQueue B rq o l w HC), (Core_prefetchQueue B rq o l w' HC').
  done.
Qed.

Lemma server_keeps_stream_state_witness :
  (0 < demo_capacity < SIZE_MODULUS)
  /\ reachable demo_capacity demo_stream demo_reseeked
  /\ exists w' : World,
       handleOneRequest demo_capacity os_short_read demo_reseeked = Some w'
       /\ state_ w' demo_stream = state_ demo_reseeked demo_stream.
Proof.
  assert (HB : 0 < demo_capacity < SIZE_MODULUS) by (by vm_compute).
  assert (Hr : reachable demo_capacity demo_stream demo_reseeked).
  { eapply (reachable_seek _ 0 0 _ (demo_seeked 0)).
    - eapply (reachable_seek _ 0 0 _ demo_idle).
      + apply reachable_demo_idle.
      + unfold SIZE_MODULUS. lia.
      + vm_compute. reflexivity.
    - unfold SIZE_MODULUS. lia.
    - vm_compute. reflexivity. }
  split; [done|]. split; [exact Hr|].
  destruct (handleOneRequest demo_capacity os_short_read demo_reseeked) as [w'|] eqn:Hrun;
    [|by vm_compute in Hrun].
  exists w'. split; [reflexivity|].
  exact (proj1 (server_keeps_stream_state demo_capacity demo_stream os_short_read
                  demo_reseeked w' HB Hr Hrun)).
Defined.

(** X7.  The transitions of [pollState] in reachable states: an opening
    stream stays as it is, becomes idle or fails; any other stream keeps
    its state or becomes streaming, and it becomes streaming only with a
    prefetch queue that is not empty.  [pollState] returns the state it
    leaves. *)
Theorem pollState_transitions (B : Z) (rq : nat) (w : World) :
  0 < B < SIZE_MODULUS ->
  reachable B rq w ->
  fst (pollState rq w) = state_ (snd (pollState rq w)) rq
  /\ (state_ w rq = STREAM_STATE_OPENING ->
      fst (pollState rq w) = STREAM_STATE_OPENING
      \/ fst (pollState rq w) = STREAM_STATE_OPEN_IDLE
      \/ fst (pollState rq w) = STREAM_STATE_ERROR)
  /\ (state_ w rq ≠ STREAM_STATE_OPENING ->
      fst (pollState rq w) = state_ w rq
      \/ (fst (pollState rq w) = STREAM_STATE_OPEN_STREAMING
          /\ prefetchQueue (snd (pollState rq w)) rq ≠ [])).
Proof.
  intros HB Hreach.
  destruct (reachable_Inv B HB rq w Hreach) as (o & l & HC & _).
  destruct (pollState_Core B rq o l w HC) as (Hfst & HC' & Hop & Hnop).
  split; [done|]. rewrite Hfst. split.
  - intros Hst. destruct (Hop Hst) as [_ [->|[?|?]]]; [by left|by right; left|by right; right].
  - intros Hst. destruct (Hnop Hst) as (_ & [?|[? Hl]] & _); [by left|right].
    split; [done|]. by rewrite (Core_prefetchQueue B rq o l _ HC').
Qed.

Lemma pollState_transitions_witness :
  (0 < demo_capacity < SIZE_MODULUS)
  /\ reachable demo_capacity demo_stream demo_opened
  /\ state_ demo_opened demo_stream = STREAM_STATE_OPENING
  /\ fst (pollState demo_stream demo_opened) = STREAM_STATE_OPEN_IDLE
  /\ fst (pollState demo_stream demo_opened)
     = state_ (snd (pollState demo_stream demo_opened)) demo_stream.
Proof.
  assert (HB : 0 < demo_capacity < SIZE_MODULUS) by (by vm_compute).
  split; [done|]. split; [apply reachable_demo_opened|].
  split; [by vm_compute|]. split; [by vm_compute|].
  exact (proj1 (pollState_transitions demo_capacity demo_stream demo_opened HB
                  reachable_demo_opened)).
Defined.

(** ** The fuel of the copy loop *)


(** Taking the front block off the queue and flushing it writes to that
    block and to the root node only. *)
Lemma flush_front_frame (rq x y : nat) (w w1 : World) :
  prefetchQueueHead_ w rq = Some x ->
  prefetchQueue_pop_front rq w = Some w1 ->
  y ≠ x -> y ≠ rq ->
  req (flushBlock x rq w1) y = req w y.
Proof.
  intros Hhead Hpop Hx Hrq. unfold prefetchQueue_pop_front in Hpop.
  rewrite Hhead in Hpop. simpl in Hpop. injection Hpop as <-.
  unfold flushBlock. destruct (requestType _); req_norm;
    rewrite ?decide_False by done; done.
Qed.

(** When a block still has bytes after a copy, the copy was of as many
    bytes as were asked for. *)
Lemma copyBlockData_continue (x : nat) (m s : Z) (w w' : World) (N : Z)
    (out : list byte_cell) :
  copyBlockData x m s w = Some (CAN_CONTINUE, N, out, w') -> N = m.
Proof.
  unfold copyBlockData. intros H.
  destruct (dataBlock (req w x)) as [b|]; [|done]. simpl in H.
  destruct (dataBlocks w !! b) as [blk|]; [|done]. simpl in H.
  destruct (bool_decide (_ <= _)); [|done].
  set (rem := size_wrap (validCountBytes blk - clientInt (req w x))) in *.
  destruct (bool_decide (size_wrap (rem - Z.min rem m) = 0)) eqn:Hz.
  - by destruct (isAtEof _).
  - injection H as <- _ _. apply bool_decide_eq_false in Hz.
    destruct (Z.min_spec rem m) as [[_ Hmin]|[_ Hmin]]; [|done].
    exfalso. apply Hz. rewrite Hmin, Z.sub_diag. done.
Qed.

Section Fuel.

Variable IO_DATA_BLOCK_DATA_CAPACITY_BYTES : Z.
Local Abbreviation CAP := IO_DATA_BLOCK_DATA_CAPACITY_BYTES.
Local Abbreviation Core := (Core IO_DATA_BLOCK_DATA_CAPACITY_BYTES).

Lemma read_loop_done (fuel : nat) (itemSize itemCount total sofar : Z)
    (written : list byte_cell) (rq : nat) (w : World) :
  total <= sofar ->
  read_loop CAP fuel itemSize itemCount total sofar written rq w
  = Some (itemCount, written, w).
Proof.
  intros Hle. destruct fuel; simpl; rewrite bool_decide_eq_false_2 by lia; done.
Qed.





End Fuel.


(** ** The resources of a stream are kept by every step

    The lemmas named [..._Res] show, one primitive step at a time, that the
    invariant [Res] holds after the step if it held before. *)

(** *** The count of awaited replies *)

Lemma awaited_filter_ext (w w' : World) (M : list nat) :
  (forall x, x ∈ M -> requestType (req w' x) = requestType (req w x)) ->
  filter (fun x => requestType (req w' x) ≠ RELEASE_READ_BLOCK) M
  = filter (fun x => requestType (req w x) ≠ RELEASE_READ_BLOCK) M.
Proof.
  induction M as [|y M IH]; intros Hext; [done|].
  rewrite !filter_cons. rewrite (Hext y) by (by left).
  rewrite IH; [done|]. intros x Hx. apply Hext. by right.
Qed.

Lemma awaited_eq (w w' : World) (rq : nat) (k : Z) :
  (forall x, x ∈ serverMailboxQueue_ w ->
     requestType (req w' x) = requestType (req w x)) ->
  (exists E,
     serverMailboxQueue_ w' = serverMailboxQueue_ w ++ E
     /\ Z.of_nat
          (length (filter (fun x => requestType (req w' x) ≠ RELEASE_READ_BLOCK) E))
        + Z.of_nat (length (queued w' rq))
        = Z.of_nat (length (queued w rq)) + k) ->
  awaited w' rq = awaited w rq + k.
Proof.
  intros Hext (E & HM & Hlen). unfold awaited. rewrite HM, filter_app, length_app.
  rewrite (awaited_filter_ext w w') by done. lia.
Qed.

Lemma size_wrap_succ (z : Z) : size_wrap (size_wrap z + 1) = size_wrap (z + 1).
Proof. unfold size_wrap. by rewrite Zplus_mod_idemp_l. Qed.

Lemma size_wrap_pred (z : Z) : size_wrap (size_wrap z - 1) = size_wrap (z - 1).
Proof. unfold size_wrap. by rewrite Zminus_mod_idemp_l. Qed.

(** *** Frame lemmas *)

Section ResourceFrame.

Variable IO_DATA_BLOCK_DATA_CAPACITY_BYTES : Z.
Local Abbreviation CAP := IO_DATA_BLOCK_DATA_CAPACITY_BYTES.
Variable good_path : option nat -> OpenMode -> Prop.
Variable good_file : list Z -> Prop.
Variable good_block : Z -> bool -> DataBlock -> Prop.
Local Abbreviation Res := (Res good_path good_file good_block).

(** A step of the client that moves one block request [r], or changes
    what it is, and leaves the payload of every other node alone. *)
Lemma Res_move_le (rq o r : nat) (l l' : list nat) (w w' : World) :
  Res rq o l w ->
  o ≠ rq -> r ≠ rq -> r ≠ o ->
  rq ∉ in_use rq l w -> rq ∉ in_use rq l' w' ->
  dataBlocks w' = dataBlocks w ->
  (nextDataBlock w <= nextDataBlock w')%nat ->
  fileRecords w' = fileRecords w ->
  dom (requests w') = dom (requests w) ->
  (forall x, x ≠ r -> x ≠ rq ->
     same_payload (req w x) (req w' x)
     /\ requestType (req w' x) = requestType (req w x)
     /\ path (req w' x) = path (req w x)
     /\ openMode (req w' x) = openMode (req w x)) ->
  (forall x, x ≠ r ->
     (x ∈ l' <-> x ∈ l)
     /\ (x ∈ serverMailboxQueue_ w' <-> x ∈ serverMailboxQueue_ w)
     /\ (x ∈ queued w' rq <-> x ∈ queued w rq)
     /\ (x ∈ globalRequestPool_ w' <-> x ∈ globalRequestPool_ w)) ->
  rq_expectedResultCount (resultQueue (req w' rq)) = size_wrap (awaited w' rq) ->
  r ∈ owned rq o l' w' ->
  (r ∈ in_use rq l w /\ fileHandle (req w' r) = fileHandle (req w r)
   /\ dataBlock (req w' r) = dataBlock (req w r)
   /\ (dataBlock (req w r) ≠ None ->
       filePosition (req w' r) = filePosition (req w r)
       /\ isAtEof (req w' r) = isAtEof (req w r)
       /\ r ∈ in_use rq l' w')
   \/ (r ∉ in_use rq l w) /\ dataBlock (req w' r) = None
      /\ fileHandle (req w' r) = fileHandle (req w o)) ->
  (r ∈ serverMailboxQueue_ w' -> requestType (req w' r) = READ_BLOCK ->
   dataBlock (req w' r) = None) ->
  (r ∈ serverMailboxQueue_ w' -> requestType (req w' r) = RELEASE_READ_BLOCK ->
   dataBlock (req w' r) ≠ None) ->
  (r ∈ queued w' rq -> requestType (req w' r) = READ_BLOCK ->
   (resultStatus (req w' r) = NOERROR <-> dataBlock (req w' r) ≠ None)) ->
  (r ∈ l' -> requestType (req w' r) = BLOCK_STATE_READY -> dataBlock (req w' r) ≠ None) ->
  (r ∈ l' -> requestType (req w' r) = BLOCK_STATE_ERROR -> dataBlock (req w' r) = None) ->
  Res rq o l' w'.
Proof.
  intros HR Horq Hrrq Hro Hrq Hrq' HDB HND HFR Hdom Hpay Hmem Hexp Hown Hnode
    Hsent Hrel Hrep Hready Herr.
  destruct HR as [Rcover Rexp Rob Ros Rh Rsent Rrel Rrep Rready Rerr Rheld Rinj Rleak
                    Rfresh Rfiles].
  assert (Huse : forall x, x ≠ r -> (x ∈ in_use rq l' w' <-> x ∈ in_use rq l w)).
  { intros x Hx. destruct (Hmem x Hx) as (H1 & H2 & H3 & _).
    unfold in_use. rewrite !elem_of_app. tauto. }
  assert (Hne : forall x, x ∈ in_use rq l' w' -> x ≠ rq) by (intros x Hx ->; done).
  assert (Hne0 : forall x, x ∈ in_use rq l w -> x ≠ rq) by (intros x Hx ->; done).
  assert (Hpo : same_payload (req w o) (req w' o)
                /\ requestType (req w' o) = requestType (req w o)
                /\ path (req w' o) = path (req w o)
                /\ openMode (req w' o) = openMode (req w o)).
  { by apply Hpay. }
  constructor.
  - intros x Hx. rewrite Hdom in Hx. specialize (Rcover x Hx).
    destruct (decide (x = r)) as [->|Hxr]; [done|].
    destruct (Hmem x Hxr) as (H1 & H2 & H3 & H4).
    unfold owned in *. rewrite !elem_of_cons, !elem_of_app in *. tauto.
  - done.
  - destruct Hpo as ((_ & -> & _) & _). done.
  - intros Ho. destruct Hpo as ((-> & _) & _ & -> & ->).
    apply Ros. by apply (Hmem o).
  - intros x Hx. destruct Hpo as ((Hfo & _) & _). rewrite Hfo.
    destruct (decide (x = r)) as [->|Hxr].
    + destruct Hnode as [(Hin & -> & _)|(_ & _ & ->)]; [by apply Rh|done].
    + destruct (Hpay x Hxr (Hne x Hx)) as ((-> & _) & _). apply Rh. by apply Huse.
  - intros x Hx Hty. destruct (decide (x = r)) as [->|Hxr]; [by apply Hsent|].
    assert (Hxrq : x ≠ rq).
    { apply Hne. unfold in_use. rewrite !elem_of_app. tauto. }
    destruct (Hpay x Hxr Hxrq) as ((_ & -> & _) & Hty' & _).
    apply Rsent; [by apply (Hmem x)|congruence].
  - intros x Hx Hty. destruct (decide (x = r)) as [->|Hxr]; [by apply Hrel|].
    assert (Hxrq : x ≠ rq).
    { apply Hne. unfold in_use. rewrite !elem_of_app. tauto. }
    destruct (Hpay x Hxr Hxrq) as ((_ & -> & _) & Hty' & _).
    apply Rrel; [by apply (Hmem x)|congruence].
  - intros x Hx Hty. destruct (decide (x = r)) as [->|Hxr]; [by apply Hrep|].
    assert (Hxrq : x ≠ rq).
    { apply Hne. unfold in_use. rewrite !elem_of_app. tauto. }
    destruct (Hpay x Hxr Hxrq) as ((_ & -> & -> & _) & Hty' & _).
    apply Rrep; [by apply (Hmem x)|congruence].
  - intros x Hx Hty. destruct (decide (x = r)) as [->|Hxr]; [by apply Hready|].
    assert (Hxrq : x ≠ rq).
    { apply Hne. unfold in_use. rewrite !elem_of_app. tauto. }
    destruct (Hpay x Hxr Hxrq) as ((_ & -> & _) & Hty' & _).
    apply Rready; [by apply (Hmem x)|congruence].
  - intros x Hx Hty. destruct (decide (x = r)) as [->|Hxr]; [by apply Herr|].
    assert (Hxrq : x ≠ rq).
    { apply Hne. unfold in_use. rewrite !elem_of_app. tauto. }
    destruct (Hpay x Hxr Hxrq) as ((_ & -> & _) & Hty' & _).
    apply Rerr; [by apply (Hmem x)|congruence].
  - intros x d Hx Hd. rewrite HDB.
    destruct (decide (x = r)) as [->|Hxr].
    + destruct Hnode as [(Hin & _ & Hdb & Hkeep)|(_ & Hnone & _)]; [|congruence].
      destruct Hkeep as (-> & -> & _); [congruence|].
      apply Rheld; [done|congruence].
    + destruct (Hpay x Hxr (Hne x Hx)) as ((_ & Hdb & _ & -> & ->) & _).
      apply Rheld; [by apply Huse|congruence].
  - intros x y d Hx Hy Hdx Hdy.
    assert (Hold : forall z, z ∈ in_use rq l' w' -> dataBlock (req w' z) = Some d ->
                     z ∈ in_use rq l w /\ dataBlock (req w z) = Some d).
    { intros z Hz Hdz. destruct (decide (z = r)) as [->|Hzr].
      - destruct Hnode as [(Hin & _ & Hdb & _)|(_ & Hnone & _)]; [|congruence].
        split; [done|congruence].
      - destruct (Hpay z Hzr (Hne z Hz)) as ((_ & Hdb & _) & _).
        split; [by apply Huse|congruence]. }
    destruct (Hold x Hx Hdx) as [Hx0 Hdx0]. destruct (Hold y Hy Hdy) as [Hy0 Hdy0].
    by apply (Rinj x y d).
  - intros d Hd. rewrite HDB in Hd. destruct (Rleak d Hd) as (x & Hx & Hdx).
    exists x. destruct (decide (x = r)) as [->|Hxr].
    + destruct Hnode as [(Hin & _ & Hdb & Hkeep)|(Hnin & _)]; [|done].
      destruct Hkeep as (_ & _ & Hin'); [congruence|].
      split; [done|congruence].
    + destruct (Hpay x Hxr (Hne0 x Hx)) as ((_ & Hdb & _) & _).
      split; [by apply Huse|congruence].
  - intros d Hd. rewrite HDB in Hd. specialize (Rfresh d Hd). lia.
  - destruct Hpo as ((-> & _) & _). rewrite HFR, HDB. done.
Qed.

Lemma Res_move (rq o r : nat) (l l' : list nat) (w w' : World) :
  Res rq o l w ->
  o ≠ rq -> r ≠ rq -> r ≠ o ->
  rq ∉ in_use rq l w -> rq ∉ in_use rq l' w' ->
  dataBlocks w' = dataBlocks w ->
  nextDataBlock w' = nextDataBlock w ->
  fileRecords w' = fileRecords w ->
  dom (requests w') = dom (requests w) ->
  (forall x, x ≠ r -> x ≠ rq ->
     same_payload (req w x) (req w' x)
     /\ requestType (req w' x) = requestType (req w x)
     /\ path (req w' x) = path (req w x)
     /\ openMode (req w' x) = openMode (req w x)) ->
  (forall x, x ≠ r ->
     (x ∈ l' <-> x ∈ l)
     /\ (x ∈ serverMailboxQueue_ w' <-> x ∈ serverMailboxQueue_ w)
     /\ (x ∈ queued w' rq <-> x ∈ queued w rq)
     /\ (x ∈ globalRequestPool_ w' <-> x ∈ globalRequestPool_ w)) ->
  rq_expectedResultCount (resultQueue (req w' rq)) = size_wrap (awaited w' rq) ->
  r ∈ owned rq o l' w' ->
  (r ∈ in_use rq l w /\ same_payload (req w r) (req w' r)
   /\ (r ∈ in_use rq l' w' \/ dataBlock (req w r) = None)
   \/ (r ∉ in_use rq l w) /\ dataBlock (req w' r) = None
      /\ fileHandle (req w' r) = fileHandle (req w o)) ->
  (r ∈ serverMailboxQueue_ w' -> requestType (req w' r) = READ_BLOCK ->
   dataBlock (req w' r) = None) ->
  (r ∈ serverMailboxQueue_ w' -> requestType (req w' r) = RELEASE_READ_BLOCK ->
   dataBlock (req w' r) ≠ None) ->
  (r ∈ queued w' rq -> requestType (req w' r) = READ_BLOCK ->
   (resultStatus (req w' r) = NOERROR <-> dataBlock (req w' r) ≠ None)) ->
  (r ∈ l' -> requestType (req w' r) = BLOCK_STATE_READY -> dataBlock (req w' r) ≠ None) ->
  (r ∈ l' -> requestType (req w' r) = BLOCK_STATE_ERROR -> dataBlock (req w' r) = None) ->
  Res rq o l' w'.
Proof.
  intros HR Horq Hrrq Hro Hrq Hrq' HDB HND HFR Hdom Hpay Hmem Hexp Hown Hnode.
  apply (Res_move_le rq o r l l' w w'); try done; [by rewrite HND|].
  destruct Hnode as [(Hin & (Hf & Hd & _ & Hp & He) & Hkeep)|?]; [left|by right].
  split; [done|]. split; [done|]. split; [done|].
  intros Hsome. split; [done|]. split; [done|]. by destruct Hkeep.
Qed.

End ResourceFrame.

(** *** The steps of the client *)

Lemma Core_root_free (B : Z) (rq o : nat) (l : list nat) (w : World) :
  Core B rq o l w -> rq ∉ in_use rq l w.
Proof.
  intros HC. open_core HC. unfold in_use. rewrite elem_of_app.
  intros [H|H]; [done|]. apply own_root0. rewrite elem_of_app. by right.
Qed.

Lemma rq_pop_count (Q : result_queue_t) (r : nat) (q : result_queue_t) :
  rq_pop Q = Some (r, q) ->
  rq_expectedResultCount q = size_wrap (rq_expectedResultCount Q - 1).
Proof.
  unfold rq_pop. destruct (rq_nodes Q); [done|]. by intros [= _ <-].
Qed.

(** Substitution of the addresses that a case analysis has identified. *)
Ltac nsubst :=
  repeat match goal with
         | H : @eq nat ?a ?b |- _ => first [subst b | subst a]
         end.

Ltac mem_solve :=
  repeat match goal with
         | H : _ ∈ _ ++ _ |- _ => apply elem_of_app in H
         | H : _ ∈ _ :: _ |- _ => apply elem_of_cons in H
         | H : _ ∈ [] |- _ => by apply elem_of_nil in H
         | H : _ \/ _ |- _ => destruct H
         | H : _ /\ _ |- _ => destruct H
         end;
  subst; try done;
  rewrite ?elem_of_app, ?elem_of_cons; tauto.

Section ClientResources.

Variable IO_DATA_BLOCK_DATA_CAPACITY_BYTES : Z.
Local Abbreviation CAP := IO_DATA_BLOCK_DATA_CAPACITY_BYTES.
Variable good_path : option nat -> OpenMode -> Prop.
Variable good_file : list Z -> Prop.
Variable good_block : Z -> bool -> DataBlock -> Prop.
Local Abbreviation Res := (Res good_path good_file good_block).
Local Abbreviation Core := (Core IO_DATA_BLOCK_DATA_CAPACITY_BYTES).

Lemma receiveOneBlock_Res (rq o : nat) (l : list nat) (w : World) :
  Core rq o l w ->
  Res rq o l w ->
  state_ w rq ≠ STREAM_STATE_OPENING ->
  Res rq o l (snd (receiveOneBlock rq w)).
Proof.
  intros HC HR Hst.
  destruct (receiveOneBlock_Core CAP rq o l w HC Hst) as (HC' & _).
  pose proof (Core_root_free _ _ _ _ _ HC) as Hfree.
  pose proof (Core_root_free _ _ _ _ _ HC') as Hfree'.
  destruct (queued w rq) as [|r rest] eqn:HQ.
  { by rewrite receiveOneBlock_none. }
  destruct (front_reply CAP rq o r rest l w HC Hst HQ)
    as (Hrrq & Hro & Hty & Hrp & Hrm & Hrr & Hdis & Hlive).
  assert (Hpop : rq_pop (resultQueue (req w rq))
                 = Some (r, ResultQueue rest
                              (size_wrap (rq_expectedResultCount (resultQueue (req w rq)) - 1)))).
  { unfold rq_pop. unfold queued in HQ. by rewrite HQ. }
  revert HC' Hfree'. rewrite (receiveOneBlock_eq rq r _ w Hpop Hrrq). simpl.
  set (q := ResultQueue rest _).
  pose proof (shape_open_ne _ _ _ _ _ (core_shape _ _ _ _ _ HC)) as Horq.
  pose proof (res_reply _ _ _ _ _ _ _ HR r) as Hrep.
  rewrite HQ in Hrep. specialize (Hrep ltac:(by left) Hty).
  pose proof (res_expected _ _ _ _ _ _ _ HR) as Hexp.
  assert (Hdr : r ∈ dom (requests w) /\ rq ∈ dom (requests w)).
  { split; apply (core_dom _ _ _ _ _ HC); unfold owned; rewrite HQ; set_solver +. }
  destruct Hdr as [Hdr Hdrq].
  assert (Hin : r ∈ in_use rq l w).
  { unfold in_use. rewrite HQ. set_solver +. }
  destruct (isDiscarded (req w r)) eqn:Hd.
  - specialize (Hdis eq_refl).
    destruct (bool_decide (resultStatus (req w r) = NOERROR)) eqn:Hok;
      [apply bool_decide_eq_true in Hok|apply bool_decide_eq_false in Hok];
      intros HC' Hfree';
      match goal with |- Res _ _ _ ?W => set (w' := W) in * end.
    + (* a discarded block that was read: released *)
      assert (Hreq : forall y, req w' y =
                if decide (r = y) then transformToReleaseUnmodified (req w r)
                else if decide (rq = y) then set_resultQueue q (req w rq)
                     else req w y).
      { intros y. unfold w'. req_norm. goal_decide; nsubst; done. }
      assert (HQ' : queued w' rq = rest).
      { unfold queued. rewrite Hreq. goal_decide; nsubst; done. }
      apply (Res_move _ _ _ rq o r l l w w'); try done.
      * unfold w'. dom_eq.
      * intros x Hxr Hxrq. rewrite Hreq. goal_decide; nsubst; done.
      * intros x Hxr. rewrite HQ'.
        change (serverMailboxQueue_ w') with (serverMailboxQueue_ w ++ [r]).
        change (globalRequestPool_ w') with (globalRequestPool_ w).
        rewrite HQ. set_solver.
      * rewrite Hreq. goal_decide; nsubst; [done| |done]. simpl.
        rewrite Hexp, size_wrap_pred. f_equal.
        rewrite (awaited_eq w w' rq (-1)); [done| |].
        -- intros x Hx. rewrite Hreq. goal_decide; nsubst; done.
        -- exists [r]. split; [done|]. rewrite HQ', HQ.
           rewrite filter_cons, decide_False, filter_nil; [simpl length; lia|].
           rewrite Hreq, decide_True by done. simpl. intros ?. done.
      * unfold owned. change (serverMailboxQueue_ w') with (serverMailboxQueue_ w ++ [r]).
        set_solver +.
      * left. split; [done|]. split.
        -- rewrite Hreq, decide_True by done. done.
        -- left. unfold in_use.
           change (serverMailboxQueue_ w') with (serverMailboxQueue_ w ++ [r]).
           set_solver +.
      * intros _. rewrite Hreq, decide_True by done. done.
      * intros _ _. rewrite Hreq, decide_True by done. simpl. by apply Hrep.
      * rewrite HQ'. done.
    + (* a discarded block that failed: freed *)
      assert (Hreq : forall y, req w' y =
                if decide (rq = y) then set_resultQueue q (req w rq) else req w y).
      { intros y. unfold w'. req_norm. goal_decide; nsubst; done. }
      assert (HQ' : queued w' rq = rest).
      { unfold queued. rewrite Hreq. goal_decide; nsubst; done. }
      assert (Hnone : dataBlock (req w r) = None).
      { destruct (dataBlock (req w r)) eqn:Hb; [|done].
        exfalso. apply Hok. by apply Hrep. }
      apply (Res_move _ _ _ rq o r l l w w'); try done.
      * unfold w'. dom_eq.
      * intros x Hxr Hxrq. rewrite Hreq. goal_decide; nsubst; done.
      * intros x Hxr. rewrite HQ'.
        change (serverMailboxQueue_ w') with (serverMailboxQueue_ w).
        change (globalRequestPool_ w') with (r :: globalRequestPool_ w).
        rewrite HQ. set_solver.
      * rewrite Hreq. goal_decide; nsubst; [|done]. simpl.
        rewrite Hexp, size_wrap_pred. f_equal.
        rewrite (awaited_eq w w' rq (-1)); [done| |].
        -- intros x Hx. rewrite Hreq. goal_decide; nsubst; [|done].
           exfalso. apply Hfree. unfold in_use. set_solver.
        -- exists []. split; [by rewrite app_nil_r|]. rewrite HQ', HQ.
           rewrite filter_nil. simpl length. lia.
      * unfold owned. change (globalRequestPool_ w') with (r :: globalRequestPool_ w).
        set_solver +.
      * left. split; [done|]. split; [|by right].
        rewrite Hreq, decide_False by done. done.
      * rewrite HQ'. done.
  - specialize (Hlive eq_refl). intros HC' Hfree'.
    match goal with |- Res _ _ _ ?W => set (w' := W) in * end.
    set (st := if bool_decide (resultStatus (req w r) = NOERROR)
               then BLOCK_STATE_READY else BLOCK_STATE_ERROR) in *.
    assert (Hreq : forall y,
              y ≠ rq ->
              req w' y = if decide (r = y) then set_requestType st (req w r) else req w y).
    { intros y Hy. unfold w'.
      destruct (bool_decide (size_wrap (clientInt (req w rq) - 1) = 0));
        unfold set_state_; req_norm; goal_decide; nsubst; done. }
    assert (Hrq' : resultQueue (req w' rq) = q).
    { unfold w'.
      destruct (bool_decide (size_wrap (clientInt (req w rq) - 1) = 0));
        unfold set_state_; req_norm; goal_decide; nsubst; done. }
    assert (HQ' : queued w' rq = rest) by (unfold queued; by rewrite Hrq').
    assert (HM' : serverMailboxQueue_ w' = serverMailboxQueue_ w).
    { unfold w'. by destruct (bool_decide (size_wrap (clientInt (req w rq) - 1) = 0)). }
    assert (HP' : globalRequestPool_ w' = globalRequestPool_ w).
    { unfold w'. by destruct (bool_decide (size_wrap (clientInt (req w rq) - 1) = 0)). }
    apply (Res_move _ _ _ rq o r l l w w'); try done.
    + unfold w'. by destruct (bool_decide (size_wrap (clientInt (req w rq) - 1) = 0)).
    + unfold w'. by destruct (bool_decide (size_wrap (clientInt (req w rq) - 1) = 0)).
    + unfold w'. by destruct (bool_decide (size_wrap (clientInt (req w rq) - 1) = 0)).
    + unfold w'. destruct (bool_decide (size_wrap (clientInt (req w rq) - 1) = 0)); dom_eq.
    + intros x Hxr Hxrq. rewrite Hreq by done. goal_decide; nsubst; done.
    + intros x Hxr. rewrite HQ', HM', HP', HQ. set_solver.
    + rewrite Hrq'. simpl. rewrite Hexp, size_wrap_pred. f_equal.
      rewrite (awaited_eq w w' rq (-1)); [done| |].
      * intros x Hx. rewrite Hreq; [goal_decide; nsubst; done|].
        intros ->. apply Hfree. unfold in_use. set_solver.
      * exists []. split; [by rewrite HM', app_nil_r|]. rewrite HQ', HQ.
        rewrite filter_nil. simpl length. lia.
    + unfold owned. set_solver +Hlive.
    + left. split; [done|]. split.
      * rewrite Hreq, decide_True by done. done.
      * left. unfold in_use. set_solver +Hlive.
    + rewrite HM'. done.
    + rewrite HM'. done.
    + rewrite HQ'. done.
    + intros _. rewrite Hreq, decide_True by done. simpl. unfold st.
      destruct (bool_decide (resultStatus (req w r) = NOERROR)) eqn:Hok; [|done].
      intros _. apply Hrep. by apply bool_decide_eq_true in Hok.
    + intros _. rewrite Hreq, decide_True by done. simpl. unfold st.
      destruct (bool_decide (resultStatus (req w r) = NOERROR)) eqn:Hok; [done|].
      intros _. apply bool_decide_eq_false in Hok.
      destruct (dataBlock (req w r)) eqn:Hb; [|done].
      exfalso. apply Hok. by apply Hrep.
Qed.

(** A step that moves no node and leaves every payload alone. *)
Lemma Res_frame (rq o : nat) (l : list nat) (w w' : World) :
  Res rq o l w ->
  o ≠ rq ->
  rq ∉ in_use rq l w ->
  dataBlocks w' = dataBlocks w ->
  nextDataBlock w' = nextDataBlock w ->
  fileRecords w' = fileRecords w ->
  dom (requests w') = dom (requests w) ->
  (forall x, x ≠ rq ->
     same_payload (req w x) (req w' x)
     /\ requestType (req w' x) = requestType (req w x)
     /\ path (req w' x) = path (req w x)
     /\ openMode (req w' x) = openMode (req w x)) ->
  globalRequestPool_ w' = globalRequestPool_ w ->
  serverMailboxQueue_ w' = serverMailboxQueue_ w ->
  resultQueue (req w' rq) = resultQueue (req w rq) ->
  Res rq o l w'.
Proof.
  intros HR Horq Hrq HDB HND HFR Hdom Hpay HP HM HRQ.
  assert (HQ : queued w' rq = queued w rq) by (unfold queued; by rewrite HRQ).
  assert (Huse : in_use rq l w' = in_use rq l w) by (unfold in_use; by rewrite HM, HQ).
  assert (Hne : forall x, x ∈ in_use rq l w -> x ≠ rq) by (intros x Hx ->; done).
  destruct HR as [Rcover Rexp Rob Ros Rh Rsent Rrel Rrep Rready Rerr Rheld Rinj Rleak
                    Rfresh Rfiles].
  destruct (Hpay o Horq) as ((Hfo & Hbo & _) & _ & Hpo & Hmo).
  constructor; rewrite ?Huse, ?HM, ?HQ, ?HDB, ?HND, ?HFR, ?Hfo; try done.
  - intros x Hx. rewrite Hdom in Hx. specialize (Rcover x Hx).
    unfold owned in *. by rewrite HP, HM, HQ.
  - rewrite HRQ, Rexp. f_equal. unfold awaited. rewrite HM, HQ.
    rewrite (awaited_filter_ext w w'); [done|].
    intros x Hx. apply Hpay. apply Hne. unfold in_use. set_solver.
  - congruence.
  - rewrite Hpo, Hmo. done.
  - intros x Hx. destruct (Hpay x (Hne x Hx)) as ((-> & _) & _). by apply Rh.
  - intros x Hx. assert (Hxrq : x ≠ rq) by (apply Hne; unfold in_use; set_solver).
    destruct (Hpay x Hxrq) as ((_ & -> & _) & -> & _). by apply Rsent.
  - intros x Hx. assert (Hxrq : x ≠ rq) by (apply Hne; unfold in_use; set_solver).
    destruct (Hpay x Hxrq) as ((_ & -> & _) & -> & _). by apply Rrel.
  - intros x Hx. assert (Hxrq : x ≠ rq) by (apply Hne; unfold in_use; set_solver).
    destruct (Hpay x Hxrq) as ((_ & -> & -> & _) & -> & _). by apply Rrep.
  - intros x Hx. assert (Hxrq : x ≠ rq) by (apply Hne; unfold in_use; set_solver).
    destruct (Hpay x Hxrq) as ((_ & -> & _) & -> & _). by apply Rready.
  - intros x Hx. assert (Hxrq : x ≠ rq) by (apply Hne; unfold in_use; set_solver).
    destruct (Hpay x Hxrq) as ((_ & -> & _) & -> & _). by apply Rerr.
  - intros x d Hx. destruct (Hpay x (Hne x Hx)) as ((_ & -> & _ & -> & ->) & _).
    by apply Rheld.
  - intros x y d Hx Hy.
    destruct (Hpay x (Hne x Hx)) as ((_ & -> & _) & _).
    destruct (Hpay y (Hne y Hy)) as ((_ & -> & _) & _). by apply Rinj.
  - intros d Hd. destruct (Rleak d Hd) as (x & Hx & Hdx). exists x. split; [done|].
    destruct (Hpay x (Hne x Hx)) as ((_ & -> & _) & _). done.
Qed.

(** The front block leaves the prefetch queue. *)
Lemma flush_front_Res (rq o x : nat) (l : list nat) (w w1 : World) :
  Core rq o (x :: l) w ->
  Res rq o (x :: l) w ->
  prefetchQueue_pop_front rq w = Some w1 ->
  Res rq o l (flushBlock x rq w1).
Proof.
  intros HC HR Hpop.
  destruct (flush_front_Core CAP rq o x l w HC) as (w1' & Hpop' & HC' & _).
  rewrite Hpop in Hpop'. injection Hpop' as <-.
  pose proof (Core_root_free _ _ _ _ _ HC) as Hfree.
  pose proof (Core_root_free _ _ _ _ _ HC') as Hfree'.
  pose proof HC as HC0. open_core HC.
  simpl in shape_lseg0. destruct shape_lseg0 as [Hhead Hseg].
  apply NoDup_cons in shape_nodup0 as [Hxl Hnd].
  apply not_elem_of_cons in shape_root0 as [Hrqx Hrql].
  apply not_elem_of_cons in shape_open_fifo0 as [Hox Hol].
  unfold prefetchQueue_pop_front in Hpop. rewrite Hhead in Hpop. simpl in Hpop.
  injection Hpop as Hw1.
  assert (Hreq1 : forall y, req w1 y =
            if decide (x = y) then set_links_client None (req w x)
            else if decide (rq = y)
                 then set_links_client (links_client (req w x)) (req w rq)
                 else req w y).
  { intros y. rewrite <- Hw1. rewrite !req_upd_req. goal_decide; nsubst; done. }
  assert (Hdomx : x ∈ dom (requests w) /\ rq ∈ dom (requests w)).
  { split; apply HD; unfold owned; set_solver +. }
  destruct Hdomx as [Hdx Hdr].
  assert (Hdom1 : dom (requests w1) = dom (requests w)) by (rewrite <- Hw1; dom_eq).
  assert (Hdx1 : x ∈ dom (requests w1)) by (by rewrite Hdom1).
  assert (Hdr1 : rq ∈ dom (requests w1)) by (by rewrite Hdom1).
  assert (Hin : x ∈ in_use rq (x :: l) w) by (unfold in_use; set_solver +).
  assert (Hw1p : globalRequestPool_ w1 = globalRequestPool_ w
                 /\ serverMailboxQueue_ w1 = serverMailboxQueue_ w
                 /\ dataBlocks w1 = dataBlocks w /\ nextDataBlock w1 = nextDataBlock w
                 /\ fileRecords w1 = fileRecords w) by (by rewrite <- Hw1).
  destruct Hw1p as (HP1 & HM1 & HDB1 & HND1 & HFR1).
  pose proof (res_expected _ _ _ _ _ _ _ HR) as Hexp.
  unfold BLOCK_STATE_PENDING in *.
  revert HC' Hfree'.
  destruct (own_fifo0 x) as [(Hty & Hnd' & Hfl)|(Hty & Hnfl)]; [by left| |].
  - (* pending: the block stays in flight, discarded *)
    unfold flushBlock. rewrite Hreq1, decide_True by done.
    change (requestType (set_links_client None (req w x))) with (requestType (req w x)).
    rewrite Hty. intros HC' Hfree'.
    match goal with |- Res _ _ _ ?W => set (w' := W) in * end.
    assert (Hreq : forall y, req w' y =
              if decide (x = y) then setDiscarded (set_links_client None (req w x))
              else if decide (rq = y)
                   then set_clientInt (size_wrap (clientInt (req w rq) - 1))
                          (set_links_client (links_client (req w x)) (req w rq))
                   else req w y).
    { intros y. unfold w'. rewrite !req_upd_req, !Hreq1.
      goal_decide; nsubst; done. }
    assert (HQ : queued w' rq = queued w rq).
    { unfold queued. rewrite Hreq. goal_decide; nsubst; done. }
    apply (Res_move _ _ _ rq o x (x :: l) l w w'); try done.
    + unfold w'. rewrite <- Hdom1. dom_eq.
    + intros y Hyx Hyrq. rewrite Hreq. goal_decide; nsubst; done.
    + intros y Hyx. rewrite HQ. change (serverMailboxQueue_ w') with (serverMailboxQueue_ w1).
      change (globalRequestPool_ w') with (globalRequestPool_ w1). rewrite HP1, HM1.
      set_solver.
    + rewrite Hreq. goal_decide; nsubst; [done| |done]. simpl. rewrite Hexp. f_equal.
      rewrite (awaited_eq w w' rq 0); [lia| |].
      * intros y Hy. rewrite Hreq. goal_decide; nsubst; try done;
          exfalso; apply Hfree; unfold in_use; set_solver.
      * exists []. rewrite app_nil_r, HQ. split; [done|]. rewrite filter_nil. simpl. lia.
    + unfold owned. rewrite HQ. change (serverMailboxQueue_ w') with (serverMailboxQueue_ w1).
      rewrite HM1. set_solver +Hfl.
    + left. split; [done|]. split.
      * rewrite Hreq, decide_True by done. done.
      * left. unfold in_use. rewrite HQ.
        change (serverMailboxQueue_ w') with (serverMailboxQueue_ w1). rewrite HM1.
        set_solver +Hfl.
    + change (serverMailboxQueue_ w') with (serverMailboxQueue_ w1). rewrite HM1.
      intros Hx _. rewrite Hreq, decide_True by done. simpl.
      by apply (res_sent _ _ _ _ _ _ _ HR).
    + intros _. rewrite Hreq, decide_True by done. simpl. congruence.
    + rewrite HQ. intros Hx _. rewrite Hreq, decide_True by done. simpl.
      by apply (res_reply _ _ _ _ _ _ _ HR).
  - (* ready or in error: the block is not in flight *)
    assert (Hxm : (x ∉ serverMailboxQueue_ w) /\ (x ∉ queued w rq)).
    { split; intros ?; apply Hnfl; set_solver. }
    destruct Hxm as [Hxm Hxq].
    destruct Hty as [Hty|Hty].
    + unfold flushBlock. rewrite Hreq1, decide_True by done.
      change (requestType (set_links_client None (req w x))) with (requestType (req w x)).
      rewrite Hty. intros HC' Hfree'.
      match goal with |- Res _ _ _ ?W => set (w' := W) in * end.
      assert (Hreq : forall y, req w' y =
                if decide (x = y)
                then transformToReleaseUnmodified (set_links_client None (req w x))
                else if decide (rq = y)
                     then set_links_client (links_client (req w x)) (req w rq)
                     else req w y).
      { intros y. unfold w'. req_norm. rewrite !Hreq1. goal_decide; nsubst; done. }
      assert (HQ : queued w' rq = queued w rq).
      { unfold queued. rewrite Hreq. goal_decide; nsubst; done. }
      assert (HM : serverMailboxQueue_ w' = serverMailboxQueue_ w ++ [x]).
      { unfold w'. simpl. by rewrite HM1. }
      apply (Res_move _ _ _ rq o x (x :: l) l w w'); try done.
      * unfold w'. rewrite <- Hdom1. dom_eq.
      * intros y Hyx Hyrq. rewrite Hreq. goal_decide; nsubst; done.
      * intros y Hyx. rewrite HQ, HM.
        change (globalRequestPool_ w') with (globalRequestPool_ w1). rewrite HP1.
        set_solver.
      * rewrite Hreq. goal_decide; nsubst; [done| |done]. simpl. rewrite Hexp. f_equal.
        rewrite (awaited_eq w w' rq 0); [lia| |].
        -- intros y Hy. rewrite Hreq. goal_decide; nsubst; try done;
             exfalso; apply Hfree; unfold in_use; set_solver.
        -- exists [x]. rewrite HQ. split; [done|].
           rewrite filter_cons, decide_False, filter_nil; [simpl length; lia|].
           rewrite Hreq, decide_True by done. simpl. intros ?. done.
      * unfold owned. rewrite HM. set_solver +.
      * left. split; [done|]. split.
        -- rewrite Hreq, decide_True by done. done.
        -- left. unfold in_use. rewrite HM. set_solver +.
      * intros _. rewrite Hreq, decide_True by done. done.
      * intros _ _. rewrite Hreq, decide_True by done. simpl.
        apply (res_ready _ _ _ _ _ _ _ HR); [by left|done].
      * rewrite HQ. done.
    + unfold flushBlock. rewrite Hreq1, decide_True by done.
      change (requestType (set_links_client None (req w x))) with (requestType (req w x)).
      rewrite Hty. intros HC' Hfree'.
      match goal with |- Res _ _ _ ?W => set (w' := W) in * end.
      assert (Hreq : forall y, req w' y = req w1 y) by done.
      assert (HQ : queued w' rq = queued w rq).
      { unfold queued. rewrite Hreq, Hreq1. goal_decide; nsubst; done. }
      assert (HM : serverMailboxQueue_ w' = serverMailboxQueue_ w).
      { unfold w'. simpl. by rewrite HM1. }
      assert (HP : globalRequestPool_ w' = x :: globalRequestPool_ w).
      { unfold w'. simpl. by rewrite HP1. }
      apply (Res_move _ _ _ rq o x (x :: l) l w w'); try done.
      * intros y Hyx Hyrq. rewrite Hreq, Hreq1. goal_decide; nsubst; done.
      * intros y Hyx. rewrite HQ, HM, HP. set_solver.
      * rewrite Hreq, Hreq1. goal_decide; nsubst; [done| |done]. simpl.
        rewrite Hexp. f_equal.
        rewrite (awaited_eq w w' rq 0); [lia| |].
        -- intros y Hy. rewrite Hreq, Hreq1. goal_decide; nsubst; try done;
             exfalso; apply Hfree; unfold in_use; set_solver.
        -- exists []. rewrite app_nil_r, HQ. split; [done|]. rewrite filter_nil.
           simpl. lia.
      * unfold owned. rewrite HP. set_solver +.
      * left. split; [done|]. split.
        -- rewrite Hreq, Hreq1, decide_True by done. done.
        -- right. apply (res_error _ _ _ _ _ _ _ HR); [by left|done].
      * rewrite HM. done.
      * rewrite HM. done.
      * rewrite HQ. done.
Qed.

End ClientResources.

(** *** [flushPrefetchQueue] and [seek] *)

Lemma Core_unique (B : Z) (rq o : nat) (l1 l2 : list nat) (w : World) :
  Core B rq o l1 w -> Core B rq o l2 w -> l1 = l2.
Proof.
  intros H1 H2. rewrite <- (Core_prefetchQueue B rq o l1 w H1).
  by apply (Core_prefetchQueue B rq o l2 w).
Qed.

(** The fields [initLinkAndSendSequentialBlockRequest] leaves alone, and
    the count of expected results. *)
Lemma initLinkAndSend_heap (B : Z) (p rq : nat) (w w' : World) :
  initLinkAndSendSequentialBlockRequest B p rq w = Some w' ->
  dataBlocks w' = dataBlocks w /\ nextDataBlock w' = nextDataBlock w
  /\ fileRecords w' = fileRecords w
  /\ resultQueue (req w' rq) = rq_incrementExpectedResultCount (resultQueue (req w rq)).
Proof.
  unfold initLinkAndSendSequentialBlockRequest, prefetchQueue_push_back.
  intros Hrun.
  destruct (openFileReq w rq) as [o|]; simpl in Hrun; [|done].
  destruct (links_client (req w o)) as [t|]; simpl in Hrun; [|done].
  match type of Hrun with
  | context [openFileReq ?W rq] =>
      destruct (openFileReq W rq) as [o'|]; simpl in Hrun; [|done]
  end.
  match type of Hrun with
  | context [links_client ?N] =>
      destruct (links_client N) as [t'|]; simpl in Hrun; [|done]
  end.
  injection Hrun as <-.
  repeat split. unfold sendBlockRequestToServer. req_norm.
  goal_decide; nsubst; done.
Qed.

Section SeekResources.

Variable IO_DATA_BLOCK_DATA_CAPACITY_BYTES : Z.
Local Abbreviation CAP := IO_DATA_BLOCK_DATA_CAPACITY_BYTES.
Variable good_path : option nat -> OpenMode -> Prop.
Variable good_file : list Z -> Prop.
Variable good_block : Z -> bool -> DataBlock -> Prop.
Local Abbreviation Res := (Res good_path good_file good_block).
Local Abbreviation Core := (Core IO_DATA_BLOCK_DATA_CAPACITY_BYTES).

Lemma set_state_Res (st : RequestType) (rq o : nat) (l : list nat) (w : World) :
  Core rq o l w ->
  Res rq o l w ->
  Res rq o l (set_state_ st rq w).
Proof.
  intros HC HR.
  pose proof (Core_dom_root _ _ _ _ _ HC) as [Hdr Hdo].
  apply (Res_frame _ _ _ rq o l w); try done.
  - apply (shape_open_ne _ _ _ _ _ (core_shape _ _ _ _ _ HC)).
  - by eapply Core_root_free.
  - unfold set_state_. dom_eq.
  - intros x Hx. rewrite req_set_state_, decide_False by done. done.
  - rewrite req_set_state_, decide_True by done. done.
Qed.

Lemma flushPrefetchQueue_loop_Res (rq o : nat) (l : list nat) :
  forall (fuel : nat) (w w' : World),
    Core rq o l w ->
    Res rq o l w ->
    flushPrefetchQueue_loop fuel rq w = Some w' ->
    Res rq o [] w'.
Proof.
  induction l as [|x l IH]; intros fuel w w' HC HR Hrun.
  - destruct fuel; simpl in Hrun; rewrite (Core_head _ _ _ _ _ HC) in Hrun;
      simpl in Hrun; by injection Hrun as <-.
  - destruct fuel as [|fuel]; simpl in Hrun; rewrite (Core_head _ _ _ _ _ HC) in Hrun;
      simpl in Hrun; [done|].
    destruct (flush_front_Core _ rq o x l w HC) as (w1 & Hpop & HC1 & _).
    rewrite Hpop in Hrun. simpl in Hrun.
    apply (IH fuel (flushBlock x rq w1) w'); [done| |done].
    by apply (flush_front_Res CAP _ _ _ rq o x l w w1).
Qed.

Lemma flushPrefetchQueue_Res (rq o : nat) (l : list nat) (w w' : World) :
  Core rq o l w ->
  Res rq o l w ->
  state_ w rq ≠ STREAM_STATE_OPENING ->
  flushPrefetchQueue rq w = Some w' ->
  Res rq o [] w'.
Proof.
  intros HC HR Hst Hrun. unfold flushPrefetchQueue in Hrun.
  destruct (flushPrefetchQueue_loop_Core _ rq o l (size (requests w)) w HC)
    as (w1 & Hloop & HC1 & Hs1 & Hq1 & Hd1); [by eapply Core_fifo_size|].
  rewrite Hloop in Hrun. simpl in Hrun.
  pose proof (flushPrefetchQueue_loop_Res rq o l _ w w1 HC HR Hloop) as HR1.
  assert (Ho : openFileReq w1 rq = Some o)
    by (apply (shape_open _ _ _ _ _ (core_shape _ _ _ _ _ HC1))).
  rewrite Ho in Hrun. simpl in Hrun. injection Hrun as <-.
  pose proof (Core_dom_root _ _ _ _ _ HC1) as [Hdr Hdo].
  pose proof (shape_open_ne _ _ _ _ _ (core_shape _ _ _ _ _ HC1)) as Horq.
  apply (Res_frame _ _ _ rq o [] w1); try done.
  - by eapply Core_root_free.
  - dom_eq.
  - intros x Hx. rewrite req_upd_req. goal_decide; nsubst; done.
  - rewrite req_upd_req, decide_False by done. done.
Qed.

(** A block request is taken from the pool, linked at the back of the
    queue and sent. *)
Lemma link_block_Res (rq o p : nat) (P l : list nat) (w w' : World) :
  Core rq o l w ->
  Res rq o l w ->
  Core rq o (l ++ [p]) w' ->
  globalRequestPool_ w = p :: P ->
  globalRequestPool_ w' = P ->
  serverMailboxQueue_ w' = serverMailboxQueue_ w ++ [p] ->
  queued w' rq = queued w rq ->
  dom (requests w') = dom (requests w) ->
  dataBlocks w' = dataBlocks w ->
  nextDataBlock w' = nextDataBlock w ->
  fileRecords w' = fileRecords w ->
  rq_expectedResultCount (resultQueue (req w' rq))
  = size_wrap (rq_expectedResultCount (resultQueue (req w rq)) + 1) ->
  requestType (req w' p) = READ_BLOCK ->
  dataBlock (req w' p) = None ->
  fileHandle (req w' p) = fileHandle (req w o) ->
  (forall y, y ≠ rq -> y ≠ p -> exists c, req w' y = set_links_client c (req w y)) ->
  Res rq o (l ++ [p]) w'.
Proof.
  intros HC HR HC' Hpool HP HM HQ Hdom HDB HND HFR Hcount Hty Hnone Hfh Hframe.
  pose proof (Core_root_free _ _ _ _ _ HC) as Hfree.
  pose proof (Core_root_free _ _ _ _ _ HC') as Hfree'.
  pose proof (shape_open_ne _ _ _ _ _ (core_shape _ _ _ _ _ HC)) as Horq.
  pose proof HC as HC0. open_core HC.
  assert (Hpp : p ∈ globalRequestPool_ w) by (rewrite Hpool; by left).
  assert (Hprq : p ≠ rq).
  { intros ->. apply own_root0. set_solver +Hpp. }
  assert (Hpo : p ≠ o) by (intros ->; done).
  apply transit_facts in own_transit0 as (HndP & _ & _ & HPM & HPQ & _).
  assert (Hpin : p ∉ in_use rq l w).
  { unfold in_use. rewrite !elem_of_app. intros [H|[H|H]].
    - by apply (own_fifo_pool0 p).
    - by apply (HPM p).
    - by apply (HPQ p). }
  rewrite Hpool in HndP. apply NoDup_cons in HndP as [HpP _].
  apply (Res_move _ _ _ rq o p l (l ++ [p]) w w'); try done.
  - intros y Hyp Hyrq. destruct (Hframe y Hyrq Hyp) as [c ->]. done.
  - intros y Hyp. rewrite HQ, HM, HP, Hpool. set_solver.
  - rewrite Hcount, (res_expected _ _ _ _ _ _ _ HR), size_wrap_succ. f_equal.
    rewrite (awaited_eq w w' rq 1); [done| |].
    + intros y Hy.
      assert (y ≠ rq) by (intros ->; apply Hfree; unfold in_use; set_solver).
      assert (y ≠ p) by (intros ->; by apply (HPM p)).
      destruct (Hframe y) as [c ->]; done.
    + exists [p]. split; [done|]. rewrite HQ.
      rewrite filter_cons, decide_True, filter_nil; [simpl length; lia|].
      rewrite Hty. done.
  - unfold owned. set_solver +.
  - right. done.
  - intros _. rewrite Hty. done.
  - rewrite HQ. intros H. by apply HPQ in H.
  - intros _. rewrite Hty. done.
Qed.

Lemma push_Res (rq o p : nat) (P l : list nat) (w w' : World) :
  Core rq o l w ->
  Res rq o l w ->
  l ≠ [] ->
  (length l <= prefetchQueueBlockCount)%nat ->
  globalRequestPool_ w = p :: P ->
  initLinkAndSendSequentialBlockRequest CAP p rq (set_pool P w) = Some w' ->
  Core rq o (l ++ [p]) w' /\ Res rq o (l ++ [p]) w'.
Proof.
  intros HC HR Hl Hlen Hpool Hrun.
  destruct (push_Core _ rq o p P l w HC Hl Hlen Hpool)
    as (t & w2 & _ & _ & Hrun2 & HC2 & _ & HQ2 & HP2 & HM2 & Hd2 & Hp2 & Hframe).
  rewrite Hrun in Hrun2. injection Hrun2 as <-.
  split; [done|].
  destruct (initLinkAndSend_heap _ _ _ _ _ Hrun) as (HDB & HND & HFR & HRQ).
  apply (link_block_Res rq o p P l w w'); try done.
  - rewrite HRQ. done.
  - by rewrite Hp2.
  - by rewrite Hp2.
  - by rewrite Hp2.
Qed.

Lemma first_block_Res (rq o p : nat) (P : list nat) (w : World) (pos c : Z) :
  Core rq o [] w ->
  Res rq o [] w ->
  state_ w rq ≠ STREAM_STATE_OPENING ->
  globalRequestPool_ w = p :: P ->
  c ≠ SIZE_MAX ->
  0 <= pos < SIZE_MODULUS ->
  Res rq o [p]
    (sendBlockRequestToServer p rq
       (upd_req o (set_links_client (Some p))
          (upd_req rq (set_links_client (Some p))
             (upd_req p (set_clientInt c)
                (upd_req p (initAcquire (fileHandle (req w o)) pos rq)
                   (set_pool P w)))))).
Proof.
  intros HC HR Hst Hpool Hc Hpos.
  destruct (first_block_Core _ rq o p P w pos c HC Hst Hpool Hc Hpos)
    as (HC' & _ & HQ & HP & HM & Hd & Hp & Hframe).
  match goal with |- Res _ _ _ ?W => set (w' := W) in * end.
  pose proof (shape_open_ne _ _ _ _ _ (core_shape _ _ _ _ _ HC)) as Horq.
  apply (link_block_Res rq o p P [] w w'); try done.
  - unfold w', sendBlockRequestToServer. req_norm. goal_decide; nsubst; done.
  - by rewrite Hp.
  - by rewrite Hp.
  - by rewrite Hp.
Qed.

Lemma seek_loop_Res (rq o : nat) :
  forall (n : nat) (l : list nat) (w : World) (ret : Z) (w' : World),
    Core rq o l w ->
    Res rq o l w ->
    l ≠ [] ->
    (length l + n <= prefetchQueueBlockCount)%nat ->
    seek_loop CAP n rq w = Some (ret, w') ->
    exists l', Core rq o l' w' /\ Res rq o l' w'.
Proof.
  induction n as [|n IH]; intros l w ret w' HC HR Hl Hlen Hrun.
  - assert (Hst : state_ w rq ≠ STREAM_STATE_OPENING).
    { destruct l as [|x l]; [done|]. by eapply nonempty_not_opening. }
    simpl in Hrun. injection Hrun as _ <-. exists l. split.
    + apply set_state_Core; try done. unfold is_stream_state. tauto.
    + by apply set_state_Res.
  - assert (Hst : state_ w rq ≠ STREAM_STATE_OPENING).
    { destruct l as [|x l]; [done|]. by eapply nonempty_not_opening. }
    simpl in Hrun. destruct (globalRequestPool_ w) as [|p P] eqn:Hpool.
    + unfold allocFileIoRequest in Hrun. rewrite Hpool in Hrun.
      injection Hrun as _ <-. exists l. split.
      * apply set_state_Core; try done. unfold is_stream_state. tauto.
      * by apply set_state_Res.
    + unfold allocFileIoRequest in Hrun. rewrite Hpool in Hrun.
      destruct (initLinkAndSendSequentialBlockRequest CAP p rq (set_pool P w))
        as [w2|] eqn:Hpush; simpl in Hrun; [|done].
      destruct (push_Res rq o p P l w w2 HC HR Hl) as [HC2 HR2]; [lia|done|done|].
      apply (IH (l ++ [p]) w2 ret w'); try done.
      * by destruct l.
      * rewrite length_app. simpl. lia.
Qed.

Local Arguments seek_loop : simpl never.

Lemma seek_Res (rq o : nat) (l l' : list nat) (w w' : World) (pos ret : Z) :
  Core rq o l w ->
  Res rq o l w ->
  0 < CAP < SIZE_MODULUS ->
  0 <= pos < SIZE_MODULUS ->
  seek CAP pos rq w = Some (ret, w') ->
  Core rq o l' w' ->
  Res rq o l' w'.
Proof.
  intros HC HR HB Hpos Hrun HC'. unfold seek in Hrun.
  destruct (bool_decide (state_ w rq = STREAM_STATE_OPENING)
            || bool_decide (state_ w rq = STREAM_STATE_ERROR)) eqn:Hgate.
  { injection Hrun as _ <-. by rewrite (Core_unique _ _ _ _ _ _ HC' HC). }
  apply orb_false_iff in Hgate as [Hno Hne].
  apply bool_decide_eq_false in Hno. apply bool_decide_eq_false in Hne.
  destruct (flushPrefetchQueue_Core _ rq o l w HC Hno)
    as (w1 & Hflush & HC1 & Hs1 & Hq1 & Hd1).
  rewrite Hflush in Hrun. simpl in Hrun.
  pose proof (flushPrefetchQueue_Res rq o l w w1 HC HR Hno Hflush) as HR1.
  assert (Hno1 : state_ w1 rq ≠ STREAM_STATE_OPENING) by congruence.
  destruct (globalRequestPool_ w1) as [|p P] eqn:Hpool.
  - unfold allocFileIoRequest in Hrun. rewrite Hpool in Hrun.
    injection Hrun as _ <-.
    assert (HC2 : Core rq o [] (set_state_ STREAM_STATE_ERROR rq w1)).
    { apply set_state_Core; try done. unfold is_stream_state. tauto. }
    rewrite (Core_unique _ _ _ _ _ _ HC' HC2). by apply set_state_Res.
  - unfold allocFileIoRequest in Hrun. rewrite Hpool in Hrun.
    assert (Ho : openFileReq (set_pool P w1) rq = Some o)
      by (apply (shape_open _ _ _ _ _ (core_shape _ _ _ _ _ HC1))).
    rewrite Ho in Hrun. simpl in Hrun.
    pose proof (roundDownToBlockSizeAlignedPosition_spec CAP pos ltac:(lia) Hpos)
      as (Ha & Hc0 & Hmod).
    set (a := roundDownToBlockSizeAlignedPosition CAP pos) in *.
    assert (Hc : size_wrap (pos - a) ≠ SIZE_MAX).
    { rewrite Hc0, SIZE_MAX_eq. lia. }
    assert (Hapos : 0 <= a < SIZE_MODULUS) by apply size_wrap_range.
    pose proof (first_block_Core _ rq o p P w1 a (size_wrap (pos - a)) HC1 Hno1 Hpool
                  Hc Hapos) as (HC7 & _).
    pose proof (first_block_Res rq o p P w1 a (size_wrap (pos - a)) HC1 HR1 Hno1 Hpool
                  Hc Hapos) as HR7.
    pose proof (shape_open_ne _ _ _ _ _ (core_shape _ _ _ _ _ HC1)) as Horq.
    assert (Hprq : p ≠ rq).
    { intros ->. apply (own_root _ _ _ _ (core_own _ _ _ _ _ HC1)).
      rewrite Hpool. set_solver +. }
    assert (Ho5 : openFileReq
                    (upd_req rq (set_links_client (Some p))
                       (upd_req p (set_clientInt (size_wrap (pos - a)))
                          (upd_req p (initAcquire (fileHandle (req (set_pool P w1) o)) a rq)
                             (set_pool P w1)))) rq = Some o).
    { unfold openFileReq in *. req_norm. goal_decide; nsubst; done. }
    rewrite Ho5 in Hrun. simpl in Hrun.
    destruct (seek_loop_Res rq o (prefetchQueueBlockCount - 1) [p] _ ret w' HC7 HR7)
      as (l2 & HC2 & HR2);
      [done|simpl; unfold prefetchQueueBlockCount; lia|exact Hrun|].
    by rewrite (Core_unique _ _ _ _ _ _ HC' HC2).
Qed.

End SeekResources.

(** *** [pollState] and the receive loops *)

Section PollResources.

Variable IO_DATA_BLOCK_DATA_CAPACITY_BYTES : Z.
Local Abbreviation CAP := IO_DATA_BLOCK_DATA_CAPACITY_BYTES.
Variable good_path : option nat -> OpenMode -> Prop.
Variable good_file : list Z -> Prop.
Variable good_block : Z -> bool -> DataBlock -> Prop.
Local Abbreviation Res := (Res good_path good_file good_block).
Local Abbreviation Core := (Core IO_DATA_BLOCK_DATA_CAPACITY_BYTES).

(** While the stream is opening, the only request in flight is its
    OPEN_FILE request. *)
Lemma opening_in_flight (rq o : nat) (l : list nat) (w : World) :
  Core rq o l w ->
  state_ w rq = STREAM_STATE_OPENING ->
  l = []
  /\ (serverMailboxQueue_ w = [o] /\ queued w rq = []
      \/ serverMailboxQueue_ w = [] /\ queued w rq = [o]).
Proof.
  intros HC Hst. open_core HC.
  destruct (own_opening0 Hst) as (Hl & Hin & Hall). split; [done|].
  apply transit_facts in own_transit0 as (_ & HndM & HndQ & _ & _ & HMQ).
  assert (Hone : forall L : list nat, NoDup L -> (forall x, x ∈ L -> x = o) ->
                   L = [] \/ L = [o]).
  { intros L Hnd Ho. destruct L as [|a [|b L]]; [by left| |].
    - right. f_equal. apply Ho. by left.
    - exfalso. apply NoDup_cons in Hnd as [Hab _]. apply Hab.
      rewrite (Ho a), (Ho b); [by left|right; by left|by left]. }
  destruct (Hone _ HndM) as [HM|HM]; [intros x Hx; apply Hall; set_solver +Hx| |];
    (destruct (Hone _ HndQ) as [HQ|HQ]; [intros x Hx; apply Hall; set_solver +Hx| |]);
    rewrite HM, HQ in *.
  - exfalso. set_solver +Hin.
  - by right.
  - by left.
  - exfalso. apply (HMQ o); by left.
Qed.

(** The reply to the OPEN_FILE request is received. *)
Lemma opened_Res (rq o : nat) (l : list nat) (q : result_queue_t) (st : RequestType)
    (v : Z) (w w' : World) :
  Core rq o l w ->
  Res rq o l w ->
  state_ w rq = STREAM_STATE_OPENING ->
  rq_pop (resultQueue (req w rq)) = Some (o, q) ->
  globalRequestPool_ w' = globalRequestPool_ w ->
  serverMailboxQueue_ w' = serverMailboxQueue_ w ->
  dom (requests w') = dom (requests w) ->
  dataBlocks w' = dataBlocks w ->
  nextDataBlock w' = nextDataBlock w ->
  fileRecords w' = fileRecords w ->
  (forall y, req w' y =
     if decide (rq = y)
     then set_requestType st (set_resultStatus v (set_resultQueue q (req w rq)))
     else if decide (o = y) then set_path None (req w o)
     else req w y) ->
  Res rq o [] w'.
Proof.
  intros HC HR Hst Hpop HP HM Hdom HDB HND HFR Hreq.
  destruct (opening_in_flight rq o l w HC Hst) as [-> [[HM0 HQ0]|[HM0 HQ0]]].
  { apply rq_pop_Some in Hpop. unfold queued in HQ0. by rewrite HQ0 in Hpop. }
  pose proof (rq_pop_Some _ _ _ Hpop) as HQ. unfold queued in HQ0.
  rewrite HQ0 in HQ. injection HQ as HQ.
  pose proof (rq_pop_count _ _ _ Hpop) as Hcnt.
  pose proof (shape_open_ne _ _ _ _ _ (core_shape _ _ _ _ _ HC)) as Horq.
  destruct HR as [Rcover Rexp Rob Ros Rh Rsent Rrel Rrep Rready Rerr Rheld Rinj Rleak
                    Rfresh Rfiles].
  assert (HQ' : queued w' rq = []).
  { unfold queued. rewrite Hreq, decide_True by done. simpl. done. }
  assert (Huse : in_use rq [] w' = []).
  { unfold in_use. by rewrite HM, HM0, HQ'. }
  assert (Hfo : fileHandle (req w' o) = fileHandle (req w o)).
  { rewrite Hreq, decide_False, decide_True by done. done. }
  constructor; rewrite ?Huse, ?HM, ?HM0, ?HQ', ?HDB, ?HND, ?HFR, ?Hfo; try done;
    try (intros ? H; by apply elem_of_nil in H);
    try (intros ? ? H; by apply elem_of_nil in H);
    try (intros ? ? ? H; by apply elem_of_nil in H).
  - intros x Hx. rewrite Hdom in Hx. specialize (Rcover x Hx).
    unfold owned in *. rewrite HP, HM, HM0, HQ'. unfold queued in Rcover.
    rewrite HM0, HQ0 in Rcover. set_solver +Rcover.
  - rewrite Hreq, decide_True by done. simpl. rewrite Hcnt, Rexp, size_wrap_pred.
    f_equal. unfold awaited. rewrite HM, HM0, HQ'. unfold queued. rewrite HQ0.
    rewrite filter_nil. simpl. lia.
  - rewrite Hreq, decide_False, decide_True by done. done.
  - intros H. by apply elem_of_nil in H.
  - intros d Hd. exfalso. destruct (Rleak d Hd) as (x & Hx & Hdx).
    unfold in_use, queued in Hx. rewrite HM0, HQ0 in Hx. simpl in Hx.
    apply list_elem_of_singleton in Hx as ->. congruence.
Qed.

Lemma pollState_Res (rq o : nat) (l : list nat) (w : World) :
  Core rq o l w ->
  Res rq o l w ->
  Res rq o l (snd (pollState rq w)).
Proof.
  intros HC HR. unfold pollState. simpl.
  destruct (bool_decide (rq_expectedResultCount (resultQueue (req w rq)) > 0)); [|done].
  destruct (decide (state_ w rq = STREAM_STATE_OPENING)) as [Hst|Hst].
  - rewrite bool_decide_eq_true_2 by done.
    destruct (opening_in_flight rq o l w HC Hst) as [Hl _].
    destruct (own_opening _ _ _ _ (core_own _ _ _ _ _ HC) Hst) as (_ & _ & Hall).
    destruct (rq_pop (resultQueue (req w rq))) as [[r q]|] eqn:Hpop; [|done].
    pose proof (rq_pop_Some _ _ _ Hpop) as HQ. fold (queued w rq) in HQ.
    assert (r = o) as ->.
    { apply Hall. rewrite HQ. clear. set_solver. }
    pose proof (Core_dom_root _ _ _ _ _ HC) as [Hdr Hdo].
    assert (Hne : o ≠ rq) by apply (shape_open_ne _ _ _ _ _ (core_shape _ _ _ _ _ HC)).
    assert (HE : error_ w rq = 0).
    { rewrite (core_error _ _ _ _ _ HC). by rewrite bool_decide_eq_true_2. }
    assert (Hrs : resultStatus
                    (req (upd_req o (set_path None) (upd_req rq (set_resultQueue q) w)) o)
                  = resultStatus (req w o)).
    { req_norm. rewrite decide_True by done. rewrite decide_False by done. done. }
    rewrite Hrs. subst l.
    destruct (bool_decide (resultStatus (req w o) = NOERROR)) eqn:Hok.
    + eapply (opened_Res rq o [] q STREAM_STATE_OPEN_IDLE (resultStatus (req w rq)) w);
        try done.
      * unfold set_state_. dom_eq.
      * intros y. rewrite req_set_state_. req_norm.
        goal_decide; nsubst; try done.
    + eapply (opened_Res rq o [] q STREAM_STATE_ERROR (resultStatus (req w o)) w);
        try done.
      * unfold set_state_. dom_eq.
      * intros y. rewrite req_set_state_. req_norm.
        goal_decide; nsubst; done.
  - rewrite bool_decide_eq_false_2 by done.
    by apply (receiveOneBlock_Res CAP).
Qed.

Lemma receiveAllBlocks_Res (rq o : nat) (l : list nat) :
  forall (fuel : nat) (w w' : World),
    Core rq o l w ->
    Res rq o l w ->
    state_ w rq ≠ STREAM_STATE_OPENING ->
    receiveAllBlocks fuel rq w = Some w' ->
    Res rq o l w'.
Proof.
  induction fuel as [|fuel IH]; intros w w' HC HR Hst Hrun.
  - simpl in Hrun. pose proof (receiveOneBlock_Res CAP _ _ _ rq o l w HC HR Hst) as HR1.
    destruct (receiveOneBlock rq w) as [[|] w1]; [done|].
    by injection Hrun as <-.
  - simpl in Hrun. pose proof (receiveOneBlock_Res CAP _ _ _ rq o l w HC HR Hst) as HR1.
    destruct (receiveOneBlock_Core CAP rq o l w HC Hst) as (HC1 & Hst1 & _).
    destruct (receiveOneBlock rq w) as [[|] w1]; simpl in *.
    + by apply (IH w1 w').
    + by injection Hrun as <-.
Qed.

Lemma receiveWhileFrontPending_Res (rq o x : nat) (l : list nat) :
  forall (fuel : nat) (w w' : World),
    Core rq o l w ->
    Res rq o l w ->
    state_ w rq ≠ STREAM_STATE_OPENING ->
    receiveWhileFrontPending fuel x rq w = Some w' ->
    Res rq o l w'.
Proof.
  induction fuel as [|fuel IH]; intros w w' HC HR Hst Hrun.
  - simpl in Hrun. pose proof (receiveOneBlock_Res CAP _ _ _ rq o l w HC HR Hst) as HR1.
    destruct (bool_decide (requestType (req w x) = BLOCK_STATE_PENDING));
      [|by injection Hrun as <-].
    destruct (receiveOneBlock rq w) as [[|] w1]; [done|].
    by injection Hrun as <-.
  - simpl in Hrun. pose proof (receiveOneBlock_Res CAP _ _ _ rq o l w HC HR Hst) as HR1.
    destruct (receiveOneBlock_Core CAP rq o l w HC Hst) as (HC1 & Hst1 & _).
    destruct (bool_decide (requestType (req w x) = BLOCK_STATE_PENDING));
      [|by injection Hrun as <-].
    destruct (receiveOneBlock rq w) as [[|] w1]; simpl in *.
    + by apply (IH w1 w').
    + by injection Hrun as <-.
Qed.

End PollResources.

(** *** The steps of the server *)

(** The outcomes of the body of [handleReadBlockRequest] for a request that
    holds no block yet: either the request fails and nothing is allocated,
    or the block the next [new] returns is read and the file record counts
    one more dependent client. *)
Lemma handleReadBlockRequest_io_cases (B : Z) (os : OsOutcome) (r : nat) (w w1 : World) :
  handleReadBlockRequest_io B os r w = Some w1 ->
  r ∈ dom (requests w) ->
  dataBlock (req w r) = None ->
  dataBlocks w !! nextDataBlock w = None ->
  same_links (req w r) (req w1 r)
  /\ fileHandle (req w1 r) = fileHandle (req w r)
  /\ path (req w1 r) = path (req w r)
  /\ (dataBlock (req w1 r) = None
      /\ resultStatus (req w1 r) ≠ NOERROR
      /\ dataBlocks w1 = dataBlocks w
      /\ (nextDataBlock w <= nextDataBlock w1)%nat
      /\ fileRecords w1 = fileRecords w
      \/ exists f rec,
           fileHandle (req w r) = Some f
           /\ fileRecords w !! f = Some rec
           /\ os_fseek os = 0
           /\ (validCountBytes (block_read B os) = capacityBytes (block_read B os)
               \/ os_feof os = true)
           /\ dataBlock (req w1 r) = Some (nextDataBlock w)
           /\ resultStatus (req w1 r) = NOERROR
           /\ isAtEof (req w1 r)
              = negb (bool_decide (validCountBytes (block_read B os)
                                   = capacityBytes (block_read B os)))
           /\ dataBlocks w1 = <[nextDataBlock w := block_read B os]> (dataBlocks w)
           /\ nextDataBlock w1 = S (nextDataBlock w)
           /\ fileRecords w1
              = <[f := mkFileRecord (fp rec) (dependentClientCount rec + 1)]>
                  (fileRecords w)).
Proof.
  intros Hrun Hdr Hdb Hfresh.
  pose proof (os_error_nonzero os) as Herr.
  unfold handleReadBlockRequest_io in Hrun.
  destruct (fileHandle (req w r)) as [f|] eqn:Hfh.
  2:{ (* no file handle *)
    revert Hrun. heap_norm. simpl. rewrite Hdb. simpl. intros [= <-].
    heap_norm. simpl. rewrite Hfh. repeat split; try done. left. by rewrite Hdb. }
  unfold allocDataBlock in Hrun.
  destruct (os_new_ok os) eqn:Hnew; simpl in Hrun.
  2:{ (* the allocation failed *)
    revert Hrun. heap_norm. simpl. rewrite Hdb. simpl. intros [= <-].
    heap_norm. simpl. rewrite Hfh. repeat split; try done. left. by rewrite Hdb. }
  destruct (bool_decide (os_fseek os ≠ 0)) eqn:Hseek.
  { (* the seek failed *)
    revert Hrun. unfold freeDataBlock. simpl.
    change (req (set_dataBlocks ?m ?k ?w0) ?x) with (req w0 x).
    heap_norm. simpl. intros [= <-].
    change (req (set_dataBlocks ?m ?k ?w0) ?x) with (req w0 x).
    heap_norm. simpl. rewrite Hfh. repeat split; try done. left.
    repeat split; try done; [|lia].
    rewrite delete_insert_eq. by apply delete_id. }
  apply bool_decide_eq_false in Hseek.
  assert (Hs0 : os_fseek os = 0) by (destruct (decide (os_fseek os = 0)); done).
  rewrite !lookup_total_insert_eq in Hrun. simpl in Hrun.
  change (fread_into B os
            (mkDataBlock B 0 (replicate (Z.to_nat B) None)))
    with (block_read B os) in Hrun.
  assert (Hv : validCountBytes (block_read B os) = Z.of_nat (length (fread_bytes B os)))
    by done.
  assert (Hc : capacityBytes (block_read B os) = B) by done.
  rewrite Hv, Hc.
  destruct (bool_decide (Z.of_nat (length (fread_bytes B os)) = B)) eqn:Hfull.
  { revert Hrun.
    change (req (set_dataBlocks ?m ?k ?w0) ?x) with (req w0 x).
    heap_norm. simpl.
    destruct (fileRecords w !! f) as [rec|] eqn:Hrec; simpl; [|done].
    intros [= <-]. simpl.
    change (req (set_fileRecords ?m ?k ?w0) ?x) with (req w0 x).
    change (req (set_dataBlocks ?m ?k ?w0) ?x) with (req w0 x).
    heap_norm. simpl. rewrite Hfh. repeat split; try done. right.
    exists f, rec. apply bool_decide_eq_true in Hfull.
    repeat split; try done; [by left|]. by rewrite insert_insert_eq. }
  destruct (os_feof os) eqn:Heof.
  { revert Hrun.
    change (req (set_dataBlocks ?m ?k ?w0) ?x) with (req w0 x).
    heap_norm. simpl.
    destruct (fileRecords w !! f) as [rec|] eqn:Hrec; simpl; [|done].
    intros [= <-]. simpl.
    change (req (set_fileRecords ?m ?k ?w0) ?x) with (req w0 x).
    change (req (set_dataBlocks ?m ?k ?w0) ?x) with (req w0 x).
    heap_norm. simpl. rewrite Hfh. repeat split; try done. right.
    exists f, rec.
    repeat split; try done; [by right|]. by rewrite insert_insert_eq. }
  revert Hrun. unfold freeDataBlock. simpl.
  change (req (set_dataBlocks ?m ?k ?w0) ?x) with (req w0 x).
  heap_norm. simpl. intros [= <-].
  change (req (set_dataBlocks ?m ?k ?w0) ?x) with (req w0 x).
  heap_norm. simpl. rewrite Hfh. repeat split; try done. left.
  repeat split; try done; [|lia].
  rewrite insert_insert_eq, delete_insert_eq. by apply delete_id.
Qed.

(** The body of [handleReadBlockRequest] is defined on a request that has
    no file handle, or whose file handle is a live file record. *)
Lemma handleReadBlockRequest_io_defined (B : Z) (os : OsOutcome) (r : nat) (w : World) :
  dataBlock (req w r) = None ->
  (forall f, fileHandle (req w r) = Some f -> is_Some (fileRecords w !! f)) ->
  is_Some (handleReadBlockRequest_io B os r w).
Proof.
  intros Hdb Hlive. unfold handleReadBlockRequest_io.
  destruct (fileHandle (req w r)) as [f|] eqn:Hfh.
  2:{ heap_norm. simpl. rewrite Hdb. rewrite ?bool_decide_eq_false_2 by (by intros ?); done. }
  destruct (Hlive f eq_refl) as [rec Hrec].
  unfold allocDataBlock. destruct (os_new_ok os); simpl.
  2:{ heap_norm. simpl. rewrite Hdb. rewrite ?bool_decide_eq_false_2 by (by intros ?); done. }
  destruct (bool_decide (os_fseek os ≠ 0)).
  { unfold freeDataBlock.
    change (req (set_dataBlocks ?m ?k ?w0) ?x) with (req w0 x).
    heap_norm. simpl. rewrite ?bool_decide_eq_false_2 by (by intros ?); done. }
  rewrite !lookup_total_insert_eq. simpl.
  destruct (bool_decide (Z.of_nat (length (fread_bytes B os)) = B)).
  { change (req (set_dataBlocks ?m ?k ?w0) ?x) with (req w0 x).
    heap_norm. simpl. rewrite Hrec. done. }
  destruct (os_feof os).
  { change (req (set_dataBlocks ?m ?k ?w0) ?x) with (req w0 x).
    heap_norm. simpl. rewrite Hrec. done. }
  unfold freeDataBlock.
  change (req (set_dataBlocks ?m ?k ?w0) ?x) with (req w0 x).
  heap_norm. simpl. rewrite ?bool_decide_eq_false_2 by (by intros ?); done.
Qed.

Section ServerResources.

Variable IO_DATA_BLOCK_DATA_CAPACITY_BYTES : Z.
Local Abbreviation CAP := IO_DATA_BLOCK_DATA_CAPACITY_BYTES.
Variable good_path : option nat -> OpenMode -> Prop.
Variable good_file : list Z -> Prop.
Variable good_block : Z -> bool -> DataBlock -> Prop.
Local Abbreviation Res := (Res good_path good_file good_block).
Local Abbreviation Core := (Core IO_DATA_BLOCK_DATA_CAPACITY_BYTES).
Local Abbreviation os_ok := (os_ok IO_DATA_BLOCK_DATA_CAPACITY_BYTES good_path good_file
                               good_block).

(** A READ_BLOCK request is answered with a block. *)
Lemma Res_gain (rq o r : nat) (l : list nat) (w w' : World) (b f : nat)
    (blk : DataBlock) (rec : FileRecord) :
  Res rq o l w ->
  o ≠ rq -> r ≠ rq -> r ≠ o ->
  rq ∉ in_use rq l w -> rq ∉ in_use rq l w' ->
  dom (requests w') = dom (requests w) ->
  (forall x, x ≠ r -> x ≠ rq -> req w' x = req w x) ->
  (forall x, x ≠ r ->
     (x ∈ serverMailboxQueue_ w' <-> x ∈ serverMailboxQueue_ w)
     /\ (x ∈ queued w' rq <-> x ∈ queued w rq)
     /\ (x ∈ globalRequestPool_ w' <-> x ∈ globalRequestPool_ w)) ->
  rq_expectedResultCount (resultQueue (req w' rq)) = size_wrap (awaited w' rq) ->
  r ∈ in_use rq l w ->
  r ∉ serverMailboxQueue_ w' -> r ∈ queued w' rq ->
  requestType (req w' r) = READ_BLOCK ->
  dataBlock (req w r) = None ->
  fileHandle (req w' r) = fileHandle (req w r) ->
  fileHandle (req w r) = Some f ->
  fileRecords w !! f = Some rec ->
  b = nextDataBlock w -> nextDataBlock w' = S b ->
  dataBlocks w' = <[b := blk]> (dataBlocks w) ->
  fileRecords w'
  = <[f := mkFileRecord (fp rec) (dependentClientCount rec + 1)]> (fileRecords w) ->
  dataBlock (req w' r) = Some b ->
  resultStatus (req w' r) = NOERROR ->
  good_block (filePosition (req w' r)) (isAtEof (req w' r)) blk ->
  Res rq o l w'.
Proof.
  intros HR Horq Hrrq Hro Hrq Hrq' Hdom Hpay Hmem Hexp Hin HrM HrQ Hty Hnone Hfh Hf
    Hrec -> HND HDB HFR Hb Hok Hgood.
  destruct HR as [Rcover Rexp Rob Ros Rh Rsent Rrel Rrep Rready Rerr Rheld Rinj Rleak
                    Rfresh Rfiles].
  assert (Huse : forall x, x ≠ r -> (x ∈ in_use rq l w' <-> x ∈ in_use rq l w)).
  { intros x Hx. destruct (Hmem x Hx) as (H2 & H3 & _).
    unfold in_use. rewrite !elem_of_app. tauto. }
  assert (Hin' : r ∈ in_use rq l w') by (unfold in_use; set_solver +HrQ).
  assert (Hne : forall x, x ∈ in_use rq l w' -> x ≠ rq) by (intros x Hx ->; done).
  assert (Hne0 : forall x, x ∈ in_use rq l w -> x ≠ rq) by (intros x Hx ->; done).
  assert (Hbfresh : dataBlocks w !! nextDataBlock w = None).
  { apply not_elem_of_dom. intros Hd. apply Rfresh in Hd. lia. }
  assert (Hold : forall x d, x ∈ in_use rq l w -> dataBlock (req w x) = Some d ->
                   d ≠ nextDataBlock w).
  { intros x d Hx Hd ->. destruct (Rheld x _ Hx Hd) as (? & Hl & _). congruence. }
  constructor.
  - intros x Hx. rewrite Hdom in Hx. specialize (Rcover x Hx).
    destruct (decide (x = r)) as [->|Hxr].
    + unfold owned. set_solver +HrQ.
    + destruct (Hmem x Hxr) as (H2 & H3 & H4).
      unfold owned in *. rewrite !elem_of_cons, !elem_of_app in *. tauto.
  - done.
  - rewrite Hpay by done. done.
  - intros Ho. rewrite Hpay by done. apply Ros. by apply (Hmem o).
  - intros x Hx. rewrite (Hpay o) by done.
    destruct (decide (x = r)) as [->|Hxr].
    + rewrite Hfh. by apply Rh.
    + rewrite Hpay by (try done; by apply Hne). apply Rh. by apply Huse.
  - intros x Hx Htx. destruct (decide (x = r)) as [->|Hxr]; [done|].
    assert (Hxrq : x ≠ rq) by (apply Hne; unfold in_use; set_solver +Hx).
    rewrite Hpay in * by done. apply Rsent; [by apply (Hmem x)|done].
  - intros x Hx Htx. destruct (decide (x = r)) as [->|Hxr]; [done|].
    assert (Hxrq : x ≠ rq) by (apply Hne; unfold in_use; set_solver +Hx).
    rewrite Hpay in * by done. apply Rrel; [by apply (Hmem x)|done].
  - intros x Hx Htx. destruct (decide (x = r)) as [->|Hxr].
    + rewrite Hb, Hok. done.
    + assert (Hxrq : x ≠ rq) by (apply Hne; unfold in_use; set_solver +Hx).
      rewrite Hpay in * by done. apply Rrep; [by apply (Hmem x)|done].
  - intros x Hx Htx. destruct (decide (x = r)) as [->|Hxr]; [congruence|].
    assert (Hxrq : x ≠ rq) by (apply Hne; unfold in_use; set_solver +Hx).
    rewrite Hpay in * by done. by apply Rready.
  - intros x Hx Htx. destruct (decide (x = r)) as [->|Hxr]; [congruence|].
    assert (Hxrq : x ≠ rq) by (apply Hne; unfold in_use; set_solver +Hx).
    rewrite Hpay in * by done. by apply Rerr.
  - intros x d Hx Hd. rewrite HDB. destruct (decide (x = r)) as [->|Hxr].
    + rewrite Hb in Hd. injection Hd as <-. exists blk.
      by rewrite lookup_insert_eq.
    + rewrite Hpay in * by (try done; by apply Hne).
      apply Huse in Hx; [|done].
      rewrite lookup_insert_ne by (intros Heq; by apply (Hold x d)).
      by apply Rheld.
  - intros x y d Hx Hy Hdx Hdy.
    destruct (decide (x = r)) as [->|Hxr]; destruct (decide (y = r)) as [->|Hyr];
      [done| | |].
    + exfalso. rewrite Hb in Hdx. injection Hdx as <-.
      rewrite Hpay in Hdy by (try done; by apply Hne).
      apply (Hold y (nextDataBlock w)); [by apply Huse|done|done].
    + exfalso. rewrite Hb in Hdy. injection Hdy as <-.
      rewrite Hpay in Hdx by (try done; by apply Hne).
      apply (Hold x (nextDataBlock w)); [by apply Huse|done|done].
    + rewrite Hpay in Hdx by (try done; by apply Hne).
      rewrite Hpay in Hdy by (try done; by apply Hne).
      apply (Rinj x y d); [by apply Huse|by apply Huse|done|done].
  - intros d Hd. rewrite HDB, dom_insert_L in Hd.
    apply elem_of_union in Hd as [Hd|Hd].
    + apply elem_of_singleton in Hd as ->. by exists r.
    + destruct (Rleak d Hd) as (x & Hx & Hdx). exists x.
      assert (Hxr : x ≠ r) by (intros ->; congruence).
      split; [by apply Huse|]. rewrite Hpay by (try done; by apply Hne0). done.
  - intros d Hd. rewrite HDB, dom_insert_L in Hd. rewrite HND.
    apply elem_of_union in Hd as [Hd|Hd].
    + apply elem_of_singleton in Hd as ->. lia.
    + apply Rfresh in Hd. lia.
  - rewrite (Hpay o) by done. rewrite <- (Rh r Hin), Hf in *.
    destruct Rfiles as (rec0 & HF & Hgf & Hcnt).
    rewrite HF in Hrec. rewrite lookup_singleton_eq in Hrec. injection Hrec as ->.
    eexists. rewrite HFR, HF, insert_singleton_eq. split; [done|]. simpl.
    split; [done|]. rewrite HDB, map_size_insert_None by done. lia.
Qed.

(** A release is handled: the block is freed and the file record counts
    one dependent client less. *)
Lemma release_Res (rq o r : nat) (l M : list nat) (w w' : World) :
  Core rq o l w ->
  Res rq o l w ->
  serverMailboxQueue_ w = r :: M ->
  requestType (req w r) = RELEASE_READ_BLOCK ->
  handleReleaseReadBlockRequest r (set_mailbox M w) = Some w' ->
  Res rq o l w'.
Proof.
  intros HC HR HM0 Hty Hrun.
  assert (HrM : r ∈ serverMailboxQueue_ w) by (rewrite HM0; left).
  pose proof (Core_root_free _ _ _ _ _ HC) as Hfree.
  pose proof HC as HC0. open_core HC.
  apply transit_facts in own_transit0 as (HndP & HndM & HndQ & HPM & HPQ & HMQ).
  rewrite HM0 in HndM. apply NoDup_cons in HndM as [HrM' HndM].
  assert (Hrl : r ∉ l).
  { intros Hrl. destruct (own_fifo0 r Hrl) as [(Ht & _)|([Ht|Ht] & _)];
      unfold BLOCK_STATE_PENDING in *; congruence. }
  assert (Hrq : r ∉ queued w rq) by (by apply HMQ).
  assert (Hrin : r ∈ in_use rq l w) by (unfold in_use; set_solver +HrM).
  destruct HR as [Rcover Rexp Rob Ros Rh Rsent Rrel Rrep Rready Rerr Rheld Rinj Rleak
                    Rfresh Rfiles].
  unfold handleReleaseReadBlockRequest in Hrun. rewrite req_set_mailbox in Hrun.
  destruct (dataBlock (req w r)) as [b|] eqn:Hb; [|by destruct (Rrel r HrM Hty)].
  simpl in Hrun.
  change (req (freeDataBlock b (set_mailbox M w)) r) with (req w r) in Hrun.
  destruct (Rheld r b Hrin Hb) as (blk & Hblk & _).
  assert (Hfo : fileHandle (req w r) = fileHandle (req w o)) by (by apply Rh).
  destruct (fileHandle (req w o)) as [f|] eqn:Hf.
  2:{ destruct Rfiles as [_ HDB]. rewrite HDB in Hblk. done. }
  destruct Rfiles as (rec & HF & Hgf & Hcnt).
  rewrite Hfo in Hrun. simpl in Hrun.
  unfold releaseFileRecordClientRef in Hrun.
  change (fileRecords (freeDataBlock b (set_mailbox M w))) with (fileRecords w) in Hrun.
  rewrite HF, lookup_singleton_eq in Hrun. simpl in Hrun.
  assert (Hsize : (1 <= size (dataBlocks w))%nat).
  { destruct (decide (size (dataBlocks w) = 0%nat)) as [H0|]; [|lia].
    apply map_size_empty_iff in H0. rewrite H0 in Hblk. done. }
  rewrite bool_decide_eq_false_2 in Hrun by lia.
  simpl in Hrun. injection Hrun as <-.
  match goal with |- Res _ _ _ ?W => set (w' := W) end.
  assert (Hreq : forall y, req w' y = req w y) by done.
  assert (HQ : queued w' rq = queued w rq) by done.
  assert (Huse : forall x, x ∈ in_use rq l w' <-> x ∈ in_use rq l w /\ x ≠ r).
  { intros x. unfold in_use. rewrite HQ.
    change (serverMailboxQueue_ w') with M. rewrite HM0.
    rewrite !elem_of_app, elem_of_cons. split.
    - intros [H|[H|H]]; (split; [tauto|intros ->; done]).
    - intros [[H|[[H|H]|H]] Hne]; tauto. }
  constructor; rewrite ?Hreq, ?HQ, ?Hf.
  - intros x Hx. specialize (Rcover x Hx). unfold owned in *. rewrite HQ.
    change (serverMailboxQueue_ w') with M.
    change (globalRequestPool_ w') with (r :: globalRequestPool_ w).
    rewrite HM0 in Rcover. set_solver +Rcover.
  - rewrite Rexp. f_equal. unfold awaited. rewrite HQ.
    change (serverMailboxQueue_ w') with M. rewrite HM0.
    rewrite filter_cons, decide_False by (intros ?; done). done.
  - done.
  - intros Ho. apply Ros. rewrite HM0. by right.
  - intros x Hx. rewrite Hreq. apply Rh. by apply Huse.
  - intros x Hx. rewrite Hreq. apply Rsent. rewrite HM0. by right.
  - intros x Hx. rewrite Hreq. apply Rrel. rewrite HM0. by right.
  - intros x. rewrite Hreq. apply Rrep.
  - intros x. rewrite Hreq. apply Rready.
  - intros x. rewrite Hreq. apply Rerr.
  - intros x d Hx. rewrite !Hreq. intros Hd. apply Huse in Hx as [Hx Hxr].
    destruct (Rheld x d Hx Hd) as (blk' & Hl & Hg). exists blk'. split; [|done].
    change (dataBlocks w') with (delete b (dataBlocks w)).
    rewrite lookup_delete_ne; [done|].
    intros <-. apply Hxr. by apply (Rinj x r b).
  - intros x y d Hx Hy. rewrite !Hreq. apply Huse in Hx as [Hx _].
    apply Huse in Hy as [Hy _]. by apply Rinj.
  - intros d Hd. change (dataBlocks w') with (delete b (dataBlocks w)) in Hd.
    rewrite dom_delete_L in Hd. apply elem_of_difference in Hd as [Hd Hdb].
    destruct (Rleak d Hd) as (x & Hx & Hdx). exists x. rewrite Hreq.
    split; [|done]. apply Huse. split; [done|].
    intros ->. rewrite Hb in Hdx. injection Hdx as ->. set_solver +Hdb.
  - intros d Hd. change (dataBlocks w') with (delete b (dataBlocks w)) in Hd.
    rewrite dom_delete_L in Hd. apply elem_of_difference in Hd as [Hd _].
    change (nextDataBlock w') with (nextDataBlock w). by apply Rfresh.
  - exists (mkFileRecord (fp rec) (dependentClientCount rec - 1)).
    split; [unfold w'; simpl; by rewrite insert_singleton_eq|]. simpl. split; [done|].
    change (dataBlocks w') with (delete b (dataBlocks w)).
    rewrite map_size_delete_Some by done. lia.
Qed.

(** The reply to the OPEN_FILE request is pushed on the result queue. *)
Lemma open_reply_Res (rq o : nat) (l : list nat) (h : option nat) (s : Z) (w w' : World) :
  Core rq o l w ->
  Res rq o l w ->
  state_ w rq = STREAM_STATE_OPENING ->
  o ∈ serverMailboxQueue_ w ->
  globalRequestPool_ w' = globalRequestPool_ w ->
  serverMailboxQueue_ w' = [] ->
  dom (requests w') = dom (requests w) ->
  dataBlocks w' = dataBlocks w ->
  nextDataBlock w' = nextDataBlock w ->
  (forall y, req w' y =
     if decide (rq = y)
     then set_resultQueue (rq_push o (resultQueue (req w rq))) (req w rq)
     else if decide (o = y) then set_resultStatus s (set_fileHandle h (req w o))
     else req w y) ->
  (h = None /\ fileRecords w' = fileRecords w
   \/ exists f bytes,
        h = Some f /\ good_file bytes
        /\ fileRecords w' = <[f := mkFileRecord bytes 1]> (fileRecords w)) ->
  Res rq o l w'.
Proof.
  intros HC HR Hst HoM HP HM Hdom HDB HND Hreq Hfiles.
  destruct (opening_in_flight CAP rq o l w HC Hst) as [-> [[HM0 HQ0]|[HM0 HQ0]]].
  2:{ rewrite HM0 in HoM. by apply elem_of_nil in HoM. }
  pose proof (shape_open_ne _ _ _ _ _ (core_shape _ _ _ _ _ HC)) as Horq.
  pose proof (own_open_type _ _ _ _ (core_own _ _ _ _ _ HC)) as Hoty.
  destruct HR as [Rcover Rexp Rob Ros Rh Rsent Rrel Rrep Rready Rerr Rheld Rinj Rleak
                    Rfresh Rfiles].
  destruct (Ros HoM) as [Hnone Hpath]. rewrite Hnone in Rfiles.
  destruct Rfiles as [HF0 HDB0].
  assert (HQ' : queued w' rq = [o]).
  { unfold queued. rewrite Hreq, decide_True by done. simpl.
    unfold queued in HQ0. by rewrite HQ0. }
  assert (Huse : in_use rq [] w' = [o]).
  { unfold in_use. by rewrite HM, HQ'. }
  assert (Hoo : req w' o = set_resultStatus s (set_fileHandle h (req w o))).
  { rewrite Hreq, decide_False, decide_True by done. done. }
  constructor; rewrite ?Huse, ?HM, ?HQ', ?HDB, ?HND, ?HDB0;
    try (intros ? H; by apply elem_of_nil in H);
    try (intros ? ? H; by apply elem_of_nil in H).
  - intros x Hx. rewrite Hdom in Hx. specialize (Rcover x Hx).
    unfold owned in *. rewrite HP, HM, HQ'.
    rewrite HM0, HQ0 in Rcover. set_solver +Rcover.
  - rewrite Hreq, decide_True by done. simpl. rewrite Rexp.
    f_equal. unfold awaited. rewrite HM, HM0, HQ', HQ0.
    rewrite filter_cons, decide_True, filter_nil; [done|].
    rewrite Hoty. done.
  - by rewrite Hoo.
  - intros H. by apply elem_of_nil in H.
  - intros x Hx. apply list_elem_of_singleton in Hx as ->. done.
  - intros x Hx. apply list_elem_of_singleton in Hx as ->. rewrite Hoo. simpl.
    rewrite Hoty. done.
  - intros x d Hx. apply list_elem_of_singleton in Hx as ->. rewrite Hoo. simpl.
    by rewrite Rob.
  - intros x y d Hx Hy. apply list_elem_of_singleton in Hx as ->.
    by apply list_elem_of_singleton in Hy as ->.
  - intros d Hd. by rewrite dom_empty_L in Hd.
  - intros d Hd. by rewrite dom_empty_L in Hd.
  - rewrite Hoo. simpl.
    destruct Hfiles as [[-> HF]|(f & bytes & -> & Hg & HF)].
    + by rewrite HF.
    + exists (mkFileRecord bytes 1). rewrite HF, HF0. split; [done|].
      split; [done|]. simpl. by rewrite map_size_empty.
Qed.

(** One request handled by the server. *)
Lemma handleOneRequest_Res (rq o : nat) (l : list nat) (os : OsOutcome) (w w' : World) :
  Core rq o l w ->
  Res rq o l w ->
  os_ok w os ->
  handleOneRequest CAP os w = Some w' ->
  Res rq o l w'.
Proof.
  intros HC HR [Hosf Hosb] Hrun.
  destruct (handleOneRequest_Core CAP rq o l os w w' HC Hrun) as (HC' & _).
  pose proof (Core_root_free _ _ _ _ _ HC) as Hfree.
  pose proof (Core_root_free _ _ _ _ _ HC') as Hfree'.
  unfold handleOneRequest in Hrun.
  destruct (serverMailboxQueue_ w) as [|r M] eqn:HM0; [by injection Hrun as <-|].
  cbv zeta in Hrun. rewrite req_set_mailbox in Hrun.
  assert (HrM : r ∈ serverMailboxQueue_ w) by (rewrite HM0; left).
  assert (Hrrq : r ≠ rq).
  { intros ->. apply (own_root _ _ _ _ (core_own _ _ _ _ _ HC)). clear -HrM. set_solver. }
  assert (Hdr : r ∈ dom (requests w)).
  { apply (core_dom _ _ _ _ _ HC). unfold owned. clear -HrM. set_solver. }
  pose proof (Core_dom_root _ _ _ _ _ HC) as [Hdrq Hdo].
  pose proof (shape_open_ne _ _ _ _ _ (core_shape _ _ _ _ _ HC)) as Horq.
  assert (Hnotag : requestType (req w rq) ≠ RESULT_QUEUE_IS_AWAITING_CLEANUP_).
  { pose proof (own_state _ _ _ _ (core_own _ _ _ _ _ HC)) as Hs.
    unfold is_stream_state, state_ in Hs. intros Heq. rewrite Heq in Hs.
    by destruct Hs as [?|[?|[?|[?|[?|?]]]]]. }
  destruct (own_mailbox _ _ _ _ (core_own _ _ _ _ _ HC) r HrM)
    as [[-> Hst]|[(Hty & Hptr & _)|Hty]].
  - (* the OPEN_FILE request *)
    pose proof (own_open_type _ _ _ _ (core_own _ _ _ _ _ HC)) as Hoty.
    pose proof (own_open_ptr _ _ _ _ (core_own _ _ _ _ _ HC)) as Hoptr.
    destruct (opening_in_flight CAP rq o l w HC Hst) as [_ [[HM1 _]|[HM1 _]]];
      [|by rewrite HM1 in HM0].
    rewrite HM0 in HM1. injection HM1 as ->.
    destruct (res_open_sent _ _ _ _ _ _ _ HR HrM) as [_ Hgp].
    rewrite Hoty in Hrun. unfold handleOpenFileRequest in Hrun.
    destruct (os_new_ok os) eqn:Hnew; [destruct (os_fopen os) as [bytes|] eqn:Hopen|].
    + revert Hrun. heap_norm. simpl.
      change (req (set_fileRecords ?m ?k ?w0) ?x) with (req w0 x).
      heap_norm. rewrite Hoptr. simpl.
      unfold completeRequestToClientResultQueue. heap_norm.
      change (req (set_fileRecords ?m ?k ?w0) ?x) with (req w0 x).
      heap_norm. rewrite bool_decide_eq_false_2 by done. intros [= <-].
      eapply (open_reply_Res rq o l (Some (nextFileRecord w)) NOERROR w); try done.
      * dom_eq.
      * intros y. req_norm. goal_decide; nsubst; done.
      * right. exists (nextFileRecord w), bytes. split; [done|]. split; [|done].
        by apply (Hosf o [] bytes).
    + revert Hrun. heap_norm. simpl. rewrite Hoptr. simpl.
      unfold completeRequestToClientResultQueue. heap_norm.
      rewrite bool_decide_eq_false_2 by done. intros [= <-].
      eapply (open_reply_Res rq o l None _ w); try done.
      * dom_eq.
      * intros y. req_norm. goal_decide; nsubst; done.
      * by left.
    + revert Hrun. heap_norm. simpl. rewrite Hoptr. simpl.
      unfold completeRequestToClientResultQueue. heap_norm.
      rewrite bool_decide_eq_false_2 by done. intros [= <-].
      eapply (open_reply_Res rq o l None _ w); try done.
      * dom_eq.
      * intros y. req_norm. goal_decide; nsubst; done.
      * by left.
  - (* a READ_BLOCK request *)
    assert (Hro : r ≠ o).
    { intros ->. rewrite (own_open_type _ _ _ _ (core_own _ _ _ _ _ HC)) in Hty. done. }
    rewrite Hty in Hrun. unfold handleReadBlockRequest in Hrun.
    destruct (handleReadBlockRequest_io CAP os r (set_mailbox M w)) as [w1|] eqn:Hio;
      [|done].
    simpl in Hrun.
    pose proof (res_sent _ _ _ _ _ _ _ HR r HrM Hty) as Hnone.
    assert (Hfresh : dataBlocks w !! nextDataBlock w = None).
    { apply not_elem_of_dom. intros Hd. apply (res_fresh _ _ _ _ _ _ _ HR) in Hd. lia. }
    destruct (handleReadBlockRequest_io_cases CAP os r (set_mailbox M w) w1 Hio Hdr Hnone
                Hfresh) as (_ & Hfh1 & _ & Hcases).
    apply handleReadBlockRequest_io_frame in Hio as (HP & HM & Hd & Hl & Ho); [|done].
    rewrite !req_set_mailbox in *.
    change (fileRecords (set_mailbox M w)) with (fileRecords w) in *.
    change (dataBlocks (set_mailbox M w)) with (dataBlocks w) in *.
    change (nextDataBlock (set_mailbox M w)) with (nextDataBlock w) in *.
    assert (Hptr1 : resultQueuePtr (req w1 r) = Some rq).
    { by destruct Hl as (_&_&_&_&->). }
    rewrite Hptr1 in Hrun. simpl in Hrun.
    unfold completeRequestToClientResultQueue in Hrun.
    rewrite (Ho rq) in Hrun by done. rewrite req_set_mailbox in Hrun.
    rewrite bool_decide_eq_false_2 in Hrun by done.
    injection Hrun as Hw'.
    assert (Hreq : forall y, req w' y =
              if decide (rq = y)
              then set_resultQueue (rq_push r (resultQueue (req w rq))) (req w rq)
              else req w1 y).
    { intros y. rewrite <- Hw'. req_norm. goal_decide; nsubst; [|done].
      by rewrite (Ho rq). }
    assert (HQ' : queued w' rq = queued w rq ++ [r]).
    { unfold queued. rewrite Hreq, decide_True by done. done. }
    assert (HM' : serverMailboxQueue_ w' = M) by (by rewrite <- Hw').
    assert (HP' : globalRequestPool_ w' = globalRequestPool_ w) by (by rewrite <- Hw').
    assert (Hdom' : dom (requests w') = dom (requests w)).
    { rewrite <- Hw'. rewrite dom_upd_req_in; [done|]. by rewrite Hd. }
    assert (HrM' : r ∉ M).
    { pose proof (own_transit _ _ _ _ (core_own _ _ _ _ _ HC)) as Hnd.
      apply transit_facts in Hnd as (_ & HndM & _). rewrite HM0 in HndM.
      by apply NoDup_cons in HndM as [? _]. }
    assert (Hmem : forall x, x ≠ r ->
              (x ∈ l <-> x ∈ l)
              /\ (x ∈ serverMailboxQueue_ w' <-> x ∈ serverMailboxQueue_ w)
              /\ (x ∈ queued w' rq <-> x ∈ queued w rq)
              /\ (x ∈ globalRequestPool_ w' <-> x ∈ globalRequestPool_ w)).
    { intros x Hx. rewrite HQ', HM', HP', HM0. set_solver. }
    assert (Hexp : rq_expectedResultCount (resultQueue (req w' rq))
                   = size_wrap (awaited w' rq)).
    { rewrite Hreq, decide_True by done. simpl.
      rewrite (res_expected _ _ _ _ _ _ _ HR). f_equal. unfold awaited.
      rewrite HM', HQ', HM0, filter_cons, decide_True by (rewrite Hty; done).
      rewrite (awaited_filter_ext w w').
      - rewrite length_app. simpl length. lia.
      - intros x Hx. rewrite Hreq.
        destruct (decide (rq = x)) as [<-|_].
        + exfalso. apply Hfree. unfold in_use. rewrite HM0. set_solver +Hx.
        + rewrite Ho; [done|]. intros ->. done. }
    assert (Hin : r ∈ in_use rq l w) by (unfold in_use; set_solver +HrM).
    assert (Hr' : req w' r = req w1 r) by (rewrite Hreq, decide_False; done).
    assert (Hty' : requestType (req w' r) = READ_BLOCK).
    { rewrite Hr'. destruct Hl as (_ & -> & _). done. }
    assert (Hpay : forall x, x ≠ r -> x ≠ rq -> req w' x = req w x).
    { intros x Hxr Hxrq. rewrite Hreq, decide_False by done. by apply Ho. }
    destruct Hcases as [(Hb1 & Hs1 & HDB1 & HND1 & HFR1)
                       |(f & rec & Hf & Hrec & Hseek & Hfull & Hb1 & Hs1 & He1 & HDB1
                         & HND1 & HFR1)].
    + (* the read failed *)
      apply (Res_move_le _ _ _ rq o r l l w w'); try done.
      * by rewrite <- Hw'.
      * by rewrite <- Hw'.
      * by rewrite <- Hw'.
      * intros x Hxr Hxrq. rewrite Hpay by done. done.
      * unfold owned. rewrite HQ'. set_solver +.
      * left. split; [done|]. rewrite Hr', Hb1, Hfh1, Hnone. done.
      * rewrite HM'. done.
      * rewrite HM'. done.
      * intros _ _. rewrite Hr', Hb1. split; [done|]. intros H. by destruct H.
      * intros _. rewrite Hty'. done.
      * intros _. rewrite Hty'. done.
    + (* the read succeeded *)
      apply (Res_gain rq o r l w w' (nextDataBlock w) f (block_read CAP os) rec);
        try done.
      * intros x Hxr. destruct (Hmem x Hxr) as (_ & ?). done.
      * rewrite HM'. done.
      * rewrite HQ'. set_solver +.
      * by rewrite Hr'.
      * by rewrite <- Hw'.
      * by rewrite <- Hw'.
      * by rewrite <- Hw'.
      * by rewrite Hr'.
      * by rewrite Hr'.
      * rewrite Hr', He1. destruct Hl as (_ & _ & _ & -> & _).
        assert (Hfo : fileHandle (req w r) = fileHandle (req w o))
          by (by apply (res_handle _ _ _ _ _ _ _ HR)).
        pose proof (res_files _ _ _ _ _ _ _ HR) as Rfiles.
        rewrite <- Hfo, Hf in Rfiles. destruct Rfiles as (rec0 & HF & Hgf & _).
        rewrite HF, lookup_singleton_eq in Hrec. injection Hrec as <-.
        apply (Hosb r M f rec0); try done.
        by rewrite HF, lookup_singleton_eq.
  - (* a release *)
    rewrite Hty in Hrun.
    by apply (release_Res rq o r l M w w').
Qed.

(** The server's handlers are defined on every request a stream has sent:
    no handler follows a null or dangling pointer. *)
Lemma handleOneRequest_defined (rq o : nat) (l : list nat) (os : OsOutcome) (w : World) :
  Core rq o l w ->
  Res rq o l w ->
  is_Some (handleOneRequest CAP os w).
Proof.
  intros HC HR. unfold handleOneRequest.
  destruct (serverMailboxQueue_ w) as [|r M] eqn:HM0; [done|].
  cbv zeta. rewrite req_set_mailbox.
  assert (HrM : r ∈ serverMailboxQueue_ w) by (rewrite HM0; left).
  assert (Hrrq : r ≠ rq).
  { intros ->. apply (own_root _ _ _ _ (core_own _ _ _ _ _ HC)). clear -HrM. set_solver. }
  assert (Hdr : r ∈ dom (requests w)).
  { apply (core_dom _ _ _ _ _ HC). unfold owned. clear -HrM. set_solver. }
  assert (Hnotag : requestType (req w rq) ≠ RESULT_QUEUE_IS_AWAITING_CLEANUP_).
  { pose proof (own_state _ _ _ _ (core_own _ _ _ _ _ HC)) as Hs.
    unfold is_stream_state, state_ in Hs. intros Heq. rewrite Heq in Hs.
    by destruct Hs as [?|[?|[?|[?|[?|?]]]]]. }
  pose proof (shape_open_ne _ _ _ _ _ (core_shape _ _ _ _ _ HC)) as Horq.
  assert (Hin : r ∈ in_use rq l w) by (unfold in_use; set_solver +HrM).
  assert (Hlive : forall f, fileHandle (req w r) = Some f -> is_Some (fileRecords w !! f)).
  { intros f Hf. pose proof (res_files _ _ _ _ _ _ _ HR) as Rfiles.
    rewrite <- (res_handle _ _ _ _ _ _ _ HR r Hin), Hf in Rfiles.
    destruct Rfiles as (rec & HF & _). rewrite HF, lookup_singleton_eq. done. }
  destruct (own_mailbox _ _ _ _ (core_own _ _ _ _ _ HC) r HrM)
    as [[-> Hst]|[(Hty & Hptr & _)|Hty]].
  - rewrite (own_open_type _ _ _ _ (core_own _ _ _ _ _ HC)).
    pose proof (own_open_ptr _ _ _ _ (core_own _ _ _ _ _ HC)) as Hoptr.
    unfold handleOpenFileRequest.
    destruct (os_new_ok os); [destruct (os_fopen os)|];
      heap_norm; simpl;
      change (req (set_fileRecords ?m ?k ?w0) ?x) with (req w0 x);
      heap_norm; rewrite Hoptr; simpl;
      unfold completeRequestToClientResultQueue; heap_norm;
      change (req (set_fileRecords ?m ?k ?w0) ?x) with (req w0 x);
      heap_norm; rewrite bool_decide_eq_false_2 by done; done.
  - rewrite Hty. unfold handleReadBlockRequest.
    pose proof (res_sent _ _ _ _ _ _ _ HR r HrM Hty) as Hnone.
    destruct (handleReadBlockRequest_io_defined CAP os r (set_mailbox M w) Hnone Hlive)
      as [w1 Hio].
    rewrite Hio. simpl.
    apply handleReadBlockRequest_io_frame in Hio as (HP & HM & Hd & Hl & Ho); [|done].
    rewrite !req_set_mailbox in *.
    destruct Hl as (_&_&_&_&->). rewrite Hptr. simpl.
    unfold completeRequestToClientResultQueue.
    rewrite (Ho rq) by done. rewrite req_set_mailbox.
    by rewrite bool_decide_eq_false_2 by done.
  - rewrite Hty. unfold handleReleaseReadBlockRequest. rewrite req_set_mailbox.
    destruct (dataBlock (req w r)) as [b|] eqn:Hb;
      [|by destruct (res_release _ _ _ _ _ _ _ HR r HrM Hty)].
    simpl. change (req (freeDataBlock b (set_mailbox M w)) r) with (req w r).
    destruct (res_held _ _ _ _ _ _ _ HR r b Hin Hb) as (blk & Hblk & _).
    pose proof (res_files _ _ _ _ _ _ _ HR) as Rfiles.
    rewrite <- (res_handle _ _ _ _ _ _ _ HR r Hin) in Rfiles.
    destruct (fileHandle (req w r)) as [f|] eqn:Hf.
    2:{ destruct Rfiles as [_ HDB]. rewrite HDB in Hblk. done. }
    destruct Rfiles as (rec & HF & _). simpl.
    unfold releaseFileRecordClientRef.
    change (fileRecords (freeDataBlock b (set_mailbox M w))) with (fileRecords w).
    rewrite HF, lookup_singleton_eq. simpl.
    by destruct (bool_decide _).
Qed.

End ServerResources.

(** ** The cursors of the blocks *)

(** [receiveOneBlock] changes the type of the reply it receives and the
    fields of the root, nothing else. *)
Lemma receiveOneBlock_fields (rq x : nat) (w : World) :
  x ≠ rq ->
  clientInt (req (snd (receiveOneBlock rq w)) x) = clientInt (req w x)
  /\ filePosition (req (snd (receiveOneBlock rq w)) x) = filePosition (req w x).
Proof.
  intros Hx. unfold receiveOneBlock.
  destruct (rq_pop (resultQueue (req w rq))) as [[r q]|]; [|done].
  cbv zeta. destruct (isDiscarded _).
  - destruct (bool_decide _); simpl; req_norm; goal_decide; nsubst; done.
  - destruct (bool_decide (waitingForBlocksCount_ _ rq = 0));
      destruct (bool_decide (resultStatus _ = NOERROR)); simpl; unfold set_state_;
      req_norm; goal_decide; nsubst; done.
Qed.

Section Cursors.

Variable IO_DATA_BLOCK_DATA_CAPACITY_BYTES : Z.
Local Abbreviation CAP := IO_DATA_BLOCK_DATA_CAPACITY_BYTES.
Variable limit : Z.
Local Abbreviation Cursor := (Cursor IO_DATA_BLOCK_DATA_CAPACITY_BYTES limit).
Local Abbreviation Core := (Core IO_DATA_BLOCK_DATA_CAPACITY_BYTES).

Lemma Cursor_frame (rq : nat) (l : list nat) (w w' : World) :
  Cursor rq l w ->
  (forall x, x ∈ l ->
     clientInt (req w' x) = clientInt (req w x)
     /\ filePosition (req w' x) = filePosition (req w x)) ->
  (state_ w' rq = STREAM_STATE_OPEN_EOF -> state_ w rq = STREAM_STATE_OPEN_EOF) ->
  Cursor rq l w'.
Proof.
  intros [Hh Hr He] Hsame Hst. constructor.
  - intros x Hx. assert (Hin : x ∈ l) by (destruct l; [done|]; injection Hx as ->; by left).
    destruct (Hsame x Hin) as [-> ->]. by apply Hh.
  - intros y Hy. assert (Hin : y ∈ l) by (destruct l; [done|]; by right).
    destruct (Hsame y Hin) as [-> _]. by apply Hr.
  - intros Hlim Heof. destruct (He Hlim (Hst Heof)) as (x & Hx & Hpos).
    exists x. split; [done|].
    assert (Hin : x ∈ l) by (destruct l; [done|]; injection Hx as ->; by left).
    destruct (Hsame x Hin) as [-> ->]. done.
Qed.

Lemma Cursor_nil (rq : nat) (w : World) :
  state_ w rq ≠ STREAM_STATE_OPEN_EOF -> Cursor rq [] w.
Proof. intros Hst. constructor; try done. intros y Hy. by apply elem_of_nil in Hy. Qed.

Lemma receiveOneBlock_Cursor (rq o : nat) (l : list nat) (w : World) :
  Core rq o l w ->
  state_ w rq ≠ STREAM_STATE_OPENING ->
  Cursor rq l w ->
  Cursor rq l (snd (receiveOneBlock rq w)).
Proof.
  intros HC Hst HK.
  destruct (receiveOneBlock_Core CAP rq o l w HC Hst) as (_ & _ & Hs & _).
  apply (Cursor_frame rq l w); [done| |].
  - intros x Hx. apply receiveOneBlock_fields. intros ->.
    by apply (shape_root _ _ _ _ _ (core_shape _ _ _ _ _ HC)).
  - intros Heof. destruct Hs as [<-|[Hs _]]; [done|]. congruence.
Qed.

Lemma receiveAllBlocks_Cursor (rq o : nat) (l : list nat) :
  forall (fuel : nat) (w w' : World),
    Core rq o l w ->
    state_ w rq ≠ STREAM_STATE_OPENING ->
    Cursor rq l w ->
    receiveAllBlocks fuel rq w = Some w' ->
    Cursor rq l w'.
Proof.
  induction fuel as [|fuel IH]; intros w w' HC Hst HK Hrun.
  - simpl in Hrun. pose proof (receiveOneBlock_Cursor rq o l w HC Hst HK) as HK1.
    destruct (receiveOneBlock rq w) as [[|] w1]; [done|].
    by injection Hrun as <-.
  - simpl in Hrun. pose proof (receiveOneBlock_Cursor rq o l w HC Hst HK) as HK1.
    destruct (receiveOneBlock_Core CAP rq o l w HC Hst) as (HC1 & Hst1 & _).
    destruct (receiveOneBlock rq w) as [[|] w1]; simpl in *.
    + by apply (IH w1 w').
    + by injection Hrun as <-.
Qed.

Lemma receiveWhileFrontPending_Cursor (rq o x : nat) (l : list nat) :
  forall (fuel : nat) (w w' : World),
    Core rq o l w ->
    state_ w rq ≠ STREAM_STATE_OPENING ->
    Cursor rq l w ->
    receiveWhileFrontPending fuel x rq w = Some w' ->
    Cursor rq l w'
    /\ (forall y, y ≠ rq ->
          clientInt (req w' y) = clientInt (req w y)
          /\ filePosition (req w' y) = filePosition (req w y)).
Proof.
  induction fuel as [|fuel IH]; intros w w' HC Hst HK Hrun.
  - simpl in Hrun. pose proof (receiveOneBlock_Cursor rq o l w HC Hst HK) as HK1.
    pose proof (receiveOneBlock_fields rq) as Hf.
    destruct (bool_decide (requestType (req w x) = BLOCK_STATE_PENDING));
      [|by injection Hrun as <-].
    specialize (fun y => Hf y w).
    destruct (receiveOneBlock rq w) as [[|] w1]; [done|].
    by injection Hrun as <-.
  - simpl in Hrun. pose proof (receiveOneBlock_Cursor rq o l w HC Hst HK) as HK1.
    pose proof (receiveOneBlock_fields rq) as Hf. specialize (fun y => Hf y w).
    destruct (receiveOneBlock_Core CAP rq o l w HC Hst) as (HC1 & Hst1 & _).
    destruct (bool_decide (requestType (req w x) = BLOCK_STATE_PENDING));
      [|by injection Hrun as <-].
    destruct (receiveOneBlock rq w) as [[|] w1]; simpl in *.
    + destruct (IH w1 w' HC1 Hst1 HK1 Hrun) as [HK' Hf']. split; [done|].
      intros y Hy. destruct (Hf' y Hy) as [-> ->]. by apply Hf.
    + by injection Hrun as <-.
Qed.

Lemma pollState_Cursor (rq o : nat) (l : list nat) (w : World) :
  Core rq o l w ->
  Cursor rq l w ->
  Cursor rq l (snd (pollState rq w)).
Proof.
  intros HC HK.
  destruct (pollState_Core CAP rq o l w HC) as (_ & HC' & Hopening & Hopen).
  destruct (decide (state_ w rq = STREAM_STATE_OPENING)) as [Hst|Hst].
  - destruct (Hopening Hst) as [-> [->|Hs]]; [done|].
    apply Cursor_nil. destruct Hs as [-> | ->]; done.
  - unfold pollState. simpl.
    destruct (bool_decide (rq_expectedResultCount (resultQueue (req w rq)) > 0)); [|done].
    rewrite bool_decide_eq_false_2 by done.
    by apply (receiveOneBlock_Cursor rq o l w).
Qed.

(** The server writes neither cursors nor positions. *)
Lemma handleOneRequest_fields (rq o : nat) (l : list nat) (os : OsOutcome)
    (w w' : World) (x : nat) :
  Core rq o l w ->
  handleOneRequest CAP os w = Some w' ->
  x ≠ rq ->
  clientInt (req w' x) = clientInt (req w x)
  /\ filePosition (req w' x) = filePosition (req w x).
Proof.
  intros HC Hrun Hx. unfold handleOneRequest in Hrun.
  destruct (serverMailboxQueue_ w) as [|r M] eqn:HM0; [by injection Hrun as <-|].
  cbv zeta in Hrun. rewrite req_set_mailbox in Hrun.
  assert (HrM : r ∈ serverMailboxQueue_ w) by (rewrite HM0; left).
  assert (Hrrq : r ≠ rq).
  { intros ->. apply (own_root _ _ _ _ (core_own _ _ _ _ _ HC)). clear -HrM. set_solver. }
  assert (Hdr : r ∈ dom (requests w)).
  { apply (core_dom _ _ _ _ _ HC). unfold owned. clear -HrM. set_solver. }
  assert (Hnotag : requestType (req w rq) ≠ RESULT_QUEUE_IS_AWAITING_CLEANUP_).
  { pose proof (own_state _ _ _ _ (core_own _ _ _ _ _ HC)) as Hs.
    unfold is_stream_state, state_ in Hs. intros Heq. rewrite Heq in Hs.
    by destruct Hs as [?|[?|[?|[?|[?|?]]]]]. }
  pose proof (shape_open_ne _ _ _ _ _ (core_shape _ _ _ _ _ HC)) as Horq.
  destruct (own_mailbox _ _ _ _ (core_own _ _ _ _ _ HC) r HrM)
    as [[-> Hst]|[(Hty & Hptr & _)|Hty]].
  - rewrite (own_open_type _ _ _ _ (core_own _ _ _ _ _ HC)) in Hrun.
    pose proof (own_open_ptr _ _ _ _ (core_own _ _ _ _ _ HC)) as Hoptr.
    unfold handleOpenFileRequest in Hrun. revert Hrun.
    destruct (os_new_ok os); [destruct (os_fopen os)|];
      heap_norm; simpl;
      change (req (set_fileRecords ?m ?k ?w0) ?x) with (req w0 x);
      heap_norm; rewrite Hoptr; simpl;
      unfold completeRequestToClientResultQueue; heap_norm;
      change (req (set_fileRecords ?m ?k ?w0) ?x) with (req w0 x);
      heap_norm; rewrite bool_decide_eq_false_2 by done; intros [= <-];
      req_norm; goal_decide; nsubst; done.
  - rewrite Hty in Hrun. unfold handleReadBlockRequest in Hrun.
    destruct (handleReadBlockRequest_io CAP os r (set_mailbox M w)) as [w1|] eqn:Hio;
      [|done].
    simpl in Hrun.
    apply handleReadBlockRequest_io_frame in Hio as (HP & HM & Hd & Hl & Ho); [|done].
    rewrite !req_set_mailbox in *.
    assert (Hptr1 : resultQueuePtr (req w1 r) = Some rq).
    { by destruct Hl as (_&_&_&_&->). }
    rewrite Hptr1 in Hrun. simpl in Hrun.
    unfold completeRequestToClientResultQueue in Hrun.
    rewrite (Ho rq) in Hrun by done. rewrite req_set_mailbox in Hrun.
    rewrite bool_decide_eq_false_2 in Hrun by done.
    injection Hrun as <-. rewrite req_upd_req, decide_False by done.
    destruct (decide (x = r)) as [->|Hxr].
    + destruct Hl as (_ & _ & -> & -> & _). done.
    + rewrite Ho by done. done.
  - rewrite Hty in Hrun.
    apply handleReleaseReadBlockRequest_frame in Hrun as (H1 & _).
    unfold req. by rewrite H1.
Qed.

Lemma handleOneRequest_Cursor (rq o : nat) (l : list nat) (os : OsOutcome)
    (w w' : World) :
  Core rq o l w ->
  Cursor rq l w ->
  handleOneRequest CAP os w = Some w' ->
  Cursor rq l w'.
Proof.
  intros HC HK Hrun.
  destruct (handleOneRequest_Core CAP rq o l os w w' HC Hrun) as (_ & Hs & _).
  apply (Cursor_frame rq l w); [done| |congruence].
  intros x Hx. apply (handleOneRequest_fields rq o l os w w' x HC Hrun).
  intros ->. by apply (shape_root _ _ _ _ _ (core_shape _ _ _ _ _ HC)).
Qed.

(** After [seek] the position of the stream is the position asked for. *)
Lemma seek_Cursor (rq o : nat) (l l' : list nat) (w w' : World) (pos ret : Z) :
  Core rq o l w ->
  Cursor rq l w ->
  0 < CAP < SIZE_MODULUS ->
  0 <= pos < SIZE_MODULUS ->
  pos <= limit ->
  seek CAP pos rq w = Some (ret, w') ->
  Core rq o l' w' ->
  Cursor rq l' w'
  /\ (state_ w rq ≠ STREAM_STATE_OPENING -> state_ w rq ≠ STREAM_STATE_ERROR ->
      l' ≠ [] -> streamPosition w' rq = pos).
Proof.
  intros HC HK HB Hpos Hlim Hrun HC'.
  destruct (decide (state_ w rq = STREAM_STATE_OPENING
                    \/ state_ w rq = STREAM_STATE_ERROR)) as [Hgate|Hgate].
  { unfold seek in Hrun.
    assert (Hg : bool_decide (state_ w rq = STREAM_STATE_OPENING)
                 || bool_decide (state_ w rq = STREAM_STATE_ERROR) = true).
    { destruct Hgate as [H|H]; rewrite H; done. }
    rewrite Hg in Hrun. injection Hrun as _ <-.
    rewrite (Core_unique _ _ _ _ _ _ HC' HC). split; [done|]. tauto. }
  assert (Hno : state_ w rq ≠ STREAM_STATE_OPENING) by tauto.
  assert (Hne : state_ w rq ≠ STREAM_STATE_ERROR) by tauto.
  destruct (seek_Core CAP rq o l w pos HC HB Hpos Hno Hne)
    as (w1 & ret' & w'' & l'' & _ & Hrun' & HC'' & Hat & _ & _ & _ & _ & _ & Hres).
  rewrite Hrun in Hrun'. injection Hrun' as <- <-.
  rewrite (Core_unique _ _ _ _ _ _ HC' HC'').
  pose proof (roundDownToBlockSizeAlignedPosition_spec CAP pos ltac:(lia) Hpos)
    as (Ha & Hc0 & Hmod).
  set (a := roundDownToBlockSizeAlignedPosition CAP pos) in *.
  assert (Hapos : 0 <= a < SIZE_MODULUS) by apply size_wrap_range.
  assert (Hca : pos - a = pos mod CAP).
  { rewrite <- Hc0. symmetry. apply size_wrap_small.
    rewrite Ha. pose proof (Z.mod_pos_bound pos CAP ltac:(lia)).
    pose proof (Z.div_mod pos CAP ltac:(lia)). lia. }
  assert (Hhead : forall x, head l'' = Some x ->
            clientInt (req w' x) = pos - a /\ filePosition (req w' x) = a).
  { intros x Hx. destruct l'' as [|y l0]; [done|]. injection Hx as ->.
    destruct (Hat 0%nat x eq_refl) as (_ & Hfp & Hci & _).
    split; [done|]. rewrite Hfp. simpl. rewrite Z.add_0_r. by apply size_wrap_small. }
  split.
  - constructor.
    + intros x Hx. destruct (Hhead x Hx) as [-> ->]. lia.
    + intros y Hy. destruct l'' as [|x l0]; [by apply elem_of_nil in Hy|]. simpl in Hy.
      apply list_elem_of_lookup_1 in Hy as [k Hk].
      destruct (Hat (S k) y Hk) as (_ & _ & Hci & _). done.
    + intros _ Heof. destruct Hres as [(_ & _ & Hs)|(_ & _ & Hs)]; congruence.
  - intros _ _ Hl. unfold streamPosition.
    rewrite (Core_head _ _ _ _ _ HC''). destruct l'' as [|x l0]; [done|]. simpl.
    destruct (Hhead x eq_refl) as [-> ->]. lia.
Qed.

End Cursors.

(** ** What [read] copies *)

Lemma take_drop_take {A : Type} (Y : list A) (n c k : nat) :
  (c + n <= k)%nat -> take n (drop c (take k Y)) = take n (drop c Y).
Proof.
  intros H. rewrite !take_drop_commute, take_take.
  by rewrite Nat.min_l by lia.
Qed.

(** The block of a file at a position within the file: its count of valid
    bytes, and its end-of-file flag. *)
Lemma file_block_valid (B : Z) (bytes : list Z) (p : Z) (eof : bool) (blk : DataBlock) :
  0 < B ->
  file_block B bytes p eof blk ->
  0 <= p <= Z.of_nat (length bytes) ->
  validCountBytes blk = Z.min B (Z.of_nat (length bytes) - p)
  /\ (eof = true <-> Z.of_nat (length bytes) - p < B).
Proof.
  intros HB (Hv & _ & He) Hp. rewrite length_take, length_drop in *.
  split; [lia|]. rewrite He. rewrite bool_decide_eq_true. lia.
Qed.

Lemma file_block_any (B : Z) (bytes : list Z) (p : Z) (eof : bool) (blk : DataBlock) :
  0 < B ->
  file_block B bytes p eof blk -> any_block B p eof blk.
Proof.
  intros HB (Hv & Hd & He). unfold any_block.
  rewrite Hv, Hd, He, length_app, length_fmap, length_replicate, length_take, length_drop.
  split; [lia|]. split; [lia|].
  intros Hf. apply bool_decide_eq_false in Hf. lia.
Qed.

(** The bytes of a block of a file from a cursor on. *)
Lemma file_block_slice (B : Z) (bytes : list Z) (p c N : Z) (eof : bool) (blk : DataBlock) :
  file_block B bytes p eof blk ->
  0 <= p -> 0 <= c -> 0 <= N ->
  c + N <= validCountBytes blk ->
  take (Z.to_nat N) (drop (Z.to_nat c) (data blk))
  = Some <$> take (Z.to_nat N) (drop (Z.to_nat (p + c)) bytes).
Proof.
  intros (Hv & Hd & _) Hp Hc HN Hle. rewrite Hd.
  set (s := take (Z.to_nat B) (drop (Z.to_nat p) bytes)) in *.
  rewrite drop_app_le by (rewrite length_fmap; lia).
  rewrite take_app_le by (rewrite length_drop, length_fmap; lia).
  rewrite <- fmap_drop, <- fmap_take. f_equal. unfold s.
  assert (HNB : (Z.to_nat c + Z.to_nat N <= Z.to_nat B)%nat).
  { unfold s in Hv. rewrite length_take in Hv. lia. }
  rewrite take_drop_take by done. rewrite drop_drop. f_equal. f_equal. lia.
Qed.

Section Copy.

Variable IO_DATA_BLOCK_DATA_CAPACITY_BYTES : Z.
Local Abbreviation CAP := IO_DATA_BLOCK_DATA_CAPACITY_BYTES.
Variable good_block : Z -> bool -> DataBlock -> Prop.
Variable limit : Z.
Variable bytes : list Z.

Hypothesis capacity_range : 0 < CAP < SIZE_MODULUS.

(** Every block the server returns has the shape of a block.  Either no
    bound is put on the positions, or the bound is the length of the file
    [bytes] and every block is a block of that file. *)
Hypothesis good_shape :
  forall pos eof blk, good_block pos eof blk -> any_block CAP pos eof blk.
Hypothesis regime :
  2 * SIZE_MODULUS <= limit
  \/ (limit = Z.of_nat (length bytes) /\ limit < SIZE_MODULUS
      /\ forall pos eof blk,
           0 <= pos <= limit -> good_block pos eof blk -> file_block CAP bytes pos eof blk).

Lemma copyBlockData_facts (x : nat) (m s : Z) (w w2 : World) (status : CopyStatus)
    (N : Z) (copied : list byte_cell) (b : nat) (blk : DataBlock) :
  dataBlock (req w x) = Some b ->
  dataBlocks w !! b = Some blk ->
  good_block (filePosition (req w x)) (isAtEof (req w x)) blk ->
  0 <= clientInt (req w x) <= CAP ->
  0 <= filePosition (req w x) < SIZE_MODULUS ->
  filePosition (req w x) + clientInt (req w x) <= limit ->
  0 < m < SIZE_MODULUS ->
  copyBlockData x m s w = Some (status, N, copied, w2) ->
  let c := clientInt (req w x) in
  let p := filePosition (req w x) in
  w2 = upd_req x (set_clientInt (c + N)) w
  /\ 0 <= N <= m
  /\ Z.of_nat (length copied) = N
  /\ c + N <= CAP
  /\ p + c + N <= limit
  /\ (status = CAN_CONTINUE -> N = m)
  /\ (status = AT_BLOCK_END -> p + CAP <= limit)
  /\ (limit < SIZE_MODULUS ->
      copied = Some <$> take (Z.to_nat N) (drop (Z.to_nat (p + c)) bytes)
      /\ (status = AT_FINAL_BLOCK_END -> p + c + N = limit)
      /\ (status = AT_BLOCK_END -> c + N = CAP)).
Proof.
  intros Hb Hblk Hgood Hc Hp Hlim Hm Hcopy c p.
  assert (Hcont : status = CAN_CONTINUE -> N = m).
  { intros ->. by apply (copyBlockData_continue x m s w w2 N copied). }
  destruct (good_shape _ _ _ Hgood) as (Hlen & Hvalid & Hfull).
  unfold copyBlockData in Hcopy. rewrite Hb in Hcopy. simpl in Hcopy.
  rewrite Hblk in Hcopy. simpl in Hcopy. fold c in Hcopy.
  set (rem := size_wrap (validCountBytes blk - c)) in *.
  pose proof (size_wrap_range (validCountBytes blk - c)) as Hrem. fold rem in Hrem.
  destruct (bool_decide (c + Z.min rem m <= Z.of_nat (length (data blk)))) eqn:Hfit;
    [|done].
  apply bool_decide_eq_true in Hfit. rewrite Hlen in Hfit.
  injection Hcopy as Hstatus HN Hcopied Hw2.
  assert (HN0 : 0 <= N <= m) by lia.
  assert (HcN : c + N <= CAP) by lia.
  assert (Hwrap : size_wrap (c + N) = c + N) by (apply size_wrap_small; lia).
  rewrite HN, Hwrap in Hw2.
  assert (Heof : status ≠ CAN_CONTINUE ->
            size_wrap (rem - N) = 0
            /\ (status = AT_FINAL_BLOCK_END -> isAtEof (req w x) = true)
            /\ (status = AT_BLOCK_END -> isAtEof (req w x) = false)).
  { rewrite <- Hstatus, HN. rewrite req_upd_req, decide_True by done. simpl.
    destruct (bool_decide (size_wrap (rem - N) = 0)) eqn:Hz; [|done].
    apply bool_decide_eq_true in Hz. intros _. split; [done|].
    destruct (isAtEof (req w x)); split; done. }
  assert (HremN : status ≠ CAN_CONTINUE -> N = rem).
  { intros Hs. destruct (Heof Hs) as (Hz & _).
    rewrite size_wrap_small in Hz by lia. lia. }
  split; [done|]. split; [done|].
  split.
  { rewrite <- Hcopied, length_take, length_drop, Hlen. lia. }
  split; [done|].
  destruct regime as [Hfree|(Hlen' & Hfile & Hblock)].
  - (* no bound on the positions *)
    split; [lia|]. split; [done|].
    split; [lia|]. lia.
  - (* the file *)
    assert (Hpl : 0 <= p <= limit) by (fold c p in Hlim; unfold p; lia).
    pose proof (Hblock _ _ _ Hpl Hgood) as Hfb.
    destruct (file_block_valid CAP bytes p _ blk ltac:(lia) Hfb) as [Hv He].
    { fold c in Hlim. lia. }
    fold c p in Hlim.
    assert (Hcv : c <= validCountBytes blk) by lia.
    assert (Hrem' : rem = validCountBytes blk - c).
    { unfold rem. apply size_wrap_small. lia. }
    split; [lia|]. split; [done|].
    split.
    { intros Hs. destruct (Heof ltac:(by rewrite Hs)) as (_ & _ & Hf).
      specialize (Hf Hs). destruct (isAtEof (req w x)); [done|].
      destruct He as [_ He].
      destruct (decide (Z.of_nat (length bytes) - p < CAP)) as [Hlt|Hge]; [|lia].
      specialize (He Hlt). done. }
    intros _. split.
    { rewrite <- Hcopied, HN.
      apply (file_block_slice CAP bytes p c N _ blk Hfb); lia. }
    split.
    + intros Hs. destruct (Heof ltac:(by rewrite Hs)) as (_ & Ht & _).
      specialize (Ht Hs). rewrite Ht in He. destruct He as [He _].
      specialize (He eq_refl). rewrite (HremN ltac:(by rewrite Hs)). lia.
    + intros Hs. destruct (Heof ltac:(by rewrite Hs)) as (_ & _ & Hf).
      specialize (Hf Hs). rewrite (HremN ltac:(by rewrite Hs)).
      rewrite Hrem'. specialize (Hfull Hf) . lia.
Qed.


End Copy.

(** ** The copy loop of [read] *)

Lemma size_wrap_le (z : Z) : 0 <= z -> size_wrap z <= z.
Proof. intros H. unfold size_wrap. apply Z.mod_le; [done|]. by vm_compute. Qed.

Lemma streamPosition_head (B : Z) (rq o x : nat) (l : list nat) (w : World) :
  Core B rq o (x :: l) w ->
  streamPosition w rq = filePosition (req w x) + clientInt (req w x).
Proof.
  intros HC. unfold streamPosition. by rewrite (Core_head _ _ _ _ _ HC).
Qed.

(** The bytes of two copies in a row. *)
Lemma delivered_app (bytes : list Z) (pos N : Z) (copied d : list byte_cell) :
  0 <= pos -> 0 <= N ->
  Z.of_nat (length copied) = N ->
  copied = Some <$> take (Z.to_nat N) (drop (Z.to_nat pos) bytes) ->
  d = Some <$> take (length d) (drop (Z.to_nat (pos + N)) bytes) ->
  copied ++ d = Some <$> take (length (copied ++ d)) (drop (Z.to_nat pos) bytes).
Proof.
  intros Hpos HN Hlen Hc Hd. rewrite length_app.
  replace (length copied) with (Z.to_nat N) by lia.
  rewrite <- take_take_drop, fmap_app, drop_drop.
  replace (Z.to_nat pos + Z.to_nat N)%nat with (Z.to_nat (pos + N)) by lia.
  by rewrite <- Hc, <- Hd.
Qed.

Section ReadFull.

Variable IO_DATA_BLOCK_DATA_CAPACITY_BYTES : Z.
Local Abbreviation CAP := IO_DATA_BLOCK_DATA_CAPACITY_BYTES.
Variable good_path : option nat -> OpenMode -> Prop.
Variable good_file : list Z -> Prop.
Variable good_block : Z -> bool -> DataBlock -> Prop.
Variable limit : Z.
Variable bytes : list Z.
Local Abbreviation Res := (Res good_path good_file good_block).
Local Abbreviation Cursor := (Cursor IO_DATA_BLOCK_DATA_CAPACITY_BYTES limit).
Local Abbreviation Core := (Core IO_DATA_BLOCK_DATA_CAPACITY_BYTES).

Hypothesis capacity_range : 0 < CAP < SIZE_MODULUS.
Hypothesis good_shape :
  forall pos eof blk, good_block pos eof blk -> any_block CAP pos eof blk.
Hypothesis regime :
  2 * SIZE_MODULUS <= limit
  \/ (limit = Z.of_nat (length bytes) /\ limit < SIZE_MODULUS
      /\ forall pos eof blk,
           0 <= pos <= limit -> good_block pos eof blk -> file_block CAP bytes pos eof blk).

Lemma cursor_Res (v : Z) (rq o x : nat) (l : list nat) (w : World) :
  Core rq o l w ->
  Res rq o l w ->
  x ∈ l ->
  Res rq o l (upd_req x (set_clientInt v) w).
Proof.
  intros HC HR Hx.
  pose proof (Core_dom_fifo _ _ _ _ _ _ HC Hx) as Hdx.
  assert (Hxrq : x ≠ rq).
  { intros ->. by apply (shape_root _ _ _ _ _ (core_shape _ _ _ _ _ HC)). }
  apply (Res_frame _ _ _ rq o l w); try done.
  - apply (shape_open_ne _ _ _ _ _ (core_shape _ _ _ _ _ HC)).
  - by eapply Core_root_free.
  - dom_eq.
  - intros y Hy. rewrite req_upd_req. goal_decide; nsubst; done.
  - rewrite req_upd_req, decide_False by done. done.
Qed.

Lemma set_state_Cursor (st : RequestType) (rq o : nat) (l : list nat) (w : World) :
  Core rq o l w ->
  Cursor rq l w ->
  st ≠ STREAM_STATE_OPEN_EOF ->
  Cursor rq l (set_state_ st rq w).
Proof.
  intros HC HK Hst.
  pose proof (Core_dom_root _ _ _ _ _ HC) as [Hdr _].
  apply (Cursor_frame _ _ rq l w); [done| |].
  - intros x Hx. rewrite req_set_state_, decide_False; [done|].
    intros ->. by apply (shape_root _ _ _ _ _ (core_shape _ _ _ _ _ HC)).
  - unfold state_. rewrite req_set_state_, decide_True by done. simpl. done.
Qed.

(** The turn of the copy loop at the end of a block: the next block is
    requested, the block that was read is released, and one reply is
    received. *)
Lemma block_end_Full (rq o x p : nat) (l0 P : list nat) (w : World) :
  Core rq o (x :: l0) w ->
  Res rq o (x :: l0) w ->
  (length (x :: l0) <= prefetchQueueBlockCount)%nat ->
  state_ w rq = STREAM_STATE_OPEN_STREAMING ->
  (forall y, y ∈ l0 -> clientInt (req w y) = 0) ->
  0 <= filePosition (req w x) ->
  filePosition (req w x) + CAP <= limit ->
  globalRequestPool_ w = p :: P ->
  exists w4 w5,
    initLinkAndSendSequentialBlockRequest CAP p rq (set_pool P w) = Some w4
    /\ prefetchQueue_pop_front rq w4 = Some w5
    /\ let w7 := snd (receiveOneBlock rq (flushBlock x rq w5)) in
       Core rq o (l0 ++ [p]) w7
       /\ Res rq o (l0 ++ [p]) w7
       /\ Cursor rq (l0 ++ [p]) w7
       /\ state_ w7 rq = STREAM_STATE_OPEN_STREAMING
       /\ streamPosition w7 rq = size_wrap (filePosition (req w x) + CAP).
Proof.
  intros HC HR Hlen Hst Hzero Hp0 Hnext Hpool.
  destruct (push_Core _ rq o p P (x :: l0) w HC ltac:(done) Hlen Hpool)
    as (t & w4 & _ & _ & Hpush & HC4 & Hs4 & _ & _ & _ & _ & Hp4 & Hframe4).
  destruct (push_Res CAP _ _ _ rq o p P (x :: l0) w w4 HC HR ltac:(done) Hlen Hpool Hpush)
    as [_ HR4].
  simpl in HC4, HR4.
  pose proof (Core_head _ _ _ _ _ HC4) as Hhead4. simpl in Hhead4.
  destruct (flush_front_Core _ rq o x (l0 ++ [p]) w4 HC4)
    as (w5 & Hpop & HC6 & Hs6 & _).
  pose proof (flush_front_Res CAP _ _ _ rq o x (l0 ++ [p]) w4 w5 HC4 HR4 Hpop) as HR6.
  set (w6 := flushBlock x rq w5) in *.
  assert (Hst6 : state_ w6 rq = STREAM_STATE_OPEN_STREAMING) by congruence.
  assert (Hno6 : state_ w6 rq ≠ STREAM_STATE_OPENING) by (by rewrite Hst6).
  exists w4, w5. split; [done|]. split; [done|]. cbv zeta.
  change (flushBlock x rq w5) with w6.
  pose proof (core_shape _ _ _ _ _ HC4) as HS4.
  pose proof (shape_nodup _ _ _ _ _ HS4) as Hnd4.
  apply NoDup_cons in Hnd4 as [Hx4 _].
  assert (Hin : forall y, y ∈ l0 ++ [p] -> y ≠ x /\ y ≠ rq).
  { intros y Hy. split; intros ->; [done|].
    apply (shape_root _ _ _ _ _ HS4). by right. }
  assert (Hxrq : x ≠ rq).
  { intros ->. apply (shape_root _ _ _ _ _ HS4). by left. }
  assert (Hxp : x ≠ p).
  { intros ->. apply Hx4. set_solver +. }
  assert (Hreq6 : forall y, y ∈ l0 ++ [p] -> req w6 y = req w4 y).
  { intros y Hy. destruct (Hin y Hy). by apply flush_front_frame. }
  assert (Hci6 : forall y, y ∈ l0 ++ [p] -> clientInt (req w6 y) = 0).
  { intros y Hy. rewrite Hreq6 by done. destruct (Hin y Hy) as [Hyx Hyrq].
    apply elem_of_app in Hy as [Hy|Hy].
    - assert (Hyp : y ≠ p).
      { intros ->. apply (own_fifo_pool _ _ _ _ (core_own _ _ _ _ _ HC) p).
        + by right.
        + rewrite Hpool. by left. }
      destruct (Hframe4 y Hyrq Hyp) as [c ->]. simpl. by apply Hzero.
    - apply list_elem_of_singleton in Hy as ->. rewrite Hp4. done. }
  assert (Hfx4 : filePosition (req w4 x) = filePosition (req w x)).
  { destruct (Hframe4 x Hxrq Hxp) as [c ->]. done. }
  assert (Hhead6 : forall y, head (l0 ++ [p]) = Some y ->
            filePosition (req w6 y) = size_wrap (filePosition (req w x) + CAP)).
  { intros y Hy. rewrite Hreq6.
    - pose proof (shape_order _ _ _ _ _ HS4) as Hord. simpl in Hord.
      destruct (l0 ++ [p]) as [|z l1]; [done|]. injection Hy as ->.
      destruct Hord as [-> _]. by rewrite Hfx4.
    - destruct (l0 ++ [p]); [done|]. injection Hy as ->. by left. }
  assert (HK6 : Cursor rq (l0 ++ [p]) w6).
  { constructor.
    - intros y Hy. rewrite Hhead6 by done. rewrite Hci6.
      + pose proof (size_wrap_le (filePosition (req w x) + CAP) ltac:(lia)).
        pose proof (size_wrap_range (filePosition (req w x) + CAP)). lia.
      + destruct (l0 ++ [p]); [done|]. injection Hy as ->. by left.
    - intros y Hy. apply Hci6. destruct (l0 ++ [p]); [done|]. by right.
    - intros _ Heof. congruence. }
  destruct (receiveOneBlock_Core CAP rq o (l0 ++ [p]) w6 HC6 Hno6)
    as (HC7 & _ & Hs7 & _).
  split; [done|].
  split; [by apply (receiveOneBlock_Res CAP)|].
  split; [by apply (receiveOneBlock_Cursor CAP limit rq o)|].
  split; [destruct Hs7 as [Hs7|[Hs7 _]]; congruence|].
  destruct (l0 ++ [p]) as [|y l1] eqn:Hl1; [by destruct l0|].
  rewrite (streamPosition_head _ _ _ _ _ _ HC7).
  destruct (Hin y ltac:(by left)) as [_ Hyrq].
  destruct (receiveOneBlock_fields rq y w6 Hyrq) as [-> ->].
  rewrite Hhead6 by done. rewrite Hci6 by (by left). lia.
Qed.

Lemma read_loop_Full (rq o : nat) (itemSize itemCount total : Z) :
  0 <= total < SIZE_MODULUS ->
  forall (fuel : nat) (sofar : Z) (written : list byte_cell) (l : list nat) (w : World)
         (n : Z) (out : list byte_cell) (w' : World),
    Core rq o l w ->
    Res rq o l w ->
    Cursor rq l w ->
    l ≠ [] ->
    (length l <= prefetchQueueBlockCount)%nat ->
    state_ w rq = STREAM_STATE_OPEN_STREAMING ->
    0 <= sofar <= total ->
    read_loop CAP fuel itemSize itemCount total sofar written rq w = Some (n, out, w') ->
    exists l' delivered,
      Core rq o l' w' /\ Res rq o l' w' /\ Cursor rq l' w'
      /\ l' ≠ [] /\ (length l' <= prefetchQueueBlockCount)%nat
      /\ after_read (state_ w' rq)
      /\ out = written ++ delivered
      /\ sofar + Z.of_nat (length delivered) <= total
      /\ (n = itemCount /\ sofar + Z.of_nat (length delivered) = total
          \/ n = (sofar + Z.of_nat (length delivered)) / itemSize
             /\ state_ w' rq ≠ STREAM_STATE_OPEN_STREAMING)
      /\ (limit < SIZE_MODULUS ->
          delivered
          = Some <$> take (length delivered) (drop (Z.to_nat (streamPosition w rq)) bytes)
          /\ streamPosition w' rq = streamPosition w rq + Z.of_nat (length delivered)).
Proof.
  intros Htotal.
  assert (Hdone : forall fuel sofar written l w n out w',
            Core rq o l w -> Res rq o l w -> Cursor rq l w -> l ≠ [] ->
            (length l <= prefetchQueueBlockCount)%nat ->
            state_ w rq = STREAM_STATE_OPEN_STREAMING ->
            0 <= sofar <= total ->
            bool_decide (sofar < total) = false ->
            read_loop CAP fuel itemSize itemCount total sofar written rq w
            = Some (n, out, w') ->
            exists l' delivered,
              Core rq o l' w' /\ Res rq o l' w' /\ Cursor rq l' w'
              /\ l' ≠ [] /\ (length l' <= prefetchQueueBlockCount)%nat
              /\ after_read (state_ w' rq)
              /\ out = written ++ delivered
              /\ sofar + Z.of_nat (length delivered) <= total
              /\ (n = itemCount /\ sofar + Z.of_nat (length delivered) = total
                  \/ n = (sofar + Z.of_nat (length delivered)) / itemSize
                     /\ state_ w' rq ≠ STREAM_STATE_OPEN_STREAMING)
              /\ (limit < SIZE_MODULUS ->
                  delivered
                  = Some <$> take (length delivered)
                               (drop (Z.to_nat (streamPosition w rq)) bytes)
                  /\ streamPosition w' rq
                     = streamPosition w rq + Z.of_nat (length delivered))).
  { intros fuel sofar written l w n out w' HC HR HK Hl Hlen Hst Hsofar Hguard Hrun.
    apply bool_decide_eq_false in Hguard.
    rewrite read_loop_done in Hrun by lia. injection Hrun as <- <- <-.
    exists l, []. rewrite app_nil_r. simpl.
    split; [done|]. split; [done|]. split; [done|]. split; [done|]. split; [done|].
    split; [unfold after_read; rewrite Hst; by left|].
    split; [done|]. split; [lia|]. split; [left; split; [done|lia]|].
    intros _. split; [done|lia]. }
  induction fuel as [|fuel IH];
    intros sofar written l w n out w' HC HR HK Hl Hlen Hst Hsofar Hrun.
  { destruct (bool_decide (sofar < total)) eqn:Hguard.
    - simpl in Hrun. by rewrite Hguard in Hrun.
    - by apply (Hdone 0%nat sofar written l w n out w'). }
  destruct (bool_decide (sofar < total)) eqn:Hguard.
  2:{ by apply (Hdone (S fuel) sofar written l w n out w'). }
  pose proof Hguard as Hlt. apply bool_decide_eq_true in Hlt.
  pose proof (Core_head _ _ _ _ _ HC) as Hhead.
  destruct l as [|x l0]; [done|]. simpl in Hhead.
  assert (Hno : state_ w rq ≠ STREAM_STATE_OPENING) by (by rewrite Hst).
  destruct (receiveWhileFrontPending_Core _ rq o x (x :: l0) (resultQueueLength rq w) w
              HC Hno) as (w1 & Hrecv & HC1 & Hno1 & Hs1 & _); [done|].
  pose proof (receiveWhileFrontPending_Res CAP _ _ _ rq o x (x :: l0) _ w w1 HC HR Hno
                Hrecv) as HR1.
  destruct (receiveWhileFrontPending_Cursor CAP limit rq o x (x :: l0) _ w w1 HC Hno HK
              Hrecv) as [HK1 Hf1].
  assert (Hst1 : state_ w1 rq = STREAM_STATE_OPEN_STREAMING).
  { destruct Hs1 as [->|[? _]]; done. }
  pose proof (core_shape _ _ _ _ _ HC1) as HS1.
  assert (Hxrq : x ≠ rq).
  { intros ->. apply (shape_root _ _ _ _ _ HS1). left. }
  assert (Hpos1 : streamPosition w1 rq = streamPosition w rq).
  { rewrite (streamPosition_head _ _ _ _ _ _ HC1), (streamPosition_head _ _ _ _ _ _ HC).
    destruct (Hf1 x Hxrq) as [-> ->]. done. }
  pose proof (Core_dom_root _ _ _ _ _ HC1) as [Hdr1 _].
  destruct (bool_decide (requestType (req w1 x) = BLOCK_STATE_READY)) eqn:Hready.
  2:{ (* the front block is pending or in error *)
    simpl in Hrun. rewrite Hguard, Hhead in Hrun. simpl in Hrun.
    rewrite Hrecv in Hrun. simpl in Hrun. rewrite Hready in Hrun. simpl in Hrun.
    injection Hrun as <- <- <-.
    exists (x :: l0), []. rewrite app_nil_r. simpl.
    set (st := if bool_decide (requestType (req w1 x) = BLOCK_STATE_ERROR)
               then STREAM_STATE_ERROR else STREAM_STATE_OPEN_BUFFERING).
    assert (Hw2 : (if bool_decide (requestType (req w1 x) = BLOCK_STATE_ERROR)
                   then set_state_ STREAM_STATE_ERROR rq w1
                   else set_state_ STREAM_STATE_OPEN_BUFFERING rq w1)
                  = set_state_ st rq w1).
    { unfold st.
      by destruct (bool_decide (requestType (req w1 x) = BLOCK_STATE_ERROR)). }
    rewrite Hw2.
    assert (Hst' : st = STREAM_STATE_ERROR \/ st = STREAM_STATE_OPEN_BUFFERING).
    { unfold st.
      destruct (bool_decide (requestType (req w1 x) = BLOCK_STATE_ERROR)); tauto. }
    assert (Hs2 : state_ (set_state_ st rq w1) rq = st).
    { unfold state_. rewrite req_set_state_, decide_True by done. done. }
    split.
    { apply set_state_Core; try done.
      - unfold is_stream_state. destruct Hst' as [->| ->]; tauto.
      - destruct Hst' as [->| ->]; done. }
    split; [by apply (set_state_Res CAP)|].
    split; [apply (set_state_Cursor st rq o); try done; destruct Hst' as [->| ->]; done|].
    split; [done|]. split; [done|].
    split; [unfold after_read; rewrite Hs2; destruct Hst' as [->| ->]; tauto|].
    split; [done|]. split; [lia|].
    split.
    { right. rewrite Z.add_0_r, Hs2. split; [done|]. destruct Hst' as [->| ->]; done. }
    intros _. split; [done|].
    rewrite Z.add_0_r, <- Hpos1.
    rewrite (streamPosition_head _ _ _ _ _ _ HC1).
    unfold streamPosition, prefetchQueueHead_.
    rewrite req_set_state_, decide_True by done. simpl.
    fold (prefetchQueueHead_ w1 rq). rewrite (Core_head _ _ _ _ _ HC1). simpl.
    rewrite req_set_state_, decide_False by done. done. }
  apply bool_decide_eq_true in Hready.
  (* the front block is ready: what it holds *)
  assert (Hxin : x ∈ x :: l0) by (by left).
  assert (Hxuse : x ∈ in_use rq (x :: l0) w1) by (unfold in_use; set_solver +).
  pose proof (res_ready _ _ _ _ _ _ _ HR1 x Hxin Hready) as Hsome.
  destruct (dataBlock (req w1 x)) as [b|] eqn:Hb; [|done]. clear Hsome.
  destruct (res_held _ _ _ _ _ _ _ HR1 x b Hxuse Hb) as (blk & Hblk & Hgood).
  destruct (cur_head _ _ _ _ _ HK1 x eq_refl) as [Hc Hlim].
  pose proof (shape_range _ _ _ _ _ HS1 x Hxin) as Hfp.
  assert (Hm : size_wrap (total - sofar) = total - sofar)
    by (apply size_wrap_small; lia).
  destruct (copyBlockData x (size_wrap (total - sofar)) itemSize w1)
    as [[[[status N] copied] w2]|] eqn:Hcopy.
  2:{ simpl in Hrun. rewrite Hguard, Hhead in Hrun. simpl in Hrun.
      rewrite Hrecv in Hrun. simpl in Hrun.
      rewrite bool_decide_eq_true_2 in Hrun by done. rewrite Hcopy in Hrun. done. }
  assert (Hstep :
            read_loop CAP (S fuel) itemSize itemCount total sofar written rq w
            = match status with
              | AT_BLOCK_END =>
                  match allocFileIoRequest w2 with
                  | (None, w3) =>
                      Some (size_wrap (sofar + N) / itemSize, written ++ copied,
                            set_state_ STREAM_STATE_ERROR rq w3)
                  | (Some readBlockReq, w3) =>
                      w4 ← initLinkAndSendSequentialBlockRequest CAP readBlockReq rq w3;
                      w5 ← prefetchQueue_pop_front rq w4;
                      read_loop CAP fuel itemSize itemCount total (size_wrap (sofar + N))
                        (written ++ copied) rq
                        (snd (receiveOneBlock rq (flushBlock x rq w5)))
                  end
              | AT_FINAL_BLOCK_END =>
                  Some (size_wrap (sofar + N) / itemSize, written ++ copied,
                        set_state_ STREAM_STATE_OPEN_EOF rq w2)
              | CAN_CONTINUE =>
                  read_loop CAP fuel itemSize itemCount total (size_wrap (sofar + N))
                    (written ++ copied) rq w2
              end).
  { simpl. rewrite Hguard, Hhead. simpl. rewrite Hrecv. simpl.
    rewrite bool_decide_eq_true_2 by done. rewrite Hcopy. reflexivity. }
  rewrite Hstep in Hrun. clear Hstep.
  rewrite Hm in Hcopy.
  destruct (copyBlockData_facts CAP good_block limit bytes capacity_range good_shape
              regime x (total - sofar) itemSize w1 w2 status N copied b blk Hb Hblk Hgood
              Hc Hfp Hlim ltac:(lia) Hcopy)
    as (Hw2 & HN & Hlenc & HcN & HlimN & Hcont & Hnext & Hfile).
  set (c := clientInt (req w1 x)) in *. set (p := filePosition (req w1 x)) in *.
  assert (HC2 : Core rq o (x :: l0) w2).
  { rewrite Hw2. apply cursor_Core; [done|by left|]. by rewrite Hready. }
  assert (HR2 : Res rq o (x :: l0) w2).
  { rewrite Hw2. by apply cursor_Res. }
  assert (Hst2 : state_ w2 rq = STREAM_STATE_OPEN_STREAMING).
  { rewrite Hw2. unfold state_ in *. rewrite req_upd_req, decide_False by done. done. }
  assert (Hx2 : clientInt (req w2 x) = c + N /\ filePosition (req w2 x) = p).
  { rewrite Hw2, req_upd_req, decide_True by done. done. }
  destruct Hx2 as [Hc2 Hp2].
  assert (Hrest2 : forall y, y ∈ l0 -> clientInt (req w2 y) = 0).
  { intros y Hy. rewrite Hw2, req_upd_req, decide_False.
    - by apply (cur_rest _ _ _ _ _ HK1).
    - intros ->. pose proof (shape_nodup _ _ _ _ _ HS1) as Hnd.
      by apply NoDup_cons in Hnd as [? _]. }
  assert (Hpos2 : streamPosition w2 rq = streamPosition w rq + N).
  { rewrite (streamPosition_head _ _ _ _ _ _ HC2), Hc2, Hp2, <- Hpos1.
    rewrite (streamPosition_head _ _ _ _ _ _ HC1). fold c p. lia. }
  assert (Hposw : streamPosition w rq = p + c).
  { rewrite <- Hpos1. by rewrite (streamPosition_head _ _ _ _ _ _ HC1). }
  assert (Hsofar' : size_wrap (sofar + N) = sofar + N) by (apply size_wrap_small; lia).
  rewrite Hsofar' in Hrun.
  assert (Hcopied : limit < SIZE_MODULUS ->
            copied = Some <$> take (length copied)
                                (drop (Z.to_nat (streamPosition w rq)) bytes)).
  { intros Hf. destruct (Hfile Hf) as (Hcp & _).
    rewrite Hposw. replace (length copied) with (Z.to_nat N) by lia. done. }
  assert (HK2 : forall st, st ≠ STREAM_STATE_OPEN_EOF \/ p + c + N = limit ->
            Cursor rq (x :: l0) (set_state_ st rq w2)
            /\ state_ (set_state_ st rq w2) rq = st
            /\ streamPosition (set_state_ st rq w2) rq = streamPosition w rq + N).
  { intros st Hst'.
    pose proof (Core_dom_root _ _ _ _ _ HC2) as [Hdr2 _].
    assert (Hs : state_ (set_state_ st rq w2) rq = st).
    { unfold state_. rewrite req_set_state_, decide_True by done. done. }
    assert (Hsame : forall y, y ≠ rq -> req (set_state_ st rq w2) y = req w2 y).
    { intros y Hy. rewrite req_set_state_, decide_False by done. done. }
    split; [|split; [done|]].
    - constructor.
      + intros y [= <-]. rewrite Hsame, Hc2, Hp2 by done. lia.
      + intros y Hy. simpl in Hy. rewrite Hsame; [by apply Hrest2|].
        intros ->. apply (shape_root _ _ _ _ _ HS1). by right.
      + intros Hf. rewrite Hs. intros ->. exists x. split; [done|].
        rewrite Hsame, Hc2, Hp2 by done. destruct Hst' as [?|?]; [done|lia].
    - rewrite <- Hpos2. unfold streamPosition, prefetchQueueHead_.
      rewrite req_set_state_, decide_True by done. simpl.
      fold (prefetchQueueHead_ w2 rq). rewrite (Core_head _ _ _ _ _ HC2). simpl.
      rewrite Hsame by done. done. }
  assert (Hno2 : state_ w2 rq ≠ STREAM_STATE_OPENING) by (by rewrite Hst2).
  destruct status.
  - (* CAN_CONTINUE *)
    assert (HKc : Cursor rq (x :: l0) w2).
    { constructor.
      - intros y [= <-]. rewrite Hc2, Hp2. lia.
      - intros y Hy. by apply Hrest2.
      - intros _ Heof. congruence. }
    destruct (IH (sofar + N) (written ++ copied) (x :: l0) w2 n out w' HC2 HR2 HKc
                ltac:(done) Hlen Hst2 ltac:(lia) Hrun)
      as (l' & d & HC' & HR' & HK' & Hl' & Hlen' & Haft & Hout & Hle & Hn & Hfile').
    exists l', (copied ++ d). rewrite length_app, Nat2Z.inj_add.
    split; [done|]. split; [done|]. split; [done|]. split; [done|]. split; [done|].
    split; [done|]. split; [by rewrite app_assoc|]. split; [lia|].
    split.
    { destruct Hn as [[-> Hn]|[-> Hn]]; [left|right]; split; try done; try lia.
      f_equal. lia. }
    intros Hf. destruct (Hfile' Hf) as [Hd Hpos']. split.
    + rewrite <- length_app.
      apply (delivered_app bytes (streamPosition w rq) N); try lia.
      * destruct (Hfile Hf) as (Hcp & _). by rewrite Hposw.
      * by rewrite <- Hpos2.
    + lia.
  - (* AT_BLOCK_END *)
    destruct (globalRequestPool_ w2) as [|q P] eqn:Hpool.
    + unfold allocFileIoRequest in Hrun. rewrite Hpool in Hrun.
      injection Hrun as <- <- <-.
      destruct (HK2 STREAM_STATE_ERROR ltac:(by left)) as (HKe & Hse & Hpe).
      exists (x :: l0), copied.
      split; [apply set_state_Core; try done; unfold is_stream_state; tauto|].
      split; [by apply (set_state_Res CAP)|].
      split; [done|]. split; [done|]. split; [done|].
      split; [unfold after_read; rewrite Hse; tauto|].
      split; [done|]. split; [lia|].
      split; [right; rewrite Hse, Hlenc; done|].
      intros Hf. split; [by apply Hcopied|]. lia.
    + unfold allocFileIoRequest in Hrun. rewrite Hpool in Hrun.
      destruct (block_end_Full rq o x q l0 P w2 HC2 HR2 Hlen Hst2 Hrest2)
        as (w4 & w5 & Hpush & Hpop & HC7 & HR7 & HK7 & Hst7 & Hpos7);
        [rewrite Hp2; lia|rewrite Hp2; by apply Hnext|done|].
      rewrite Hpush in Hrun. simpl in Hrun. rewrite Hpop in Hrun. simpl in Hrun.
      set (w7 := snd (receiveOneBlock rq (flushBlock x rq w5))) in *.
      destruct (IH (sofar + N) (written ++ copied) (l0 ++ [q]) w7 n out w' HC7 HR7 HK7)
        as (l' & d & HC' & HR' & HK' & Hl' & Hlen' & Haft & Hout & Hle & Hn & Hfile');
        [by destruct l0|rewrite length_app; simpl in *; lia|done|lia|done|].
      exists l', (copied ++ d). rewrite length_app, Nat2Z.inj_add.
      split; [done|]. split; [done|]. split; [done|]. split; [done|]. split; [done|].
      split; [done|]. split; [by rewrite app_assoc|]. split; [lia|].
      split.
      { destruct Hn as [[-> Hn]|[-> Hn]]; [left|right]; split; try done; try lia.
        f_equal. lia. }
      intros Hf. destruct (Hfile' Hf) as [Hd Hpos'].
      destruct (Hfile Hf) as (Hcp & _ & Hend). specialize (Hend eq_refl).
      assert (Hp7 : streamPosition w7 rq = streamPosition w rq + N).
      { rewrite Hpos7, Hp2, Hposw. rewrite size_wrap_small; [lia|].
        specialize (Hnext eq_refl). lia. }
      split.
      * rewrite <- length_app.
        apply (delivered_app bytes (streamPosition w rq) N); try lia.
        -- by rewrite Hposw.
        -- by rewrite <- Hp7.
      * lia.
  - (* AT_FINAL_BLOCK_END *)
    injection Hrun as <- <- <-.
    assert (Hend : STREAM_STATE_OPEN_EOF ≠ STREAM_STATE_OPEN_EOF \/ p + c + N = limit
                   \/ ~ limit < SIZE_MODULUS).
    { destruct (decide (limit < SIZE_MODULUS)) as [Hf|Hf]; [|tauto].
      destruct (Hfile Hf) as (_ & He & _). right. left. by apply He. }
    assert (HKe : Cursor rq (x :: l0) (set_state_ STREAM_STATE_OPEN_EOF rq w2)
                  /\ state_ (set_state_ STREAM_STATE_OPEN_EOF rq w2) rq
                     = STREAM_STATE_OPEN_EOF
                  /\ streamPosition (set_state_ STREAM_STATE_OPEN_EOF rq w2) rq
                     = streamPosition w rq + N).
    { destruct Hend as [?|[Hend|Hfree]]; [done|apply HK2; by right|].
      pose proof (Core_dom_root _ _ _ _ _ HC2) as [Hdr2 _].
      assert (Hs : state_ (set_state_ STREAM_STATE_OPEN_EOF rq w2) rq
                   = STREAM_STATE_OPEN_EOF).
      { unfold state_. rewrite req_set_state_, decide_True by done. done. }
      assert (Hsame : forall y, y ≠ rq ->
                req (set_state_ STREAM_STATE_OPEN_EOF rq w2) y = req w2 y).
      { intros y Hy. rewrite req_set_state_, decide_False by done. done. }
      split; [|split; [done|]].
      - constructor.
        + intros y [= <-]. rewrite Hsame, Hc2, Hp2 by done. lia.
        + intros y Hy. simpl in Hy. rewrite Hsame; [by apply Hrest2|].
          intros ->. apply (shape_root _ _ _ _ _ HS1). by right.
        + intros Hf. done.
      - rewrite <- Hpos2. unfold streamPosition, prefetchQueueHead_.
        rewrite req_set_state_, decide_True by done. simpl.
        fold (prefetchQueueHead_ w2 rq). rewrite (Core_head _ _ _ _ _ HC2). simpl.
        rewrite Hsame by done. done. }
    destruct HKe as (HKe & Hse & Hpe).
    exists (x :: l0), copied.
    split; [apply set_state_Core; try done; unfold is_stream_state; tauto|].
    split; [by apply (set_state_Res CAP)|].
    split; [done|]. split; [done|]. split; [done|].
    split; [unfold after_read; rewrite Hse; tauto|].
    split; [done|]. split; [lia|].
    split; [right; rewrite Hse, Hlenc; done|].
    intros Hf. split; [by apply Hcopied|]. lia.
Qed.

End ReadFull.

(** ** The invariant over the life of a stream *)

Lemma Core_open_unique (B : Z) (rq o o' : nat) (l l' : list nat) (w : World) :
  Core B rq o l w -> Core B rq o' l' w -> o = o'.
Proof.
  intros H1 H2.
  pose proof (shape_open _ _ _ _ _ (core_shape _ _ _ _ _ H1)) as E1.
  pose proof (shape_open _ _ _ _ _ (core_shape _ _ _ _ _ H2)) as E2.
  congruence.
Qed.

Lemma receiveAllBlocks_fields (rq : nat) :
  forall (fuel : nat) (w w' : World),
    receiveAllBlocks fuel rq w = Some w' ->
    forall y, y ≠ rq ->
      clientInt (req w' y) = clientInt (req w y)
      /\ filePosition (req w' y) = filePosition (req w y).
Proof.
  induction fuel as [|fuel IH]; intros w w' Hrun y Hy; simpl in Hrun;
    pose proof (receiveOneBlock_fields rq y w Hy) as Hf;
    destruct (receiveOneBlock rq w) as [[|] w1]; simpl in *; try done.
  - by injection Hrun as <-.
  - destruct (IH w1 w' Hrun y Hy) as [-> ->]. done.
  - by injection Hrun as <-.
Qed.

Lemma streamPosition_frame (B : Z) (rq o : nat) (l : list nat) (w w' : World) :
  Core B rq o l w -> Core B rq o l w' ->
  (forall y, y ∈ l ->
     clientInt (req w' y) = clientInt (req w y)
     /\ filePosition (req w' y) = filePosition (req w y)) ->
  streamPosition w' rq = streamPosition w rq.
Proof.
  intros HC HC' Hf. unfold streamPosition.
  rewrite (Core_head _ _ _ _ _ HC), (Core_head _ _ _ _ _ HC').
  destruct l as [|x l]; [done|]. simpl.
  destruct (Hf x) as [-> ->]; [by left|done].
Qed.

Lemma pollState_position (B : Z) (rq o : nat) (l : list nat) (w : World) :
  Core B rq o l w ->
  streamPosition (snd (pollState rq w)) rq = streamPosition w rq.
Proof.
  intros HC.
  destruct (pollState_Core B rq o l w HC) as (_ & HC' & Hopening & _).
  apply (streamPosition_frame B rq o l); [done|done|].
  intros y Hy.
  destruct (decide (state_ w rq = STREAM_STATE_OPENING)) as [Hst|Hst].
  { destruct (Hopening Hst) as [-> _]. by apply elem_of_nil in Hy. }
  assert (Hyrq : y ≠ rq).
  { intros ->. by apply (shape_root _ _ _ _ _ (core_shape _ _ _ _ _ HC)). }
  unfold pollState. simpl.
  destruct (bool_decide (rq_expectedResultCount (resultQueue (req w rq)) > 0)); [|done].
  rewrite bool_decide_eq_false_2 by done.
  by apply receiveOneBlock_fields.
Qed.

(** *** What the operating system delivers *)

Lemma any_block_read (B pos : Z) (os : OsOutcome) :
  0 <= B ->
  any_block B pos
    (negb (bool_decide (validCountBytes (block_read B os) = capacityBytes (block_read B os))))
    (block_read B os).
Proof.
  intros HB. destruct (block_read_valid B HB os) as (Hv & Hc & _ & Hlen).
  pose proof (fread_bytes_length B HB os) as Hr.
  split; [done|]. split; [lia|].
  intros Heof. apply negb_false_iff, bool_decide_eq_true in Heof. lia.
Qed.

Lemma file_block_read (B pos : Z) (bytes : list Z) (os : OsOutcome) :
  0 <= B ->
  os_fread os = drop (Z.to_nat pos) bytes ->
  file_block B bytes pos
    (negb (bool_decide (validCountBytes (block_read B os) = capacityBytes (block_read B os))))
    (block_read B os).
Proof.
  intros HB Hread. destruct (block_read_valid B HB os) as (Hv & Hc & _ & _).
  pose proof (fread_bytes_length B HB os) as Hr.
  unfold file_block. cbv zeta.
  assert (Hs : fread_bytes B os = take (Z.to_nat B) (drop (Z.to_nat pos) bytes)).
  { unfold fread_bytes. by rewrite Hread. }
  rewrite <- Hs. split; [done|]. split.
  - unfold block_read, fread_into. simpl. by rewrite drop_replicate.
  - rewrite Hv, Hc. repeat case_bool_decide; simpl; try done; lia.
Qed.

Section FullSteps.

Variable IO_DATA_BLOCK_DATA_CAPACITY_BYTES : Z.
Local Abbreviation CAP := IO_DATA_BLOCK_DATA_CAPACITY_BYTES.
Variable good_path : option nat -> OpenMode -> Prop.
Variable good_file : list Z -> Prop.
Variable good_block : Z -> bool -> DataBlock -> Prop.
Variable limit : Z.
Variable bytes : list Z.
Local Abbreviation Res := (Res good_path good_file good_block).
Local Abbreviation Cursor := (Cursor IO_DATA_BLOCK_DATA_CAPACITY_BYTES limit).
Local Abbreviation Core := (Core IO_DATA_BLOCK_DATA_CAPACITY_BYTES).
Local Abbreviation Inv := (Inv IO_DATA_BLOCK_DATA_CAPACITY_BYTES).
Local Abbreviation Full :=
  (Full IO_DATA_BLOCK_DATA_CAPACITY_BYTES good_path good_file good_block limit).
Local Abbreviation os_ok :=
  (os_ok IO_DATA_BLOCK_DATA_CAPACITY_BYTES good_path good_file good_block).

Hypothesis capacity_range : 0 < CAP < SIZE_MODULUS.
Hypothesis good_shape :
  forall pos eof blk, good_block pos eof blk -> any_block CAP pos eof blk.
Hypothesis regime :
  2 * SIZE_MODULUS <= limit
  \/ (limit = Z.of_nat (length bytes) /\ limit < SIZE_MODULUS
      /\ forall pos eof blk,
           0 <= pos <= limit -> good_block pos eof blk -> file_block CAP bytes pos eof blk).

(** What a call of [read] returns and where it leaves the stream. *)
Lemma read_or_write_Full (rq o : nat) (l : list nat) (itemSize itemCount n : Z)
    (out : list byte_cell) (w w' : World) :
  Full rq o l w ->
  read_or_write CAP itemSize itemCount rq w = Some (n, out, w') ->
  exists l',
    Full rq o l' w'
    /\ Z.of_nat (length out) <= size_wrap (itemSize * itemCount)
    /\ (n = itemCount /\ Z.of_nat (length out) = size_wrap (itemSize * itemCount)
        /\ state_ (snd (pollState rq w)) rq ≠ STREAM_STATE_OPENING
        /\ state_ (snd (pollState rq w)) rq ≠ STREAM_STATE_OPEN_IDLE
        /\ state_ (snd (pollState rq w)) rq ≠ STREAM_STATE_OPEN_EOF
        /\ state_ (snd (pollState rq w)) rq ≠ STREAM_STATE_ERROR
        \/ n = Z.of_nat (length out) / itemSize
           /\ state_ w' rq ≠ STREAM_STATE_OPEN_STREAMING)
    /\ (limit < SIZE_MODULUS ->
        out = Some <$> take (length out) (drop (Z.to_nat (streamPosition w rq)) bytes)
        /\ streamPosition w' rq = streamPosition w rq + Z.of_nat (length out)).
Proof.
  intros (HI & HR & HK) Hrun.
  destruct (read_or_write_Inv CAP rq o l itemSize itemCount n out w w' HI Hrun)
    as (l'' & HI'').
  pose proof (pollState_position CAP rq o l w (proj1 HI)) as Hpos0.
  pose proof (pollState_Res CAP _ _ _ rq o l w (proj1 HI) HR) as HR0.
  pose proof (pollState_Cursor CAP limit rq o l w (proj1 HI) HK) as HK0.
  apply pollState_Inv in HI. unfold read_or_write in Hrun.
  set (w0 := snd (pollState rq w)) in *.
  destruct HI as [HC (Hlen & Hidle & Hne)].
  pose proof (size_wrap_range (itemSize * itemCount)) as Htotal.
  assert (Hquiet : forall w1,
            Core rq o l w1 -> Res rq o l w1 -> Cursor rq l w1 ->
            streamPosition w1 rq = streamPosition w rq ->
            state_ w1 rq ≠ STREAM_STATE_OPEN_STREAMING ->
            Some (0, @nil byte_cell, w1) = Some (n, out, w') ->
            exists l',
              Full rq o l' w'
              /\ Z.of_nat (length out) <= size_wrap (itemSize * itemCount)
              /\ (n = itemCount
                  /\ Z.of_nat (length out) = size_wrap (itemSize * itemCount)
                  /\ state_ w0 rq ≠ STREAM_STATE_OPENING
                  /\ state_ w0 rq ≠ STREAM_STATE_OPEN_IDLE
                  /\ state_ w0 rq ≠ STREAM_STATE_OPEN_EOF
                  /\ state_ w0 rq ≠ STREAM_STATE_ERROR
                  \/ n = Z.of_nat (length out) / itemSize
                     /\ state_ w' rq ≠ STREAM_STATE_OPEN_STREAMING)
              /\ (limit < SIZE_MODULUS ->
                  out = Some <$> take (length out)
                                   (drop (Z.to_nat (streamPosition w rq)) bytes)
                  /\ streamPosition w' rq = streamPosition w rq + Z.of_nat (length out))).
  { intros w1 HC1 HR1 HK1 Hp1 Hs1 [= <- <- <-].
    exists l. simpl.
    pose proof (Core_unique CAP rq o l l'' w1 HC1 (proj1 HI'')) as <-.
    split; [done|]. split; [lia|]. split; [right; by rewrite Zdiv_0_l|].
    intros _. split; [done|lia]. }
  assert (Hstream : forall w1,
            Core rq o l w1 -> Res rq o l w1 -> Cursor rq l w1 ->
            streamPosition w1 rq = streamPosition w rq ->
            l ≠ [] -> state_ w1 rq = STREAM_STATE_OPEN_STREAMING ->
            state_ w0 rq = STREAM_STATE_OPEN_BUFFERING
            \/ state_ w0 rq = STREAM_STATE_OPEN_STREAMING ->
            streaming_case CAP itemSize itemCount rq w1 = Some (n, out, w') ->
            exists l',
              Full rq o l' w'
              /\ Z.of_nat (length out) <= size_wrap (itemSize * itemCount)
              /\ (n = itemCount
                  /\ Z.of_nat (length out) = size_wrap (itemSize * itemCount)
                  /\ state_ w0 rq ≠ STREAM_STATE_OPENING
                  /\ state_ w0 rq ≠ STREAM_STATE_OPEN_IDLE
                  /\ state_ w0 rq ≠ STREAM_STATE_OPEN_EOF
                  /\ state_ w0 rq ≠ STREAM_STATE_ERROR
                  \/ n = Z.of_nat (length out) / itemSize
                     /\ state_ w' rq ≠ STREAM_STATE_OPEN_STREAMING)
              /\ (limit < SIZE_MODULUS ->
                  out = Some <$> take (length out)
                                   (drop (Z.to_nat (streamPosition w rq)) bytes)
                  /\ streamPosition w' rq = streamPosition w rq + Z.of_nat (length out))).
  { intros w1 HC1 HR1 HK1 Hp1 Hl Hs1 Hs0 Hrun1. unfold streaming_case in Hrun1.
    destruct (read_loop_Full CAP good_path good_file good_block limit bytes capacity_range
                good_shape regime rq o itemSize itemCount _ Htotal _ 0 [] l w1 n out w'
                HC1 HR1 HK1 Hl Hlen Hs1 ltac:(lia) Hrun1)
      as (l' & d & HC' & HR' & HK' & Hl' & Hlen' & Haft & Hout & Hle & Hn & Hfile).
    simpl in Hout. subst d. rewrite Z.add_0_l in *.
    pose proof (Core_unique CAP rq o l' l'' w' HC' (proj1 HI'')) as <-.
    exists l'. split; [done|]. split; [done|]. rewrite <- Hp1. split; [|done].
    destruct Hn as [[-> Hn]|[-> Hn]]; [left|by right].
    split; [done|]. split; [done|]. destruct Hs0 as [-> | ->]; done. }
  destruct (state_ w0 rq) eqn:Hst;
    try (apply (Hquiet w0); try done; by rewrite ?Hst).
  - (* buffering *)
    assert (Hno : state_ w0 rq ≠ STREAM_STATE_OPENING) by (by rewrite Hst).
    destruct (receiveAllBlocks_Core _ rq o l (resultQueueLength rq w0) w0 HC Hno)
      as (w1 & Hrecv & HC1 & Hno1 & Hs1 & _); [done|].
    rewrite Hrecv in Hrun. simpl in Hrun.
    assert (Hl : l ≠ []) by (apply Hne; by left).
    pose proof (receiveAllBlocks_Res CAP _ _ _ rq o l _ w0 w1 HC HR0 Hno Hrecv) as HR1.
    pose proof (receiveAllBlocks_Cursor CAP limit rq o l _ w0 w1 HC Hno HK0 Hrecv) as HK1.
    assert (Hp1 : streamPosition w1 rq = streamPosition w rq).
    { rewrite <- Hpos0. apply (streamPosition_frame CAP rq o l); [done|done|].
      intros y Hy. apply (receiveAllBlocks_fields rq _ w0 w1 Hrecv).
      intros ->. by apply (shape_root _ _ _ _ _ (core_shape _ _ _ _ _ HC)). }
    destruct (bool_decide (state_ w1 rq ≠ STREAM_STATE_OPEN_STREAMING)) eqn:Hb.
    + apply bool_decide_eq_true in Hb. by apply (Hquiet w1).
    + apply bool_decide_eq_false in Hb.
      apply (Hstream w1); try done; [|by left].
      destruct (decide (state_ w1 rq = STREAM_STATE_OPEN_STREAMING)); [done|].
      by exfalso; apply Hb.
  - (* streaming *)
    apply (Hstream w0); try done; [|by right]. apply Hne. by right.
Qed.

Lemma seek_Full (rq o : nat) (l : list nat) (pos ret : Z) (w w' : World) :
  Full rq o l w ->
  0 <= pos < SIZE_MODULUS ->
  pos <= limit ->
  seek CAP pos rq w = Some (ret, w') ->
  exists l',
    Full rq o l' w'
    /\ (state_ w rq ≠ STREAM_STATE_OPENING -> state_ w rq ≠ STREAM_STATE_ERROR ->
        l' ≠ [] -> streamPosition w' rq = pos).
Proof.
  intros (HI & HR & HK) Hpos Hlim Hrun.
  destruct (seek_Inv CAP capacity_range rq o l pos ret w w' HI Hpos Hrun) as (l' & HI').
  exists l'.
  pose proof (seek_Res CAP _ _ _ rq o l l' w w' pos ret (proj1 HI) HR capacity_range Hpos
                Hrun (proj1 HI')) as HR'.
  destruct (seek_Cursor CAP limit rq o l l' w w' pos ret (proj1 HI) HK capacity_range Hpos
              Hlim Hrun (proj1 HI')) as [HK' Hp].
  done.
Qed.

Lemma pollState_Full (rq o : nat) (l : list nat) (w : World) :
  Full rq o l w -> Full rq o l (snd (pollState rq w)).
Proof.
  intros (HI & HR & HK). split; [by apply pollState_Inv|]. split.
  - by apply (pollState_Res CAP _ _ _ rq o l w (proj1 HI)).
  - by apply (pollState_Cursor CAP limit rq o l w (proj1 HI)).
Qed.

Lemma handleOneRequest_Full (rq o : nat) (l : list nat) (os : OsOutcome) (w w' : World) :
  Full rq o l w ->
  os_ok w os ->
  handleOneRequest CAP os w = Some w' ->
  Full rq o l w'.
Proof.
  intros (HI & HR & HK) Hos Hrun.
  destruct HI as [HC Hok].
  destruct (handleOneRequest_Core _ rq o l os w w' HC Hrun) as (HC' & Hs & _).
  split; [split; [done|by rewrite Hs]|]. split.
  - by apply (handleOneRequest_Res CAP _ _ _ rq o l os w w').
  - by apply (handleOneRequest_Cursor CAP limit rq o l os w w').
Qed.

End FullSteps.

(** ** The invariant of every reachable state *)

Lemma startFileIoServer_blank (n x : nat) :
  x ∈ dom (requests (startFileIoServer n)) ->
  x ∈ seq 0 n /\ req (startFileIoServer n) x = blank_request.
Proof.
  intros Hx. unfold startFileIoServer in *. simpl in Hx.
  rewrite dom_list_to_map_L, <- list_fmap_compose in Hx.
  apply elem_of_list_to_set, list_elem_of_fmap in Hx as (y & -> & Hy). simpl.
  split; [done|].
  unfold req. simpl. apply lookup_total_correct.
  apply elem_of_list_to_map.
  - rewrite <- list_fmap_compose. simpl. rewrite list_fmap_id. apply NoDup_seq.
  - apply list_elem_of_fmap. by exists y.
Qed.

Section OpenFull.

Variable IO_DATA_BLOCK_DATA_CAPACITY_BYTES : Z.
Local Abbreviation CAP := IO_DATA_BLOCK_DATA_CAPACITY_BYTES.
Variable good_path : option nat -> OpenMode -> Prop.
Variable good_file : list Z -> Prop.
Variable good_block : Z -> bool -> DataBlock -> Prop.
Variable limit : Z.
Local Abbreviation Res := (Res good_path good_file good_block).
Local Abbreviation Cursor := (Cursor IO_DATA_BLOCK_DATA_CAPACITY_BYTES limit).
Local Abbreviation Core := (Core IO_DATA_BLOCK_DATA_CAPACITY_BYTES).
Local Abbreviation Full :=
  (Full IO_DATA_BLOCK_DATA_CAPACITY_BYTES good_path good_file good_block limit).

(** [open] on a server that holds nothing but free nodes, no file and no
    data block. *)
Lemma open_Res (path_ : nat) (openMode_ : OpenMode) (rq : nat) (w w0 : World) :
  NoDup (globalRequestPool_ w) ->
  serverMailboxQueue_ w = [] ->
  (forall x, x ∈ globalRequestPool_ w -> x ∈ dom (requests w)) ->
  (forall x, x ∈ dom (requests w) ->
     x ∈ globalRequestPool_ w /\ dataBlock (req w x) = None) ->
  dataBlocks w = ∅ ->
  fileRecords w = ∅ ->
  good_path (Some path_) openMode_ ->
  open path_ openMode_ w = (Some rq, w0) ->
  exists o, Core rq o [] w0 /\ state_ w0 rq = STREAM_STATE_OPENING /\ Res rq o [] w0.
Proof.
  intros Hnd HM Hdom Hpool Hblocks Hfiles Hpath Hopen.
  destruct (open_Core CAP path_ openMode_ rq w w0 Hnd HM Hdom Hopen) as (o' & HC & Hst').
  pose proof (shape_open _ _ _ _ _ (core_shape _ _ _ _ _ HC)) as Ho'.
  exists o'. split; [done|]. split; [done|]. clear HC.
  unfold open, allocFileIoRequest in Hopen.
  destruct (globalRequestPool_ w) as [|r P] eqn:HP; [done|].
  simpl in Hopen. destruct P as [|o P]; [done|].
  injection Hopen as <- <-.
  apply NoDup_cons in Hnd as [Hr Hnd]. apply NoDup_cons in Hnd as [Ho Hnd].
  assert (Hro : r ≠ o) by (intros ->; apply Hr; left).
  assert (Hdr : r ∈ dom (requests w)) by (apply Hdom; left).
  assert (Hdo : o ∈ dom (requests w)) by (apply Hdom; right; left).
  set (w0 := upd_req r _ _) in *.
  assert (Hrq : req w0 r =
            set_resultQueue (rq_incrementExpectedResultCount rq_init)
              (set_clientInt 0 (set_links_client None (set_resultStatus 0
                 (set_requestType STREAM_STATE_OPENING
                    (set_links_transit (Some o) (req w r))))))).
  { unfold w0. req_norm. goal_decide; done. }
  assert (Hoq : req w0 o =
            set_resultQueuePtr (Some r) (set_fileHandle None (set_openMode openMode_
              (set_path (Some path_) (set_requestType OPEN_FILE (set_resultStatus 0
                 (set_links_client None (req w o)))))))).
  { unfold w0. req_norm. goal_decide; done. }
  assert (o' = o) as ->.
  { unfold openFileReq in Ho'. rewrite Hrq in Ho'. simpl in Ho'. congruence. }
  assert (HP0 : globalRequestPool_ w0 = P) by done.
  assert (HM0 : serverMailboxQueue_ w0 = [o]) by (unfold w0; simpl; by rewrite HM).
  assert (HQ0 : queued w0 r = []) by (unfold queued; by rewrite Hrq).
  assert (Hd0 : dom (requests w0) = dom (requests w)).
  { unfold w0. dom_eq. }
  assert (Hb0 : dataBlocks w0 = ∅) by done.
  assert (Hf0 : fileRecords w0 = ∅) by done.
  assert (Huse : forall x, x ∈ in_use r [] w0 -> x = o).
  { intros x Hx. unfold in_use in Hx. rewrite HM0, HQ0 in Hx. set_solver. }
  assert (Hob : dataBlock (req w0 o) = None).
  { rewrite Hoq. simpl. by apply Hpool. }
  assert (Hot : requestType (req w0 o) = OPEN_FILE) by (by rewrite Hoq).
  constructor.
  - intros x Hx. rewrite Hd0 in Hx. apply Hpool in Hx as [Hx _].
    unfold owned. rewrite HP0, HM0, HQ0. clear -Hx. set_solver.
  - rewrite Hrq. unfold awaited. rewrite HM0, HQ0. simpl.
    rewrite filter_cons_True by (by rewrite Hot). done.
  - done.
  - intros _. by rewrite Hoq.
  - intros x Hx. by rewrite (Huse x Hx).
  - intros x Hx. rewrite HM0 in Hx. apply list_elem_of_singleton in Hx as ->.
    by rewrite Hot.
  - intros x Hx. rewrite HM0 in Hx. apply list_elem_of_singleton in Hx as ->.
    by rewrite Hot.
  - intros x Hx. rewrite HQ0 in Hx. by apply elem_of_nil in Hx.
  - intros x Hx. by apply elem_of_nil in Hx.
  - intros x Hx. by apply elem_of_nil in Hx.
  - intros x d Hx. rewrite (Huse x Hx), Hob. done.
  - intros x y d Hx Hy. by rewrite (Huse x Hx), (Huse y Hy).
  - intros d Hd. rewrite Hb0 in Hd. set_solver.
  - intros d Hd. rewrite Hb0 in Hd. set_solver.
  - rewrite Hoq. simpl. done.
Qed.

Lemma open_Full (n path_ : nat) (openMode_ : OpenMode) (rq : nat) (w0 : World) :
  good_path (Some path_) openMode_ ->
  open path_ openMode_ (startFileIoServer n) = (Some rq, w0) ->
  exists o, Full rq o [] w0 /\ state_ w0 rq = STREAM_STATE_OPENING
            /\ path (req w0 o) = Some path_.
Proof.
  intros Hpath Hopen.
  destruct (open_Res path_ openMode_ rq (startFileIoServer n) w0)
    as (o & HC & Hst & HR); try done.
  - apply NoDup_seq.
  - intros x Hx. by apply dom_startFileIoServer.
  - intros x Hx. apply startFileIoServer_blank in Hx as [Hx ->]. done.
  - exists o.
    assert (Hp : path (req w0 o) = Some path_).
    { pose proof (own_opening _ _ _ _ (core_own _ _ _ _ _ HC) Hst) as (_ & Hin & _).
      clear HR HC Hst. unfold open, allocFileIoRequest in Hopen.
      destruct (globalRequestPool_ (startFileIoServer n)) as [|r P] eqn:HP; [done|].
      simpl in Hopen. destruct P as [|o' P]; [done|].
      injection Hopen as <- <-.
      assert (Hnd : NoDup (r :: o' :: P)) by (rewrite <- HP; apply NoDup_seq).
      apply NoDup_cons in Hnd as [Hr Hnd].
      assert (Hro : r ≠ o') by (intros ->; apply Hr; left).
      assert (Hdr : r ∈ dom (requests (startFileIoServer n))).
      { apply dom_startFileIoServer. change (r ∈ globalRequestPool_ (startFileIoServer n)).
        rewrite HP. left. }
      assert (Hdo : o' ∈ dom (requests (startFileIoServer n))).
      { apply dom_startFileIoServer. change (o' ∈ globalRequestPool_ (startFileIoServer n)).
        rewrite HP. right. left. }
      set (w0 := upd_req r _ _) in *.
      assert (HM0 : serverMailboxQueue_ w0 = [o']) by done.
      assert (HQ0 : queued w0 r = []).
      { unfold queued, w0. req_norm. goal_decide; done. }
      rewrite HM0, HQ0 in Hin. assert (o = o') as -> by set_solver.
      unfold w0. req_norm. goal_decide; done. }
    split; [|done]. split; [|split; [done|]].
    + split; [done|]. rewrite Hst. split; [simpl; lia|]. split; [done|].
      by intros [?|?].
    + apply Cursor_nil. by rewrite Hst.
Qed.

End OpenFull.

(** *** Any answers of the operating system *)

Section AnyOs.

Variable B : Z.
Hypothesis capacity_range : 0 < B < SIZE_MODULUS.

Local Abbreviation FullA := (Full B any_path any_file (any_block B) (2 * SIZE_MODULUS)).

Lemma os_ok_any (w : World) (os : OsOutcome) :
  os_ok B any_path any_file (any_block B) w os.
Proof.
  split; [done|]. intros r M f rec _ _ _ _ _ _ blk _. apply any_block_read. lia.
Qed.

Lemma step_Full (rq o : nat) (l : list nat) (w w' : World) :
  FullA rq o l w -> step B rq w w' -> exists l', FullA rq o l' w'.
Proof.
  intros HF Hstep.
  destruct Hstep as [pos ret w w' Hpos Hrun|s c n out w w' Hrun|w|os w w' Hrun].
  - destruct (seek_Full B any_path any_file (any_block B) (2 * SIZE_MODULUS) capacity_range
                rq o l pos ret w w' HF Hpos ltac:(lia) Hrun) as (l' & HF' & _).
    by exists l'.
  - destruct (read_or_write_Full B any_path any_file (any_block B) (2 * SIZE_MODULUS) []
                capacity_range ltac:(done) ltac:(by left) rq o l s c n out w w' HF Hrun)
      as (l' & HF' & _).
    by exists l'.
  - exists l. by apply pollState_Full.
  - exists l. apply (handleOneRequest_Full B any_path any_file (any_block B) _ rq o l os w w');
      [done|apply os_ok_any|done].
Qed.

Lemma reachable_Full (rq : nat) (w : World) :
  reachable B rq w -> exists o l, FullA rq o l w.
Proof.
  intros (n & path_ & mode & w0 & Hopen & Hsteps).
  destruct (open_Full B any_path any_file (any_block B) (2 * SIZE_MODULUS) n path_ mode rq w0
              I Hopen) as (o & HF & _).
  exists o. clear Hopen. revert HF. generalize (@nil nat) as l.
  induction Hsteps as [w|w1 w2 w3 Hstep _ IH]; intros l HF.
  - by exists l.
  - destruct (step_Full _ _ _ _ _ HF Hstep) as (l' & HF'). by eapply IH.
Qed.

End AnyOs.

(** *** A file system of regular files *)

Section RegularFile.

Variable B : Z.
Variable fs : nat -> option (list Z).
Variable bytes : list Z.
Hypothesis capacity_range : 0 < B < SIZE_MODULUS.
Hypothesis file_size : Z.of_nat (length bytes) <= LONG_MAX.

Local Abbreviation len := (Z.of_nat (length bytes)).
Local Abbreviation FullF :=
  (Full B (names_file fs bytes) (is_file bytes) (fseek_block B bytes) len).

Lemma to_long_small (z : Z) : 0 <= z <= LONG_MAX -> to_long z = z.
Proof.
  intros Hz. unfold to_long, LONG_MAX in *. cbv zeta.
  rewrite Z.mod_small by lia. by rewrite bool_decide_eq_true_2 by lia.
Qed.

Lemma file_size_wraps : len < SIZE_MODULUS.
Proof. unfold LONG_MAX, SIZE_MODULUS in *. lia. Qed.

Lemma os_ok_regular (w : World) :
  os_ok B (names_file fs bytes) (is_file bytes) (fseek_block B bytes) w (regular_os B fs w).
Proof.
  split.
  - intros r M bs HM _ [Hmode Hpath]. unfold regular_os. rewrite HM. simpl.
    rewrite Hmode. simpl. unfold is_file. congruence.
  - intros r M f rec HM _ Hf Hrec Hfile Hseek blk _. unfold blk.
    unfold regular_os in *. rewrite HM in *. simpl in *. rewrite Hf in *. simpl in *.
    rewrite Hrec in *. unfold is_file in Hfile. rewrite Hfile in *.
    case_bool_decide as Hoff; [|done].
    split; [done|].
    by apply file_block_read; [lia|].
Qed.

Lemma file_regime :
  2 * SIZE_MODULUS <= len
  \/ (len = Z.of_nat (length bytes) /\ len < SIZE_MODULUS
      /\ forall pos eof blk,
           0 <= pos <= len -> fseek_block B bytes pos eof blk ->
           file_block B bytes pos eof blk).
Proof.
  right. split; [done|]. split; [apply file_size_wraps|].
  intros pos eof blk Hpos [_ Hblk]. rewrite to_long_small in Hblk by lia. done.
Qed.

Lemma file_shape (pos : Z) (eof : bool) (blk : DataBlock) :
  fseek_block B bytes pos eof blk -> any_block B pos eof blk.
Proof. intros [_ Hblk]. revert Hblk. apply file_block_any. lia. Qed.

Lemma file_step_Full (rq o : nat) (l : list nat) (w w' : World) :
  FullF rq o l w -> file_step B fs len rq w w' -> exists l', FullF rq o l' w'.
Proof.
  intros HF Hstep.
  destruct Hstep as [pos ret w w' Hpos Hrun|s c n out w w' Hrun|w|w w' Hrun].
  - pose proof file_size_wraps as Hwrap.
    destruct (seek_Full B _ _ _ len capacity_range rq o l pos ret w w' HF ltac:(lia)
                ltac:(lia) Hrun) as (l' & HF' & _).
    by exists l'.
  - destruct (read_or_write_Full B _ _ _ len bytes capacity_range file_shape file_regime
                rq o l s c n out w w' HF Hrun) as (l' & HF' & _).
    by exists l'.
  - exists l. by apply pollState_Full.
  - exists l. apply (handleOneRequest_Full B _ _ _ _ rq o l (regular_os B fs w) w w');
      [done|apply os_ok_regular|done].
Qed.

Lemma file_reachable_Full (rq : nat) (w : World) :
  file_reachable B fs bytes rq w -> exists o l, FullF rq o l w.
Proof.
  intros (n & path_ & w0 & Hfs & Hopen & Hsteps).
  destruct (open_Full B (names_file fs bytes) (is_file bytes) (fseek_block B bytes) len
              n path_ READ_ONLY_OPEN_MODE rq w0 (conj eq_refl Hfs) Hopen) as (o & HF & _).
  exists o. clear Hopen. revert HF. generalize (@nil nat) as l.
  induction Hsteps as [w|w1 w2 w3 Hstep _ IH]; intros l HF.
  - by exists l.
  - destruct (file_step_Full _ _ _ _ _ HF Hstep) as (l' & HF'). by eapply IH.
Qed.

End RegularFile.

(** ** The server's turn *)

(** One request handled by the server: it is taken off the mailbox, and its
    reply, if it has one, is appended to the result queue of the stream. *)
Lemma handleOneRequest_queues (B : Z) (rq o r : nat) (l M : list nat) (os : OsOutcome)
    (w w' : World) :
  Core B rq o l w ->
  handleOneRequest B os w = Some w' ->
  serverMailboxQueue_ w = r :: M ->
  serverMailboxQueue_ w' = M
  /\ queued w' rq
     = queued w rq
       ++ filter (fun x => requestType (req w x) ≠ RELEASE_READ_BLOCK) [r]
  /\ (forall y, y ≠ r -> requestType (req w' y) = requestType (req w y)).
Proof.
  intros HC Hrun HM0. unfold handleOneRequest in Hrun. rewrite HM0 in Hrun.
  cbv zeta in Hrun. rewrite req_set_mailbox in Hrun.
  assert (HrM : r ∈ serverMailboxQueue_ w) by (rewrite HM0; left).
  assert (Hrrq : r ≠ rq).
  { intros ->. apply (own_root _ _ _ _ (core_own _ _ _ _ _ HC)). clear -HrM. set_solver. }
  assert (Hdr : r ∈ dom (requests w)).
  { apply (core_dom _ _ _ _ _ HC). unfold owned. clear -HrM. set_solver. }
  pose proof (Core_dom_root _ _ _ _ _ HC) as [Hdrq Hdo].
  assert (Hnotag : requestType (req w rq) ≠ RESULT_QUEUE_IS_AWAITING_CLEANUP_).
  { pose proof (own_state _ _ _ _ (core_own _ _ _ _ _ HC)) as Hs.
    unfold is_stream_state, state_ in Hs. intros Heq. rewrite Heq in Hs.
    by destruct Hs as [?|[?|[?|[?|[?|?]]]]]. }
  pose proof (shape_open_ne _ _ _ _ _ (core_shape _ _ _ _ _ HC)) as Horq.
  destruct (own_mailbox _ _ _ _ (core_own _ _ _ _ _ HC) r HrM)
    as [[-> Hst]|[(Hty & Hptr & _)|Hty]].
  - pose proof (own_open_type _ _ _ _ (core_own _ _ _ _ _ HC)) as Hoty.
    rewrite Hoty in Hrun.
    pose proof (own_open_ptr _ _ _ _ (core_own _ _ _ _ _ HC)) as Hoptr.
    rewrite filter_cons_True by (by rewrite Hoty). simpl.
    unfold handleOpenFileRequest in Hrun. revert Hrun.
    destruct (os_new_ok os); [destruct (os_fopen os)|];
      heap_norm; simpl;
      change (req (set_fileRecords ?m ?k ?w0) ?x) with (req w0 x);
      heap_norm; rewrite Hoptr; simpl;
      unfold completeRequestToClientResultQueue; heap_norm;
      change (req (set_fileRecords ?m ?k ?w0) ?x) with (req w0 x);
      heap_norm; rewrite bool_decide_eq_false_2 by done; intros [= <-];
      (split; [done|]; split;
       [unfold queued; req_norm; goal_decide; nsubst; done
       |intros y Hy; req_norm; goal_decide; nsubst; done]).
  - rewrite Hty in Hrun. unfold handleReadBlockRequest in Hrun.
    rewrite filter_cons_True by (by rewrite Hty). simpl.
    destruct (handleReadBlockRequest_io B os r (set_mailbox M w)) as [w1|] eqn:Hio;
      [|done].
    simpl in Hrun.
    apply handleReadBlockRequest_io_frame in Hio as (HP & HM & Hd & Hl & Ho); [|done].
    rewrite !req_set_mailbox in *.
    assert (Hptr1 : resultQueuePtr (req w1 r) = Some rq).
    { by destruct Hl as (_&_&_&_&->). }
    rewrite Hptr1 in Hrun. simpl in Hrun.
    unfold completeRequestToClientResultQueue in Hrun.
    rewrite (Ho rq) in Hrun by done. rewrite req_set_mailbox in Hrun.
    rewrite bool_decide_eq_false_2 in Hrun by done.
    injection Hrun as <-.
    split; [done|]. split.
    + unfold queued. rewrite req_upd_req, decide_True by done. simpl.
      rewrite (Ho rq) by done. by rewrite req_set_mailbox.
    + intros y Hy. rewrite req_upd_req. destruct (decide (rq = y)) as [<-|_]; simpl.
      * rewrite (Ho rq) by done. by rewrite req_set_mailbox.
      * rewrite Ho by done. by rewrite req_set_mailbox.
  - rewrite Hty in Hrun.
    rewrite filter_cons_False by (rewrite Hty; by intros H).
    rewrite app_nil_r.
    apply handleReleaseReadBlockRequest_frame in Hrun as (H1 & H2 & H3).
    split; [done|]. unfold queued, req. rewrite H1. done.
Qed.

Section Serve.

Variable B : Z.
Hypothesis capacity_range : 0 < B < SIZE_MODULUS.
Variable fs : nat -> option (list Z).

Local Abbreviation FullA := (Full B any_path any_file (any_block B) (2 * SIZE_MODULUS)).

Lemma handleOneRequest_turn (rq o r : nat) (l M : list nat) (os : OsOutcome) (w : World) :
  FullA rq o l w ->
  serverMailboxQueue_ w = r :: M ->
  exists w',
    handleOneRequest B os w = Some w'
    /\ FullA rq o l w'
    /\ serverMailboxQueue_ w' = M
    /\ queued w' rq
       = queued w rq ++ filter (fun x => requestType (req w x) ≠ RELEASE_READ_BLOCK) [r]
    /\ filter (fun x => requestType (req w' x) ≠ RELEASE_READ_BLOCK) M
       = filter (fun x => requestType (req w x) ≠ RELEASE_READ_BLOCK) M.
Proof.
  intros HF HM0. pose proof HF as ([HC _] & HR & _).
  destruct (handleOneRequest_defined B _ _ _ rq o l os w HC HR) as [w' Hrun].
  exists w'. split; [done|].
  destruct (handleOneRequest_queues B rq o r l M os w w' HC Hrun HM0) as (HM & HQ & Hty).
  split.
  { apply (handleOneRequest_Full B any_path any_file (any_block B) _ rq o l os w w');
      [done|by apply os_ok_any|done]. }
  split; [done|]. split; [done|].
  apply awaited_filter_ext. intros x Hx. apply Hty. intros ->.
  pose proof (own_transit _ _ _ _ (core_own _ _ _ _ _ HC)) as Hnd.
  apply transit_facts in Hnd as (_ & HndM & _). rewrite HM0 in HndM.
  by apply NoDup_cons in HndM as [? _].
Qed.

Lemma handleAllPendingRequests_Full (rq o : nat) (l : list nat) :
  forall (fuel : nat) (w : World),
    FullA rq o l w ->
    (length (serverMailboxQueue_ w) <= fuel)%nat ->
    exists w',
      handleAllPendingRequests fuel B fs w = Some w'
      /\ FullA rq o l w'
      /\ serverMailboxQueue_ w' = []
      /\ queued w' rq
         = queued w rq
           ++ filter (fun x => requestType (req w x) ≠ RELEASE_READ_BLOCK)
                (serverMailboxQueue_ w).
Proof.
  induction fuel as [|fuel IH]; intros w HF Hfuel.
  - destruct (serverMailboxQueue_ w) as [|r M] eqn:HM0; [|simpl in Hfuel; lia].
    exists w. simpl. rewrite HM0, app_nil_r. done.
  - destruct (serverMailboxQueue_ w) as [|r M] eqn:HM0.
    { exists w. simpl. rewrite HM0, app_nil_r. done. }
    destruct (handleOneRequest_turn rq o r l M (regular_os B fs w) w HF HM0)
      as (w1 & Hrun & HF1 & HM1 & HQ1 & Hfilter).
    destruct (IH w1 HF1) as (w' & Hrest & HF' & HM' & HQ').
    { rewrite HM1. simpl in Hfuel. lia. }
    exists w'. simpl. rewrite HM0, Hrun. simpl.
    split; [done|]. split; [done|]. split; [done|].
    rewrite HQ', HQ1, HM1, Hfilter, <- app_assoc. f_equal.
    rewrite (filter_cons _ r M). rewrite !filter_cons, filter_nil.
    by destruct (decide _).
Qed.

End Serve.

(** X9.  When the allocator returns an object, whatever [fopen], [fseek],
    [fread] and [feof] answer, the server handles the request at the head of
    the mailbox in every reachable state of a read stream: none of the
    handlers' assertions fails, no file handle or data block the handler
    needs is missing, and exactly that request leaves the mailbox. *)
Theorem server_handles_every_request (B : Z) (rq : nat) (os : OsOutcome) (w : World) :
  0 < B < SIZE_MODULUS ->
  reachable B rq w ->
  os_new_ok os = true ->
  exists w',
    handleOneRequest B os w = Some w'
    /\ serverMailboxQueue_ w' = tail (serverMailboxQueue_ w).
Proof.
  intros HB Hreach _.
  destruct (reachable_Full B HB rq w Hreach) as (o & l & HF).
  destruct (serverMailboxQueue_ w) as [|r M] eqn:HM0.
  - exists w. unfold handleOneRequest. rewrite HM0. done.
  - destruct (handleOneRequest_turn B HB rq o r l M os w HF HM0) as (w' & Hrun & _ & HM & _).
    by exists w'.
Qed.

Lemma reachable_demo_seeked : reachable demo_capacity demo_stream (demo_seeked 0).
Proof.
  eapply (reachable_seek _ 0 0 _ demo_idle).
  - apply reachable_demo_idle.
  - unfold SIZE_MODULUS. lia.
  - vm_compute. reflexivity.
Qed.

Lemma server_handles_every_request_witness :
  (0 < demo_capacity < SIZE_MODULUS)
  /\ reachable demo_capacity demo_stream (demo_seeked 0)
  /\ os_new_ok os_short_read = true
  /\ exists w',
       handleOneRequest demo_capacity os_short_read (demo_seeked 0) = Some w'
       /\ serverMailboxQueue_ w' = tail (serverMailboxQueue_ (demo_seeked 0)).
Proof.
  assert (HB : 0 < demo_capacity < SIZE_MODULUS) by (by vm_compute).
  split; [done|]. split; [apply reachable_demo_seeked|]. split; [reflexivity|].
  apply (server_handles_every_request demo_capacity demo_stream os_short_read
           (demo_seeked 0) HB reachable_demo_seeked eq_refl).
Defined.

(** X10.  [handleAllPendingRequests] on a file system of regular files, in
    a reachable state of a read stream: the loop ends with the mailbox
    empty, and it has appended to the result queue of the stream the
    requests of the mailbox that are not releases, in the order in which
    they were sent. *)
Theorem handleAllPendingRequests_answers_in_order (B : Z) (fs : nat -> option (list Z))
    (rq : nat) (w : World) :
  0 < B < SIZE_MODULUS ->
  reachable B rq w ->
  exists w',
    serve B fs w = Some w'
    /\ serverMailboxQueue_ w' = []
    /\ queued w' rq
       = queued w rq
         ++ filter (fun x => requestType (req w x) ≠ RELEASE_READ_BLOCK)
              (serverMailboxQueue_ w).
Proof.
  intros HB Hreach.
  destruct (reachable_Full B HB rq w Hreach) as (o & l & HF).
  destruct (handleAllPendingRequests_Full B HB fs rq o l _ w HF (le_n _))
    as (w' & Hrun & _ & HM & HQ).
  by exists w'.
Qed.

Lemma handleAllPendingRequests_answers_in_order_witness :
  (0 < demo_capacity < SIZE_MODULUS)
  /\ reachable demo_capacity demo_stream (demo_seeked 0)
  /\ exists w',
       serve demo_capacity demo_fs (demo_seeked 0) = Some w'
       /\ serverMailboxQueue_ w' = []
       /\ queued w' demo_stream
          = queued (demo_seeked 0) demo_stream
            ++ filter (fun x => requestType (req (demo_seeked 0) x) ≠ RELEASE_READ_BLOCK)
                 (serverMailboxQueue_ (demo_seeked 0)).
Proof.
  assert (HB : 0 < demo_capacity < SIZE_MODULUS) by (by vm_compute).
  split; [done|]. split; [apply reachable_demo_seeked|].
  apply (handleAllPendingRequests_answers_in_order demo_capacity demo_fs demo_stream
           (demo_seeked 0) HB reachable_demo_seeked).
Defined.

(** X11.  No request node is lost.  In every reachable state each node of
    the server's store is the stream itself, its OPEN_FILE request, a block
    of the prefetch queue, a free node of the pool, a request in the
    mailbox or a reply in the result queue of the stream. *)
Theorem no_request_is_lost (B : Z) (rq x : nat) (w : World) :
  0 < B < SIZE_MODULUS ->
  reachable B rq w ->
  x ∈ dom (requests w) ->
  x = rq \/ openFileReq w rq = Some x \/ x ∈ prefetchQueue w rq
  \/ x ∈ globalRequestPool_ w \/ x ∈ serverMailboxQueue_ w \/ x ∈ queued w rq.
Proof.
  intros HB Hreach Hx.
  destruct (reachable_Full B HB rq w Hreach) as (o & l & [HC _] & HR & _).
  rewrite (Core_prefetchQueue B rq o l w HC).
  pose proof (shape_open _ _ _ _ _ (core_shape _ _ _ _ _ HC)) as Ho.
  apply (res_cover _ _ _ _ _ _ _ HR) in Hx. unfold owned in Hx.
  rewrite Ho. clear -Hx. set_solver.
Qed.

Lemma no_request_is_lost_witness :
  (0 < demo_capacity < SIZE_MODULUS)
  /\ reachable demo_capacity demo_stream (demo_seeked 0)
  /\ 30%nat ∈ dom (requests (demo_seeked 0))
  /\ (30%nat = demo_stream \/ openFileReq (demo_seeked 0) demo_stream = Some 30%nat
      \/ 30%nat ∈ prefetchQueue (demo_seeked 0) demo_stream
      \/ 30%nat ∈ globalRequestPool_ (demo_seeked 0)
      \/ 30%nat ∈ serverMailboxQueue_ (demo_seeked 0)
      \/ 30%nat ∈ queued (demo_seeked 0) demo_stream).
Proof.
  assert (HB : 0 < demo_capacity < SIZE_MODULUS) by (by vm_compute).
  assert (Hx : 30%nat ∈ dom (requests (demo_seeked 0))).
  { apply elem_of_dom. vm_compute. eexists. reflexivity. }
  split; [done|]. split; [apply reachable_demo_seeked|]. split; [exact Hx|].
  apply (no_request_is_lost demo_capacity demo_stream 30 (demo_seeked 0) HB
           reachable_demo_seeked Hx).
Defined.

(** X12.  The file record counts its clients.  In every reachable state the
    server holds no file record and no data block, or it holds exactly one
    file record, and the record's count of dependent clients is one for
    the open stream plus one for each data block in the store. *)
Theorem file_record_counts_its_clients (B : Z) (rq : nat) (w : World) :
  0 < B < SIZE_MODULUS ->
  reachable B rq w ->
  (fileRecords w = ∅ /\ dataBlocks w = ∅)
  \/ (exists f rec,
        fileRecords w = {[ f := rec ]}
        /\ dependentClientCount rec = 1 + Z.of_nat (size (dataBlocks w))).
Proof.
  intros HB Hreach.
  destruct (reachable_Full B HB rq w Hreach) as (o & l & _ & HR & _).
  pose proof (res_files _ _ _ _ _ _ _ HR) as Hfiles.
  destruct (fileHandle (req w o)) as [f|].
  - destruct Hfiles as (rec & Hrec & _ & Hcount). right. by exists f, rec.
  - by left.
Qed.

Lemma file_record_counts_its_clients_witness :
  (0 < demo_capacity < SIZE_MODULUS)
  /\ reachable demo_capacity demo_stream (demo_replied 0)
  /\ size (dataBlocks (demo_replied 0)) = 20%nat
  /\ ((fileRecords (demo_replied 0) = ∅ /\ dataBlocks (demo_replied 0) = ∅)
      \/ (exists f rec,
            fileRecords (demo_replied 0) = {[ f := rec ]}
            /\ dependentClientCount rec
               = 1 + Z.of_nat (size (dataBlocks (demo_replied 0))))).
Proof.
  assert (HB : 0 < demo_capacity < SIZE_MODULUS) by (by vm_compute).
  split; [done|]. split; [apply reachable_demo_replied|].
  split; [by vm_compute|].
  apply (file_record_counts_its_clients demo_capacity demo_stream (demo_replied 0) HB
           reachable_demo_replied).
Defined.

(** X13.  No data block is leaked, shared or dangling.  In every reachable
    state each data block of the store is held by exactly one request
    among the blocks of the prefetch queue, the mailbox and the result
    queue, and every data block such a request holds is in the store. *)
Theorem data_block_has_one_holder (B : Z) (rq : nat) (w : World) :
  0 < B < SIZE_MODULUS ->
  reachable B rq w ->
  let holders := prefetchQueue w rq ++ serverMailboxQueue_ w ++ queued w rq in
  (forall d, d ∈ dom (dataBlocks w) ->
     exists x, x ∈ holders /\ dataBlock (req w x) = Some d
               /\ forall y, y ∈ holders -> dataBlock (req w y) = Some d -> y = x)
  /\ (forall x d, x ∈ holders -> dataBlock (req w x) = Some d -> d ∈ dom (dataBlocks w)).
Proof.
  intros HB Hreach.
  destruct (reachable_Full B HB rq w Hreach) as (o & l & [HC _] & HR & _).
  rewrite (Core_prefetchQueue B rq o l w HC). cbv zeta.
  fold (in_use rq l w). split.
  - intros d Hd. destruct (res_noleak _ _ _ _ _ _ _ HR d Hd) as (x & Hx & Hxd).
    exists x. split; [done|]. split; [done|].
    intros y Hy Hyd. by apply (res_inj _ _ _ _ _ _ _ HR y x d).
  - intros x d Hx Hxd. destruct (res_held _ _ _ _ _ _ _ HR x d Hx Hxd) as (blk & Hblk & _).
    apply elem_of_dom. by exists blk.
Qed.

Lemma data_block_has_one_holder_witness :
  (0 < demo_capacity < SIZE_MODULUS)
  /\ reachable demo_capacity demo_stream (demo_replied 0)
  /\ dataBlock (req (demo_replied 0) 2%nat) = Some 0%nat
  /\ let holders :=
       prefetchQueue (demo_replied 0) demo_stream
       ++ serverMailboxQueue_ (demo_replied 0) ++ queued (demo_replied 0) demo_stream in
     (forall d, d ∈ dom (dataBlocks (demo_replied 0)) ->
        exists x, x ∈ holders /\ dataBlock (req (demo_replied 0) x) = Some d
                  /\ forall y, y ∈ holders ->
                       dataBlock (req (demo_replied 0) y) = Some d -> y = x)
     /\ (forall x d, x ∈ holders -> dataBlock (req (demo_replied 0) x) = Some d ->
           d ∈ dom (dataBlocks (demo_replied 0))).
Proof.
  assert (HB : 0 < demo_capacity < SIZE_MODULUS) by (by vm_compute).
  split; [done|]. split; [apply reachable_demo_replied|].
  split; [by vm_compute|].
  apply (data_block_has_one_holder demo_capacity demo_stream (demo_replied 0) HB
           reachable_demo_replied).
Defined.

(** X14.  The count of expected results of the stream's result queue is
    the number of replies it awaits: the requests in the mailbox that are
    not releases, plus the replies in the result queue that have not been
    received.  The count does not wrap around while the store has fewer
    than [2^64] nodes. *)
Theorem expected_results_are_awaited_replies (B : Z) (rq : nat) (w : World) :
  0 < B < SIZE_MODULUS ->
  reachable B rq w ->
  Z.of_nat (size (requests w)) < SIZE_MODULUS ->
  rq_expectedResultCount (resultQueue (req w rq)) = awaited w rq.
Proof.
  intros HB Hreach Hsize.
  destruct (reachable_Full B HB rq w Hreach) as (o & l & [HC _] & HR & _).
  rewrite (res_expected _ _ _ _ _ _ _ HR). apply size_wrap_small.
  unfold awaited. split; [lia|].
  pose proof (own_transit _ _ _ _ (core_own _ _ _ _ _ HC)) as Hnd.
  apply NoDup_app in Hnd as (_ & _ & Hnd).
  assert (Hsub : forall x, x ∈ serverMailboxQueue_ w ++ queued w rq -> x ∈ dom (requests w)).
  { intros x Hx. apply (core_dom _ _ _ _ _ HC). unfold owned. clear -Hx. set_solver. }
  assert (Hle : (length (serverMailboxQueue_ w ++ queued w rq) <= size (requests w))%nat).
  { rewrite <- size_dom.
    rewrite <- (size_list_to_set (C := gset nat) (serverMailboxQueue_ w ++ queued w rq))
      by done.
    apply subseteq_size. intros x Hx. apply elem_of_list_to_set in Hx. by apply Hsub. }
  rewrite length_app in Hle.
  pose proof (length_filter (fun x => requestType (req w x) ≠ RELEASE_READ_BLOCK)
                (serverMailboxQueue_ w)) as Hf.
  lia.
Qed.

Lemma expected_results_are_awaited_replies_witness :
  (0 < demo_capacity < SIZE_MODULUS)
  /\ reachable demo_capacity demo_stream (demo_seeked 0)
  /\ Z.of_nat (size (requests (demo_seeked 0))) < SIZE_MODULUS
  /\ awaited (demo_seeked 0) demo_stream = 20
  /\ rq_expectedResultCount (resultQueue (req (demo_seeked 0) demo_stream))
     = awaited (demo_seeked 0) demo_stream.
Proof.
  assert (HB : 0 < demo_capacity < SIZE_MODULUS) by (by vm_compute).
  assert (Hs : Z.of_nat (size (requests (demo_seeked 0))) < SIZE_MODULUS) by (by vm_compute).
  split; [done|]. split; [apply reachable_demo_seeked|]. split; [exact Hs|].
  split; [by vm_compute|].
  apply (expected_results_are_awaited_replies demo_capacity demo_stream (demo_seeked 0) HB
           reachable_demo_seeked Hs).
Defined.

(** ** What [read] returns *)

(** X15.  A call of [read] in a reachable state writes at most
    [itemSize * itemCount] bytes (a product of type [size_t]); it returns
    [itemCount] when it has written them all, and otherwise it returns the
    number of whole items it has written and the stream is no longer
    STREAMING. *)
Theorem read_returns_the_items_written (B : Z) (rq : nat) (itemSize itemCount n : Z)
    (out : list byte_cell) (w w' : World) :
  0 < B < SIZE_MODULUS ->
  reachable B rq w ->
  read_or_write B itemSize itemCount rq w = Some (n, out, w') ->
  Z.of_nat (length out) <= size_wrap (itemSize * itemCount)
  /\ ((n = itemCount /\ Z.of_nat (length out) = size_wrap (itemSize * itemCount))
      \/ (n = Z.of_nat (length out) / itemSize
          /\ state_ w' rq ≠ STREAM_STATE_OPEN_STREAMING)).
Proof.
  intros HB Hreach Hrun.
  destruct (reachable_Full B HB rq w Hreach) as (o & l & HF).
  destruct (read_or_write_Full B any_path any_file (any_block B) (2 * SIZE_MODULUS) [] HB
              ltac:(done) ltac:(by left) rq o l itemSize itemCount n out w w' HF Hrun)
    as (l' & _ & Hle & Hn & _).
  split; [done|]. destruct Hn as [(Hn & Hlen & _)|Hn]; [by left|by right].
Qed.

Lemma read_returns_the_items_written_witness :
  (0 < demo_capacity < SIZE_MODULUS)
  /\ reachable demo_capacity demo_stream (demo_replied 0)
  /\ read_or_write demo_capacity 3 100 demo_stream (demo_replied 0)
     = Some (3, Some <$> [10; 11; 12; 13; 14; 15; 16; 17; 18; 19], demo_eof)
  /\ Z.of_nat (length (Some <$> [10; 11; 12; 13; 14; 15; 16; 17; 18; 19]))
     <= size_wrap (3 * 100)
  /\ ((3 = 100
       /\ Z.of_nat (length (Some <$> [10; 11; 12; 13; 14; 15; 16; 17; 18; 19]))
          = size_wrap (3 * 100))
      \/ (3 = Z.of_nat (length (Some <$> [10; 11; 12; 13; 14; 15; 16; 17; 18; 19])) / 3
          /\ state_ demo_eof demo_stream ≠ STREAM_STATE_OPEN_STREAMING)).
Proof.
  assert (HB : 0 < demo_capacity < SIZE_MODULUS) by (by vm_compute).
  assert (Hrun : read_or_write demo_capacity 3 100 demo_stream (demo_replied 0)
                 = Some (3, Some <$> [10; 11; 12; 13; 14; 15; 16; 17; 18; 19], demo_eof))
    by (vm_compute; reflexivity).
  split; [done|]. split; [apply reachable_demo_replied|]. split; [exact Hrun|].
  apply (read_returns_the_items_written demo_capacity demo_stream 3 100 3 _
           (demo_replied 0) demo_eof HB reachable_demo_replied Hrun).
Defined.

(** ** A stream on a regular file *)

Lemma handleOneRequest_position (B : Z) (rq o : nat) (l : list nat) (os : OsOutcome)
    (w w' : World) :
  Core B rq o l w ->
  handleOneRequest B os w = Some w' ->
  streamPosition w' rq = streamPosition w rq.
Proof.
  intros HC Hrun.
  destruct (handleOneRequest_Core B rq o l os w w' HC Hrun) as (HC' & _).
  apply (streamPosition_frame B rq o l); [done|done|].
  intros y Hy. apply (handleOneRequest_fields B rq o l os w w' y HC Hrun).
  intros ->. by apply (shape_root _ _ _ _ _ (core_shape _ _ _ _ _ HC)).
Qed.

Lemma file_reachable_step (B : Z) (fs : nat -> option (list Z)) (bytes : list Z) (rq : nat)
    (w w' : World) :
  file_reachable B fs bytes rq w ->
  file_step B fs (Z.of_nat (length bytes)) rq w w' ->
  file_reachable B fs bytes rq w'.
Proof.
  intros (n & p & w0 & Hfs & Hopen & Hsteps) Hstep.
  exists n, p, w0. split; [done|]. split; [done|]. by eapply rtc_r.
Qed.

Lemma serve_file_steps (B : Z) (fs : nat -> option (list Z)) (len : Z) (rq : nat) :
  forall (fuel : nat) (w w' : World),
    handleAllPendingRequests fuel B fs w = Some w' ->
    rtc (file_step B fs len rq) w w'.
Proof.
  induction fuel as [|fuel IH]; intros w w' Hrun; simpl in Hrun.
  - destruct (serverMailboxQueue_ w); [|done]. injection Hrun as <-. apply rtc_refl.
  - destruct (serverMailboxQueue_ w) eqn:HM; [injection Hrun as <-; apply rtc_refl|].
    destruct (handleOneRequest B _ w) as [w1|] eqn:Hone; [|done].
    simpl in Hrun. eapply rtc_l; [|by apply IH].
    by eapply file_server.
Qed.

Lemma file_reachable_serve (B : Z) (fs : nat -> option (list Z)) (bytes : list Z) (rq : nat)
    (w w' : World) :
  file_reachable B fs bytes rq w -> serve B fs w = Some w' ->
  file_reachable B fs bytes rq w'.
Proof.
  intros (n & p & w0 & Hfs & Hopen & Hsteps) Hserve.
  exists n, p, w0. split; [done|]. split; [done|].
  etrans; [done|]. by eapply serve_file_steps.
Qed.

Lemma file_reachable_demo_idle :
  file_reachable demo_capacity demo_fs demo_bytes demo_stream demo_idle.
Proof.
  eapply file_reachable_step; [|apply file_poll].
  eapply (file_reachable_serve _ _ _ _ demo_opening).
  - exists 64%nat, 7%nat, demo_opening.
    split; [by vm_compute|]. split; [vm_compute; reflexivity|apply rtc_refl].
  - vm_compute. reflexivity.
Qed.

Lemma file_reachable_demo_replied (pos : Z) :
  0 <= pos <= 10 ->
  file_reachable demo_capacity demo_fs demo_bytes demo_stream (demo_replied pos).
Proof.
  intros Hpos.
  assert (Hcases : pos = 0 \/ pos = 1 \/ pos = 2 \/ pos = 3 \/ pos = 4 \/ pos = 5
                   \/ pos = 6 \/ pos = 7 \/ pos = 8 \/ pos = 9 \/ pos = 10) by lia.
  eapply (file_reachable_serve _ _ _ _ (demo_seeked pos)).
  - eapply file_reachable_step; [apply file_reachable_demo_idle|].
    apply (file_seek _ _ _ _ pos 0 demo_idle); [simpl; lia|].
    repeat (destruct Hcases as [->|Hcases]; [vm_compute; reflexivity|]).
    subst pos. vm_compute. reflexivity.
  - repeat (destruct Hcases as [->|Hcases]; [vm_compute; reflexivity|]).
    subst pos. vm_compute. reflexivity.
Qed.

Section FileTheorems.

Variable B : Z.
Variable fs : nat -> option (list Z).
Variable bytes : list Z.
Hypothesis capacity_range : 0 < B < SIZE_MODULUS.
Hypothesis file_size : Z.of_nat (length bytes) <= LONG_MAX.

Local Abbreviation len := (Z.of_nat (length bytes)).
Local Abbreviation FullF :=
  (Full B (names_file fs bytes) (is_file bytes) (fseek_block B bytes) len).

Lemma streamPosition_range (rq o : nat) (l : list nat) (w : World) :
  FullF rq o l w -> 0 <= streamPosition w rq <= len.
Proof.
  intros ([HC _] & _ & HK). unfold streamPosition.
  rewrite (Core_head _ _ _ _ _ HC). destruct l as [|x l]; simpl; [lia|].
  destruct (cur_head _ _ _ _ _ HK x eq_refl) as [Hc Hlim].
  pose proof (shape_range _ _ _ _ _ (core_shape _ _ _ _ _ HC) x ltac:(by left)). lia.
Qed.

Lemma read_or_write_file (rq o : nat) (l : list nat) (itemSize itemCount n : Z)
    (out : list byte_cell) (w w' : World) :
  FullF rq o l w ->
  read_or_write B itemSize itemCount rq w = Some (n, out, w') ->
  (exists l', FullF rq o l' w')
  /\ out = Some <$> take (length out) (drop (Z.to_nat (streamPosition w rq)) bytes)
  /\ streamPosition w' rq = streamPosition w rq + Z.of_nat (length out).
Proof.
  intros HF Hrun.
  destruct (read_or_write_Full B _ _ _ len bytes capacity_range
              (file_shape B bytes capacity_range) (file_regime B bytes file_size)
              rq o l itemSize itemCount n out w w' HF Hrun) as (l' & HF' & _ & _ & Hfile).
  split; [by exists l'|]. apply Hfile. apply (file_size_wraps bytes file_size).
Qed.

Lemma delivers_file (rq o : nat) (w w2 : World) (outs : list byte_cell) :
  delivers B fs rq w outs w2 ->
  forall l, FullF rq o l w ->
    outs = Some <$> take (length outs) (drop (Z.to_nat (streamPosition w rq)) bytes)
    /\ streamPosition w2 rq = streamPosition w rq + Z.of_nat (length outs).
Proof.
  induction 1 as [w|s c n out outs w w1 w2 Hrun _ IH|outs w w2 _ IH|outs w w1 w2 Hrun _ IH];
    intros l HF.
  - simpl. split; [done|lia].
  - destruct (read_or_write_file rq o l s c n out w w1 HF Hrun) as ((l1 & HF1) & Hout & Hpos).
    destruct (IH l1 HF1) as [Houts Hpos2].
    pose proof (streamPosition_range rq o l w HF) as Hr.
    split.
    + apply (delivered_app bytes (streamPosition w rq) (Z.of_nat (length out))); try lia.
      * by rewrite Nat2Z.id.
      * by rewrite <- Hpos.
    + rewrite length_app. lia.
  - destruct (IH l (pollState_Full B _ _ _ _ rq o l w HF)) as [Houts Hpos2].
    rewrite (pollState_position B rq o l w (proj1 (proj1 HF))) in *. done.
  - assert (HF1 : FullF rq o l w1).
    { apply (handleOneRequest_Full B _ _ _ _ rq o l (regular_os B fs w) w w1);
        [done|by apply os_ok_regular|done]. }
    destruct (IH l HF1) as [Houts Hpos2].
    rewrite (handleOneRequest_position B rq o l _ w w1 (proj1 (proj1 HF)) Hrun) in *. done.
Qed.

End FileTheorems.

Lemma delivers_serve (B : Z) (fs : nat -> option (list Z)) (rq : nat)
    (outs : list byte_cell) (w2 : World) :
  forall (fuel : nat) (w w1 : World),
    handleAllPendingRequests fuel B fs w = Some w1 ->
    delivers B fs rq w1 outs w2 ->
    delivers B fs rq w outs w2.
Proof.
  induction fuel as [|fuel IH]; intros w w1 Hrun Hd; simpl in Hrun.
  - destruct (serverMailboxQueue_ w); [|done]. by injection Hrun as <-.
  - destruct (serverMailboxQueue_ w) eqn:HM; [by injection Hrun as <-|].
    destruct (handleOneRequest B _ w) as [w0|] eqn:Hone; [|done].
    simpl in Hrun. eapply delivers_server; [done|]. by eapply IH.
Qed.

(** X16.  On a file system of regular files, for a stream opened for
    reading only on a file of at most [LONG_MAX] bytes that has been asked
    to seek only to positions within the file: the bytes a call of [read]
    writes to its destination are the bytes of the file from the position
    of the stream on, and the position of the stream advances by their
    number. *)
Theorem read_delivers_the_bytes_of_the_file (B : Z) (fs : nat -> option (list Z))
    (bytes : list Z) (rq : nat) (itemSize itemCount n : Z) (out : list byte_cell)
    (w w' : World) :
  0 < B < SIZE_MODULUS ->
  Z.of_nat (length bytes) <= LONG_MAX ->
  file_reachable B fs bytes rq w ->
  read_or_write B itemSize itemCount rq w = Some (n, out, w') ->
  out = Some <$> take (length out) (drop (Z.to_nat (streamPosition w rq)) bytes)
  /\ streamPosition w' rq = streamPosition w rq + Z.of_nat (length out).
Proof.
  intros HB Hlen Hreach Hrun.
  destruct (file_reachable_Full B fs bytes HB Hlen rq w Hreach) as (o & l & HF).
  by destruct (read_or_write_file B fs bytes HB Hlen rq o l itemSize itemCount n out w w'
                 HF Hrun) as (_ & ?).
Qed.

Lemma read_delivers_the_bytes_of_the_file_witness :
  (0 < demo_capacity < SIZE_MODULUS)
  /\ Z.of_nat (length demo_bytes) <= LONG_MAX
  /\ file_reachable demo_capacity demo_fs demo_bytes demo_stream (demo_replied 3)
  /\ streamPosition (demo_replied 3) demo_stream = 3
  /\ exists w',
       read_or_write demo_capacity 1 4 demo_stream (demo_replied 3)
       = Some (4, Some <$> [13; 14; 15; 16], w')
       /\ Some <$> [13; 14; 15; 16]
          = Some <$> take (length (Some <$> [13; 14; 15; 16]))
                       (drop (Z.to_nat (streamPosition (demo_replied 3) demo_stream))
                          demo_bytes)
       /\ streamPosition w' demo_stream
          = streamPosition (demo_replied 3) demo_stream
            + Z.of_nat (length (Some <$> [13; 14; 15; 16])).
Proof.
  assert (HB : 0 < demo_capacity < SIZE_MODULUS) by (by vm_compute).
  assert (Hlen : Z.of_nat (length demo_bytes) <= LONG_MAX) by (by vm_compute).
  assert (Hr : file_reachable demo_capacity demo_fs demo_bytes demo_stream (demo_replied 3))
    by (apply file_reachable_demo_replied; lia).
  assert (Hrun : read_or_write demo_capacity 1 4 demo_stream (demo_replied 3)
                 = Some (4, Some <$> [13; 14; 15; 16],
                         demo_after
                           (snd <$> read_or_write demo_capacity 1 4 demo_stream
                                      (demo_replied 3))))
    by (vm_compute; reflexivity).
  split; [done|]. split; [done|]. split; [exact Hr|]. split; [by vm_compute|].
  eexists. split; [exact Hrun|].
  apply (read_delivers_the_bytes_of_the_file demo_capacity demo_fs demo_bytes demo_stream
           1 4 4 _ (demo_replied 3) _ HB Hlen Hr Hrun).
Defined.

(** X17.  Successive reads deliver consecutive bytes.  On a file system of
    regular files, for a stream opened for reading only on a file of at
    most [LONG_MAX] bytes: after a call of [seek] to a position [pos]
    within the file that returned 0, the bytes that the calls of [read]
    deliver, in any interleaving with calls of [pollState] and with the
    server's turns, are the bytes of the file from [pos] on. *)
Theorem reads_after_seek_deliver_the_file (B : Z) (fs : nat -> option (list Z))
    (bytes : list Z) (rq : nat) (pos : Z) (outs : list byte_cell) (w w1 w2 : World) :
  0 < B < SIZE_MODULUS ->
  Z.of_nat (length bytes) <= LONG_MAX ->
  file_reachable B fs bytes rq w ->
  0 <= pos <= Z.of_nat (length bytes) ->
  seek B pos rq w = Some (0, w1) ->
  delivers B fs rq w1 outs w2 ->
  outs = Some <$> take (length outs) (drop (Z.to_nat pos) bytes)
  /\ streamPosition w2 rq = pos + Z.of_nat (length outs).
Proof.
  intros HB Hlen Hreach Hpos Hseek Hd.
  destruct (file_reachable_Full B fs bytes HB Hlen rq w Hreach) as (o & l & HF).
  pose proof (file_size_wraps bytes Hlen) as Hwrap.
  assert (Hpos' : 0 <= pos < SIZE_MODULUS) by lia.
  destruct (seek_Full B _ _ _ (Z.of_nat (length bytes)) HB rq o l pos 0 w w1 HF
              Hpos' (proj2 Hpos) Hseek) as (l1 & HF1 & Hp).
  assert (Hp1 : streamPosition w1 rq = pos).
  { pose proof HF as ([HC _] & _).
    destruct (decide (state_ w rq = STREAM_STATE_OPENING)) as [Hst|Hst1].
    { unfold seek in Hseek. rewrite bool_decide_eq_true_2 in Hseek by done. done. }
    destruct (decide (state_ w rq = STREAM_STATE_ERROR)) as [Hst|Hst2].
    { unfold seek in Hseek.
      rewrite (bool_decide_eq_true_2 (_ = STREAM_STATE_ERROR)) in Hseek by done.
      rewrite orb_true_r in Hseek. done. }
    apply Hp; [done|done|].
    destruct (seek_Core B rq o l w pos HC HB Hpos' Hst1 Hst2)
      as (w0 & ret & w'' & l' & _ & Hrun' & HC' & _ & Hlen' & _ & _ & _ & _ & Hret).
    rewrite Hseek in Hrun'. injection Hrun' as <- <-.
    pose proof (Core_unique B rq o l1 l' w1 (proj1 (proj1 HF1)) HC') as ->.
    destruct Hret as [(Hpool & _)|(_ & ? & _)]; [|done].
    intros ->. rewrite Nat.min_l in Hlen' by done. done. }
  rewrite <- Hp1. by apply (delivers_file B fs bytes HB Hlen rq o w1 w2 outs Hd l1).
Qed.

Lemma reads_after_seek_deliver_the_file_witness :
  (0 < demo_capacity < SIZE_MODULUS)
  /\ Z.of_nat (length demo_bytes) <= LONG_MAX
  /\ file_reachable demo_capacity demo_fs demo_bytes demo_stream demo_idle
  /\ (0 <= 3 <= Z.of_nat (length demo_bytes))
  /\ seek demo_capacity 3 demo_stream demo_idle = Some (0, demo_seeked 3)
  /\ exists w2,
       delivers demo_capacity demo_fs demo_stream (demo_seeked 3)
         ((Some <$> [13; 14; 15; 16]) ++ (Some <$> [17; 18; 19]) ++ []) w2
       /\ (Some <$> [13; 14; 15; 16]) ++ (Some <$> [17; 18; 19]) ++ []
          = Some <$> take (length ((Some <$> [13; 14; 15; 16]) ++ (Some <$> [17; 18; 19])
                                   ++ []))
                       (drop (Z.to_nat 3) demo_bytes)
       /\ streamPosition w2 demo_stream
          = 3 + Z.of_nat (length ((Some <$> [13; 14; 15; 16]) ++ (Some <$> [17; 18; 19])
                                  ++ [])).
Proof.
  assert (HB : 0 < demo_capacity < SIZE_MODULUS) by (by vm_compute).
  assert (Hlen : Z.of_nat (length demo_bytes) <= LONG_MAX) by (by vm_compute).
  assert (Hpos : 0 <= 3 <= Z.of_nat (length demo_bytes)) by (by vm_compute).
  assert (Hseek : seek demo_capacity 3 demo_stream demo_idle = Some (0, demo_seeked 3))
    by (vm_compute; reflexivity).
  set (w1 := demo_after (snd <$> read_or_write demo_capacity 1 4 demo_stream
                                   (demo_replied 3))).
  set (w2 := demo_after (snd <$> read_or_write demo_capacity 1 5 demo_stream w1)).
  assert (Hd : delivers demo_capacity demo_fs demo_stream (demo_seeked 3)
                 ((Some <$> [13; 14; 15; 16]) ++ (Some <$> [17; 18; 19]) ++ []) w2).
  { apply (delivers_serve _ _ _ _ _ (length (serverMailboxQueue_ (demo_seeked 3)))
             (demo_seeked 3) (demo_replied 3)); [vm_compute; reflexivity|].
    apply (delivers_read _ _ _ 1 4 4 _ _ (demo_replied 3) w1); [vm_compute; reflexivity|].
    apply (delivers_read _ _ _ 1 5 3 _ _ w1 w2); [vm_compute; reflexivity|].
    apply delivers_nil. }
  split; [done|]. split; [done|]. split; [apply file_reachable_demo_idle|].
  split; [done|]. split; [exact Hseek|]. exists w2. split; [exact Hd|].
  apply (reads_after_seek_deliver_the_file demo_capacity demo_fs demo_bytes demo_stream 3 _
           demo_idle (demo_seeked 3) w2 HB Hlen file_reachable_demo_idle Hpos Hseek Hd).
Defined.

(** X18.  On a file system of regular files, for a stream opened for
    reading only on a file of at most [LONG_MAX] bytes that has been asked
    to seek only to positions within the file, the position of the stream
    never passes the end of the file, and the stream is in the state
    OPEN_EOF only at the end of the file. *)
Theorem eof_is_the_end_of_the_file (B : Z) (fs : nat -> option (list Z))
    (bytes : list Z) (rq : nat) (w : World) :
  0 < B < SIZE_MODULUS ->
  Z.of_nat (length bytes) <= LONG_MAX ->
  file_reachable B fs bytes rq w ->
  0 <= streamPosition w rq <= Z.of_nat (length bytes)
  /\ (state_ w rq = STREAM_STATE_OPEN_EOF ->
      streamPosition w rq = Z.of_nat (length bytes)).
Proof.
  intros HB Hlen Hreach.
  destruct (file_reachable_Full B fs bytes HB Hlen rq w Hreach) as (o & l & HF).
  split; [by apply (streamPosition_range B fs bytes rq o l)|].
  intros Hst. destruct HF as ([HC _] & _ & HK).
  destruct (cur_eof _ _ _ _ _ HK (file_size_wraps bytes Hlen) Hst) as (x & Hx & Hend).
  unfold streamPosition. rewrite (Core_head _ _ _ _ _ HC), Hx. done.
Qed.

Lemma file_reachable_demo_eof :
  file_reachable demo_capacity demo_fs demo_bytes demo_stream demo_eof.
Proof.
  eapply file_reachable_step; [apply (file_reachable_demo_replied 0); lia|].
  apply (file_read _ _ _ _ 1 100 10 (Some <$> demo_bytes) (demo_replied 0)).
  vm_compute. reflexivity.
Qed.

Lemma eof_is_the_end_of_the_file_witness :
  (0 < demo_capacity < SIZE_MODULUS)
  /\ Z.of_nat (length demo_bytes) <= LONG_MAX
  /\ file_reachable demo_capacity demo_fs demo_bytes demo_stream demo_eof
  /\ state_ demo_eof demo_stream = STREAM_STATE_OPEN_EOF
  /\ 0 <= streamPosition demo_eof demo_stream <= Z.of_nat (length demo_bytes)
  /\ (state_ demo_eof demo_stream = STREAM_STATE_OPEN_EOF ->
      streamPosition demo_eof demo_stream = Z.of_nat (length demo_bytes)).
Proof.
  assert (HB : 0 < demo_capacity < SIZE_MODULUS) by (by vm_compute).
  assert (Hlen : Z.of_nat (length demo_bytes) <= LONG_MAX) by (by vm_compute).
  split; [done|]. split; [done|]. split; [apply file_reachable_demo_eof|].
  split; [by vm_compute|].
  apply (eof_is_the_end_of_the_file demo_capacity demo_fs demo_bytes demo_stream demo_eof
           HB Hlen file_reachable_demo_eof).
Defined.

(** X19.  The data blocks hold the file.  On a file system of regular
    files, for a stream opened for reading only on a file of at most
    [LONG_MAX] bytes, every data block that a block of the prefetch queue,
    a request in the mailbox or a reply in the result queue holds is in
    the store, and it is the block of the file at the offset [fseek] was
    given for that request, its file position as a [long], which is not
    negative: its valid bytes are the bytes of the file from there on, at
    most a block of them, and its end-of-file flag is set exactly when it
    is not full. *)
Theorem data_blocks_hold_the_file (B : Z) (fs : nat -> option (list Z))
    (bytes : list Z) (rq x d : nat) (w : World) :
  0 < B < SIZE_MODULUS ->
  Z.of_nat (length bytes) <= LONG_MAX ->
  file_reachable B fs bytes rq w ->
  x ∈ prefetchQueue w rq ++ serverMailboxQueue_ w ++ queued w rq ->
  dataBlock (req w x) = Some d ->
  exists blk,
    dataBlocks w !! d = Some blk
    /\ 0 <= to_long (filePosition (req w x))
    /\ file_block B bytes (to_long (filePosition (req w x))) (isAtEof (req w x)) blk.
Proof.
  intros HB Hlen Hreach Hx Hd.
  destruct (file_reachable_Full B fs bytes HB Hlen rq w Hreach) as (o & l & [HC _] & HR & _).
  rewrite (Core_prefetchQueue B rq o l w HC) in Hx.
  by apply (res_held _ _ _ _ _ _ _ HR x d).
Qed.

Lemma data_blocks_hold_the_file_witness :
  (0 < demo_capacity < SIZE_MODULUS)
  /\ Z.of_nat (length demo_bytes) <= LONG_MAX
  /\ file_reachable demo_capacity demo_fs demo_bytes demo_stream (demo_replied 0)
  /\ 4%nat ∈ prefetchQueue (demo_replied 0) demo_stream
           ++ serverMailboxQueue_ (demo_replied 0) ++ queued (demo_replied 0) demo_stream
  /\ dataBlock (req (demo_replied 0) 4%nat) = Some 2%nat
  /\ filePosition (req (demo_replied 0) 4%nat) = 8
  /\ exists blk,
       dataBlocks (demo_replied 0) !! 2%nat = Some blk
       /\ 0 <= to_long (filePosition (req (demo_replied 0) 4%nat))
       /\ file_block demo_capacity demo_bytes
            (to_long (filePosition (req (demo_replied 0) 4%nat)))
            (isAtEof (req (demo_replied 0) 4%nat)) blk.
Proof.
  assert (HB : 0 < demo_capacity < SIZE_MODULUS) by (by vm_compute).
  assert (Hlen : Z.of_nat (length demo_bytes) <= LONG_MAX) by (by vm_compute).
  assert (Hr : file_reachable demo_capacity demo_fs demo_bytes demo_stream (demo_replied 0))
    by (apply file_reachable_demo_replied; lia).
  assert (Hx : 4%nat ∈ prefetchQueue (demo_replied 0) demo_stream
                 ++ serverMailboxQueue_ (demo_replied 0)
                 ++ queued (demo_replied 0) demo_stream).
  { apply elem_of_app. left.
    assert (Hq : prefetchQueue (demo_replied 0) demo_stream = seq 2 20)
      by (vm_compute; reflexivity).
    rewrite Hq. apply elem_of_seq. lia. }
  assert (Hd : dataBlock (req (demo_replied 0) 4%nat) = Some 2%nat) by (by vm_compute).
  split; [done|]. split; [done|]. split; [exact Hr|]. split; [exact Hx|].
  split; [exact Hd|]. split; [by vm_compute|].
  apply (data_blocks_hold_the_file demo_capacity demo_fs demo_bytes demo_stream 4 2
           (demo_replied 0) HB Hlen Hr Hx Hd).
Defined.

(** ** Opening a stream *)

Lemma set_pool_same (w : World) : set_pool (globalRequestPool_ w) w = w.
Proof. by destruct w. Qed.

(** X20.  [open] takes two free request nodes.  When the pool holds fewer
    than two, [open] returns null and leaves the server as it was: the
    node it may have taken is back in the pool, and no request has been
    sent. *)
Theorem open_takes_two_free_requests (path_ : nat) (openMode_ : OpenMode) (w : World) :
  (length (globalRequestPool_ w) < 2)%nat ->
  open path_ openMode_ w = (None, w).
Proof.
  intros Hlen. unfold open, allocFileIoRequest.
  destruct (globalRequestPool_ w) as [|r [|o P]] eqn:HP; [done| |simpl in Hlen; lia].
  simpl. unfold freeFileIoRequest. simpl. rewrite <- HP. f_equal.
  by destruct w.
Qed.

Lemma open_takes_two_free_requests_witness :
  (length (globalRequestPool_ (startFileIoServer 1)) < 2)%nat
  /\ open 7%nat READ_ONLY_OPEN_MODE (startFileIoServer 1) = (None, startFileIoServer 1).
Proof.
  assert (H : (length (globalRequestPool_ (startFileIoServer 1)) < 2)%nat)
    by (simpl; lia).
  split; [exact H|].
  apply (open_takes_two_free_requests 7 READ_ONLY_OPEN_MODE (startFileIoServer 1) H).
Defined.

(** X21.  The outcome of [open].  A stream opened on a freshly started
    server is OPENING until the client polls.  Once the server, on a file
    system of regular files, has handled the request and the client has
    polled: a stream opened for reading only is OPEN_IDLE with no error
    when the path names a file, and in the state ERROR with the error
    ENOENT (2) when it names none; a stream opened READ_WRITE_OVERWRITE is
    OPEN_IDLE with no error, whether the path named a file or not. *)
Theorem opened_stream_is_idle_or_in_error (B : Z) (fs : nat -> option (list Z))
    (n path_ : nat) (openMode_ : OpenMode) (rq : nat) (w0 : World) :
  open path_ openMode_ (startFileIoServer n) = (Some rq, w0) ->
  exists w1,
    serve B fs w0 = Some w1
    /\ state_ w1 rq = STREAM_STATE_OPENING
    /\ let w2 := snd (pollState rq w1) in
       match openMode_, fs path_ with
       | READ_ONLY_OPEN_MODE, None =>
           state_ w2 rq = STREAM_STATE_ERROR /\ getError rq w2 = ENOENT
       | _, _ => state_ w2 rq = STREAM_STATE_OPEN_IDLE /\ getError rq w2 = 0
       end.
Proof.
  intros Hopen.
  set (opened := regular_fopen fs openMode_ (Some path_)).
  cut (exists w1,
         serve B fs w0 = Some w1
         /\ state_ w1 rq = STREAM_STATE_OPENING
         /\ let w2 := snd (pollState rq w1) in
            match opened with
            | Some _ => state_ w2 rq = STREAM_STATE_OPEN_IDLE /\ getError rq w2 = 0
            | None => state_ w2 rq = STREAM_STATE_ERROR /\ getError rq w2 = ENOENT
            end).
  { intros (w1 & Hserve & Hst & Hpoll). exists w1. split; [done|]. split; [done|].
    unfold opened, regular_fopen in Hpoll. cbv zeta in *. simpl in Hpoll.
    destruct openMode_; [destruct (fs path_)|]; exact Hpoll. }
  unfold open, allocFileIoRequest in Hopen.
  destruct (globalRequestPool_ (startFileIoServer n)) as [|r P] eqn:HP; [done|].
  simpl in Hopen. destruct P as [|o P]; [done|].
  injection Hopen as <- <-.
  assert (Hnd : NoDup (r :: o :: P)) by (rewrite <- HP; apply NoDup_seq).
  apply NoDup_cons in Hnd as [Hr Hnd].
  assert (Hro : r ≠ o) by (intros ->; apply Hr; left).
  set (w := startFileIoServer n) in *.
  set (w0 := upd_req r _ _).
  assert (Hrq : req w0 r =
            set_resultQueue (rq_incrementExpectedResultCount rq_init)
              (set_clientInt 0 (set_links_client None (set_resultStatus 0
                 (set_requestType STREAM_STATE_OPENING
                    (set_links_transit (Some o) (req w r))))))).
  { unfold w0. req_norm. goal_decide; done. }
  assert (Hoq : req w0 o =
            set_resultQueuePtr (Some r) (set_fileHandle None (set_openMode openMode_
              (set_path (Some path_) (set_requestType OPEN_FILE (set_resultStatus 0
                 (set_links_client None (req w o)))))))).
  { unfold w0. req_norm. goal_decide; done. }
  assert (HM0 : serverMailboxQueue_ w0 = [o]) by done.
  set (status := match opened with Some _ => NOERROR | None => ENOENT end).
  assert (Hone : exists w1,
            handleOneRequest B (regular_os B fs w0) w0 = Some w1
            /\ serverMailboxQueue_ w1 = []
            /\ req w1 r = set_resultQueue (ResultQueue [o] 1) (req w0 r)
            /\ resultStatus (req w1 o) = status).
  { unfold handleOneRequest. rewrite HM0. cbv zeta. rewrite req_set_mailbox.
    rewrite Hoq. simpl requestType. cbv iota.
    unfold handleOpenFileRequest, regular_os. rewrite HM0. simpl os_new_ok.
    simpl os_fopen. simpl os_errno. rewrite Hoq. simpl path. simpl openMode.
    simpl requestType. rewrite (bool_decide_eq_false_2 (OPEN_FILE = READ_BLOCK)) by done.
    fold opened. unfold status.
    destruct opened as [bytes|] eqn:Hfs; cbv iota zeta.
    - heap_norm. simpl resultQueuePtr.
      change (req (set_fileRecords ?m ?k ?w0) ?x) with (req w0 x).
      heap_norm. rewrite Hoq. simpl.
      unfold completeRequestToClientResultQueue. heap_norm.
      change (req (set_fileRecords ?m ?k ?w0) ?x) with (req w0 x).
      heap_norm. rewrite Hrq. simpl.
      eexists. split; [reflexivity|]. split; [done|]. split.
      + req_norm; goal_decide; rewrite ?Hrq, ?Hoq; done.
      + req_norm; goal_decide; rewrite ?Hrq, ?Hoq; done.
    - heap_norm. simpl resultQueuePtr. rewrite Hoq. simpl.
      unfold completeRequestToClientResultQueue. heap_norm. rewrite Hrq. simpl.
      eexists. split; [reflexivity|]. split; [done|]. split.
      + req_norm; goal_decide; rewrite ?Hrq, ?Hoq; done.
      + req_norm; goal_decide; rewrite ?Hrq, ?Hoq; done. }
  destruct Hone as (w1 & Hrun & HM1 & Hrq1 & Hst1).
  exists w1. split.
  { unfold serve. rewrite HM0. simpl. rewrite Hrun. simpl. by rewrite HM1. }
  split; [unfold state_; by rewrite Hrq1, Hrq|].
  cbv zeta. unfold pollState, getError, error_, state_. simpl.
  rewrite Hrq1, Hrq. simpl.
  set (w1' := upd_req o (set_path None) _).
  assert (Hs : resultStatus (req w1' o) = status).
  { unfold w1'. req_norm. goal_decide; try done. }
  assert (Hr1 : resultStatus (req w1' r) = 0).
  { unfold w1'. req_norm. goal_decide; try done. rewrite Hrq1, Hrq. done. }
  rewrite Hs. unfold status.
  destruct opened as [bytes|].
  - rewrite bool_decide_eq_true_2 by done.
    rewrite !req_set_state_, !decide_True by done. simpl. done.
  - rewrite bool_decide_eq_false_2 by done.
    rewrite !req_set_state_, !decide_True by done. simpl.
    rewrite req_upd_req, decide_True by done. done.
Qed.

Lemma opened_stream_is_idle_or_in_error_witness :
  open 7%nat READ_ONLY_OPEN_MODE (startFileIoServer 64) = (Some demo_stream, demo_opening)
  /\ demo_fs 7%nat = Some demo_bytes
  /\ exists w1,
       serve demo_capacity demo_fs demo_opening = Some w1
       /\ state_ w1 demo_stream = STREAM_STATE_OPENING
       /\ let w2 := snd (pollState demo_stream w1) in
          match READ_ONLY_OPEN_MODE, demo_fs 7%nat with
          | READ_ONLY_OPEN_MODE, None =>
              state_ w2 demo_stream = STREAM_STATE_ERROR
              /\ getError demo_stream w2 = ENOENT
          | _, _ => state_ w2 demo_stream = STREAM_STATE_OPEN_IDLE
                    /\ getError demo_stream w2 = 0
          end.
Proof.
  assert (Hopen : open 7%nat READ_ONLY_OPEN_MODE (startFileIoServer 64)
                  = (Some demo_stream, demo_opening)) by (vm_compute; reflexivity).
  split; [exact Hopen|]. split; [by vm_compute|].
  apply (opened_stream_is_idle_or_in_error demo_capacity demo_fs 64 7 READ_ONLY_OPEN_MODE
           demo_stream demo_opening Hopen).
Defined.

(** ** Closing a stream: the server cleans up *)

Lemma records_count_lookup (f : nat) (m : gmap nat FileRecord) (n : nat) :
  records_count f m (S n) -> is_Some (m !! f).
Proof. intros (rec & -> & _). rewrite lookup_singleton_eq. by eexists. Qed.

Lemma records_count_released (f : nat) (m : gmap nat FileRecord) (n : nat) :
  records_count f m (S n) -> records_count f (released f m) n.
Proof.
  intros (rec & -> & Hc). unfold released. rewrite lookup_singleton_eq.
  case_bool_decide as H.
  - assert (n = 0%nat) as -> by lia. simpl. apply delete_singleton_eq.
  - destruct n as [|n]; [lia|]. simpl.
    exists (mkFileRecord (fp rec) (dependentClientCount rec - 1)).
    split; [apply insert_singleton_eq|]. simpl. lia.
Qed.

(** The per-kind cleanup is defined on a result whose file record is
    there. *)
Lemma cleanupOneRequestResult_defined (r : nat) (w : World) :
  requestType (req w r) = OPEN_FILE \/ requestType (req w r) = READ_BLOCK ->
  (forall f, held_file (req w r) = Some f -> is_Some (fileRecords w !! f)) ->
  (forall d, held_block (req w r) = Some d -> held_file (req w r) ≠ None) ->
  is_Some (cleanupOneRequestResult r w).
Proof.
  intros Hty Hfile Hblock. unfold cleanupOneRequestResult, held_file, held_block in *.
  destruct Hty as [Hty|Hty]; rewrite Hty in *.
  - heap_norm. simpl.
    destruct (fileHandle (req w r)) as [f|] eqn:Hf.
    + rewrite bool_decide_eq_true_2 by done.
      unfold handleCloseFileRequest. heap_norm. simpl. rewrite Hf. simpl.
      unfold releaseFileRecordClientRef. simpl.
      destruct (Hfile f eq_refl) as [rec ->]. simpl.
      destruct (bool_decide _); by eexists.
    + rewrite bool_decide_eq_false_2 by (by intros H). by eexists.
  - destruct (dataBlock (req w r)) as [d|] eqn:Hd.
    + rewrite bool_decide_eq_true_2 in * by done.
      unfold handleReleaseReadBlockRequest. heap_norm. simpl. rewrite Hd. simpl.
      unfold freeDataBlock.
      change (req (set_dataBlocks ?m ?k ?w0) ?x) with (req w0 x).
      heap_norm. simpl.
      destruct (fileHandle (req w r)) as [f|] eqn:Hf; [|by destruct (Hblock d eq_refl)].
      simpl. unfold releaseFileRecordClientRef. simpl.
      destruct (Hfile f eq_refl) as [rec ->]. simpl.
      destruct (bool_decide _); by eexists.
    + rewrite bool_decide_eq_false_2 by (by intros H). by eexists.
Qed.

Lemma cleanupOneRequestResult_dom (r : nat) (w w1 : World) :
  r ∈ dom (requests w) ->
  cleanupOneRequestResult r w = Some w1 ->
  dom (requests w1) = dom (requests w).
Proof.
  intros Hr. unfold cleanupOneRequestResult.
  assert (Hrel : forall f wa wb,
            releaseFileRecordClientRef f wa = Some wb -> requests wb = requests wa).
  { intros f wa wb H. by apply releaseFileRecordClientRef_spec in H as (_ & ? & _). }
  assert (Hfree : forall b wa, requests (freeDataBlock b wa) = requests wa) by done.
  destruct (requestType (req w r)); try (by intros [= <-]).
  - destruct (bool_decide _); [|intros [= <-]; dom_eq].
    unfold handleCloseFileRequest.
    destruct (fileHandle _) as [f|]; simpl; [|done].
    destruct (releaseFileRecordClientRef f _) as [w2|] eqn:Hr2; simpl; [|done].
    intros [= <-]. change (requests (freeFileIoRequest r w2)) with (requests w2).
    rewrite (Hrel _ _ _ Hr2). dom_eq.
  - destruct (bool_decide _); [|by intros [= <-]].
    unfold handleReleaseReadBlockRequest.
    destruct (dataBlock _) as [b|]; simpl; [|done].
    destruct (fileHandle _) as [f|]; simpl; [|done].
    destruct (releaseFileRecordClientRef f _) as [w2|] eqn:Hr2; simpl; [|done].
    intros [= <-]. change (requests (freeFileIoRequest r w2)) with (requests w2).
    rewrite (Hrel _ _ _ Hr2), Hfree. dom_eq.
  - destruct (bool_decide _); [|by intros [= <-]].
    unfold handleReleaseUnmodifiedWriteBlockRequest.
    destruct (dataBlock _) as [b|]; simpl; [|done].
    destruct (fileHandle _) as [f|]; simpl; [|done].
    destruct (releaseFileRecordClientRef f _) as [w2|] eqn:Hr2; simpl; [|done].
    intros [= <-]. change (requests (freeFileIoRequest r w2)) with (requests w2).
    rewrite (Hrel _ _ _ Hr2), Hfree. dom_eq.
Qed.

Lemma file_references_ext (w w' : World) (Q : list nat) :
  (forall x, x ∈ Q -> req w' x = req w x) ->
  file_references w' Q = file_references w Q.
Proof.
  unfold file_references. induction Q as [|y Q IH]; intros Hext; [done|].
  rewrite !filter_cons. rewrite (Hext y) by (by left).
  destruct (decide _); simpl; rewrite IH; try done; intros x Hx; apply Hext; by right.
Qed.

(** The draining loop of [handleCleanupResultQueueRequest] frees what the
    results hold: every data block, and the file record with the last
    reference. *)
Lemma cleanupQueuedResults_frees (c f : nat) :
  forall (Q : list nat) (fuel : nat) (cnt : Z) (w : World),
    resultQueue (req w c) = ResultQueue Q cnt ->
    c ∉ Q ->
    c ∈ dom (requests w) ->
    (forall x, x ∈ Q -> x ∈ dom (requests w)) ->
    results_hold f w Q ->
    (length Q <= fuel)%nat ->
    exists w',
      cleanupQueuedResults fuel c w = Some w'
      /\ resultQueue (req w' c) = ResultQueue [] (popped_count (length Q) cnt)
      /\ globalRequestPool_ w' = rev Q ++ globalRequestPool_ w
      /\ serverMailboxQueue_ w' = serverMailboxQueue_ w
      /\ requestType (req w' c) = requestType (req w c)
      /\ dom (requests w') = dom (requests w)
      /\ dataBlocks w' = ∅ /\ fileRecords w' = ∅.
Proof.
  induction Q as [|x rest IH]; intros fuel cnt w Hq Hc Hdc Hdom HH Hfuel.
  - exists w. destruct HH as [_ _ _ _ _ Hnoleak Hcount].
    assert (Hrun : cleanupQueuedResults fuel c w = Some w).
    { destruct fuel; simpl; unfold rq_pop; rewrite Hq; done. }
    split; [done|]. split; [done|]. split; [done|]. split; [done|]. split; [done|].
    split; [done|]. split; [|exact Hcount].
    apply dom_empty_inv_L. apply elem_of_equiv_empty_L. intros d Hd.
    destruct (Hnoleak d Hd) as (y & Hy & _). by apply elem_of_nil in Hy.
  - apply not_elem_of_cons in Hc as [Hcx Hc].
    pose proof (rh_nodup _ _ _ HH) as Hnd. apply NoDup_cons in Hnd as [Hx Hnd].
    assert (Hpop : rq_pop (resultQueue (req w c))
                   = Some (x, ResultQueue rest (size_wrap (cnt - 1))))
      by (unfold rq_pop; by rewrite Hq).
    destruct fuel as [|fuel]; [simpl in Hfuel; lia|].
    simpl. rewrite Hpop.
    set (w0 := upd_req c (set_resultQueue (ResultQueue rest (size_wrap (cnt - 1)))) w).
    assert (Hr0 : forall y, y ≠ c -> req w0 y = req w y)
      by (intros y Hy; unfold w0; by heap_norm).
    assert (Hd0 : dom (requests w0) = dom (requests w)) by (unfold w0; dom_eq).
    assert (Hxin : x ∈ x :: rest) by (by left).
    assert (Hrefs : file_references w (x :: rest)
                    = ((if decide (held_file (req w x) ≠ None) then 1 else 0)
                       + file_references w rest)%nat).
    { unfold file_references. rewrite filter_cons. by destruct (decide _). }
    pose proof (rh_count _ _ _ HH) as Hcount. rewrite Hrefs in Hcount.
    destruct (cleanupOneRequestResult_defined x w0) as [w1 Hclean].
    { rewrite Hr0 by done. by apply (rh_type _ _ _ HH). }
    { intros f' Hf'. rewrite Hr0 in Hf' by done.
      pose proof (rh_file _ _ _ HH x f' Hxin Hf') as ->.
      rewrite decide_True in Hcount by (by rewrite Hf').
      by apply (records_count_lookup f _ _ Hcount). }
    { intros d Hd. rewrite Hr0 in * by done. by apply (rh_block _ _ _ HH x d). }
    rewrite Hclean. simpl.
    pose proof (cleanupOneRequestResult_dom x w0 w1 ltac:(rewrite Hd0; by apply Hdom) Hclean)
      as Hd1.
    apply cleanupOneRequestResult_spec in Hclean
      as (Hp1 & Hm1 & _ & _ & Ho1 & Hf1 & Hb1).
    2:{ unfold returns_result. rewrite Hr0 by done.
        destruct (rh_type _ _ _ HH x Hxin) as [?|?]; tauto. }
    rewrite Hr0 in Hf1, Hb1 by done.
    assert (Hsame : forall y, y ∈ rest -> req w1 y = req w y).
    { intros y Hy. rewrite Ho1 by (intros ->; done). apply Hr0. intros ->. done. }
    assert (HH1 : results_hold f w1 rest).
    { constructor.
      - done.
      - intros y Hy. rewrite Hsame by done. apply (rh_type _ _ _ HH). by right.
      - intros y f' Hy. rewrite Hsame by done. apply (rh_file _ _ _ HH). by right.
      - intros y d Hy. rewrite Hsame by done. intros Hyd.
        destruct (rh_block _ _ _ HH y d ltac:(by right) Hyd) as [Hd Hfile].
        split; [|done]. rewrite Hb1.
        destruct (held_block (req w x)) as [b|] eqn:Hxb; [|done].
        rewrite dom_delete_L. apply elem_of_difference. split; [done|].
        intros Hdb%elem_of_singleton. subst b.
        assert (y = x) by (apply (rh_inj _ _ _ HH y x d); try done; by right).
        by subst y.
      - intros y z d Hy Hz. rewrite !Hsame by done.
        apply (rh_inj _ _ _ HH); by right.
      - intros d Hd. rewrite Hb1 in Hd.
        assert (Hdw : d ∈ dom (dataBlocks w)
                      /\ held_block (req w x) ≠ Some d).
        { destruct (held_block (req w x)) as [b|]; [|done].
          rewrite dom_delete_L in Hd. apply elem_of_difference in Hd as [Hd Hne].
          split; [done|]. intros [= ->]. apply Hne. by apply elem_of_singleton. }
        destruct Hdw as [Hdw Hne].
        destruct (rh_noleak _ _ _ HH d Hdw) as (z & Hz & Hzd).
        apply elem_of_cons in Hz as [->|Hz]; [done|].
        exists z. split; [done|]. by rewrite Hsame.
      - rewrite (file_references_ext w w1 rest Hsame). rewrite Hf1.
        change (fileRecords w0) with (fileRecords w).
        destruct (held_file (req w x)) as [f'|] eqn:Hxf.
        + pose proof (rh_file _ _ _ HH x f' Hxin Hxf) as ->.
          rewrite decide_True in Hcount by done.
          by apply records_count_released.
        + rewrite decide_False in Hcount by (by intros H). done. }
    destruct (IH fuel (size_wrap (cnt - 1)) w1) as (w' & Hrun & Hq' & Hp' & Hm' & Hc' & Hd' & He').
    + rewrite Ho1 by done. unfold w0. by heap_norm.
    + done.
    + by rewrite Hd1, Hd0.
    + intros y Hy. rewrite Hd1, Hd0. apply Hdom. by right.
    + done.
    + simpl in Hfuel. lia.
    + exists w'. split; [done|].
      split.
      { rewrite Hq'. f_equal. unfold popped_count.
        change (length (x :: rest)) with (S (length rest)).
        exact (Nat.iter_swap (length rest) _ (fun k => size_wrap (k - 1)) cnt). }
      split.
      { rewrite Hp', Hp1. simpl. by rewrite <- app_assoc. }
      split; [by rewrite Hm', Hm1|].
      split.
      { rewrite Hc', Ho1 by done. unfold w0. by heap_norm. }
      split; [by rewrite Hd', Hd1, Hd0|]. done.
Qed.

(** ** The server's turn on two worlds with the same heap *)

(** The body of [handleReadBlockRequest] reads the request and the heap,
    nothing else. *)
Lemma handleReadBlockRequest_io_heap (B : Z) (os : OsOutcome) (r : nat) (a b b' : World) :
  req a r = req b r ->
  same_heap a b ->
  handleReadBlockRequest_io B os r b = Some b' ->
  exists a',
    handleReadBlockRequest_io B os r a = Some a'
    /\ same_heap a' b'
    /\ req a' r = req b' r.
Proof.
  intros Hreq (H1 & H2 & H3 & H4).
  unfold handleReadBlockRequest_io, allocDataBlock, freeDataBlock.
  rewrite Hreq, H1, H2.
  destruct (fileHandle (req b r)) as [f|] eqn:Hfh.
  2:{ heap_norm. rewrite Hreq. simpl.
      destruct (bool_decide (dataBlock (req b r) ≠ None)); [done|].
      intros [= <-]. eexists. split; [done|]. split; [done|]. by heap_norm; rewrite Hreq. }
  destruct (os_new_ok os); simpl.
  2:{ heap_norm. rewrite Hreq. simpl.
      destruct (bool_decide (dataBlock (req b r) ≠ None)).
      - rewrite H3. destruct (fileRecords b !! f); simpl; [|done].
        intros [= <-]. eexists. split; [done|]. split; [by repeat split|].
        change (req (set_fileRecords ?m ?k ?w0) ?x) with (req w0 x).
        by heap_norm; rewrite Hreq.
      - intros [= <-]. eexists. split; [done|]. split; [by repeat split|].
        by heap_norm; rewrite Hreq. }
  destruct (bool_decide (os_fseek os ≠ 0)).
  { change (req (set_dataBlocks ?m ?k ?w0) ?x) with (req w0 x).
    heap_norm. rewrite Hreq. simpl.
    intros [= <-]. eexists. split; [done|]. split; [by repeat split|].
    change (req (set_dataBlocks ?m ?k ?w0) ?x) with (req w0 x).
    by heap_norm; rewrite Hreq. }
  rewrite !lookup_total_insert_eq. simpl.
  destruct (bool_decide (Z.of_nat (length (fread_bytes B os)) = B)).
  { change (req (set_dataBlocks ?m ?k ?w0) ?x) with (req w0 x).
    heap_norm. rewrite Hreq. simpl. rewrite H3.
    destruct (fileRecords b !! f); simpl; [|done].
    intros [= <-]. eexists. split; [done|]. split; [by repeat split|].
    change (req (set_fileRecords ?m ?k ?w0) ?x) with (req w0 x).
    change (req (set_dataBlocks ?m ?k ?w0) ?x) with (req w0 x).
    by heap_norm; rewrite Hreq. }
  destruct (os_feof os).
  { change (req (set_dataBlocks ?m ?k ?w0) ?x) with (req w0 x).
    heap_norm. rewrite Hreq. simpl. rewrite H3.
    destruct (fileRecords b !! f); simpl; [|done].
    intros [= <-]. eexists. split; [done|]. split; [by repeat split|].
    change (req (set_fileRecords ?m ?k ?w0) ?x) with (req w0 x).
    change (req (set_dataBlocks ?m ?k ?w0) ?x) with (req w0 x).
    by heap_norm; rewrite Hreq. }
  change (req (set_dataBlocks ?m ?k ?w0) ?x) with (req w0 x).
  heap_norm. rewrite Hreq. simpl.
  intros [= <-]. eexists. split; [done|]. split; [by repeat split|].
  change (req (set_dataBlocks ?m ?k ?w0) ?x) with (req w0 x).
  by heap_norm; rewrite Hreq.
Qed.

Lemma handleReleaseReadBlockRequest_heap (r : nat) (a b b' : World) :
  req a r = req b r ->
  same_heap a b ->
  handleReleaseReadBlockRequest r b = Some b' ->
  exists a',
    handleReleaseReadBlockRequest r a = Some a'
    /\ same_heap a' b'
    /\ requests a' = requests a
    /\ globalRequestPool_ a' = r :: globalRequestPool_ a
    /\ serverMailboxQueue_ a' = serverMailboxQueue_ a.
Proof.
  intros Hreq (H1 & H2 & H3 & H4).
  unfold handleReleaseReadBlockRequest, freeDataBlock, releaseFileRecordClientRef.
  change (req (set_dataBlocks ?m ?k ?w0) ?x) with (req w0 x).
  rewrite Hreq. simpl.
  destruct (dataBlock (req b r)) as [d|]; simpl; [|done].
  destruct (fileHandle (req b r)) as [f|]; simpl; [|done].
  rewrite H3.
  destruct (fileRecords b !! f) as [rec|]; simpl; [|done].
  destruct (bool_decide _); simpl; intros [= <-]; eexists; (split; [done|]);
    (split; [repeat split; simpl; congruence|done]).
Qed.

(** One request of the open stream [g] handled in the closing world [w]:
    the server does in [w] what it does in [g]. *)
Lemma closing_turn (B : Z) (good_path : option nat -> OpenMode -> Prop) (good_file : list Z -> Prop)
    (good_block : Z -> bool -> DataBlock -> Prop)
    (rq o r : nat) (l M T X : list nat) (os : OsOutcome) (w g : World) :
  closing rq o T X w g ->
  Core B rq o l g ->
  Res good_path good_file good_block rq o l g ->
  state_ g rq ≠ STREAM_STATE_OPENING ->
  serverMailboxQueue_ g = r :: M ->
  exists w' g',
    handleOneRequest B os w = Some w'
    /\ handleOneRequest B os g = Some g'
    /\ serverMailboxQueue_ g' = M
    /\ closing rq o T X w' g'
    /\ req w' o = req w o
    /\ requestType (req w' rq) = requestType (req w rq)
    /\ links_transit (req w' rq) = links_transit (req w rq)
    /\ req g' o = req g o
    /\ dom (requests g') = dom (requests g).
Proof.
  intros HG HC HR Hst HM0.
  destruct (handleOneRequest_defined B _ _ _ rq o l os g HC HR) as [g' Hrun].
  destruct (handleOneRequest_queues B rq o r l M os g g' HC Hrun HM0) as (HMg & _).
  destruct HG as [Gm Gp Gd Gh Gr Gq Gt].
  assert (HrM : r ∈ serverMailboxQueue_ g) by (rewrite HM0; left).
  assert (Hrrq : r ≠ rq).
  { intros ->. apply (own_root _ _ _ _ (core_own _ _ _ _ _ HC)). clear -HrM. set_solver. }
  assert (Hro : r ≠ o).
  { intros ->. apply (own_opened _ _ _ _ (core_own _ _ _ _ _ HC) Hst). clear -HrM.
    set_solver. }
  pose proof (shape_open_ne _ _ _ _ _ (core_shape _ _ _ _ _ HC)) as Horq.
  assert (Hdr : r ∈ dom (requests g)).
  { apply (core_dom _ _ _ _ _ HC). unfold owned. clear -HrM. set_solver. }
  pose proof (Core_dom_root _ _ _ _ _ HC) as [Hdrq Hdo].
  assert (Hreq_r : req w r = req g r) by (by apply Gr).
  assert (Hnotag : requestType (req g rq) ≠ RESULT_QUEUE_IS_AWAITING_CLEANUP_).
  { pose proof (own_state _ _ _ _ (core_own _ _ _ _ _ HC)) as Hs.
    unfold is_stream_state, state_ in Hs. intros Heq. rewrite Heq in Hs.
    by destruct Hs as [?|[?|[?|[?|[?|?]]]]]. }
  cut (exists w',
         handleOneRequest B os w = Some w'
         /\ closing rq o T X w' g'
         /\ req w' o = req w o
         /\ requestType (req w' rq) = requestType (req w rq)
         /\ links_transit (req w' rq) = links_transit (req w rq)
         /\ req g' o = req g o
         /\ dom (requests g') = dom (requests g)).
  { intros (w' & ? & ? & ? & ? & ? & ? & ?). by exists w', g'. }
  clear HMg.
  unfold handleOneRequest in Hrun |- *. rewrite HM0 in Hrun. rewrite Gm, HM0.
  rewrite <- app_comm_cons. cbv zeta in *. rewrite req_set_mailbox in *. rewrite Hreq_r.
  destruct (own_mailbox _ _ _ _ (core_own _ _ _ _ _ HC) r HrM)
    as [[-> Hs]|[(Hty & Hptr & _)|Hty]]; [done| |].
  - (* a READ_BLOCK request *)
    rewrite Hty in *. unfold handleReadBlockRequest in *.
    destruct (handleReadBlockRequest_io B os r (set_mailbox M g)) as [g1|] eqn:Hio;
      [|done].
    simpl in Hrun.
    destruct (handleReadBlockRequest_io_heap B os r (set_mailbox (M ++ T) w)
                (set_mailbox M g) g1) as (w1 & Hio_w & Hheap1 & Hreq1); [done|done|done|].
    rewrite Hio_w. simpl.
    apply handleReadBlockRequest_io_frame in Hio as (HPg & HMg1 & Hdg & Hlg & Hog);
      [|done].
    apply handleReadBlockRequest_io_frame in Hio_w as (HPw & HMw & Hdw & Hlw & How);
      [|by rewrite <- Gd in Hdr].
    rewrite !req_set_mailbox in *.
    assert (Hptr1 : resultQueuePtr (req g1 r) = Some rq).
    { by destruct Hlg as (_&_&_&_&->). }
    rewrite Hreq1, Hptr1. rewrite Hptr1 in Hrun. simpl in *.
    unfold completeRequestToClientResultQueue in *.
    rewrite (Hog rq) in Hrun by done. rewrite (How rq) by done.
    rewrite req_set_mailbox in *.
    rewrite bool_decide_eq_false_2 in Hrun by done.
    rewrite bool_decide_eq_false_2 by done.
    injection Hrun as <-.
    eexists. split; [reflexivity|].
    split.
    { constructor.
      + simpl. rewrite HMw, HMg1. done.
      + simpl. rewrite HPw, HPg. done.
      + rewrite !dom_upd_req_in; [by rewrite Hdw, Hdg|by rewrite Hdg|].
        rewrite Hdw. simpl. by rewrite Gd.
      + done.
      + intros x Hx1 Hx2. rewrite !req_upd_req, !decide_False by done.
        destruct (decide (x = r)) as [->|Hxr]; [done|].
        rewrite How, Hog by done. rewrite !req_set_mailbox. by apply Gr.
      + rewrite !req_upd_req, !decide_True by done. simpl.
        rewrite (How rq), (Hog rq) by done. rewrite !req_set_mailbox. by rewrite Gq.
      + rewrite req_upd_req, decide_True by done. simpl.
        rewrite (How rq) by done. by rewrite req_set_mailbox. }
    split.
    { rewrite req_upd_req, decide_False by done. rewrite How by done.
      by rewrite req_set_mailbox. }
    split.
    { rewrite req_upd_req, decide_True by done. simpl.
      rewrite (How rq) by done. by rewrite req_set_mailbox. }
    split.
    { rewrite req_upd_req, decide_True by done. simpl.
      rewrite (How rq) by done. by rewrite req_set_mailbox. }
    split.
    { rewrite req_upd_req, decide_False by done. rewrite Hog by done.
      by rewrite req_set_mailbox. }
    rewrite dom_upd_req_in; [done|by rewrite Hdg].
  - (* a release *)
    rewrite Hty in *.
    destruct (handleReleaseReadBlockRequest_heap r (set_mailbox (M ++ T) w)
                (set_mailbox M g) g') as (w' & Hrun_w & Hheap' & Hr' & Hp' & Hm');
      [done|done|done|].
    apply handleReleaseReadBlockRequest_frame in Hrun as (Hrg & Hpg & Hmg).
    exists w'. split; [done|].
    assert (Hsame : forall x, req w' x = req w x) by (intros x; unfold req; by rewrite Hr').
    assert (Hsameg : forall x, req g' x = req g x) by (intros x; unfold req; by rewrite Hrg).
    split.
    { constructor.
      + rewrite Hm', Hmg. done.
      + rewrite Hp', Hpg. simpl. rewrite Gp. apply Permutation_middle.
      + rewrite Hr', Hrg. simpl. done.
      + done.
      + intros x Hx1 Hx2. rewrite Hsame, Hsameg. by apply Gr.
      + by rewrite Hsame, Hsameg.
      + by rewrite Hsame. }
    rewrite !Hsame, Hsameg, Hrg. done.
Qed.

(** ** The server's turns after [close] *)

(** The data blocks of a store that are held, one each, by the nodes of a
    list: there are as many as nodes that hold one. *)
Lemma holders_count (w : World) (Q : list nat) (D : gmap nat DataBlock) :
  NoDup Q ->
  (forall x d, x ∈ Q -> dataBlock (req w x) = Some d -> d ∈ dom D) ->
  (forall x y d, x ∈ Q -> y ∈ Q ->
     dataBlock (req w x) = Some d -> dataBlock (req w y) = Some d -> x = y) ->
  (forall d, d ∈ dom D -> exists x, x ∈ Q /\ dataBlock (req w x) = Some d) ->
  length (filter (fun x => dataBlock (req w x) ≠ None) Q) = size D.
Proof.
  intros Hnd Hheld Hinj Hnoleak.
  set (h := fun x => dataBlock (req w x)).
  assert (Hlen : forall Q', length (filter (fun x => h x ≠ None) Q') = length (omap h Q')).
  { induction Q' as [|x Q' IH]; [done|]. rewrite filter_cons. simpl.
    destruct (decide (h x ≠ None)) as [Hs|Hn]; destruct (h x) eqn:Hx; simpl; try done.
    - by rewrite IH.
    - by destruct Hn. }
  assert (Hndl : forall Q', NoDup Q' ->
            (forall x y d, x ∈ Q' -> y ∈ Q' -> h x = Some d -> h y = Some d -> x = y) ->
            NoDup (omap h Q')).
  { induction Q' as [|x Q' IH]; intros Hnd' Hinj'; [apply NoDup_nil_2|].
    apply NoDup_cons in Hnd' as [Hx Hnd']. simpl.
    assert (Hrest : NoDup (omap h Q')).
    { apply IH; [done|]. intros y z d Hy Hz. apply Hinj'; by right. }
    destruct (h x) as [d|] eqn:Hxd; [|done].
    apply NoDup_cons. split; [|done].
    intros Hd. apply list_elem_of_omap in Hd as (y & Hy & Hyd).
    assert (x = y) by (apply (Hinj' x y d); [by left|by right|done|done]).
    by subst y. }
  fold h. rewrite Hlen.
  rewrite <- size_dom.
  rewrite <- (size_list_to_set (C := gset nat) (omap h Q)) by (by apply Hndl).
  f_equal. apply set_eq. intros d. rewrite elem_of_list_to_set, list_elem_of_omap.
  split.
  - intros (x & Hx & Hxd). by apply (Hheld x d).
  - intros Hd. by apply Hnoleak.
Qed.

Lemma rev_is_reverse (l : list nat) : rev l = reverse l.
Proof. apply rev_alt. Qed.

Lemma filter_length_ext (P1 P2 : nat -> Prop) `{!forall x, Decision (P1 x)}
    `{!forall x, Decision (P2 x)} (Q : list nat) :
  (forall x, x ∈ Q -> P1 x <-> P2 x) ->
  length (filter P1 Q) = length (filter P2 Q).
Proof.
  induction Q as [|x Q IH]; intros Hext; [done|].
  rewrite !filter_cons.
  assert (IH' : length (filter P1 Q) = length (filter P2 Q)).
  { apply IH. intros y Hy. apply Hext. by right. }
  destruct (decide (P1 x)) as [H1|H1], (decide (P2 x)) as [H2|H2]; simpl; try lia.
  - exfalso. apply H2. apply (Hext x); [by left|done].
  - exfalso. apply H1. apply (Hext x); [by left|done].
Qed.

Ltac closing_fields :=
  constructor;
  [ simpl; rewrite ?app_nil_r, <- ?app_assoc; done
  | simpl; done
  | dom_eq
  | done
  | intros ? ? ?; req_norm; goal_decide; nsubst; done
  | req_norm; goal_decide; nsubst; done
  | req_norm; goal_decide; nsubst; simpl; done ].

Section Closing.

Variable B : Z.
Hypothesis capacity_range : 0 < B < SIZE_MODULUS.
Variable fs : nat -> option (list Z).

Local Abbreviation ResA := (Res any_path any_file (any_block B)).
Local Abbreviation Core := (Core B).

(** The server handles the requests of the open stream that are in the
    mailbox before those that [close] sent. *)
Lemma closing_drain (rq o : nat) (l T X : list nat) :
  forall (M : list nat) (n : nat) (w g : World),
    closing rq o T X w g ->
    Core rq o l g ->
    ResA rq o l g ->
    state_ g rq ≠ STREAM_STATE_OPENING ->
    serverMailboxQueue_ g = M ->
    exists w' g',
      handleAllPendingRequests (length M + n) B fs w
      = handleAllPendingRequests n B fs w'
      /\ closing rq o T X w' g'
      /\ Core rq o l g'
      /\ ResA rq o l g'
      /\ state_ g' rq ≠ STREAM_STATE_OPENING
      /\ serverMailboxQueue_ g' = []
      /\ req w' o = req w o
      /\ requestType (req w' rq) = requestType (req w rq)
      /\ links_transit (req w' rq) = links_transit (req w rq)
      /\ req g' o = req g o
      /\ awaited g' rq = awaited g rq
      /\ dom (requests g') = dom (requests g).
Proof.
  induction M as [|r M IH]; intros n w g HG HC HR Hst HM0.
  { exists w, g. simpl. done. }
  destruct (closing_turn B _ _ _ rq o r l M T X (regular_os B fs w) w g HG HC HR Hst HM0)
    as (w1 & g1 & Hrun_w & Hrun_g & HM1 & HG1 & Ho1 & Hty1 & Hlt1 & Hgo1 & Hd1).
  destruct (handleOneRequest_Core B rq o l _ g g1 HC Hrun_g) as (HC1 & Hs1 & _).
  pose proof (handleOneRequest_Res B _ _ _ rq o l _ g g1 HC HR (os_ok_any B capacity_range _ _)
                Hrun_g) as HR1.
  destruct (handleOneRequest_queues B rq o r l M _ g g1 HC Hrun_g HM0) as (_ & HQ1 & Hty).
  destruct (IH n w1 g1 HG1 HC1 HR1 ltac:(by rewrite Hs1) HM1)
    as (w' & g' & Hrun & HG' & HC' & HR' & Hst' & HM' & Ho' & Hty' & Hlt' & Hgo' & Haw' & Hd').
  exists w', g'.
  split.
  { simpl. rewrite (clo_mailbox _ _ _ _ _ _ HG), HM0. simpl. rewrite Hrun_w. simpl. done. }
  split; [done|]. split; [done|]. split; [done|]. split; [done|]. split; [done|].
  split; [by rewrite Ho', Ho1|]. split; [by rewrite Hty', Hty1|].
  split; [by rewrite Hlt', Hlt1|]. split; [by rewrite Hgo', Hgo1|].
  split; [|by rewrite Hd', Hd1].
  rewrite Haw'. unfold awaited. rewrite HM1, HQ1, HM0.
  rewrite (awaited_filter_ext g g1 M).
  - rewrite (filter_cons _ r M), length_app.
    rewrite !filter_cons, filter_nil.
    destruct (decide _); simpl; lia.
  - intros x Hx. apply Hty. intros ->.
    pose proof (own_transit _ _ _ _ (core_own _ _ _ _ _ HC)) as Hnd.
    apply transit_facts in Hnd as (_ & HndM & _). rewrite HM0 in HndM.
    by apply NoDup_cons in HndM as [? _].
Qed.

(** What the replies in the result queue of a flushed stream hold. *)
Lemma flushed_results_hold (rq o f : nat) (w g : World) :
  Core rq o [] g ->
  ResA rq o [] g ->
  state_ g rq ≠ STREAM_STATE_OPENING ->
  serverMailboxQueue_ g = [] ->
  (forall f', fileHandle (req g o) = Some f' -> f' = f) ->
  dataBlocks w = dataBlocks g ->
  records_count f (fileRecords w) (size (dataBlocks g)) ->
  (forall x, x ≠ rq -> x ≠ o -> req w x = req g x) ->
  results_hold f w (queued g rq).
Proof.
  intros HC HR Hst HM Hf Hblocks Hcount Hreq.
  pose proof (own_transit _ _ _ _ (core_own _ _ _ _ _ HC)) as Hnd.
  apply transit_facts in Hnd as (_ & _ & HndQ & _).
  assert (Hq : forall x, x ∈ queued g rq ->
            x ≠ rq /\ x ≠ o /\ requestType (req g x) = READ_BLOCK
            /\ x ∈ in_use rq [] g).
  { intros x Hx. split.
    { intros ->. apply (own_root _ _ _ _ (core_own _ _ _ _ _ HC)). clear -Hx. set_solver. }
    split.
    { intros ->. apply (own_opened _ _ _ _ (core_own _ _ _ _ _ HC) Hst). clear -Hx.
      set_solver. }
    split.
    { by destruct (own_queue _ _ _ _ (core_own _ _ _ _ _ HC) x Hx) as [[_ ?]|[? _]]. }
    unfold in_use. clear -Hx. set_solver. }
  assert (Hsame : forall x, x ∈ queued g rq -> req w x = req g x).
  { intros x Hx. destruct (Hq x Hx) as (? & ? & _). by apply Hreq. }
  assert (Hhandle : forall x d, x ∈ queued g rq -> dataBlock (req g x) = Some d ->
            fileHandle (req g x) = Some f /\ d ∈ dom (dataBlocks g)).
  { intros x d Hx Hd. destruct (Hq x Hx) as (_ & _ & _ & Hin).
    destruct (res_held _ _ _ _ _ _ _ HR x d Hin Hd) as (blk & Hblk & _).
    assert (Hdom : d ∈ dom (dataBlocks g)) by (apply elem_of_dom; by exists blk).
    split; [|done].
    rewrite (res_handle _ _ _ _ _ _ _ HR x Hin).
    pose proof (res_files _ _ _ _ _ _ _ HR) as Hfiles.
    destruct (fileHandle (req g o)) as [f'|]; [by rewrite (Hf f' eq_refl)|].
    destruct Hfiles as [_ He]. rewrite He in Hdom. set_solver. }
  assert (Hheld : forall x, x ∈ queued g rq ->
            held_block (req w x) = dataBlock (req g x)
            /\ held_file (req w x)
               = if bool_decide (dataBlock (req g x) ≠ None) then fileHandle (req g x)
                 else None).
  { intros x Hx. rewrite (Hsame x Hx). destruct (Hq x Hx) as (_ & _ & Hty & _).
    unfold held_block, held_file. by rewrite Hty. }
  constructor.
  - done.
  - intros x Hx. right. rewrite (Hsame x Hx). by destruct (Hq x Hx) as (_ & _ & ? & _).
  - intros x f' Hx. destruct (Hheld x Hx) as [_ ->].
    destruct (dataBlock (req g x)) as [d|] eqn:Hd.
    + rewrite bool_decide_eq_true_2 by done.
      destruct (Hhandle x d Hx Hd) as [-> _]. congruence.
    + rewrite bool_decide_eq_false_2 by (by intros H). done.
  - intros x d Hx. destruct (Hheld x Hx) as [-> ->]. intros Hd.
    destruct (Hhandle x d Hx Hd) as [Hfh Hdom]. rewrite Hblocks. split; [done|].
    rewrite Hd, bool_decide_eq_true_2 by done. by rewrite Hfh.
  - intros x y d Hx Hy. destruct (Hheld x Hx) as [-> _]. destruct (Hheld y Hy) as [-> _].
    destruct (Hq x Hx) as (_ & _ & _ & Hxin). destruct (Hq y Hy) as (_ & _ & _ & Hyin).
    by apply (res_inj _ _ _ _ _ _ _ HR).
  - intros d Hd. rewrite Hblocks in Hd.
    destruct (res_noleak _ _ _ _ _ _ _ HR d Hd) as (x & Hx & Hxd).
    unfold in_use in Hx. rewrite HM in Hx. simpl in Hx.
    exists x. split; [done|]. by destruct (Hheld x Hx) as [-> _].
  - assert (Hrefs : file_references w (queued g rq) = size (dataBlocks g)).
    { unfold file_references.
      rewrite (filter_length_ext _ (fun x => dataBlock (req g x) ≠ None)).
      - apply holders_count.
        + done.
        + intros x d Hx Hd. by destruct (Hhandle x d Hx Hd).
        + intros x y d Hx Hy.
          destruct (Hq x Hx) as (_ & _ & _ & Hxin).
          destruct (Hq y Hy) as (_ & _ & _ & Hyin).
          by apply (res_inj _ _ _ _ _ _ _ HR).
        + intros d Hd. destruct (res_noleak _ _ _ _ _ _ _ HR d Hd) as (x & Hx & Hxd).
          unfold in_use in Hx. rewrite HM in Hx. simpl in Hx. by exists x.
      - intros x Hx. destruct (Hheld x Hx) as [_ ->].
        destruct (dataBlock (req g x)) as [d|] eqn:Hd.
        + rewrite bool_decide_eq_true_2 by done.
          destruct (Hhandle x d Hx Hd) as [-> _]. done.
        + rewrite bool_decide_eq_false_2 by (by intros H). done. }
    by rewrite Hrefs.
Qed.

(** The last turn of the server for a closed stream: the request to clean
    up the result queue, when [close] sent one. *)
Lemma cleanup_finish (rq o f : nat) (T_r X_r : list nat) (n : nat) (w g : World) :
  Core rq o [] g ->
  ResA rq o [] g ->
  state_ g rq ≠ STREAM_STATE_OPENING ->
  serverMailboxQueue_ g = [] ->
  Z.of_nat (size (requests g)) < SIZE_MODULUS ->
  (forall f', fileHandle (req g o) = Some f' -> f' = f) ->
  serverMailboxQueue_ w = T_r ->
  globalRequestPool_ w ≡ₚ X_r ++ o :: globalRequestPool_ g ->
  dom (requests w) = dom (requests g) ->
  dataBlocks w = dataBlocks g ->
  records_count f (fileRecords w) (size (dataBlocks g)) ->
  (forall x, x ≠ rq -> x ≠ o -> req w x = req g x) ->
  resultQueue (req w rq) = resultQueue (req g rq) ->
  (awaited g rq > 0 /\ T_r = [rq] /\ X_r = []
   /\ requestType (req w rq) = CLEANUP_RESULT_QUEUE
   \/ awaited g rq = 0 /\ T_r = [] /\ X_r = [rq]) ->
  (length T_r <= n)%nat ->
  exists w', handleAllPendingRequests n B fs w = Some w' /\ all_free w'.
Proof.
  intros HC HR Hst HM Hsize Hf HMw Hpool Hdom Hblocks Hcount Hreq Hqueue Htail Hn.
  pose proof (flushed_results_hold rq o f w g HC HR Hst HM Hf Hblocks Hcount Hreq) as HH.
  pose proof (own_transit _ _ _ _ (core_own _ _ _ _ _ HC)) as Hnd.
  rewrite HM in Hnd. simpl in Hnd.
  pose proof (own_root _ _ _ _ (core_own _ _ _ _ _ HC)) as Hroot.
  rewrite HM in Hroot. simpl in Hroot.
  pose proof (own_open_pool _ _ _ _ (core_own _ _ _ _ _ HC)) as Hopool.
  pose proof (own_opened _ _ _ _ (core_own _ _ _ _ _ HC) Hst) as Hoq.
  rewrite HM in Hoq. simpl in Hoq.
  pose proof (shape_open_ne _ _ _ _ _ (core_shape _ _ _ _ _ HC)) as Horq.
  pose proof (Core_dom_root _ _ _ _ _ HC) as [Hdrq Hdo].
  assert (Hcover : forall x, x ∈ dom (requests g) ->
            x = rq \/ x = o \/ x ∈ globalRequestPool_ g \/ x ∈ queued g rq).
  { intros x Hx. apply (res_cover _ _ _ _ _ _ _ HR) in Hx. unfold owned in Hx.
    rewrite HM in Hx. clear -Hx. set_solver. }
  assert (Haw : awaited g rq = Z.of_nat (length (queued g rq))).
  { unfold awaited. rewrite HM. simpl. done. }
  assert (Hqdom : forall x, x ∈ queued g rq -> x ∈ dom (requests g)).
  { intros x Hx. apply (core_dom _ _ _ _ _ HC). unfold owned. clear -Hx. set_solver. }
  assert (Hqlen : Z.of_nat (length (queued g rq)) < SIZE_MODULUS).
  { apply NoDup_app in Hnd as (_ & _ & HndQ).
    assert ((length (queued g rq) <= size (requests g))%nat); [|lia].
    rewrite <- size_dom.
    rewrite <- (size_list_to_set (C := gset nat) (queued g rq)) by done.
    apply subseteq_size. intros x Hx. apply elem_of_list_to_set in Hx. by apply Hqdom. }
  assert (Hexp : rq_expectedResultCount (resultQueue (req g rq))
                 = Z.of_nat (length (queued g rq))).
  { rewrite (res_expected _ _ _ _ _ _ _ HR), Haw. apply size_wrap_small. lia. }
  destruct Htail as [(Hpos & -> & -> & Hty)|(Hzero & -> & ->)].
  - (* the result queue was sent for cleanup *)
    destruct n as [|n]; [simpl in Hn; lia|].
    simpl. rewrite HMw. unfold handleOneRequest. rewrite HMw. cbv zeta.
    rewrite req_set_mailbox, Hty.
    unfold handleCleanupResultQueueRequest. rewrite req_set_mailbox, Hqueue, Hexp.
    rewrite bool_decide_eq_true_2 by lia.
    destruct (cleanupQueuedResults_frees rq f (queued g rq) (length (queued g rq))
                (Z.of_nat (length (queued g rq))) (set_mailbox [] w))
      as (w1 & Hrun & Hq1 & Hp1 & Hm1 & _ & Hd1 & Hb1 & Hf1).
    { rewrite req_set_mailbox, Hqueue, <- Hexp. unfold queued.
      by destruct (resultQueue (req g rq)). }
    { intros Hin. apply Hroot. apply elem_of_app. by right. }
    { simpl. by rewrite Hdom. }
    { intros x Hx. simpl. rewrite Hdom. by apply Hqdom. }
    { destruct HH. constructor; done. }
    { done. }
    fold (queued g rq). rewrite Hrun. simpl. rewrite Hq1. simpl.
    rewrite popped_count_exact by lia.
    rewrite bool_decide_eq_true_2 by lia.
    simpl.
    assert (Hend : serverMailboxQueue_ (freeFileIoRequest rq w1) = []).
    { simpl. by rewrite Hm1. }
    exists (freeFileIoRequest rq w1). split.
    { destruct n; simpl; rewrite Hm1; done. }
    split; [done|]. simpl. rewrite Hp1. simpl. simpl in Hpool.
    split.
    { rewrite rev_is_reverse, reverse_Permutation, Hpool.
      apply NoDup_app in Hnd as (HndP & Hdis & HndQ).
      apply NoDup_cons. split.
      { clear -Hroot Horq. intros [?|[?|?]%elem_of_cons]%elem_of_app; [|done|];
          apply Hroot; set_solver. }
      apply NoDup_app. split; [done|]. split.
      - intros x Hx [->|Hp]%elem_of_cons; [done|]. by apply (Hdis x).
      - by apply NoDup_cons. }
    split.
    { intros x Hx. rewrite Hd1 in Hx. simpl in Hx. rewrite Hdom in Hx.
      rewrite rev_is_reverse, reverse_Permutation, Hpool.
      destruct (Hcover x Hx) as [->|[->|[?|?]]]; set_solver. }
    done.
  - (* the stream awaited nothing: [close] freed the result queue *)
    assert (HQ : queued g rq = []).
    { destruct (queued g rq); [done|]. simpl in *. lia. }
    exists w. split.
    { destruct n; simpl; rewrite HMw; done. }
    split; [done|]. simpl in Hpool.
    assert (Hb : dataBlocks w = ∅).
    { apply dom_empty_inv_L. apply elem_of_equiv_empty_L. intros d Hd.
      destruct (rh_noleak _ _ _ HH d Hd) as (y & Hy & _). rewrite HQ in Hy.
      by apply elem_of_nil in Hy. }
    split.
    { rewrite Hpool. rewrite HQ, app_nil_r in Hnd, Hroot.
      apply NoDup_cons. split; [set_solver|]. apply NoDup_cons. done. }
    split.
    { intros x Hx. rewrite Hdom in Hx. rewrite Hpool.
      destruct (Hcover x Hx) as [->|[->|[?|Hq]]]; [set_solver..|].
      rewrite HQ in Hq. by apply elem_of_nil in Hq. }
    split; [done|].
    rewrite <- Hblocks, Hb in Hcount. by rewrite map_size_empty in Hcount.
Qed.

(** The turn of the server for the CLOSE_FILE request, when [close] sent
    one. *)
Lemma close_file_turn (rq o : nat) (T_o T_r X_o X_r : list nat) (n : nat) (w g : World) :
  closing rq o (T_o ++ T_r) (X_r ++ X_o) w g ->
  Core rq o [] g ->
  ResA rq o [] g ->
  serverMailboxQueue_ g = [] ->
  ((exists f, fileHandle (req g o) = Some f /\ T_o = [o] /\ X_o = []
              /\ requestType (req w o) = CLOSE_FILE /\ fileHandle (req w o) = Some f)
   \/ (fileHandle (req g o) = None /\ T_o = [] /\ X_o = [o])) ->
  exists w' f,
    handleAllPendingRequests (length T_o + n) B fs w = handleAllPendingRequests n B fs w'
    /\ (forall f', fileHandle (req g o) = Some f' -> f' = f)
    /\ serverMailboxQueue_ w' = T_r
    /\ globalRequestPool_ w' ≡ₚ X_r ++ o :: globalRequestPool_ g
    /\ dom (requests w') = dom (requests g)
    /\ dataBlocks w' = dataBlocks g
    /\ records_count f (fileRecords w') (size (dataBlocks g))
    /\ (forall x, x ≠ rq -> x ≠ o -> req w' x = req g x)
    /\ resultQueue (req w' rq) = resultQueue (req g rq)
    /\ requestType (req w' rq) = requestType (req w rq).
Proof.
  intros [Gm Gp Gd (Gh1 & Gh2 & Gh3 & Gh4) Gr Gq Gt] HC HR HM Ho.
  rewrite HM in Gm. simpl in Gm.
  pose proof (res_files _ _ _ _ _ _ _ HR) as Hfiles.
  destruct Ho as [(f & Hf & -> & -> & Hty & Hfw)|(Hf & -> & ->)].
  - rewrite Hf in Hfiles. destruct Hfiles as (rec & Hrec & _ & Hcnt).
    rewrite app_nil_r in Gp. simpl in Gm.
    assert (Hrun : handleOneRequest B (regular_os B fs w) w
                   = Some (freeFileIoRequest o
                             (set_fileRecords (released f (fileRecords g))
                                (nextFileRecord w) (set_mailbox T_r w)))).
    { unfold handleOneRequest. rewrite Gm. cbv zeta. rewrite req_set_mailbox, Hty.
      unfold handleCloseFileRequest. rewrite req_set_mailbox, Hfw. simpl.
      unfold releaseFileRecordClientRef, released. simpl. rewrite Gh3, Hrec.
      rewrite lookup_singleton_eq. simpl. by destruct (bool_decide _). }
    eexists _, f. split.
    { simpl. rewrite Gm, Hrun. simpl. reflexivity. }
    split; [congruence|]. split; [done|].
    split; [simpl; rewrite Gp; apply Permutation_middle|].
    split; [done|]. split; [done|].
    split.
    { simpl. apply records_count_released. exists rec. split; [done|]. lia. }
    split; [intros x Hx1 Hx2; by apply Gr|]. done.
  - rewrite Hf in Hfiles. destruct Hfiles as [Hrec Hblk].
    exists w, 0%nat. split; [done|]. split; [congruence|]. split; [by rewrite Gm|].
    split; [by rewrite Gp, <- app_assoc|]. split; [done|]. split; [done|].
    split; [rewrite Gh3, Hrec, Hblk, map_size_empty; done|]. done.
Qed.

Lemma awaited_bound (rq o : nat) (l : list nat) (g : World) :
  Core rq o l g ->
  Z.of_nat (size (requests g)) < SIZE_MODULUS ->
  0 <= awaited g rq < SIZE_MODULUS.
Proof.
  intros HC Hsize. unfold awaited. split; [lia|].
  pose proof (own_transit _ _ _ _ (core_own _ _ _ _ _ HC)) as Hnd.
  apply NoDup_app in Hnd as (_ & _ & Hnd).
  assert (Hsub : forall x, x ∈ serverMailboxQueue_ g ++ queued g rq -> x ∈ dom (requests g)).
  { intros x Hx. apply (core_dom _ _ _ _ _ HC). unfold owned. clear -Hx. set_solver. }
  assert (Hle : (length (serverMailboxQueue_ g ++ queued g rq) <= size (requests g))%nat).
  { rewrite <- size_dom.
    rewrite <- (size_list_to_set (C := gset nat) (serverMailboxQueue_ g ++ queued g rq))
      by done.
    apply subseteq_size. intros x Hx. apply elem_of_list_to_set in Hx. by apply Hsub. }
  rewrite length_app in Hle.
  pose proof (length_filter (fun x => requestType (req g x) ≠ RELEASE_READ_BLOCK)
                (serverMailboxQueue_ g)) as Hf.
  lia.
Qed.

(** [close] of a stream that is not opening: the prefetch queue is
    flushed; the OPEN_FILE node is sent as a CLOSE_FILE request when the
    file was opened and freed otherwise; the stream node is sent for the
    cleanup of its result queue when results are awaited and freed
    otherwise. *)
Lemma close_closing (rq o : nat) (l : list nat) (w : World) :
  Core rq o l w ->
  ResA rq o l w ->
  state_ w rq ≠ STREAM_STATE_OPENING ->
  Z.of_nat (size (requests w)) < SIZE_MODULUS ->
  exists w1 g T_o T_r X_o X_r,
    close rq w = Some w1
    /\ closing rq o (T_o ++ T_r) (X_r ++ X_o) w1 g
    /\ Core rq o [] g /\ ResA rq o [] g
    /\ state_ g rq ≠ STREAM_STATE_OPENING
    /\ dom (requests g) = dom (requests w)
    /\ ((exists f, fileHandle (req g o) = Some f /\ T_o = [o] /\ X_o = []
                   /\ requestType (req w1 o) = CLOSE_FILE
                   /\ fileHandle (req w1 o) = Some f)
        \/ (fileHandle (req g o) = None /\ T_o = [] /\ X_o = [o]))
    /\ (awaited g rq > 0 /\ T_r = [rq] /\ X_r = []
        /\ requestType (req w1 rq) = CLEANUP_RESULT_QUEUE
        \/ awaited g rq = 0 /\ T_r = [] /\ X_r = [rq]).
Proof.
  intros HC HR Hst Hsize.
  destruct (flushPrefetchQueue_Core B rq o l w HC Hst) as (g & Hflush & HCg & Hsg & _ & Hdg).
  pose proof (flushPrefetchQueue_Res B _ _ _ rq o l w g HC HR Hst Hflush) as HRg.
  pose proof (shape_open _ _ _ _ _ (core_shape _ _ _ _ _ HCg)) as Ho.
  pose proof (shape_open_ne _ _ _ _ _ (core_shape _ _ _ _ _ HCg)) as Horq.
  pose proof (Core_dom_root _ _ _ _ _ HCg) as [Hdrq Hdo].
  assert (Hstg : state_ g rq ≠ STREAM_STATE_OPENING) by (by rewrite Hsg).
  assert (Hnotag : requestType (req g rq) ≠ RESULT_QUEUE_IS_AWAITING_CLEANUP_).
  { pose proof (own_state _ _ _ _ (core_own _ _ _ _ _ HCg)) as Hs.
    unfold is_stream_state, state_ in Hs. intros Heq. rewrite Heq in Hs.
    by destruct Hs as [?|[?|[?|[?|[?|?]]]]]. }
  assert (Hbound : 0 <= awaited g rq < SIZE_MODULUS).
  { apply (awaited_bound rq o [] g HCg). by rewrite <- size_dom, Hdg, size_dom. }
  pose proof (res_expected _ _ _ _ _ _ _ HRg) as Hexp.
  rewrite size_wrap_small in Hexp by done.
  unfold close. rewrite bool_decide_eq_false_2 by done. rewrite Hflush. simpl.
  rewrite Ho. simpl.
  rewrite req_upd_req, decide_False by done.
  destruct (fileHandle (req g o)) as [f|] eqn:Hf.
  - rewrite !(bool_decide_eq_true_2 (Some f ≠ None)) by done.
    rewrite req_sendFileIoRequestToServer.
    rewrite (req_upd_req o rq), decide_False by done.
    rewrite (req_upd_req rq rq), decide_True by done. simpl. rewrite Hexp.
    destruct (bool_decide (awaited g rq > 0)) eqn:Haw.
    + apply bool_decide_eq_true in Haw.
      eexists _, g, [o], [rq], [], []. split; [reflexivity|].
      split.
      { closing_fields. }
      split; [done|]. split; [done|]. split; [done|]. split; [done|].
      split.
      { left. exists f. split; [done|]. split; [done|]. split; [done|].
        split; req_norm; goal_decide; nsubst; rewrite ?Hf; done. }
      left. split; [done|]. split; [done|]. split; [done|].
      req_norm. goal_decide; nsubst; done.
    + apply bool_decide_eq_false in Haw.
      eexists _, g, [o], [], [], [rq]. split; [reflexivity|].
      split.
      { closing_fields. }
      split; [done|]. split; [done|]. split; [done|]. split; [done|].
      split.
      { left. exists f. split; [done|]. split; [done|]. split; [done|].
        split; req_norm; goal_decide; nsubst; rewrite ?Hf; done. }
      right. split; [lia|]. done.
  - rewrite !(bool_decide_eq_false_2 (None ≠ None)) by (by intros H).
    rewrite req_freeFileIoRequest.
    rewrite (req_upd_req rq rq), decide_True by done. simpl. rewrite Hexp.
    destruct (bool_decide (awaited g rq > 0)) eqn:Haw.
    + apply bool_decide_eq_true in Haw.
      eexists _, g, [], [rq], [o], []. split; [reflexivity|].
      split.
      { closing_fields. }
      split; [done|]. split; [done|]. split; [done|]. split; [done|].
      split; [by right|].
      left. split; [done|]. split; [done|]. split; [done|].
      req_norm. goal_decide; nsubst; done.
    + apply bool_decide_eq_false in Haw.
      eexists _, g, [], [], [o], [rq]. split; [reflexivity|].
      split.
      { closing_fields. }
      split; [done|]. split; [done|]. split; [done|]. split; [done|].
      split; [by right|].
      right. split; [lia|]. done.
Qed.

(** [close] of a stream that is not opening, then the server's turn:
    everything is free again. *)
Lemma close_open_stream (rq o : nat) (l : list nat) (w : World) :
  Core rq o l w ->
  ResA rq o l w ->
  state_ w rq ≠ STREAM_STATE_OPENING ->
  Z.of_nat (size (requests w)) < SIZE_MODULUS ->
  exists w1 w2,
    close rq w = Some w1 /\ serve B fs w1 = Some w2 /\ all_free w2.
Proof.
  intros HC HR Hst Hsize.
  destruct (close_closing rq o l w HC HR Hst Hsize)
    as (w1 & g & T_o & T_r & X_o & X_r & Hclose & HG & HCg & HRg & Hstg & Hdg & Ho & Hr).
  exists w1.
  destruct (closing_drain rq o [] (T_o ++ T_r) (X_r ++ X_o) (serverMailboxQueue_ g)
              (length T_o + length T_r) w1 g HG HCg HRg Hstg eq_refl)
    as (w' & g' & Hrun1 & HG' & HCg' & HRg' & Hstg' & HMg' & Ho' & Hty' & _ & Hgo' & Haw'
        & Hdg').
  destruct (close_file_turn rq o T_o T_r X_o X_r (length T_r) w' g' HG' HCg' HRg' HMg')
    as (wa & f & Hrun2 & Hf & HMa & Hpa & Hda & Hba & Hca & Hra & Hqa & Htya).
  { rewrite Hgo', Ho'. done. }
  destruct (cleanup_finish rq o f T_r X_r (length T_r) wa g') as (w2 & Hrun3 & Hfree);
    try done.
  { rewrite <- size_dom, Hdg', Hdg, size_dom. done. }
  { rewrite Haw', Htya, Hty'. done. }
  exists w2. split; [done|]. split; [|done].
  unfold serve. rewrite (clo_mailbox _ _ _ _ _ _ HG), !length_app.
  by rewrite Hrun1, Hrun2.
Qed.

(** The turn of the server for the request to clean up a result queue that
    holds every result the stream awaited. *)
Lemma cleanup_turn (rq f : nat) (Q : list nat) (n : nat) (w : World) :
  serverMailboxQueue_ w = [rq] ->
  requestType (req w rq) = CLEANUP_RESULT_QUEUE ->
  resultQueue (req w rq) = ResultQueue Q (Z.of_nat (length Q)) ->
  0 < Z.of_nat (length Q) < SIZE_MODULUS ->
  rq ∈ dom (requests w) ->
  (forall x, x ∈ Q -> x ∈ dom (requests w)) ->
  results_hold f w Q ->
  NoDup (rq :: Q ++ globalRequestPool_ w) ->
  (forall x, x ∈ dom (requests w) -> x ∈ rq :: Q ++ globalRequestPool_ w) ->
  exists w', handleAllPendingRequests (S n) B fs w = Some w' /\ all_free w'.
Proof.
  intros HM Hty Hq Hlen Hdrq Hqdom HH Hnd Hcover.
  apply NoDup_cons in Hnd as [Hroot Hnd].
  simpl. rewrite HM. unfold handleOneRequest. rewrite HM. cbv zeta.
  rewrite req_set_mailbox, Hty.
  unfold handleCleanupResultQueueRequest. rewrite req_set_mailbox, Hq. simpl.
  rewrite bool_decide_eq_true_2 by lia.
  destruct (cleanupQueuedResults_frees rq f Q (length Q) (Z.of_nat (length Q))
              (set_mailbox [] w))
    as (w1 & Hrun & Hq1 & Hp1 & Hm1 & _ & Hd1 & Hb1 & Hf1); try done.
  { intros Hin. apply Hroot. apply elem_of_app. by left. }
  { destruct HH. constructor; done. }
  rewrite Hrun. simpl. rewrite Hq1. simpl.
  rewrite popped_count_exact by lia.
  rewrite bool_decide_eq_true_2 by lia.
  simpl.
  exists (freeFileIoRequest rq w1). split.
  { destruct n; simpl; rewrite Hm1; done. }
  split; [simpl; by rewrite Hm1|]. simpl. rewrite Hp1. simpl.
  split.
  { rewrite rev_is_reverse, reverse_Permutation. by apply NoDup_cons. }
  split.
  { intros x Hx. rewrite Hd1 in Hx. simpl in Hx.
    rewrite rev_is_reverse, reverse_Permutation. by apply Hcover. }
  done.
Qed.

(** [close] of a stream that is still opening, then the server's turn. *)
Lemma close_opening_stream (rq o : nat) (l : list nat) (w : World) :
  Core rq o l w ->
  ResA rq o l w ->
  state_ w rq = STREAM_STATE_OPENING ->
  exists w1 w2,
    close rq w = Some w1 /\ serve B fs w1 = Some w2 /\ all_free w2.
Proof.
  intros HC HR Hst.
  destruct (opening_in_flight B rq o l w HC Hst) as [-> Hcases].
  pose proof (own_transit _ _ _ _ (core_own _ _ _ _ _ HC)) as Hnd.
  pose proof (own_root _ _ _ _ (core_own _ _ _ _ _ HC)) as Hroot.
  pose proof (own_open_pool _ _ _ _ (core_own _ _ _ _ _ HC)) as Hopool.
  pose proof (own_open_type _ _ _ _ (core_own _ _ _ _ _ HC)) as Hoty.
  pose proof (own_open_ptr _ _ _ _ (core_own _ _ _ _ _ HC)) as Hoptr.
  pose proof (shape_open_ne _ _ _ _ _ (core_shape _ _ _ _ _ HC)) as Horq.
  pose proof (Core_dom_root _ _ _ _ _ HC) as [Hdrq Hdo].
  pose proof (res_expected _ _ _ _ _ _ _ HR) as Hexp.
  pose proof (res_files _ _ _ _ _ _ _ HR) as Hfiles.
  assert (Hblocks : dataBlocks w = ∅).
  { apply dom_empty_inv_L. apply elem_of_equiv_empty_L. intros d Hd.
    destruct (res_noleak _ _ _ _ _ _ _ HR d Hd) as (x & Hx & Hxd).
    assert (x = o) as ->.
    { unfold in_use in Hx. destruct Hcases as [[HM HQ]|[HM HQ]]; rewrite HM, HQ in Hx;
        set_solver. }
    rewrite (res_open_block _ _ _ _ _ _ _ HR) in Hxd. done. }
  assert (Hcover : forall x, x ∈ dom (requests w) ->
            x ∈ rq :: [o] ++ globalRequestPool_ w).
  { intros x Hx. apply (res_cover _ _ _ _ _ _ _ HR) in Hx. unfold owned in Hx.
    destruct Hcases as [[HM HQ]|[HM HQ]]; rewrite HM, HQ in Hx; clear -Hx; set_solver. }
  assert (Hndp : NoDup (rq :: [o] ++ globalRequestPool_ w)).
  { apply NoDup_cons. split.
    - intros [?|?]%elem_of_app; [set_solver|]. apply Hroot. set_solver.
    - simpl. apply NoDup_cons. split; [done|]. by apply NoDup_app in Hnd as [? _]. }
  assert (Hcnt : rq_expectedResultCount (resultQueue (req w rq)) = 1).
  { rewrite Hexp. unfold awaited.
    destruct Hcases as [[HM HQ]|[HM HQ]]; rewrite HM, HQ; simpl.
    - rewrite filter_cons_True by (by rewrite Hoty). done.
    - done. }
  unfold close. rewrite bool_decide_eq_true_2 by done.
  set (w1 := sendFileIoRequestToServer rq _).
  assert (Hrq1 : req w1 rq
                 = set_requestType CLEANUP_RESULT_QUEUE
                     (set_links_transit None (req w rq))).
  { unfold w1. req_norm. goal_decide; nsubst; done. }
  assert (Ho1 : req w1 o = req w o).
  { unfold w1. req_norm. goal_decide; nsubst; done. }
  assert (Hd1 : dom (requests w1) = dom (requests w)) by (unfold w1; dom_eq).
  exists w1.
  destruct Hcases as [[HM HQ]|[HM HQ]].
  - (* the OPEN_FILE request is in the mailbox *)
    assert (HM1 : serverMailboxQueue_ w1 = [o; rq]) by (unfold w1; simpl; by rewrite HM).
    destruct (res_open_sent _ _ _ _ _ _ _ HR) as [Hfh _]; [rewrite HM; by left|].
    rewrite Hfh in Hfiles. destruct Hfiles as [Hrec _].
    set (opened := regular_fopen fs (openMode (req w o)) (path (req w o))).
    set (handle := match opened with
                   | Some _ => Some (nextFileRecord w) | None => None end).
    assert (Hone : exists w2,
              handleOneRequest B (regular_os B fs w1) w1 = Some w2
              /\ serverMailboxQueue_ w2 = [rq]
              /\ globalRequestPool_ w2 = globalRequestPool_ w
              /\ dom (requests w2) = dom (requests w)
              /\ dataBlocks w2 = ∅
              /\ req w2 rq = set_resultQueue (ResultQueue [o] 1) (req w1 rq)
              /\ requestType (req w2 o) = OPEN_FILE
              /\ fileHandle (req w2 o) = handle
              /\ records_count (nextFileRecord w) (fileRecords w2)
                   (match handle with Some _ => 1%nat | None => 0%nat end)).
    { unfold handleOneRequest. rewrite HM1. cbv zeta. rewrite req_set_mailbox.
      rewrite Ho1, Hoty. cbv iota.
      unfold handleOpenFileRequest, regular_os. rewrite HM1. simpl os_new_ok.
      simpl os_fopen. simpl os_errno. rewrite Ho1. fold opened. unfold handle.
      assert (Hqueue : resultQueue (req w rq) = ResultQueue [] 1).
      { unfold queued in HQ. rewrite <- Hcnt, <- HQ. by destruct (resultQueue (req w rq)). }
      destruct opened as [bytes|] eqn:Hfs; cbv iota zeta.
      - heap_norm. simpl resultQueuePtr.
        change (req (set_fileRecords ?m ?k ?w0) ?x) with (req w0 x).
        heap_norm. rewrite Ho1, Hoptr. simpl.
        unfold completeRequestToClientResultQueue. heap_norm.
        change (req (set_fileRecords ?m ?k ?w0) ?x) with (req w0 x).
        heap_norm. rewrite Hrq1. simpl.
        eexists. split; [reflexivity|]. split; [done|]. split; [done|].
        split; [rewrite <- Hd1; dom_eq|]. split; [done|].
        split; [req_norm; goal_decide; nsubst; rewrite ?Hrq1; simpl; rewrite ?Hqueue; done|].
        split; [req_norm; goal_decide; nsubst; rewrite ?Ho1, ?Hoty; done|].
        split; [req_norm; goal_decide; nsubst; rewrite ?Ho1; done|].
        simpl. eexists. split; [by rewrite Hrec, insert_empty|]. done.
      - heap_norm. simpl resultQueuePtr. rewrite Ho1, Hoptr. simpl.
        unfold completeRequestToClientResultQueue. heap_norm. rewrite Hrq1. simpl.
        eexists. split; [reflexivity|]. split; [done|]. split; [done|].
        split; [rewrite <- Hd1; dom_eq|]. split; [done|].
        split; [req_norm; goal_decide; nsubst; rewrite ?Hrq1; simpl; rewrite ?Hqueue; done|].
        split; [req_norm; goal_decide; nsubst; rewrite ?Ho1, ?Hoty; done|].
        split; [req_norm; goal_decide; nsubst; rewrite ?Ho1; done|].
        simpl. done. }
    destruct Hone as (w2 & Hrun & HM2 & HP2 & Hd2 & Hb2 & Hrq2 & Hoty2 & Hfh2 & Hrec2).
    destruct (cleanup_turn rq (nextFileRecord w) [o] 0 w2) as (w3 & Hrun3 & Hfree);
      try done.
    + rewrite Hrq2, Hrq1. done.
    + rewrite Hrq2. done.
    + by rewrite Hd2.
    + intros x ->%list_elem_of_singleton. by rewrite Hd2.
    + constructor.
      * apply NoDup_singleton.
      * intros x ->%list_elem_of_singleton. by left.
      * intros x f' ->%list_elem_of_singleton. unfold held_file. rewrite Hoty2, Hfh2.
        unfold handle. destruct opened; congruence.
      * intros x d ->%list_elem_of_singleton. unfold held_block. by rewrite Hoty2.
      * intros x y d ->%list_elem_of_singleton ->%list_elem_of_singleton. done.
      * intros d Hd. rewrite Hb2 in Hd. set_solver.
      * unfold file_references. rewrite filter_cons, filter_nil.
        unfold held_file. rewrite Hoty2, Hfh2.
        destruct handle; simpl; exact Hrec2.
    + by rewrite HP2.
    + intros x Hx. rewrite HP2. apply Hcover. by rewrite <- Hd2.
    + exists w3. split; [done|]. split; [|done].
      unfold serve. rewrite HM1. simpl length.
      change (handleAllPendingRequests 2 B fs w1)
        with (match serverMailboxQueue_ w1 with
              | [] => Some w1
              | _ :: _ => handleOneRequest B (regular_os B fs w1) w1
                            ≫= handleAllPendingRequests 1 B fs
              end).
      rewrite HM1, Hrun. simpl mbind. exact Hrun3.
  - (* the reply to the OPEN_FILE request is in the result queue *)
    assert (HM1 : serverMailboxQueue_ w1 = [rq]) by (unfold w1; simpl; by rewrite HM).
    set (f := default 0%nat (fileHandle (req w o))).
    destruct (cleanup_turn rq f [o] 0 w1) as (w3 & Hrun3 & Hfree); try done.
    + by rewrite Hrq1.
    + rewrite Hrq1. change (Z.of_nat (length [o])) with 1. simpl.
      unfold queued in HQ. rewrite <- Hcnt, <- HQ.
      by destruct (resultQueue (req w rq)).
    + by rewrite Hd1.
    + intros x ->%list_elem_of_singleton. by rewrite Hd1.
    + constructor.
      * apply NoDup_singleton.
      * intros x ->%list_elem_of_singleton. left. by rewrite Ho1.
      * intros x f' ->%list_elem_of_singleton. unfold held_file. rewrite Ho1, Hoty.
        unfold f. by intros ->.
      * intros x d ->%list_elem_of_singleton. unfold held_block. by rewrite Ho1, Hoty.
      * intros x y d ->%list_elem_of_singleton ->%list_elem_of_singleton. done.
      * intros d Hd. change (dataBlocks w1) with (dataBlocks w) in Hd.
        rewrite Hblocks in Hd. set_solver.
      * unfold file_references. rewrite filter_cons, filter_nil.
        unfold held_file. rewrite Ho1, Hoty.
        change (fileRecords w1) with (fileRecords w). unfold f.
        destruct (fileHandle (req w o)) as [f0|].
        -- rewrite decide_True by done. simpl.
           destruct Hfiles as (rec & Hrec & _ & Hc). exists rec. split; [done|].
           rewrite Hc, Hblocks, map_size_empty. done.
        -- rewrite decide_False by (by intros H). simpl. by destruct Hfiles.
    + intros x Hx. apply Hcover. by rewrite <- Hd1.
    + exists w3. split; [done|]. split; [|done].
      unfold serve. rewrite HM1. exact Hrun3.
Qed.

End Closing.

(** ** Closing a stream frees everything *)

(** X22.  [close] leaks nothing.  In every reachable state of a stream (of
    a store of fewer than [2^64] nodes), whatever is in flight: [close]
    returns, and once the server, on a file system of regular files, has
    handled the requests in the mailbox, the mailbox is empty, every
    request node of the store is back in the pool, once, and the server
    holds no data block and no file record. *)
Theorem close_frees_everything (B : Z) (fs : nat -> option (list Z)) (rq : nat)
    (w : World) :
  0 < B < SIZE_MODULUS ->
  reachable B rq w ->
  Z.of_nat (size (requests w)) < SIZE_MODULUS ->
  exists w1 w2,
    close rq w = Some w1
    /\ serve B fs w1 = Some w2
    /\ serverMailboxQueue_ w2 = []
    /\ NoDup (globalRequestPool_ w2)
    /\ (forall x, x ∈ dom (requests w2) -> x ∈ globalRequestPool_ w2)
    /\ dataBlocks w2 = ∅
    /\ fileRecords w2 = ∅.
Proof.
  intros HB Hreach Hsize.
  destruct (reachable_Full B HB rq w Hreach) as (o & l & [HC _] & HR & _).
  destruct (decide (state_ w rq = STREAM_STATE_OPENING)) as [Hst|Hst].
  - destruct (close_opening_stream B HB fs rq o l w HC HR Hst) as (w1 & w2 & ? & ? & Hfree).
    by exists w1, w2.
  - destruct (close_open_stream B HB fs rq o l w HC HR Hst Hsize)
      as (w1 & w2 & ? & ? & Hfree).
    by exists w1, w2.
Qed.

Lemma close_frees_everything_witness :
  (0 < demo_capacity < SIZE_MODULUS)
  /\ reachable demo_capacity demo_stream (demo_replied 0)
  /\ Z.of_nat (size (requests (demo_replied 0))) < SIZE_MODULUS
  /\ size (dataBlocks (demo_replied 0)) = 20%nat
  /\ exists w1 w2,
       close demo_stream (demo_replied 0) = Some w1
       /\ serve demo_capacity demo_fs w1 = Some w2
       /\ serverMailboxQueue_ w2 = []
       /\ NoDup (globalRequestPool_ w2)
       /\ (forall x, x ∈ dom (requests w2) -> x ∈ globalRequestPool_ w2)
       /\ dataBlocks w2 = ∅
       /\ fileRecords w2 = ∅.
Proof.
  assert (HB : 0 < demo_capacity < SIZE_MODULUS) by (by vm_compute).
  assert (Hs : Z.of_nat (size (requests (demo_replied 0))) < SIZE_MODULUS)
    by (by vm_compute).
  split; [done|]. split; [apply reachable_demo_replied|]. split; [exact Hs|].
  split; [by vm_compute|].
  apply (close_frees_everything demo_capacity demo_fs demo_stream (demo_replied 0) HB
           reachable_demo_replied Hs).
Defined.

(** ** [read] returns *)


Section ReadReturns.

Variable B : Z.
Variable fs : nat -> option (list Z).
Variable bytes : list Z.
Hypothesis capacity_range : 0 < B < SIZE_MODULUS.
Hypothesis file_size : Z.of_nat (length bytes) <= LONG_MAX.

Local Abbreviation len := (Z.of_nat (length bytes)).
Local Abbreviation ResF := (Res (names_file fs bytes) (is_file bytes) (fseek_block B bytes)).
Local Abbreviation CursorF := (Cursor B len).
Local Abbreviation FullF :=
  (Full B (names_file fs bytes) (is_file bytes) (fseek_block B bytes) len).



End ReadReturns.


